(* ===== verification/_CoqProject ===== *)
-Q . S2P
Prelude.v
GoStrings.v
GoBase64.v
GoStrconv.v
GoValue.v
GoHttp.v
GoServer.v
Config.v
Types.v
Metrics.v
Server.v
Router.v
RouterSpec.v
RouterSim.v
NoAuth.v
GoOs.v
BasicAuth.v
BasicAuthProps.v
BasicAuthCache.v
Azure.v
AzureProps.v
GoUrl.v
Jwt.v
JwtProps.v
GoPath.v
FileCache.v
FileCacheProps.v
RegoCache.v
RegoCacheProps.v
App.v
AppProps.v
Lifecycle.v
LifecycleProps.v
RouterProps.v
PolicyInput.v
Concurrent.v
Program.v
Isolation.v
GoQuery.v
E2eBackend.v
E2eJwt.v
E2eHelpers.v
Hashing.v
