(* ===== verification/Prelude.v ===== *)
(** * rest-rego: a verified model of the policy-enforcing reverse proxy

    rest-rego is a sidecar: every HTTP request is authenticated by one of four
    providers, described to a Rego policy as JSON, and forwarded to the backend
    only if the policy's result allows it; the result's entries become
    [X-Restrego-*] request headers.  This library translates the Go code of
    that path into executable definitions and proves what the code promises,
    and where it does not keep a promise, exactly what it does instead.

    ** The program and its parts

<<
    cmd/main.go ── application.New ── config.New           flags and environment
                        │             regocache.New        compiled policies
                        │               └ filecache        files, watcher, timers
                        │             one AuthProvider     azure | jwt | basic | none
                        │             router.New           middleware chain
                        └ Run: regos.Watch, router.ListenAndServe, wait for a signal

    request ─ CleanupHandler ─ WrapHandler ─ metrics.Wrap ─ authHandler
            ─ policyHandler ─ Proxy.ServeHTTP ─ httputil.ReverseProxy ─ backend
>>

    The router is written against two interfaces, [types.AuthProvider] and
    [types.Validator].  They are the type classes of [Types]; [LawfulAuth] states
    what the router needs of a provider (it changes only the identity fields of
    the info) and each provider's file discharges it, so that the router's
    theorems hold for all four and for the assembled program.

    ** Files

    Language and standard library, as far as the sources use them:
    - [Prelude]: Go procedures as state passing with panics ([go]), start-up
      with [os.Exit] ([startup]), frame conditions ([preserves]), executions,
      the tactics and the hint database [rego];
    - [GoStrings]: package strings and unicode/utf8 on bytes, invalid UTF-8
      included; [GoBase64]: encoding/base64 and its round trip; [GoStrconv]:
      decimal integers of 64 bits;
    - [GoValue]: values behind [interface{}], errors, [fmt.Sprint];
    - [GoHttp]: header maps, the server's response writer, the header removal
      of the reverse proxy; [GoOs]: files, fsnotify events, bufio's line
      scanner; [GoUrl]: net/url and filepath.Clean for file URLs; [GoPath]:
      path.Match, Base and Join; [GoServer]: http.Server and http.Transport, their
      settings and a server's states; [GoQuery]: url.ParseQuery and ServeMux.

    The program (sources under src/):
    - [Config]: internal/config/config.go ([New] and the validators);
    - [Types]: internal/types ([NewInfo], [GetBearerToken],
      [TruncateURLForMetrics], the interfaces);
    - [Metrics]: the collectors of internal/metrics/metrics.go; [Server]: the
      store one request's handlers share ([World]), the [responseTracker] of
      internal/router/wrap.go and metrics.go's [Wrap];
    - [Router]: the handlers of internal/router and the chain [mux] that
      router.go's [New] installs; [RouterSpec]: the abstract decision
      [verdict_of] and the lemmas of the refinement; [RouterProps]: its
      properties; [RouterSim]: providers and validators that answer alike make
      chains that answer alike;
    - [NoAuth], [BasicAuth] (with [BasicAuthProps], [BasicAuthCache]), [Azure]
      (with [AzureProps]), [Jwt] (with [JwtProps]): the four providers;
    - [FileCache] (with [FileCacheProps]): pkg/filecache, its cache, watcher
      events, debouncing timers and spawned goroutines; [RegoCache] (with
      [RegoCacheProps]): pkg/regocache and the running program as a transition
      system ([step]) in which the two critical sections of [GetRego] and the
      registered callbacks interleave with everything else;
    - [App] (with [AppProps]): internal/application and cmd/main.go; the value
      of [app.auth] is modelled as Go's interface value, a dynamic type with a
      pointer that may be nil;
    - [Lifecycle] (with [LifecycleProps]): the process as a transition system:
      both servers, the policies' events, the signal, app.go's [Close] and the
      [Close] of router.go and rego.go, and the exit;
    - [PolicyInput]: what a policy is given, across the whole chain;
    - [Concurrent]: a request among other goroutines: the provider and the
      policy cache as the others change them before the request reaches them
      and, for the policy cache, between the two halves of its own [Validate];
      both implement the router's interfaces, so [mux] runs on them unchanged,
      and without other goroutines it does what it does alone; [Program]: the
      program from [App.New] to the backend; [Isolation]: requests do not
      disturb each other;
    - [E2eBackend], [E2eJwt], [E2eHelpers]: the backend and helper programs of
      e2e-tests, from their start to their end, and the JWT scenario composed
      from them and the program's parts; [Hashing]: tests/hashing.

    ** What is proved

    - The program as a whole, from start-up and among all its goroutines: what
      is behind a request that reached the backend, for any provider (C2), for
      strict JWT (C3), strict Basic (C4) and Azure (C5); a request is answered as
      if it were alone (C6).
    - The pipeline: [mux] implements the decision function [verdict_of] and
      relays the backend's answer (C1), the policy headers the backend sees are
      the policy's and never the client's (C7), the policy's input (C19), the
      metrics (C29), and that a policy header reaches the backend unless the
      client's Connection header names it (C40).
    - JWT: claims reach the policy only from a token verified with an issuer's
      keys for an audience (C8), strict mode accepts exactly those (C9), where
      keys come from (C18), what key completion does to shared keys (C28), the
      misaligned key list that panics (C27), the end-to-end scenario (C17).
    - Basic: the decision table (C14), the transparency of the password cache
      over any history (C11), the small-step goroutines refine the operations
      (C34) and the interleaving that breaks the cache's promise (C26), the
      loader (C32, C33), the password's removal (C20).
    - Azure: the decision table (C15), identities come from Graph, also when
      requests overlap (C12).
    - Policies: provenance of every policy in force under all interleavings
      (C13), failed reloads (C21), reloads (C22), the two ways a change is lost
      (C23, C24), missing files (C31), readiness (C36), debouncing (C35).
    - Start-up and data: accepted configurations (C38), one provider (C37), the
      nil-interface bug (C25), [NewInfo] (C30).
    - The process: when its end is graceful (C10), that it ends (C16), the
      timeouts in force (C39); further theorems of [LifecycleProps] show that a
      proxy that cannot bind goes unnoticed and that /config can crash.
    - The tests' programs, outside the numbered claims: the test backend's
      answers ([mounted_answers]), the helpers' end ([helper_ends_served],
      [helper_ends]), what the hash comparison measures
      ([benchmark_hashes_cache_text]).

    ** Bounds and fuel

    Recursion is structural except where a step consumes a variable number of
    bytes: [runes], [trim_left], [read_tokens] and [read_ranges] take the length
    of their input as fuel, and each step consumes at least one byte.  Nothing else has
    fuel.  The only size limit of the code, bufio.Scanner's 65536 bytes per
    line, is part of [scan_lines].  Durations are numbers of nanoseconds (Z, in
    the configuration) or milliseconds (N, timers); they are only compared and
    added, far from the limits of int64.

    ** Parameters

    Code that is not in the repository is an argument or a type class, with the
    documented behaviour a theorem needs as a law or hypothesis, and with a
    concrete instance in the witnesses: the Unicode case tables ([Unicode]),
    the URL authority's syntax ([UrlAuthority]), bcrypt ([Bcrypt]), maphash
    ([Maphash]), ristretto ([Cache], [LawfulCache]), go-cache ([AppCache],
    [LawfulAppCache]), jwx ([InsecureJwt], [Jwk], [Jwt], [HelperCrypto]), the network ([Graph],
    [Net]), OPA and envsubst ([Opa], [Envsubst]), the backend's replies, chi's
    route matching and the label check of Prometheus.  The caches may drop
    entries at any time; that is a step of the histories.  The key cache of jwx
    is taken to run, on every set it fetches from a URL, the post-fetcher last
    registered for it.

    ** Where the repository's documents disagree

    The theorems state what the code does.  C10: the shutdown may take 90
    seconds, .specs/PRD.md allows 30.  C14: a permissive request with an unknown
    Basic user keeps its request.auth, docs/PERMISSIVE.md makes it null.  C15: an
    Azure token of an unknown application is answered with 503 in both modes,
    docs/PERMISSIVE.md has 401 or anonymous; and docs/AZURE.md refuses missing
    tokens in strict mode, which the code lets through as anonymous.  C17: so
    does the JWT provider, where .specs/PRD-e2e-tests.md expects a 401.

    ** What is not modelled

    Logging and debug output; the version string, an embedded file; of
    httputil's reverse proxy the headers it adds (X-Forwarded-For, User-Agent)
    and 101 upgrades, so that the theorems on answers are for the other statuses;
    the metrics exposition format; HTTP bodies as streams; memory limits.  The
    profiling server is started only under a build tag and is net/http's own.
    Of the process's time only the order of steps and the deadlines of shutdown
    are modelled.  A request's own data belong to its goroutine alone; what
    requests share is interleaved: the password cache ([BasicAuthCache]), the
    policy cache ([RegoCache], [Concurrent]), the application cache
    ([AzureProps]), the provider as a whole ([Concurrent], one call at a time)
    and the map that /config reads ([Lifecycle]).  Prometheus's collectors are
    atomic and are the request's own in [World].

    ** Open

    The provider's calls split into their steps within [Concurrent], so that C4
    and C5 also cover the interleavings of [BasicAuthCache] and [AzureProps];
    the JWKS cache's refresh within one call. *)

From stdpp Require Export base tactics option list gmap strings fin_maps.
From Stdlib Require Export ZArith NArith Lia.
From Stdlib Require Ascii String.
Export (notations) Stdlib.Strings.Ascii.

Abbreviation ascii := Ascii.ascii.

(** ** Go procedures: explicit state and panics

    A Go call that reads and writes the state [S] and may panic is a function
    from the state to an outcome and the state it leaves behind; a panic keeps
    the writes made before it, as in Go. *)

Inductive outcome (A : Type) : Type :=
| Done (a : A)
| Panic (why : string).
Arguments Done {A} a.
Arguments Panic {A} why.

Definition go (S A : Type) : Type := S → outcome A * S.

Section go_monad.
Context {S : Type}.

#[export] Instance go_ret : MRet (go S) := λ A a s, (Done a, s).

#[export] Instance go_bind : MBind (go S) := λ A B f m s,
  match m s with
  | (Done a, s') => f a s'
  | (Panic w, s') => (Panic w, s')
  end.

Definition go_get : go S S := λ s, (Done s, s).
Definition go_put (s : S) : go S unit := λ _, (Done tt, s).
Definition go_gets {A} (f : S → A) : go S A := λ s, (Done (f s), s).
Definition go_modify (f : S → S) : go S unit := λ s, (Done tt, f s).
Definition go_outcome {A} (o : outcome A) : go S A := λ s, (o, s).
Definition go_panic {A} (w : string) : go S A := λ s, (Panic w, s).

(** Loop over a list in order, as [for _, x := range l]. *)
Fixpoint go_iter {A} (f : A → go S unit) (l : list A) : go S unit :=
  match l with
  | [] => mret tt
  | x :: l' => f x ;; go_iter f l'
  end.

(** [defer]: the modification runs on every way out. *)
Definition go_defer {A} (f : S → S) (m : go S A) : go S A := λ s,
  let '(o, s') := m s in (o, f s').

Lemma go_bind_done {A B} (m : go S A) (f : A → go S B) s a s' :
  m s = (Done a, s') → (m ≫= f) s = f a s'.
Proof. intros H. unfold mbind, go_bind. by rewrite H. Qed.

Lemma go_bind_panic {A B} (m : go S A) (f : A → go S B) s w s' :
  m s = (Panic w, s') → (m ≫= f) s = (Panic w, s').
Proof. intros H. unfold mbind, go_bind. by rewrite H. Qed.

Lemma go_bind_assoc {A B C} (m : go S A) (f : A → go S B) (g : B → go S C) s :
  ((m ≫= f) ≫= g) s = (m ≫= (λ a, f a ≫= g)) s.
Proof. unfold mbind, go_bind. by destruct (m s) as [[] ?]. Qed.

(** A procedure made of modifications only is the fold of them. *)
Lemma go_iter_modify {A} (g : A → S → S) (l : list A) s :
  go_iter (λ x, go_modify (g x)) l s = (Done tt, foldl (λ s x, g x s) s l).
Proof. revert s. induction l as [|x l IH]; intros s; [done|]. apply IH. Qed.
End go_monad.

(** Evaluate the procedure in the goal: unfold the monad's operations. *)
Ltac go_unfold :=
  unfold mbind, go_bind, mret, go_ret, go_get, go_put, go_gets, go_modify,
    go_panic in *.
Ltac go_simpl := go_unfold; simpl in *.

(** ** What a procedure leaves alone *)

(** Every run of [m], panics included, relates the state before and after. *)
Definition preserves {S A} (R : relation S) (m : go S A) : Prop :=
  ∀ s, R s (m s).2.

Section preserves.
Context {S : Type} (R : relation S) `{!PreOrder R}.

Lemma preserves_ret {A} (a : A) : preserves R (mret a).
Proof. intros s. reflexivity. Qed.

Lemma preserves_gets {A} (f : S → A) : preserves R (go_gets f).
Proof. intros s. reflexivity. Qed.

Lemma preserves_panic {A} w : preserves R (@go_panic S A w).
Proof. intros s. reflexivity. Qed.

Lemma preserves_bind {A B} (m : go S A) (f : A → go S B) :
  preserves R m → (∀ a, preserves R (f a)) → preserves R (m ≫= f).
Proof.
  intros Hm Hf s. unfold mbind, go_bind. specialize (Hm s).
  destruct (m s) as [[a|w] s']; simpl in *; [|done]. etrans; [done|apply Hf].
Qed.

Lemma preserves_iter {A} (f : A → go S unit) l :
  (∀ a, preserves R (f a)) → preserves R (go_iter f l).
Proof.
  intros Hf. induction l as [|a l IH]; simpl; [apply preserves_ret|].
  by apply preserves_bind.
Qed.

Lemma preserves_modify (f : S → S) : (∀ s, R s (f s)) → preserves R (go_modify f).
Proof. intros Hf s. apply Hf. Qed.
End preserves.

(** ** Procedures on related states *)

(** From related states, the same outcome and related states. *)
Definition simulates {S1 S2 A} (R : S1 → S2 → Prop) (m1 : go S1 A) (m2 : go S2 A) : Prop :=
  ∀ s1 s2, R s1 s2 → (m1 s1).1 = (m2 s2).1 ∧ R (m1 s1).2 (m2 s2).2.

Section simulates.
Context {S1 S2 : Type} (R : S1 → S2 → Prop).

Lemma simulates_ret {A} (a : A) : simulates R (mret a) (mret a).
Proof. by intros s1 s2 Hs. Qed.

Lemma simulates_panic {A} w : simulates R (@go_panic S1 A w) (@go_panic S2 A w).
Proof. by intros s1 s2 Hs. Qed.

Lemma simulates_gets {A} (f1 : S1 → A) f2 :
  (∀ s1 s2, R s1 s2 → f1 s1 = f2 s2) → simulates R (go_gets f1) (go_gets f2).
Proof. intros Hf s1 s2 Hs. split; [|done]. simpl. f_equal. by apply Hf. Qed.

Lemma simulates_modify f1 f2 :
  (∀ s1 s2, R s1 s2 → R (f1 s1) (f2 s2)) → simulates R (go_modify f1) (go_modify f2).
Proof. intros Hf s1 s2 Hs. split; [done|]. by apply Hf. Qed.

Lemma simulates_bind {A B} (m1 : go S1 A) m2 (f1 : A → go S1 B) f2 :
  simulates R m1 m2 → (∀ a, simulates R (f1 a) (f2 a)) → simulates R (m1 ≫= f1) (m2 ≫= f2).
Proof.
  intros Hm Hf s1 s2 Hs. specialize (Hm s1 s2 Hs). unfold mbind, go_bind.
  destruct (m1 s1) as [o1 s1'], (m2 s2) as [o2 s2'], Hm as [E Hs']. simpl in *.
  subst o2. destruct o1 as [a|w]; [by apply Hf|done].
Qed.

(** A value read from the state may differ, as long as what is made of it does
    not. *)
Lemma simulates_gets_bind {A1 A2 B} (f1 : S1 → A1) (f2 : S2 → A2)
    (k1 : A1 → go S1 B) (k2 : A2 → go S2 B) :
  (∀ s1 s2, R s1 s2 → simulates R (k1 (f1 s1)) (k2 (f2 s2))) →
  simulates R (go_gets f1 ≫= k1) (go_gets f2 ≫= k2).
Proof. intros Hk s1 s2 Hs. by apply (Hk s1 s2 Hs s1 s2). Qed.

Lemma simulates_iter {A} (f1 : A → go S1 unit) f2 l :
  (∀ a, simulates R (f1 a) (f2 a)) → simulates R (go_iter f1 l) (go_iter f2 l).
Proof.
  intros Hf. induction l as [|a l IH]; simpl; [apply simulates_ret|].
  by apply simulates_bind.
Qed.
End simulates.

(** ** Start-up procedures: os.Exit and panics end the process *)

Inductive startup (A : Type) : Type :=
| Started (a : A)
| Exited (code : Z)
| Crashed (why : string).
Arguments Started {A} a.
Arguments Exited {A} code.
Arguments Crashed {A} why.

#[export] Instance startup_ret : MRet startup := @Started.
#[export] Instance startup_bind : MBind startup := λ A B f m,
  match m with
  | Started a => f a
  | Exited c => Exited c
  | Crashed w => Crashed w
  end.

(** [if b { os.Exit(code) }]. *)
Definition exit_if (b : bool) (code : Z) : startup unit :=
  if b then Exited code else Started tt.

Lemma exit_if_started b c u : exit_if b c = Started u ↔ b = false.
Proof. destruct b, u; simpl; split; congruence. Qed.

Lemma startup_bind_started {A B} (m : startup A) (f : A → startup B) b :
  (m ≫= f) = Started b ↔ ∃ a, m = Started a ∧ f a = Started b.
Proof.
  destruct m; unfold mbind; simpl; split.
  2: by intros (? & [= ->] & ?).
  all: intros; destruct_and?; repeat (case_match || destruct_or?); eauto;
    match goal with H : ∃ _, _ |- _ => destruct H; destruct_and!; done | _ => done end.
Qed.

Lemma startup_seq_started {B} (m : startup unit) (k : startup B) b :
  (m ;; k) = Started b ↔ m = Started tt ∧ k = Started b.
Proof.
  rewrite startup_bind_started. split; [intros ([] & ?); done|]. intros. by exists tt.
Qed.

(** ** Automation *)

Create HintDb rego.
Create Rewrite HintDb rego.

#[export] Hint Resolve preserves_ret preserves_gets preserves_panic preserves_bind
  preserves_iter preserves_modify : rego.
#[export] Hint Resolve simulates_ret simulates_panic simulates_bind simulates_iter : rego.

(** Split the goal's [match]es, keeping the equations, and clean up. *)
Ltac cases :=
  repeat (case_match; simplify_eq/=; try done).

(** Boolean tests of the code as propositions. *)
Ltac bool_prop :=
  repeat match goal with
  | H : (_ && _)%bool = true |- _ => apply andb_true_iff in H; destruct H
  | H : (_ || _)%bool = false |- _ => apply orb_false_iff in H; destruct H
  | H : negb _ = true |- _ => apply negb_true_iff in H
  | H : negb _ = false |- _ => apply negb_false_iff in H
  | H : (_ <? _)%N = true |- _ => apply N.ltb_lt in H
  | H : (_ <? _)%N = false |- _ => apply N.ltb_ge in H
  | H : (_ <=? _)%N = true |- _ => apply N.leb_le in H
  | H : (_ <=? _)%N = false |- _ => apply N.leb_gt in H
  | H : (_ =? _)%N = true |- _ => apply N.eqb_eq in H
  | H : (_ =? _)%N = false |- _ => apply N.eqb_neq in H
  | H : (_ <? _)%Z = true |- _ => apply Z.ltb_lt in H
  | H : (_ <? _)%Z = false |- _ => apply Z.ltb_ge in H
  | H : (_ <=? _)%Z = true |- _ => apply Z.leb_le in H
  | H : (_ <=? _)%Z = false |- _ => apply Z.leb_gt in H
  | H : (_ =? _)%Z = true |- _ => apply Z.eqb_eq in H
  | H : (_ =? _)%Z = false |- _ => apply Z.eqb_neq in H
  | H : String.eqb _ _ = true |- _ => apply String.eqb_eq in H
  | H : String.eqb _ _ = false |- _ => apply String.eqb_neq in H
  | H : Ascii.eqb _ _ = true |- _ => apply Ascii.eqb_eq in H
  | H : Ascii.eqb _ _ = false |- _ => apply Ascii.eqb_neq in H
  end.

(** ** Lists *)

Lemma map_id_on {A} (f : A → A) (l : list A) :
  (∀ x, x ∈ l → f x = x) → map f l = l.
Proof.
  intros Hf. induction l as [|x l IH]; [done|]. simpl. f_equal.
  - apply Hf. by left.
  - apply IH. intros y Hy. apply Hf. by right.
Qed.

(** ** Transition sequences *)

Section steps.
Context {St Ev : Type} (step : St → Ev → St → Prop).

(** Executions: a finite sequence of labelled steps. *)
Inductive execution : St → list Ev → St → Prop :=
| execution_nil s : execution s [] s
| execution_cons s e s' l s'' :
    step s e s' → execution s' l s'' → execution s (e :: l) s''.

Lemma execution_app s l s' l' s'' :
  execution s l s' → execution s' l' s'' → execution s (l ++ l') s''.
Proof. induction 1; simpl; eauto using execution. Qed.

(** Rule induction on executions: what every step keeps holds at the end. *)
Lemma execution_invariant (I : St → Prop) :
  (∀ s e s', step s e s' → I s → I s') →
  ∀ s l s', execution s l s' → I s → I s'.
Proof. intros Hstep. induction 1; eauto. Qed.
End steps.
