(* ===== verification/GoStrings.v ===== *)
(** * Go's [strings] and [unicode/utf8], as far as rest-rego uses them

    A Go string is a sequence of bytes: [string], one [ascii] per byte.  The
    functions are those of the standard library on every input, invalid UTF-8
    included.  The case tables of package [unicode] are the class [Unicode]:
    their ASCII rows are laws, the others are data of the instance. *)

From S2P Require Import Prelude.

Local Open Scope N_scope.

Abbreviation byte := Ascii.N_of_ascii.

(** A string from byte values. *)
Definition bs (l : list N) : string :=
  foldr (λ n s, String (Ascii.ascii_of_N n) s) EmptyString l.

(** ** Bytes, prefixes, splitting *)

(** The double quote. *)
Definition quote : string := bs [0x22].

Fixpoint byte_in (c : ascii) (s : string) : bool :=
  match s with
  | EmptyString => false
  | String x r => Ascii.eqb x c || byte_in c r
  end.

Fixpoint all_bytes (p : ascii → bool) (s : string) : bool :=
  match s with
  | EmptyString => true
  | String x r => p x && all_bytes p r
  end.

(** [strings.HasPrefix]; its witness is the rest of the string. *)
Fixpoint cut_prefix (p s : string) : option string :=
  match p, s with
  | EmptyString, _ => Some s
  | String a p', String b s' => if Ascii.eqb a b then cut_prefix p' s' else None
  | String _ _, EmptyString => None
  end.

Definition HasPrefix (s p : string) : bool :=
  match cut_prefix p s with Some _ => true | None => false end.

(** [strings.TrimPrefix]. *)
Definition TrimPrefix (s p : string) : string :=
  match cut_prefix p s with Some r => r | None => s end.

(** The string before and after the first byte [c]: [strings.IndexByte] with
    the two slices its callers take, and [strings.SplitN(s, c, 2)]. *)
Fixpoint cut_byte (c : ascii) (s : string) : option (string * string) :=
  match s with
  | EmptyString => None
  | String x r =>
      if Ascii.eqb x c then Some (EmptyString, r)
      else match cut_byte c r with
           | Some (a, b) => Some (String x a, b)
           | None => None
           end
  end.

Definition SplitN2 (s : string) (c : ascii) : list string :=
  match cut_byte c s with
  | Some (a, b) => [a; b]
  | None => [s]
  end.

(** [strings.Split] with a one-byte separator. *)
Fixpoint Split (s : string) (c : ascii) : list string :=
  match s with
  | EmptyString => [EmptyString]
  | String x r =>
      if Ascii.eqb x c then EmptyString :: Split r c
      else match Split r c with
           | h :: t => String x h :: t
           | [] => [String x EmptyString]
           end
  end.

(** [strings.Join]. *)
Fixpoint Join (l : list string) (sep : string) : string :=
  match l with
  | [] => EmptyString
  | [x] => x
  | x :: l' => x +:+ sep +:+ Join l' sep
  end.

(** [strings.Contains]. *)
Fixpoint Contains (s sub : string) : bool :=
  HasPrefix s sub
  || match s with EmptyString => false | String _ r => Contains r sub end.

(** [strings.ReplaceAll] of one byte by another. *)
Fixpoint ReplaceAll (s : string) (old new : ascii) : string :=
  match s with
  | EmptyString => EmptyString
  | String x r => String (if Ascii.eqb x old then new else x) (ReplaceAll r old new)
  end.

(** ** UTF-8 *)

Definition RuneError : N := 0xFFFD.

Definition in_range (c : ascii) (lo hi : N) : bool :=
  (lo <=? byte c) && (byte c <=? hi).

(** [utf8.DecodeRuneInString]: the first rune and the bytes after it; an
    invalid or truncated sequence is [RuneError] and one byte. *)
Definition DecodeRune (s : string) : option (N * string) :=
  match s with
  | EmptyString => None
  | String c0 r =>
      let b0 := byte c0 in
      if b0 <? 0x80 then Some (b0, r)
      else if in_range c0 0xC2 0xDF then
        match r with
        | String c1 r1 =>
            if in_range c1 0x80 0xBF
            then Some ((b0 - 0xC0) * 64 + (byte c1 - 0x80), r1)
            else Some (RuneError, r)
        | _ => Some (RuneError, r)
        end
      else if in_range c0 0xE0 0xEF then
        let lo := if b0 =? 0xE0 then 0xA0 else 0x80 in
        let hi := if b0 =? 0xED then 0x9F else 0xBF in
        match r with
        | String c1 (String c2 r2) =>
            if in_range c1 lo hi && in_range c2 0x80 0xBF
            then Some ((b0 - 0xE0) * 4096 + (byte c1 - 0x80) * 64
                       + (byte c2 - 0x80), r2)
            else Some (RuneError, r)
        | _ => Some (RuneError, r)
        end
      else if in_range c0 0xF0 0xF4 then
        let lo := if b0 =? 0xF0 then 0x90 else 0x80 in
        let hi := if b0 =? 0xF4 then 0x8F else 0xBF in
        match r with
        | String c1 (String c2 (String c3 r3)) =>
            if in_range c1 lo hi && in_range c2 0x80 0xBF && in_range c3 0x80 0xBF
            then Some ((b0 - 0xF0) * 262144 + (byte c1 - 0x80) * 4096
                       + (byte c2 - 0x80) * 64 + (byte c3 - 0x80), r3)
            else Some (RuneError, r)
        | _ => Some (RuneError, r)
        end
      else Some (RuneError, r)
  end.

(** [utf8.AppendRune]. *)
Definition EncodeRune (r : N) : string :=
  if r <? 0x80 then bs [r]
  else if r <? 0x800 then bs [0xC0 + r / 64; 0x80 + r mod 64]
  else if ((0xD800 <=? r) && (r <=? 0xDFFF)) || (0x10FFFF <? r)
  then bs [0xEF; 0xBF; 0xBD]
  else if r <? 0x10000
  then bs [0xE0 + r / 4096; 0x80 + r / 64 mod 64; 0x80 + r mod 64]
  else bs [0xF0 + r / 262144; 0x80 + r / 4096 mod 64; 0x80 + r / 64 mod 64;
           0x80 + r mod 64].

(** The runes of [for _, r := range s]; each consumes at least a byte, so the
    length is enough fuel ([runes_fuel_enough]). *)
Fixpoint runes_fuel (n : nat) (s : string) : list N :=
  match n with
  | O => []
  | S n' =>
      match DecodeRune s with
      | None => []
      | Some (r, s') => r :: runes_fuel n' s'
      end
  end.

Definition runes (s : string) : list N := runes_fuel (String.length s) s.

(** ** Case mapping and folding *)

Definition upper_rune (r : N) : bool := (0x41 <=? r) && (r <=? 0x5A).
Definition lower_rune (r : N) : bool := (0x61 <=? r) && (r <=? 0x7A).
Definition ascii_ToLower (r : N) : N := if upper_rune r then r + 32 else r.

(** The two letters with a non-ASCII rune in their folding orbit: K (Kelvin
    sign) and S (long s). *)
Definition mixed_fold (a r : N) : bool :=
  (((a =? 0x4B) || (a =? 0x6B)) && (r =? 0x212A))
  || (((a =? 0x53) || (a =? 0x73)) && (r =? 0x17F)).

(** The tables of package [unicode]: [unicode.ToLower], and "the second rune is
    in the [unicode.SimpleFold] orbit of the first". *)
Class Unicode := {
  unicode_ToLower : N → N;
  unicode_SameFold : N → N → bool;
  unicode_ToLower_ascii r : r < 0x80 → unicode_ToLower r = ascii_ToLower r;
  unicode_SameFold_ascii a r :
    a < 0x80 → 0x80 ≤ r → unicode_SameFold a r = mixed_fold a r
}.

(** [strings.ToLower]. *)
Definition ToLower `{Unicode} (s : string) : string :=
  foldr (λ r acc, EncodeRune (unicode_ToLower r) +:+ acc) EmptyString (runes s).

Definition fold_rune `{Unicode} (a b : N) : bool :=
  (a =? b)
  || (let lo := N.min a b in let hi := N.max a b in
      if hi <? 0x80 then upper_rune lo && (hi =? lo + 32)
      else unicode_SameFold lo hi).

Fixpoint fold_runes `{Unicode} (l1 l2 : list N) : bool :=
  match l1, l2 with
  | [], [] => true
  | a :: l1', b :: l2' => fold_rune a b && fold_runes l1' l2'
  | _, _ => false
  end.

(** [strings.EqualFold]. *)
Definition EqualFold `{Unicode} (s t : string) : bool :=
  fold_runes (runes s) (runes t).

(** ** White space *)

(** The UTF-8 encodings of the runes [unicode.IsSpace] accepts. *)
Definition space_seqs : list string :=
  map bs ([[0x09]; [0x0A]; [0x0B]; [0x0C]; [0x0D]; [0x20]; [0xC2; 0x85];
           [0xC2; 0xA0]; [0xE1; 0x9A; 0x80]]
          ++ map (λ b, [0xE2; 0x80; b])
               [0x80; 0x81; 0x82; 0x83; 0x84; 0x85; 0x86; 0x87; 0x88; 0x89;
                0x8A; 0xA8; 0xA9; 0xAF]
          ++ [[0xE2; 0x81; 0x9F]; [0xE3; 0x80; 0x80]]).

Fixpoint cut_any (ps : list string) (s : string) : option string :=
  match ps with
  | [] => None
  | p :: ps' =>
      match cut_prefix p s with Some r => Some r | None => cut_any ps' s end
  end.

Fixpoint trim_left (n : nat) (ps : list string) (s : string) : string :=
  match n with
  | O => s
  | S n' => match cut_any ps s with Some r => trim_left n' ps r | None => s end
  end.

(** [strings.TrimSpace] (and [bytes.TrimSpace]): the space runes are removed
    from the left, then from the right, where a rune is recognised by its
    encoding read backwards. *)
Definition TrimSpace (s : string) : string :=
  let l := trim_left (String.length s) space_seqs s in
  String.rev (trim_left (String.length l) (map String.rev space_seqs)
                (String.rev l)).

(** ** Lemmas *)

Lemma append_nil_r s : s +:+ "" = s.
Proof. induction s as [|c s IH]; [done|]. unfold String.append; fold String.append. by rewrite IH. Qed.

Lemma append_cons c s t : String c s +:+ t = String c (s +:+ t).
Proof. done. Qed.

Lemma append_assoc s t u : (s +:+ t) +:+ u = s +:+ t +:+ u.
Proof. induction s as [|c s IH]; [done|]. by rewrite !append_cons, IH. Qed.

Lemma length_append s t :
  String.length (s +:+ t) = (String.length s + String.length t)%nat.
Proof. induction s as [|c s IH]; [done|]. rewrite append_cons. simpl. by rewrite IH. Qed.

Lemma byte_in_append c s t : byte_in c (s +:+ t) = byte_in c s || byte_in c t.
Proof.
  induction s as [|x s IH]; [done|]. rewrite append_cons. simpl.
  rewrite IH. by destruct (Ascii.eqb x c).
Qed.

Lemma all_bytes_append p s t :
  all_bytes p (s +:+ t) = all_bytes p s && all_bytes p t.
Proof.
  induction s as [|x s IH]; [done|]. rewrite append_cons. simpl.
  rewrite IH. by destruct (p x).
Qed.

Lemma all_bytes_impl (p q : ascii → bool) s :
  (∀ c, p c = true → q c = true) → all_bytes p s = true → all_bytes q s = true.
Proof.
  intros Hpq. induction s as [|x s IH]; [done|]. simpl.
  intros H. bool_prop. by rewrite Hpq, IH.
Qed.

Lemma all_bytes_not_in p s c :
  all_bytes p s = true → p c = false → byte_in c s = false.
Proof.
  intros Hs Hc. induction s as [|x s IH]; [done|]. simpl in *.
  bool_prop. rewrite IH by done. destruct (Ascii.eqb_spec x c); [congruence|done].
Qed.

(** *** Prefixes *)

Lemma cut_prefix_Some p s r : cut_prefix p s = Some r ↔ s = p +:+ r.
Proof.
  revert s. induction p as [|a p IH]; intros s; simpl.
  { unfold String.append. split; congruence. }
  rewrite append_cons. destruct s as [|b s]; [done|].
  destruct (Ascii.eqb_spec a b) as [->|Hne].
  - rewrite IH. split; congruence.
  - split; congruence.
Qed.

Lemma cut_prefix_append p r : cut_prefix p (p +:+ r) = Some r.
Proof. by apply cut_prefix_Some. Qed.

Lemma HasPrefix_spec s p : HasPrefix s p = true ↔ ∃ r, s = p +:+ r.
Proof.
  unfold HasPrefix. destruct (cut_prefix p s) as [r|] eqn:E.
  - apply cut_prefix_Some in E. naive_solver.
  - split; [done|]. intros [r Hr]. apply cut_prefix_Some in Hr. congruence.
Qed.

Lemma HasPrefix_append p r : HasPrefix (p +:+ r) p = true.
Proof. apply HasPrefix_spec. eauto. Qed.

Lemma TrimPrefix_append p r : TrimPrefix (p +:+ r) p = r.
Proof. unfold TrimPrefix. by rewrite cut_prefix_append. Qed.

(** *** Cutting at a byte *)

Lemma cut_byte_Some c s a b :
  cut_byte c s = Some (a, b) → s = a +:+ String c b ∧ byte_in c a = false.
Proof.
  revert a b. induction s as [|x s IH]; intros a b; simpl; [done|].
  destruct (Ascii.eqb_spec x c) as [->|Hne].
  { intros [= <- <-]. done. }
  destruct (cut_byte c s) as [[a' b']|]; [|done]. intros [= <- <-].
  destruct (IH _ _ eq_refl) as [-> Hin]. rewrite append_cons. simpl.
  split; [done|]. rewrite Hin. by apply Ascii.eqb_neq in Hne as ->.
Qed.

Lemma cut_byte_None c s : cut_byte c s = None ↔ byte_in c s = false.
Proof.
  induction s as [|x s IH]; simpl; [done|].
  destruct (Ascii.eqb x c); simpl; [done|].
  rewrite <- IH. destruct (cut_byte c s) as [[]|]; done.
Qed.

Lemma cut_byte_append c a b :
  byte_in c a = false → cut_byte c (a +:+ String c b) = Some (a, b).
Proof.
  induction a as [|x a IH]; intros H.
  - change ("" +:+ String c b) with (String c b). simpl.
    by rewrite Ascii.eqb_refl.
  - rewrite append_cons. simpl in *. bool_prop.
    destruct (Ascii.eqb_spec x c); [congruence|]. by rewrite IH.
Qed.

Lemma SplitN2_append c a b :
  byte_in c a = false → SplitN2 (a +:+ String c "" +:+ b) c = [a; b].
Proof. intros H. unfold SplitN2. rewrite append_cons. by rewrite cut_byte_append. Qed.

Lemma SplitN2_none c s : byte_in c s = false → SplitN2 s c = [s].
Proof. intros H. unfold SplitN2. by apply cut_byte_None in H as ->. Qed.

(** *** Split and Join *)

Lemma Split_cons s c : ∃ h t, Split s c = h :: t.
Proof.
  induction s as [|x s (h & t & IH)]; simpl; [eauto|].
  rewrite IH. destruct (Ascii.eqb x c); eauto.
Qed.

Lemma Split_no_sep s c : Forall (λ x, byte_in c x = false) (Split s c).
Proof.
  induction s as [|x s IH]; simpl; [by repeat constructor|].
  destruct (Split_cons s c) as (h & t & E). rewrite E in *.
  destruct (Ascii.eqb x c) eqn:Ex; [by constructor|].
  inversion_clear IH as [|?? Hh Ht]. constructor; [|done].
  simpl. by rewrite Ex.
Qed.

Lemma Join_String (x : ascii) h t sep :
  Join (String x h :: t) sep = String x (Join (h :: t) sep).
Proof. by destruct t. Qed.

Lemma Join_cons (a h : string) t sep :
  Join (a :: h :: t) sep = a +:+ sep +:+ Join (h :: t) sep.
Proof. done. Qed.

(** Splitting and joining with the separator is the identity. *)
Lemma Join_Split s c : Join (Split s c) (String c "") = s.
Proof.
  induction s as [|x s IH]; [done|]. simpl.
  destruct (Split_cons s c) as (h & t & E). rewrite E in *.
  destruct (Ascii.eqb_spec x c) as [->|Hne].
  - by rewrite Join_cons, IH.
  - by rewrite Join_String, IH.
Qed.

Lemma Split_single s c : byte_in c s = false → Split s c = [s].
Proof.
  induction s as [|x s IH]; simpl; [done|]. intros H. bool_prop.
  rewrite IH by done. by apply Ascii.eqb_neq in H as ->.
Qed.

Lemma Split_append s t c :
  byte_in c s = false → Split (s +:+ String c t) c = s :: Split t c.
Proof.
  induction s as [|x s IH]; intros H.
  - change ("" +:+ String c t) with (String c t). simpl. by rewrite Ascii.eqb_refl.
  - rewrite append_cons. simpl in *. bool_prop. rewrite IH by done.
    by apply Ascii.eqb_neq in H as ->.
Qed.

(** Joining segments without separators and splitting gives them back. *)
Lemma Split_Join l c :
  l ≠ [] → Forall (λ x, byte_in c x = false) l → Split (Join l (String c "")) c = l.
Proof.
  intros Hne Hl. induction Hl as [|x l Hx Hl IH]; [done|].
  destruct l as [|y l]; [by apply Split_single|].
  rewrite Join_cons, append_cons.
  rewrite (Split_append x _ c) by done. f_equal. by apply IH.
Qed.

(** *** Runes of ASCII strings *)

Definition ascii_only (s : string) : bool := all_bytes (λ c, byte c <? 0x80) s.

Fixpoint bytes (s : string) : list N :=
  match s with EmptyString => [] | String c r => byte c :: bytes r end.

Definition lower_string (s : string) : string := bs (map ascii_ToLower (bytes s)).

Lemma DecodeRune_shorter s r s' :
  DecodeRune s = Some (r, s') → (String.length s' < String.length s)%nat.
Proof.
  unfold DecodeRune. destruct s as [|c0 s]; [done|].
  repeat case_match; intros; simplify_eq/=; lia.
Qed.

(** Any fuel of at least the length yields the same runes. *)
Lemma runes_fuel_enough n s :
  (String.length s ≤ n)%nat → runes_fuel n s = runes s.
Proof.
  unfold runes.
  assert (H : ∀ m n s, (String.length s ≤ m)%nat → (String.length s ≤ n)%nat →
                       runes_fuel n s = runes_fuel m s); [|by eauto].
  clear. induction m as [|m IH]; intros n s Hm Hn.
  - destruct s; simpl in *; [|lia]. by destruct n.
  - destruct n as [|n]; [destruct s; simpl in *; [done|lia]|]. simpl.
    destruct (DecodeRune s) as [[r s']|] eqn:E; [|done].
    apply DecodeRune_shorter in E. f_equal. apply IH; lia.
Qed.

Lemma runes_String c s :
  (byte c <? 0x80) = true → runes (String c s) = byte c :: runes s.
Proof. intros H. unfold runes at 1. simpl. by rewrite H. Qed.

Lemma runes_ascii s : ascii_only s = true → runes s = bytes s.
Proof.
  unfold ascii_only. induction s as [|c s IH]; [done|]. simpl.
  intros H. apply andb_true_iff in H as [Hc Hs].
  by rewrite runes_String, IH.
Qed.

Lemma ascii_ToLower_small r : r < 0x80 → ascii_ToLower r < 0x80.
Proof. unfold ascii_ToLower, upper_rune. case_match; bool_prop; lia. Qed.

Lemma ToLower_ascii `{Unicode} s :
  ascii_only s = true → ToLower s = lower_string s.
Proof.
  intros Hs. unfold ToLower, lower_string. rewrite runes_ascii by done.
  unfold ascii_only in Hs. induction s as [|c s IH]; [done|].
  simpl in *. bool_prop. rewrite IH by done.
  rewrite unicode_ToLower_ascii by done. unfold EncodeRune.
  pose proof (ascii_ToLower_small (byte c)).
  rewrite (proj2 (N.ltb_lt _ _)) by auto. done.
Qed.

Lemma fold_rune_ascii `{Unicode} a b :
  a < 0x80 → b < 0x80 → fold_rune a b = (ascii_ToLower a =? ascii_ToLower b).
Proof.
  intros Ha Hb. unfold fold_rune. rewrite (proj2 (N.ltb_lt (N.max a b) _)) by lia.
  unfold ascii_ToLower, upper_rune.
  apply eq_true_iff_eq. rewrite orb_true_iff, !andb_true_iff, !N.leb_le, !N.eqb_eq.
  destruct ((0x41 <=? a) && (a <=? 0x5A)) eqn:Ea;
    destruct ((0x41 <=? b) && (b <=? 0x5A)) eqn:Eb;
    rewrite ?andb_true_iff, ?andb_false_iff, ?N.leb_le, ?N.leb_gt in *; lia.
Qed.

(** On ASCII strings folding is comparison of the lower-case forms. *)
Lemma EqualFold_ascii `{Unicode} s t :
  ascii_only s = true → ascii_only t = true →
  EqualFold s t = bool_decide (lower_string s = lower_string t).
Proof.
  intros Hs Ht. unfold EqualFold. rewrite !runes_ascii by done.
  unfold ascii_only, lower_string in *. revert t Ht.
  induction s as [|a s IH]; intros [|b t] Ht; simpl in *; try done.
  bool_prop. rewrite IH, fold_rune_ascii by done.
  assert (Hab : ascii_ToLower (byte a) = ascii_ToLower (byte b) ↔
    Ascii.ascii_of_N (ascii_ToLower (byte a))
    = Ascii.ascii_of_N (ascii_ToLower (byte b))).
  { split; [by intros ->|]. intros E%(f_equal byte).
    pose proof (ascii_ToLower_small (byte a)).
    pose proof (ascii_ToLower_small (byte b)).
    rewrite !Ascii.N_ascii_embedding in E by lia. done. }
  apply eq_true_iff_eq. rewrite andb_true_iff, N.eqb_eq, !bool_decide_eq_true.
  rewrite Hab. split; [intros [-> ->]; done|]. by intros [= -> ->].
Qed.

(** Folding is reflexive on every string. *)
Lemma EqualFold_refl `{Unicode} s : EqualFold s s = true.
Proof.
  unfold EqualFold. induction (runes s) as [|r l IH]; [done|]. simpl.
  rewrite IH. unfold fold_rune. by rewrite N.eqb_refl.
Qed.

(** A decoded rune below 0x80 is an ASCII byte. *)
Lemma DecodeRune_small c s r s' :
  DecodeRune (String c s) = Some (r, s') → r < 0x80 → byte c = r ∧ s' = s.
Proof.
  unfold DecodeRune, in_range, RuneError. intros H Hr.
  destruct (byte c <? 0x80) eqn:E0; [by simplify_eq|]. bool_prop.
  repeat case_match; simplify_eq; bool_prop; try lia.
Qed.

Lemma runes_small s :
  Forall (λ r, r < 0x80) (runes s) → ascii_only s = true.
Proof.
  unfold runes. intros H. remember (String.length s) as n eqn:Hn.
  assert (Hle : (String.length s ≤ n)%nat) by lia. clear Hn.
  revert s H Hle. induction n as [|n IH]; intros [|c s] H Hle; simpl in Hle;
    [done|lia|done|].
  cbn [runes_fuel] in H. destruct (DecodeRune (String c s)) as [[r s']|] eqn:E.
  - inversion_clear H as [|?? Hr Hrs]. apply DecodeRune_small in E as [<- ->]; [|done].
    unfold ascii_only in *. simpl. rewrite IH by (done || lia).
    by rewrite (proj2 (N.ltb_lt _ _)).
  - exfalso. unfold DecodeRune in E. repeat case_match; done.
Qed.

(** Lower-case letters whose folding orbit is ASCII. *)
Definition plain_letter (c : ascii) : bool :=
  lower_rune (byte c) && negb (byte c =? 0x6B) && negb (byte c =? 0x73).

Lemma fold_rune_plain `{Unicode} a c :
  plain_letter c = true → fold_rune a (byte c) = true →
  a < 0x80 ∧ ascii_ToLower a = byte c.
Proof.
  unfold plain_letter. intros Hc Hf. bool_prop.
  unfold lower_rune in *. bool_prop.
  destruct (N.lt_ge_cases a 0x80) as [Ha|Ha].
  - rewrite fold_rune_ascii in Hf by lia. bool_prop. split; [done|].
    rewrite Hf. unfold ascii_ToLower, upper_rune.
    rewrite (proj2 (N.leb_gt (byte c) 0x5A)) by lia. by rewrite andb_false_r.
  - exfalso. unfold fold_rune in Hf. rewrite (proj2 (N.eqb_neq a (byte c))) in Hf by lia.
    rewrite N.min_r, N.max_l, (proj2 (N.ltb_ge a _)) in Hf by lia. simpl in Hf.
    rewrite unicode_SameFold_ascii in Hf by lia. unfold mixed_fold in Hf.
    rewrite (proj2 (N.eqb_neq (byte c) 0x4B)), (proj2 (N.eqb_neq (byte c) 0x6B)),
      (proj2 (N.eqb_neq (byte c) 0x53)), (proj2 (N.eqb_neq (byte c) 0x73)) in Hf by lia.
    done.
Qed.

Lemma bs_bytes s : bs (bytes s) = s.
Proof. induction s as [|c s IH]; [done|]. simpl. by rewrite IH, Ascii.ascii_N_embedding. Qed.

(** Folding against a word of plain letters is ASCII case-insensitivity. *)
Lemma EqualFold_plain `{Unicode} s t :
  all_bytes plain_letter t = true → EqualFold s t = true →
  ascii_only s = true ∧ lower_string s = t.
Proof.
  intros Ht Hf.
  assert (Hta : ascii_only t = true).
  { revert Ht. apply all_bytes_impl. unfold plain_letter, lower_rune.
    intros c Hc. bool_prop. apply N.ltb_lt. lia. }
  unfold EqualFold in Hf. rewrite (runes_ascii t Hta) in Hf.
  assert (Hr : Forall (λ r, r < 0x80) (runes s) ∧ map ascii_ToLower (runes s) = bytes t).
  { clear Hta. revert t Ht Hf. induction (runes s) as [|a l IH];
      intros [|c t] Ht Hf; simpl in *; try done.
    apply andb_true_iff in Ht as [Hc Ht]. apply andb_true_iff in Hf as [Ha Hf].
    destruct (fold_rune_plain _ _ Hc Ha) as [??]. destruct (IH _ Ht Hf) as [? ->].
    split; [by constructor|by f_equal]. }
  destruct Hr as [Hs Hm]. apply runes_small in Hs. split; [done|].
  unfold lower_string. rewrite <- runes_ascii, Hm by done. apply bs_bytes.
Qed.

(** *** Trimming *)

Lemma rev_app_spec s t : String.rev_app s t = String.rev s +:+ t.
Proof.
  unfold String.rev. revert t. induction s as [|c s IH]; intros t; [done|]. simpl.
  rewrite IH, (IH (String c "")), append_assoc. done.
Qed.

Lemma rev_String c s : String.rev (String c s) = String.rev s +:+ String c "".
Proof. unfold String.rev at 1. simpl. apply rev_app_spec. Qed.

Lemma rev_append s t : String.rev (s +:+ t) = String.rev t +:+ String.rev s.
Proof.
  induction s as [|c s IH].
  - change ("" +:+ t) with t. unfold String.rev at 3. simpl. by rewrite append_nil_r.
  - rewrite append_cons, !rev_String, IH, append_assoc. done.
Qed.

Lemma rev_rev s : String.rev (String.rev s) = s.
Proof. induction s as [|c s IH]; [done|]. rewrite rev_String, rev_append, IH. done. Qed.

Lemma all_bytes_rev p s : all_bytes p (String.rev s) = all_bytes p s.
Proof.
  induction s as [|c s IH]; [done|].
  rewrite rev_String, all_bytes_append, IH. simpl. rewrite andb_true_r.
  apply andb_comm.
Qed.

(** Visible ASCII bytes: no white space, no control byte, no UTF-8 tail. *)
Definition visible (c : ascii) : bool := (0x21 <=? byte c) && (byte c <=? 0x7E).

Definition starts_visible (s : string) : bool :=
  match s with EmptyString => true | String c _ => visible c end.

Definition starts_invisible (s : string) : bool :=
  match s with EmptyString => false | String c _ => negb (visible c) end.

Lemma cut_any_visible ps s :
  forallb starts_invisible ps = true → starts_visible s = true →
  cut_any ps s = None.
Proof.
  intros Hps Hs. induction ps as [|p ps IH]; [done|]. simpl in *.
  apply andb_true_iff in Hps as [Hp Hps]. rewrite IH by done.
  destruct p as [|a p]; [done|]. destruct s as [|b s]; [done|]. simpl in *.
  destruct (Ascii.eqb_spec a b) as [->|]; [|done]. rewrite Hs in Hp. done.
Qed.

Lemma trim_left_visible n ps s :
  forallb starts_invisible ps = true → starts_visible s = true →
  trim_left n ps s = s.
Proof. intros. destruct n; simpl; [done|]. by rewrite cut_any_visible. Qed.

(** A string whose first and last bytes are visible is not trimmed. *)
Lemma TrimSpace_visible_ends s :
  starts_visible s = true → starts_visible (String.rev s) = true → TrimSpace s = s.
Proof.
  intros Hl Hr. unfold TrimSpace.
  rewrite (trim_left_visible _ space_seqs) by (vm_compute; done || done).
  rewrite trim_left_visible by (vm_compute; done || done). apply rev_rev.
Qed.

Lemma TrimSpace_visible s : all_bytes visible s = true → TrimSpace s = s.
Proof.
  intros H.
  assert (Hs : ∀ t, all_bytes visible t = true → starts_visible t = true).
  { intros [|c t]; simpl; [done|]. intros ?. by bool_prop. }
  apply TrimSpace_visible_ends; apply Hs; [done|]. by rewrite all_bytes_rev.
Qed.

(** *** An instance of the Unicode tables

    ASCII and the letters whose case mapping or folding meets ASCII; enough to
    run the model on concrete requests. *)
#[export, refine] Instance unicode_sample : Unicode := {
  unicode_ToLower r :=
    if r =? 0x212A then 0x6B else if r =? 0x130 then 0x69 else ascii_ToLower r;
  unicode_SameFold a r :=
    mixed_fold a r || mixed_fold r a || (a =? r)
}.
Proof.
  - intros r Hr. do 2 (case_match; bool_prop; [lia|]). done.
  - intros a r Ha Hr. unfold mixed_fold.
    rewrite (proj2 (N.eqb_neq a r)) by lia.
    rewrite (proj2 (N.eqb_neq a 0x212A)), (proj2 (N.eqb_neq a 0x17F)) by lia.
    by rewrite !andb_false_r, !orb_false_r.
Defined.
