(* ===== verification/GoBase64.v ===== *)
(** * Go's [encoding/base64], standard alphabet with padding

    [DecodeString] is [base64.StdEncoding.DecodeString]: line breaks are
    skipped, the padding is required, the unused bits of the last quantum are
    not checked.  [EncodeToString] is what a client does; the two make the round
    trip. *)

From S2P Require Import Prelude GoStrings.

Local Open Scope N_scope.

Definition b64_char (n : N) : ascii :=
  Ascii.ascii_of_N
    (if n <? 26 then 65 + n
     else if n <? 52 then 71 + n
     else if n <? 62 then n - 4
     else if n =? 62 then 43 else 47).

Definition b64_val (c : ascii) : option N :=
  let b := byte c in
  if (65 <=? b) && (b <=? 90) then Some (b - 65)
  else if (97 <=? b) && (b <=? 122) then Some (b - 71)
  else if (48 <=? b) && (b <=? 57) then Some (b + 4)
  else if b =? 43 then Some 62
  else if b =? 47 then Some 63
  else None.

Definition b64_pad : ascii := "=".

Fixpoint drop_newlines (s : string) : string :=
  match s with
  | EmptyString => EmptyString
  | String c r =>
      if (byte c =? 10) || (byte c =? 13) then drop_newlines r
      else String c (drop_newlines r)
  end.

Fixpoint decode_quanta (s : string) : option string :=
  match s with
  | EmptyString => Some EmptyString
  | String c0 (String c1 (String c2 (String c3 r))) =>
      match b64_val c0, b64_val c1 with
      | Some v0, Some v1 =>
          let d0 := v0 * 4 + v1 / 16 in
          if Ascii.eqb c2 b64_pad then
            if Ascii.eqb c3 b64_pad && bool_decide (r = "")
            then Some (bs [d0]) else None
          else
            match b64_val c2 with
            | None => None
            | Some v2 =>
                let d1 := v1 mod 16 * 16 + v2 / 4 in
                if Ascii.eqb c3 b64_pad then
                  if bool_decide (r = "") then Some (bs [d0; d1]) else None
                else
                  match b64_val c3, decode_quanta r with
                  | Some v3, Some t =>
                      Some (bs [d0; d1; v2 mod 4 * 64 + v3] +:+ t)
                  | _, _ => None
                  end
            end
      | _, _ => None
      end
  | _ => None
  end.

Definition DecodeString (s : string) : option string :=
  decode_quanta (drop_newlines s).

Definition b64_quad (b0 b1 b2 : N) : string :=
  String (b64_char (b0 / 4)) (String (b64_char (b0 mod 4 * 16 + b1 / 16))
    (String (b64_char (b1 mod 16 * 4 + b2 / 64)) (String (b64_char (b2 mod 64)) ""))).

Fixpoint EncodeToString (s : string) : string :=
  match s with
  | EmptyString => EmptyString
  | String c0 EmptyString =>
      String (b64_char (byte c0 / 4)) (String (b64_char (byte c0 mod 4 * 16))
        (String b64_pad (String b64_pad "")))
  | String c0 (String c1 EmptyString) =>
      String (b64_char (byte c0 / 4))
        (String (b64_char (byte c0 mod 4 * 16 + byte c1 / 16))
          (String (b64_char (byte c1 mod 16 * 4)) (String b64_pad "")))
  | String c0 (String c1 (String c2 r)) =>
      b64_quad (byte c0) (byte c1) (byte c2) +:+ EncodeToString r
  end.

(** ** The round trip *)

(** What holds of the 64 digits, by evaluation. *)
Lemma b64_digits (P : N → bool) :
  forallb P (map N.of_nat (seq 0 64)) = true → ∀ n, n < 64 → P n = true.
Proof.
  rewrite forallb_forall. intros H n Hn. apply H. rewrite in_map_iff.
  exists (N.to_nat n). rewrite in_seq. lia.
Qed.

Lemma b64_val_char n : n < 64 → b64_val (b64_char n) = Some n.
Proof.
  intros Hn.
  pose proof (b64_digits (λ n, bool_decide (b64_val (b64_char n) = Some n))
                eq_refl n Hn) as H.
  by apply bool_decide_eq_true_1 in H.
Qed.

Lemma b64_char_visible n :
  n < 64 → visible (b64_char n) && negb (Ascii.eqb (b64_char n) b64_pad) = true.
Proof.
  by apply (b64_digits
    (λ n, visible (b64_char n) && negb (Ascii.eqb (b64_char n) b64_pad))).
Qed.

Lemma b64_char_not_pad n : n < 64 → Ascii.eqb (b64_char n) b64_pad = false.
Proof.
  intros [_ Hn]%b64_char_visible%andb_true_iff. by apply negb_true_iff.
Qed.

Lemma byte_lt c : byte c < 256.
Proof. apply Ascii.N_ascii_bounded. Qed.

#[export] Hint Resolve byte_lt : rego.

Ltac divmod_lia := zify; Z.to_euclidean_division_equations; lia.

Lemma quad_bounds b0 b1 b2 :
  b0 < 256 → b1 < 256 → b2 < 256 →
  b0 / 4 < 64 ∧ b0 mod 4 * 16 + b1 / 16 < 64 ∧ b1 mod 16 * 4 + b2 / 64 < 64
  ∧ b2 mod 64 < 64 ∧ b0 mod 4 * 16 < 64 ∧ b1 mod 16 * 4 < 64.
Proof. intros. repeat split; divmod_lia. Qed.

Lemma quad_bytes b0 b1 b2 :
  b0 < 256 → b1 < 256 → b2 < 256 →
  b0 / 4 * 4 + (b0 mod 4 * 16 + b1 / 16) / 16 = b0
  ∧ (b0 mod 4 * 16 + b1 / 16) mod 16 * 16 + (b1 mod 16 * 4 + b2 / 64) / 4 = b1
  ∧ (b1 mod 16 * 4 + b2 / 64) mod 4 * 64 + b2 mod 64 = b2.
Proof. intros. repeat split; divmod_lia. Qed.

Lemma decode_quad b0 b1 b2 r t :
  b0 < 256 → b1 < 256 → b2 < 256 → decode_quanta r = Some t →
  decode_quanta (b64_quad b0 b1 b2 +:+ r) = Some (bs [b0; b1; b2] +:+ t).
Proof.
  intros H0 H1 H2 Hr. destruct (quad_bounds b0 b1 b2) as (?&?&?&?&_); [done..|].
  unfold b64_quad. rewrite !append_cons. change ("" +:+ r) with r.
  cbn [decode_quanta]. rewrite !b64_val_char, !b64_char_not_pad, Hr by done.
  destruct (quad_bytes b0 b1 b2) as (-> & -> & ->); done.
Qed.

Lemma decode_encode_quanta s : decode_quanta (EncodeToString s) = Some s.
Proof.
  assert (H : ∀ n s, (String.length s ≤ n)%nat →
                     decode_quanta (EncodeToString s) = Some s); [|by eauto].
  clear s. induction n as [|n IH]; intros s Hs.
  { by destruct s; [|simpl in *; lia]. }
  destruct s as [|c0 [|c1 [|c2 r]]]; [done|..].
  - destruct (quad_bounds _ 0 0 (byte_lt c0) eq_refl eq_refl) as (?&?&?&?&?&?).
    cbn [EncodeToString decode_quanta]. rewrite !b64_val_char by done. simpl.
    pose proof (byte_lt c0).
    replace (_ + _) with (byte c0) by divmod_lia.
    by rewrite Ascii.ascii_N_embedding.
  - destruct (quad_bounds _ _ 0 (byte_lt c0) (byte_lt c1) eq_refl)
      as (?&?&?&?&?&?).
    cbn [EncodeToString decode_quanta].
    rewrite !b64_val_char, b64_char_not_pad by done. simpl.
    pose proof (byte_lt c0). pose proof (byte_lt c1).
    destruct (quad_bytes (byte c0) (byte c1) 0) as (E0 & E1 & _); [done..|].
    rewrite N.add_0_r in E1. by rewrite E0, E1, !Ascii.ascii_N_embedding.
  - cbn [EncodeToString]. simpl in Hs.
    rewrite (decode_quad _ _ _ _ r) by (apply byte_lt || (apply IH; lia)).
    simpl. by rewrite !Ascii.ascii_N_embedding.
Qed.

(** Every character of an encoding is visible ASCII. *)
Lemma EncodeToString_visible s : all_bytes visible (EncodeToString s) = true.
Proof.
  assert (H : ∀ n s, (String.length s ≤ n)%nat →
                     all_bytes visible (EncodeToString s) = true); [|by eauto].
  assert (Hv : ∀ n, n < 64 → visible (b64_char n) = true).
  { intros n [Hn _]%b64_char_visible%andb_true_iff. done. }
  clear s. induction n as [|n IH]; intros s Hs.
  { by destruct s; [|simpl in *; lia]. }
  destruct s as [|c0 [|c1 [|c2 r]]]; [done|..].
  - destruct (quad_bounds _ 0 0 (byte_lt c0) eq_refl eq_refl) as (?&?&?&?&?&?).
    simpl. by rewrite !Hv.
  - destruct (quad_bounds _ _ 0 (byte_lt c0) (byte_lt c1) eq_refl)
      as (?&?&?&?&?&?).
    simpl. by rewrite !Hv.
  - destruct (quad_bounds _ _ _ (byte_lt c0) (byte_lt c1) (byte_lt c2))
      as (?&?&?&?&?&?).
    cbn [EncodeToString]. simpl in Hs. rewrite all_bytes_append, IH by lia.
    simpl. by rewrite !Hv.
Qed.

Lemma drop_newlines_visible s : all_bytes visible s = true → drop_newlines s = s.
Proof.
  induction s as [|c s IH]; [done|]. simpl. intros H.
  apply andb_true_iff in H as [Hc Hs]. rewrite IH by done.
  unfold visible in Hc. bool_prop.
  rewrite (proj2 (N.eqb_neq _ 10)), (proj2 (N.eqb_neq _ 13)) by lia. done.
Qed.

(** Decoding an encoding gives the original bytes back. *)
Lemma DecodeString_EncodeToString s : DecodeString (EncodeToString s) = Some s.
Proof.
  unfold DecodeString. rewrite drop_newlines_visible by apply EncodeToString_visible.
  apply decode_encode_quanta.
Qed.

#[export] Hint Rewrite DecodeString_EncodeToString : rego.
