(* ===== verification/GoStrconv.v ===== *)
(** * Go's [strconv], decimal integers

    [ParseInt s 10 64] and [Atoi] on a 64-bit platform: an optional sign, at
    least one digit, a value that fits 64 bits; no underscores. *)

From S2P Require Import Prelude GoStrings.

Definition digit (c : ascii) : option Z :=
  if (0x30 <=? byte c)%N && (byte c <=? 0x39)%N then Some (Z.of_N (byte c) - 0x30)%Z else None.

(** The digits of [s] after those that give [acc]. *)
Fixpoint digits (s : string) (acc : Z) : option Z :=
  match s with
  | EmptyString => Some acc
  | String c r => d ← digit c; digits r (10 * acc + d)%Z
  end.

Definition unsigned (s : string) : option Z :=
  match s with EmptyString => None | _ => digits s 0 end.

Definition fits_int64 (n : Z) : bool := (- 2 ^ 63 <=? n)%Z && (n <? 2 ^ 63)%Z.

(** The value, or [None] for a syntax or range error. *)
Definition ParseInt (s : string) : option Z :=
  n ← match s with
      | String "+" r => unsigned r
      | String "-" r => n ← unsigned r; Some (- n)%Z
      | _ => unsigned s
      end;
  if fits_int64 n then Some n else None.

Definition Atoi : string → option Z := ParseInt.

Lemma ParseInt_bounds s n : ParseInt s = Some n → (- 2 ^ 63 ≤ n < 2 ^ 63)%Z.
Proof.
  unfold ParseInt. intros H.
  apply bind_Some in H as (m & _ & H). unfold fits_int64 in H.
  destruct ((_ <=? m)%Z && _)%bool eqn:E; [|done]. injection H as <-. bool_prop. lia.
Qed.

Example ParseInt_examples :
  ParseInt "42" = Some 42%Z ∧ ParseInt "-7" = Some (-7)%Z ∧ ParseInt "+0" = Some 0%Z
  ∧ ParseInt "" = None ∧ ParseInt "-" = None ∧ ParseInt "1_0" = None
  ∧ ParseInt "notanumber" = None ∧ ParseInt "9223372036854775808" = None
  ∧ ParseInt "-9223372036854775808" = Some (-9223372036854775808)%Z.
Proof. vm_compute. repeat split. Qed.
