(* ===== verification/GoValue.v ===== *)
(** * Go values behind [interface{}], errors and [fmt.Sprint]

    [value] covers what rest-rego stores in an [interface{}]: request headers (a
    string or a slice of strings), verified claims, the policy's result as OPA
    returns it.  [error] is Go's error: the sentinels of the program, a message
    of other code, or a wrapped error. *)

From S2P Require Import Prelude GoStrings.

#[warnings="-register-all"]
Inductive value : Type :=
| VNil
| VBool (b : bool)
| VStr (s : string)
| VNum (n : string)                     (* json.Number: its digits *)
| VStrs (l : list string)               (* []string *)
| VList (l : list value)                (* []interface{} *)
| VMap (m : list (string * value)).     (* map[string]interface{}, any order *)

(** A map's entries are kept in the order a [range] over it happens to take;
    keys are unique. *)
Fixpoint map_get (m : list (string * value)) (k : string) : option value :=
  match m with
  | [] => None
  | (k', v) :: m' => if String.eqb k k' then Some v else map_get m' k
  end.

(** Entries sorted by key, as [fmt] prints a map. *)
Fixpoint insert_entry (e : string * string) (l : list (string * string)) :=
  match l with
  | [] => [e]
  | e' :: l' => if String.leb e.1 e'.1 then e :: l else e' :: insert_entry e l'
  end.

Definition sort_entries (l : list (string * string)) : list (string * string) :=
  foldr insert_entry [] l.

(** [fmt.Sprint] of one operand. *)
Fixpoint Sprint (v : value) : string :=
  match v with
  | VNil => "<nil>"
  | VBool true => "true"
  | VBool false => "false"
  | VStr s => s
  | VNum n => n
  | VStrs l => "[" +:+ Join l " " +:+ "]"
  | VList l => "[" +:+ Join (map Sprint l) " " +:+ "]"
  | VMap m =>
      "map["
      +:+ Join (map (λ e, e.1 +:+ ":" +:+ e.2)
                  (sort_entries (map (λ e, (e.1, Sprint e.2)) m))) " "
      +:+ "]"
  end.

Lemma map_get_Some m k v : map_get m k = Some v → (k, v) ∈ m.
Proof.
  induction m as [|[k' v'] m IH]; simpl; [done|].
  destruct (String.eqb_spec k k') as [->|].
  - intros [= ->]. constructor.
  - intros H. constructor. by apply IH.
Qed.

Lemma map_get_unique m k v :
  NoDup m.*1 → (k, v) ∈ m → map_get m k = Some v.
Proof.
  induction m as [|[k' v'] m IH]; simpl; intros Hnd Hin; [by apply elem_of_nil in Hin|].
  apply NoDup_cons in Hnd as [Hk' Hnd].
  apply elem_of_cons in Hin as [[= -> ->]|Hin]; [by rewrite String.eqb_refl|].
  destruct (String.eqb_spec k k') as [->|]; [|auto].
  destruct Hk'. apply list_elem_of_fmap. by exists (k', v).
Qed.

(** ** Errors *)

Inductive error : Type :=
| ErrAuthenticationFailed
| ErrAuthenticationUnavailable
| ErrNoValidCredentials
| ErrMsg (msg : string)
| ErrWrap (msg : string) (e : error).

#[export] Instance error_eq_dec : EqDecision error.
Proof. solve_decision. Defined.

(** [errors.Is] for a sentinel target. *)
Fixpoint errors_Is (e target : error) : bool :=
  bool_decide (e = target)
  || match e with ErrWrap _ e' => errors_Is e' target | _ => false end.

(** [err.Error()]; a wrapped error is printed after its context. *)
Fixpoint error_text (e : error) : string :=
  match e with
  | ErrAuthenticationFailed => "authentication failed"
  | ErrAuthenticationUnavailable => "authentication service unavailable"
  | ErrNoValidCredentials => "basicauth: no valid credentials found in file"
  | ErrMsg m => m
  | ErrWrap m e' => m +:+ ": " +:+ error_text e'
  end.

(** A call that returns a value or an error. *)
Inductive result (A : Type) : Type :=
| Ok (a : A)
| Err (e : error).
Arguments Ok {A} a.
Arguments Err {A} e.
