(* ===== verification/GoHttp.v ===== *)
(** * Go's [net/http] and [net/textproto], as far as rest-rego uses them

    Header maps and their canonical keys, the server's response writer,
    [http.Error], and the header removal of [httputil.ReverseProxy]. *)

From S2P Require Import Prelude GoStrings GoStrconv GoValue.

(** ** Headers *)

Abbreviation Header := (gmap string (list string)).

(** [validHeaderFieldByte]: the bytes of an RFC 7230 token. *)
Definition token_byte (c : ascii) : bool :=
  let b := byte c in
  (((0x30 <=? b) && (b <=? 0x39)) || ((0x41 <=? b) && (b <=? 0x5A))
   || ((0x61 <=? b) && (b <=? 0x7A))
   || byte_in c "!#$%&'*+-.^_`|~")%N.

(** One byte of [canonicalMIMEHeaderKey]. *)
Definition canon_byte (upper : bool) (c : ascii) : ascii :=
  let b := byte c in
  if upper && (0x61 <=? b)%N && (b <=? 0x7A)%N then Ascii.ascii_of_N (b - 32)
  else if negb upper && (0x41 <=? b)%N && (b <=? 0x5A)%N
       then Ascii.ascii_of_N (b + 32)
  else c.

Fixpoint canon_key (upper : bool) (s : string) : string :=
  match s with
  | EmptyString => EmptyString
  | String c r =>
      let c' := canon_byte upper c in
      String c' (canon_key (Ascii.eqb c' "-") r)
  end.

(** [http.CanonicalHeaderKey]: a key with a byte outside the token set is left
    alone. *)
Definition CanonicalHeaderKey (s : string) : string :=
  if all_bytes token_byte s then canon_key true s else s.

Definition Header_Values (h : Header) (key : string) : list string :=
  default [] (h !! CanonicalHeaderKey key).

Definition Header_Get (h : Header) (key : string) : string :=
  default "" (head (Header_Values h key)).

Definition Header_Set (h : Header) (key v : string) : Header :=
  <[CanonicalHeaderKey key := [v]]> h.

Definition Header_Del (h : Header) (key : string) : Header :=
  delete (CanonicalHeaderKey key) h.

(** The headers the server hands to a handler: it rejects a field name that is
    not a token and stores the others under their canonical key. *)
Definition server_header (h : Header) : Prop :=
  ∀ k vs, h !! k = Some vs →
    all_bytes token_byte k = true ∧ canon_key true k = k ∧ vs ≠ [].

(** ** Response writer *)

Record Response := mkResponse {
  rw_header : Header;                     (* w.Header(), before it is sent *)
  rw_informational : list Z;              (* 1xx headers already sent *)
  rw_sent : option (Z * Header);          (* status and header sent *)
  rw_contentLength : Z;                   (* declared, or -1 *)
  rw_written : Z;                         (* bytes given to Write *)
  rw_body : string
}.

Definition fresh_response : Response := mkResponse ∅ [] None (-1) 0 "".

Definition body_allowed (status : Z) : bool :=
  negb (((100 <=? status) && (status <=? 199)) || (status =? 204)
        || (status =? 304))%Z.

(** A Content-Length that the handler declared: what is enforced, and the header
    as it is sent; one that is no length is dropped. *)
Definition declared_length (h : Header) : Z * Header :=
  let cl := Header_Get h "Content-Length" in
  if String.eqb cl "" then (-1, h)%Z
  else match ParseInt cl with
       | Some v => if (0 <=? v)%Z then (v, h) else (-1, Header_Del h "Content-Length")%Z
       | None => (-1, Header_Del h "Content-Length")%Z
       end.

(** [response.WriteHeader]. *)
Definition resp_WriteHeader (code : Z) : go Response unit := λ r,
  match rw_sent r with
  | Some _ => (Done tt, r)                (* superfluous call: logged only *)
  | None =>
      if ((code <? 100) || (999 <? code))%Z
      then (Panic "invalid WriteHeader code", r)
      else if ((100 <=? code) && (code <=? 199) && negb (code =? 101))%Z
      then (Done tt, mkResponse (rw_header r) (rw_informational r ++ [code])
                       None (rw_contentLength r) (rw_written r) (rw_body r))
      else
        let '(n, h) := declared_length (rw_header r) in
        (Done tt, mkResponse h (rw_informational r) (Some (code, h)) n (rw_written r) (rw_body r))
  end.

(** [response.Write]: sends status 200 if none was sent; the number of bytes
    accepted: none where the status allows no body, or where they exceed the
    declared length. *)
Definition resp_Write (data : string) : go Response nat :=
  s ← go_gets rw_sent;
  match s with None => resp_WriteHeader 200 | Some _ => mret tt end ;;
  s ← go_gets rw_sent;
  match s with
  | Some (code, _) =>
      if (String.length data =? 0)%nat then mret 0
      else if body_allowed code then
        go_modify (λ r, mkResponse (rw_header r) (rw_informational r) (rw_sent r)
                          (rw_contentLength r) (rw_written r + Z.of_nat (String.length data))
                          (rw_body r)) ;;
        r ← go_get;
        if negb (rw_contentLength r =? -1)%Z && (rw_contentLength r <? rw_written r)%Z
        then mret 0
        else
          go_modify (λ r, mkResponse (rw_header r) (rw_informational r) (rw_sent r)
                            (rw_contentLength r) (rw_written r) (rw_body r +:+ data)) ;;
          mret (String.length data)
      else mret 0
  | None => mret 0
  end.

Definition resp_Header (f : Header → Header) (r : Response) : Response :=
  mkResponse (f (rw_header r)) (rw_informational r) (rw_sent r) (rw_contentLength r)
    (rw_written r) (rw_body r).

(** [http.Error] on a server's response. *)
Definition resp_Error (msg : string) (code : Z) : go Response unit :=
  go_modify (resp_Header (λ h,
    Header_Set (Header_Set (Header_Del h "Content-Length")
                  "Content-Type" "text/plain; charset=utf-8")
      "X-Content-Type-Options" "nosniff")) ;;
  resp_WriteHeader code ;;
  _ ← resp_Write (msg +:+ bs [10%N]);
  mret tt.

(** A final status on an unsent response. *)
Lemma resp_WriteHeader_final code (r : Response) :
  (200 ≤ code ≤ 999)%Z → rw_sent r = None →
  resp_WriteHeader code r
  = (Done tt, mkResponse (declared_length (rw_header r)).2 (rw_informational r)
                (Some (code, (declared_length (rw_header r)).2))
                (declared_length (rw_header r)).1 (rw_written r) (rw_body r)).
Proof.
  intros Hc Hs. unfold resp_WriteHeader. rewrite Hs.
  rewrite (proj2 (Z.ltb_ge code 100)), (proj2 (Z.ltb_ge 999 code)),
    (proj2 (Z.leb_gt code 199)) by lia. rewrite andb_false_r. simpl.
  by destruct (declared_length _).
Qed.

(** The data is kept whole where the status allows a body and the declared
    length has room for it, and dropped whole elsewhere. *)
Definition accepts (code : Z) (data : string) (r : Response) : Prop :=
  body_allowed code = true
  ∧ (rw_contentLength r = -1
     ∨ rw_written r + Z.of_nat (String.length data) ≤ rw_contentLength r)%Z.

Lemma resp_Write_done data (r : Response) code h :
  rw_sent r = Some (code, h) →
  ∃ n r', resp_Write data r = (Done n, r')
        ∧ rw_sent r' = Some (code, h)
        ∧ rw_informational r' = rw_informational r
        ∧ String.length (rw_body r') = (String.length (rw_body r) + n)%nat
        ∧ (accepts code data r → rw_body r' = rw_body r +:+ data)
        ∧ (¬ accepts code data r → rw_body r' = rw_body r).
Proof.
  intros Hs. unfold resp_Write, accepts. go_unfold. rewrite Hs, Hs. cbv beta iota.
  destruct (_ =? 0)%nat eqn:El.
  { apply Nat.eqb_eq in El. destruct data; [|done].
    eexists _, _. split_and!; [done..|simpl; lia| |done]. intros _. by rewrite append_nil_r. }
  destruct (body_allowed code).
  2: { eexists _, _. split_and!; [done..|simpl; lia|by intros []|done]. }
  simpl. destruct (negb _ && _)%bool eqn:Ec; (eexists _, _; split_and!; [done..| | |]); simpl.
  - lia.
  - intros [_ Hr]. apply andb_true_iff in Ec as [Ec1 Ec2].
    apply negb_true_iff, Z.eqb_neq in Ec1. apply Z.ltb_lt in Ec2. lia.
  - done.
  - apply length_append.
  - done.
  - intros Hn. destruct Hn. split; [done|].
    apply andb_false_iff in Ec as [Ec%negb_false_iff%Z.eqb_eq|Ec%Z.ltb_ge]; [by left|by right].
Qed.

(** ** The reverse proxy's header removal

    [httputil.ReverseProxy] drops, from the request it sends, the headers named
    in the client's [Connection] header and the hop-by-hop headers.  What it adds
    afterwards (X-Forwarded-For, the headers of a protocol upgrade, an empty
    User-Agent) are names the program neither reads nor sets; they are left
    out. *)

Definition hopHeaders : list string :=
  ["Connection"; "Proxy-Connection"; "Keep-Alive"; "Proxy-Authenticate";
   "Proxy-Authorization"; "Te"; "Trailer"; "Transfer-Encoding"; "Upgrade"].

(** [textproto.TrimString]: ASCII space, tab, CR and LF. *)
Definition TrimString (s : string) : string :=
  let ps := [" "; bs [9%N]; bs [10%N]; bs [13%N]] in
  let l := trim_left (String.length s) ps s in
  String.rev (trim_left (String.length l) ps (String.rev l)).

Definition connection_names (h : Header) : list string :=
  filter (λ n, n ≠ "")
    (map TrimString (f ← default [] (h !! "Connection"); Split f ",")).

Definition removeHopByHopHeaders (h : Header) : Header :=
  foldl Header_Del (foldl Header_Del h (connection_names h)) hopHeaders.

(** ** Lemmas on canonical keys *)

Lemma byte_cases (P : ascii → bool) :
  forallb P (map Ascii.ascii_of_nat (seq 0 256)) = true → ∀ c, P c = true.
Proof.
  rewrite forallb_forall. intros H c. apply H, in_map_iff.
  exists (Ascii.nat_of_ascii c). split; [apply Ascii.ascii_nat_embedding|].
  apply in_seq. pose proof (Ascii.nat_ascii_bounded c). lia.
Qed.

(** Two functions on bytes agree when they agree on all 256 of them. *)
Lemma byte_ext {A} `{EqDecision A} (f g : ascii → A) :
  forallb (λ c, bool_decide (f c = g c)) (map Ascii.ascii_of_nat (seq 0 256)) = true →
  ∀ c, f c = g c.
Proof. intros H c. apply (byte_cases _) with (c := c) in H. by apply bool_decide_eq_true in H. Qed.

Definition lower_byte (c : ascii) : ascii :=
  Ascii.ascii_of_N (ascii_ToLower (byte c)).

Lemma canon_byte_lower u c : canon_byte u c = canon_byte u (lower_byte c).
Proof. apply (byte_ext (λ c, canon_byte u c) (λ c, canon_byte u (lower_byte c))). by destruct u. Qed.

Lemma canon_byte_idem u c : canon_byte u (canon_byte u c) = canon_byte u c.
Proof. apply (byte_ext (λ c, canon_byte u (canon_byte u c)) (λ c, canon_byte u c)). by destruct u. Qed.

Lemma token_canon_byte u c : token_byte (canon_byte u c) = token_byte c.
Proof. apply (byte_ext (λ c, token_byte (canon_byte u c)) (λ c, token_byte c)). by destruct u. Qed.

Lemma lower_string_String c s :
  lower_string (String c s) = String (lower_byte c) (lower_string s).
Proof. done. Qed.

(** The canonical form only depends on the lower-case form. *)
Lemma canon_key_lower u s : canon_key u s = canon_key u (lower_string s).
Proof.
  revert u. induction s as [|c s IH]; intros u; [done|].
  rewrite lower_string_String. simpl. rewrite <- canon_byte_lower. by f_equal.
Qed.

Lemma canon_key_idem u s : canon_key u (canon_key u s) = canon_key u s.
Proof.
  revert u. induction s as [|c s IH]; intros u; [done|]. simpl.
  rewrite canon_byte_idem. by rewrite IH.
Qed.

Lemma token_canon_key u s : all_bytes token_byte (canon_key u s) = all_bytes token_byte s.
Proof.
  revert u. induction s as [|c s IH]; intros u; [done|]. simpl.
  by rewrite token_canon_byte, IH.
Qed.

Lemma CanonicalHeaderKey_idem s :
  CanonicalHeaderKey (CanonicalHeaderKey s) = CanonicalHeaderKey s.
Proof.
  unfold CanonicalHeaderKey. destruct (all_bytes token_byte s) eqn:E.
  - by rewrite token_canon_key, E, canon_key_idem.
  - by rewrite E.
Qed.

Lemma canon_key_append u s t :
  canon_key u (s +:+ t)
  = canon_key u s +:+ canon_key (match String.rev (canon_key u s) with
                                 | EmptyString => u
                                 | String c _ => Ascii.eqb c "-"
                                 end) t.
Proof.
  revert u. induction s as [|c s IH]; intros u; [done|].
  rewrite append_cons. cbn [canon_key]. rewrite IH, append_cons. f_equal. f_equal.
  f_equal. rewrite rev_String.
  by destruct (String.rev (canon_key (Ascii.eqb (canon_byte u c) "-") s)).
Qed.

Lemma server_header_key h k vs :
  server_header h → h !! k = Some vs → CanonicalHeaderKey k = k.
Proof. intros H Hk. destruct (H _ _ Hk) as (Ht & Hc & _). unfold CanonicalHeaderKey. by rewrite Ht. Qed.

Lemma Header_Get_Set h k v : Header_Get (Header_Set h k v) k = v.
Proof. unfold Header_Get, Header_Values, Header_Set. by rewrite lookup_insert_eq. Qed.

Lemma foldl_Header_Del_lookup h ks k :
  foldl Header_Del h ks !! k =
  if decide (k ∈ map CanonicalHeaderKey ks) then None else h !! k.
Proof.
  revert h. induction ks as [|k' ks IH]; intros h; simpl; [done|].
  rewrite IH. unfold Header_Del at 1. rewrite lookup_delete.
  repeat case_decide; rewrite elem_of_cons in *; naive_solver.
Qed.

(** The reverse proxy only ever removes headers. *)
Lemma removeHopByHopHeaders_subset h : removeHopByHopHeaders h ⊆ h.
Proof.
  apply map_subseteq_spec. intros k vs. unfold removeHopByHopHeaders.
  rewrite !foldl_Header_Del_lookup. by repeat case_decide.
Qed.
