(* ===== verification/GoServer.v ===== *)
(** * net/http's Server and Transport

    The settings the program gives its servers and its transport, and a server
    at run time as far as its life is visible to the program: whether it
    listens, and how many connections are active.  [ListenAndServe] runs in a
    goroutine of its own; [Shutdown] closes the listener at once, then waits for
    the active connections. *)

From S2P Require Import Prelude.

(** ** Settings *)

(** Durations are nanoseconds; net/http takes zero for no limit. *)
Record http_Server := mkServer {
  Addr : string;
  srv_ReadHeaderTimeout : Z;
  srv_ReadTimeout : Z;
  srv_WriteTimeout : Z;
  srv_IdleTimeout : Z;
  MaxHeaderBytes : Z
}.

Record http_Transport := mkTransport {
  MaxIdleConns : Z;
  MaxIdleConnsPerHost : Z;
  MaxConnsPerHost : Z;                    (* zero: unlimited *)
  Dialer_Timeout : Z;
  Dialer_KeepAlive : Z;
  TLSHandshakeTimeout : Z;
  ResponseHeaderTimeout : Z;
  ExpectContinueTimeout : Z;
  IdleConnTimeout : Z;
  DisableKeepAlives : bool;
  DisableCompression : bool
}.

(** ** A server at run time *)

Inductive server_state : Type :=
| Unstarted                               (* its goroutine has not listened yet *)
| Listening
| BindFailed                              (* ListenAndServe returned an error *)
| Stopped.                                (* Shutdown was called *)

#[export] Instance server_state_eq_dec : EqDecision server_state.
Proof. solve_decision. Defined.

Record server := mkRunningServer {
  settings : http_Server;
  state : server_state;
  active : nat
}.

Definition new_server (h : http_Server) : server := mkRunningServer h Unstarted 0.

(** The goroutine calls [ListenAndServe], once; [bound]: the address is free.
    After [Shutdown] it returns [ErrServerClosed] at once. *)
Definition ListenAndServe (bound : bool) (s : server) : option server :=
  match state s with
  | Unstarted => Some (mkRunningServer (settings s) (if bound then Listening else BindFailed) (active s))
  | Stopped => Some s
  | _ => None
  end.

(** A client connects and sends a request. *)
Definition accept (s : server) : option server :=
  match state s with
  | Listening => Some (mkRunningServer (settings s) Listening (S (active s)))
  | _ => None
  end.

(** A request ends and its connection is idle. *)
Definition complete (s : server) : option server :=
  match active s with
  | O => None
  | S n => Some (mkRunningServer (settings s) (state s) n)
  end.

(** What [Shutdown] does before it waits. *)
Definition begin_shutdown (s : server) : server :=
  mkRunningServer (settings s) Stopped (active s).

(** When [Shutdown] returns: the connections are idle or its context is done. *)
Definition shutdown_returns (s : server) (deadline now : Z) : bool :=
  (active s =? 0)%nat || (deadline <=? now)%Z.
