(* ===== verification/Config.v ===== *)
(** * internal/config: the configuration and its validation

    [Fields] is the parsed command line (the argument parser is not part of the
    repository: its output is the argument of [New]); durations are
    nanoseconds.  [os.Exit] and panics are outcomes of [startup]. *)

From S2P Require Import Prelude GoStrings GoValue GoHttp.

Local Open Scope Z_scope.

Record Fields := mkFields {
  Verbose : bool;
  Debug : bool;
  PolicyDir : string;
  FilePattern : string;
  RequestRego : string;
  ListenAddr : string;
  MgmtAddr : string;
  AzureTenant : string;
  AuthHeader : string;
  AuthKind : string;
  BackendScheme : string;
  BackendHost : string;
  BackendPort : Z;
  WellKnownURL : list string;
  Audiences : list string;
  AudienceKey : string;
  PermissiveAuth : bool;
  BasicAuthFile : string;
  NoAuth : bool;
  ExposeBlockedHeaders : bool;
  EnvsubstPrefix : string;
  EnvsubstWrapper : string;
  URLMetricsLevel : Z;
  ReadHeaderTimeout : Z;
  ReadTimeout : Z;
  WriteTimeout : Z;
  IdleTimeout : Z;
  BackendDialTimeout : Z;
  BackendResponseTimeout : Z;
  BackendIdleConnTimeout : Z
}.

Definition set_AuthHeader (f : Fields) (h : string) : Fields :=
  mkFields (Verbose f) (Debug f) (PolicyDir f) (FilePattern f) (RequestRego f)
    (ListenAddr f) (MgmtAddr f) (AzureTenant f) h (AuthKind f)
    (BackendScheme f) (BackendHost f) (BackendPort f) (WellKnownURL f)
    (Audiences f) (AudienceKey f) (PermissiveAuth f) (BasicAuthFile f)
    (NoAuth f) (ExposeBlockedHeaders f) (EnvsubstPrefix f) (EnvsubstWrapper f)
    (URLMetricsLevel f) (ReadHeaderTimeout f) (ReadTimeout f) (WriteTimeout f)
    (IdleTimeout f) (BackendDialTimeout f) (BackendResponseTimeout f)
    (BackendIdleConnTimeout f).

(** The [envsubst] package: which prefix and wrapper runes it accepts. *)
Class Envsubst := {
  SetPrefix : N → bool;
  SetWrapper : N → bool
}.

Definition second : Z := 1000000000.
Definition minute : Z := 60 * second.

Section config.
Context `{Envsubst}.

(** [rune(s[0])]: indexing an empty string panics. *)
Definition first_rune (s : string) : startup N :=
  match s with
  | EmptyString => Crashed "index out of range [0] with length 0"
  | String c _ => Started (byte c)
  end.

Definition EnvsubstPrefixRune (f : Fields) : startup N := first_rune (EnvsubstPrefix f).
Definition EnvsubstWrapperRune (f : Fields) : startup N := first_rune (EnvsubstWrapper f).

Definition validateEnvsubst (f : Fields) : startup unit :=
  p ← EnvsubstPrefixRune f;
  exit_if (negb (SetPrefix p)) 1 ;;
  w ← EnvsubstWrapperRune f;
  exit_if (negb (SetWrapper w)) 1.

Definition minTimeout : Z := 1 * second.
Definition maxTimeout : Z := 10 * minute.

Definition timeouts (f : Fields) : list (string * Z) :=
  [("read-header-timeout", ReadHeaderTimeout f);
   ("read-timeout", ReadTimeout f);
   ("write-timeout", WriteTimeout f);
   ("idle-timeout", IdleTimeout f);
   ("backend-dial-timeout", BackendDialTimeout f);
   ("backend-response-timeout", BackendResponseTimeout f);
   ("backend-idle-timeout", BackendIdleConnTimeout f)].

(** The range over the map of timeouts, in the order [l] it takes. *)
Fixpoint check_timeouts (l : list (string * Z)) : startup unit :=
  match l with
  | [] => Started tt
  | (_, t) :: l' =>
      exit_if (t <? minTimeout) 1 ;;
      exit_if (maxTimeout <? t) 1 ;;
      check_timeouts l'
  end.

Definition validateTimeouts (f : Fields) : startup unit :=
  check_timeouts (timeouts f) ;;
  exit_if (ReadTimeout f <? ReadHeaderTimeout f) 1.

Definition authCount (f : Fields) : Z :=
  let one (b : bool) := if b then 1 else 0 in
  one (negb (String.eqb (AzureTenant f) ""))
  + one (0 <? Z.of_nat (length (WellKnownURL f)))
  + one (negb (String.eqb (BasicAuthFile f) ""))
  + one (NoAuth f).

(** [New] after [arg.MustParse] has filled [f]. *)
Definition New (f : Fields) : startup Fields :=
  validateEnvsubst f ;;
  validateTimeouts f ;;
  exit_if (1 <? authCount f) 1 ;;
  exit_if ((0 <? Z.of_nat (length (WellKnownURL f)))
           && (Z.of_nat (length (Audiences f)) =? 0)) 1 ;;
  exit_if (Z.of_nat (String.length (AuthHeader f)) =? 0) 1 ;;
  mret (set_AuthHeader f (CanonicalHeaderKey (AuthHeader f))).

(** ** What an accepted configuration satisfies *)

Definition timeout_ok (t : Z) : Prop := second ≤ t ≤ 600 * second.

(** How many of the four kinds of authentication are configured. *)
Definition configured_providers (f : Fields) : nat :=
  length (filter (λ b, b = true)
    [bool_decide (AzureTenant f ≠ ""); bool_decide (WellKnownURL f ≠ []);
     bool_decide (BasicAuthFile f ≠ ""); NoAuth f]).

Record valid_config (f : Fields) : Prop := {
  vc_prefix : ∃ c s, EnvsubstPrefix f = String c s ∧ SetPrefix (byte c) = true;
  vc_wrapper : ∃ c s, EnvsubstWrapper f = String c s ∧ SetWrapper (byte c) = true;
  vc_timeouts : Forall timeout_ok
    [ReadHeaderTimeout f; ReadTimeout f; WriteTimeout f; IdleTimeout f;
     BackendDialTimeout f; BackendResponseTimeout f; BackendIdleConnTimeout f];
  vc_read : ReadHeaderTimeout f ≤ ReadTimeout f;
  vc_auth : (configured_providers f ≤ 1)%nat;
  vc_audiences : WellKnownURL f ≠ [] → Audiences f ≠ [];
  vc_header : AuthHeader f ≠ ""
}.

Lemma authCount_configured f : authCount f = Z.of_nat (configured_providers f).
Proof.
  unfold authCount, configured_providers.
  destruct (AzureTenant f), (WellKnownURL f), (BasicAuthFile f), (NoAuth f); done.
Qed.

Lemma valid_authCount f : valid_config f → authCount f ≤ 1.
Proof. intros [????? _ _]. rewrite authCount_configured. lia. Qed.

Lemma first_rune_started s n :
  first_rune s = Started n ↔ ∃ c r, s = String c r ∧ n = byte c.
Proof. destruct s; simpl; naive_solver. Qed.

Lemma check_timeouts_started l :
  check_timeouts l = Started tt ↔ Forall (λ e, timeout_ok e.2) l.
Proof.
  induction l as [|[k t] l IH]; [done|]. cbn [check_timeouts].
  rewrite !startup_seq_started, !exit_if_started, IH, Forall_cons, !Z.ltb_ge.
  unfold timeout_ok, minTimeout, maxTimeout, minute. simpl. split.
  - intros (? & ? & ?). split; [lia|done].
  - intros [? ?]. repeat split; [lia..|done].
Qed.

Lemma rune_accepted_started s (p : N → bool) :
  (c ← first_rune s; exit_if (negb (p c)) 1) = Started tt ↔
  ∃ c r, s = String c r ∧ p (byte c) = true.
Proof.
  rewrite startup_bind_started. split.
  - intros (n & (c & r & -> & ->)%first_rune_started & Hp).
    apply exit_if_started, negb_false_iff in Hp. eauto.
  - intros (c & r & -> & Hp). exists (byte c). by rewrite Hp.
Qed.

Lemma validateEnvsubst_started f :
  validateEnvsubst f = Started tt ↔
  (∃ c s, EnvsubstPrefix f = String c s ∧ SetPrefix (byte c) = true)
  ∧ (∃ c s, EnvsubstWrapper f = String c s ∧ SetWrapper (byte c) = true).
Proof.
  rewrite <- !rune_accepted_started. unfold validateEnvsubst.
  unfold EnvsubstPrefixRune, EnvsubstWrapperRune.
  destruct (first_rune (EnvsubstPrefix f)) as [p| |]; unfold mbind; simpl;
    [|naive_solver..].
  destruct (SetPrefix p); simpl; naive_solver.
Qed.

Lemma validateTimeouts_started f :
  validateTimeouts f = Started tt ↔
  Forall (λ e, timeout_ok e.2) (timeouts f) ∧ ReadHeaderTimeout f ≤ ReadTimeout f.
Proof.
  unfold validateTimeouts.
  by rewrite startup_seq_started, check_timeouts_started, exit_if_started, Z.ltb_ge.
Qed.

Lemma New_started f f' :
  New f = Started f' ↔
  valid_config f ∧ f' = set_AuthHeader f (CanonicalHeaderKey (AuthHeader f)).
Proof.
  unfold New. rewrite !startup_seq_started, validateEnvsubst_started,
    validateTimeouts_started, !exit_if_started, Z.ltb_ge, authCount_configured.
  assert (Hc : Z.of_nat (configured_providers f) ≤ 1 ↔ (configured_providers f ≤ 1)%nat) by lia.
  rewrite Hc. clear Hc.
  assert (Hwk : (0 <? Z.of_nat (length (WellKnownURL f)))
                && (Z.of_nat (length (Audiences f)) =? 0) = false
                ↔ (WellKnownURL f ≠ [] → Audiences f ≠ [])).
  { destruct (WellKnownURL f), (Audiences f); simpl; split; try done.
    intros Hw. by destruct Hw. }
  assert (Hh : (Z.of_nat (String.length (AuthHeader f)) =? 0) = false
               ↔ AuthHeader f ≠ "") by (destruct (AuthHeader f); simpl; split; congruence || done).
  rewrite Hwk, Hh. unfold timeouts. rewrite !Forall_cons. split.
  - intros ((? & ?) & (? & ?) & ? & ? & ? & [= <-]).
    split; [|done]. split; try done.
    rewrite !Forall_cons. destruct_and!. split_and!; done || constructor.
  - intros [[?? Ht ????] ->]. rewrite !Forall_cons in Ht. destruct_and!.
    split_and!; done || constructor.
Qed.

(** C38: the program accepts exactly the configurations that are valid: a prefix
    and a wrapper that envsubst accepts, all seven timeouts between one second
    and ten minutes with the header's within the read timeout, at most one
    authentication provider, audiences for well-known URLs, and a non-empty
    authorization header, which it only puts into canonical form. *)
Theorem config_accepts_iff f f' :
  New f = Started f' ↔
  valid_config f ∧ f' = set_AuthHeader f (CanonicalHeaderKey (AuthHeader f)).
Proof. apply New_started. Qed.
End config.
