(* ===== verification/Types.v ===== *)
(** * internal/types: the request information and the interfaces

    [NewInfo] (request.go) builds what the policy sees of a request;
    [AuthProvider] and [Validator] (types.go) are the interfaces the router is
    written against, with the laws its theorems use in [LawfulAuth]. *)

From S2P Require Import Prelude GoStrings GoBase64 GoValue GoHttp.

(** ** Data *)

Record RequestAuth := mkAuth {
  Kind : string;
  Token : string;
  AuthUser : string;
  Password : string
}.

Record RequestInfo := mkRequestInfo {
  Method : string;
  Path : list string;
  Headers : gmap string value;
  BlockedHeaders : option (gmap string value);    (* nil map: None *)
  Auth : option RequestAuth;                      (* nil pointer: None *)
  Size : Z;
  ID : string
}.

Record Info := mkInfo {
  RequestPart : RequestInfo;                      (* field Request *)
  JWT : value;
  User : value;
  ResultOf : value;                               (* field Result *)
  URL : string
}.

(** An [*http.Request] as the handlers see it.  Its header map is shared by
    every copy of the request and lives in the store of the handlers; the
    context carries a pointer to the [Info] and the blocked headers. *)
Record Request := mkRequest {
  req_Method : string;
  req_Path : string;
  req_ContentLength : Z;
  ctx_info : option nat;
  ctx_blocked : option (gmap string value)
}.

(** Field updates. *)
Definition set_RequestPart (f : RequestInfo → RequestInfo) (i : Info) : Info :=
  mkInfo (f (RequestPart i)) (JWT i) (User i) (ResultOf i) (URL i).
Definition set_JWT (v : value) (i : Info) : Info :=
  mkInfo (RequestPart i) v (User i) (ResultOf i) (URL i).
Definition set_User (v : value) (i : Info) : Info :=
  mkInfo (RequestPart i) (JWT i) v (ResultOf i) (URL i).
Definition set_Result (v : value) (i : Info) : Info :=
  mkInfo (RequestPart i) (JWT i) (User i) v (URL i).
Definition set_URL (u : string) (i : Info) : Info :=
  mkInfo (RequestPart i) (JWT i) (User i) (ResultOf i) u.
Definition set_ID (id : string) (q : RequestInfo) : RequestInfo :=
  mkRequestInfo (Method q) (Path q) (Headers q) (BlockedHeaders q) (Auth q) (Size q) id.
Definition set_Auth (a : option RequestAuth) (q : RequestInfo) : RequestInfo :=
  mkRequestInfo (Method q) (Path q) (Headers q) (BlockedHeaders q) a (Size q) (ID q).
Definition set_Password (p : string) (a : RequestAuth) : RequestAuth :=
  mkAuth (Kind a) (Token a) (AuthUser a) p.

(** ** Operations *)

(** errors.go. *)
Definition IsAuthenticationError (e : error) : bool :=
  errors_Is e ErrAuthenticationFailed || errors_Is e ErrAuthenticationUnavailable.

Definition GetBlockedHeaders (r : Request) : option (gmap string value) := ctx_blocked r.

Definition TruncateURLForMetrics (path : string) (segments : list string)
    (level : Z) : string :=
  if (level <? 0)%Z then path
  else if (level =? 0)%Z then "/"
  else "/" +:+ Join (take (Z.to_nat (Z.min level (Z.of_nat (length segments)))) segments) "/".

(** A header's values as stored in [Headers]. *)
Definition header_value (vs : list string) : value :=
  match vs with [v] => VStr v | _ => VStrs vs end.

Section with_unicode.
Context `{Unicode}.

(** The [RequestAuth] of an authorization header (lines 88-106). *)
Definition parse_auth (authHdr : string) : RequestAuth :=
  let a :=
    match SplitN2 authHdr " " with
    | [kind; token] => mkAuth (ToLower kind) (TrimSpace token) "" ""
    | parts => mkAuth "" (default "" (head parts)) "" ""
    end in
  if EqualFold (Kind a) "basic" then
    match DecodeString (Token a) with
    | Some userpwd =>
        match SplitN2 userpwd ":" with
        | [u; p] => mkAuth (Kind a) (Token a) u p
        | parts => mkAuth (Kind a) (Token a) (default "" (head parts)) ""
        end
    | None => a
    end
  else a.

(** The type assertion [authHdr.(string)] panics on a header that is stored
    as a slice. *)
Definition NewInfo (r : Request) (header : Header) (authKey : string)
    (urlMetricsLevel : Z) : outcome Info :=
  let path := Split (TrimPrefix (req_Path r) "/") "/" in
  let headers := header_value <$> header in
  let blocked :=
    match GetBlockedHeaders r with
    | Some m => if (0 <? size m)%nat then Some m else None
    | None => None
    end in
  let mk auth :=
    mkInfo (mkRequestInfo (req_Method r) path headers blocked auth
              (req_ContentLength r) "")
      VNil VNil VNil (TruncateURLForMetrics (req_Path r) path urlMetricsLevel) in
  match headers !! authKey with
  | None => Done (mk None)
  | Some (VStr authHdr) => Done (mk (Some (parse_auth authHdr)))
  | Some _ => Panic "interface conversion: interface {} is []string, not string"
  end.

(** The token and whether the header is a bearer authorization. *)
Definition GetBearerToken (header : Header) (authHeader : string) : string * bool :=
  match SplitN2 (Header_Get header authHeader) " " with
  | [kind; token] => if EqualFold kind "bearer" then (token, true) else ("", false)
  | _ => ("", false)
  end.
End with_unicode.

(** [RequestWithInfo] and [GetInfo]: the context slot for the info pointer, and
    the info it points to in a store of infos. *)
Definition RequestWithInfo (l : nat) (r : Request) : Request :=
  mkRequest (req_Method r) (req_Path r) (req_ContentLength r) (Some l) (ctx_blocked r).

Definition GetInfo (r : Request) : option nat := ctx_info r.

(** ** Interfaces *)

Class AuthProvider (P : Type) := {
  Authenticate : Request → Header → go (Info * P) (option error);
  WWWAuthenticate : P → option string       (* AuthChallenger, when implemented *)
}.

Class Validator (V : Type) := {
  Validate : string → Info → go V (result value)
}.

(** What authentication leaves alone: everything the router itself reads or the
    policy sees of the request, but the identity and the password. *)
Record same_request (i i' : Info) : Prop := {
  sr_method : Method (RequestPart i') = Method (RequestPart i);
  sr_path : Path (RequestPart i') = Path (RequestPart i);
  sr_headers : Headers (RequestPart i') = Headers (RequestPart i);
  sr_blocked : BlockedHeaders (RequestPart i') = BlockedHeaders (RequestPart i);
  sr_size : Size (RequestPart i') = Size (RequestPart i);
  sr_result : ResultOf i' = ResultOf i;
  sr_url : URL i' = URL i
}.

#[export] Instance same_request_preorder : PreOrder same_request.
Proof. split; [by split|]. intros ??? [] []; split; congruence. Qed.

(** The contract of an authentication provider. *)
Class LawfulAuth (P : Type) `{AuthProvider P} : Prop := {
  auth_frame r h i p o i' p' :
    Authenticate r h (i, p) = (o, (i', p')) → same_request i i';
  auth_error_known r h i p e i' p' :
    Authenticate r h (i, p) = (Done (Some e), (i', p')) →
    e = ErrAuthenticationFailed ∨ e = ErrAuthenticationUnavailable;
  auth_error_anonymous r h i p e i' p' :
    Authenticate r h (i, p) = (Done (Some e), (i', p')) →
    JWT i' = JWT i ∧ User i' = User i
}.

(** ** Path and metrics label *)

(** The path segments the policy sees are a lossless view of the request
    path: for a path that starts with a slash, joining them with slashes gives
    the rest of the path back, and no segment contains a slash. *)
Theorem NewInfo_path_roundtrip `{Unicode} r h k level i p :
  req_Path r = "/" +:+ p →
  NewInfo r h k level = Done i →
  "/" +:+ Join (Path (RequestPart i)) "/" = req_Path r
  ∧ Forall (λ s, byte_in "/" s = false) (Path (RequestPart i)).
Proof.
  intros Hp Hi. unfold NewInfo in Hi.
  assert (Path (RequestPart i) = Split (TrimPrefix (req_Path r) "/") "/") as ->
    by (repeat case_match; by simplify_eq).
  rewrite Hp, TrimPrefix_append. split; [|apply Split_no_sep].
  by rewrite (Join_Split p "/").
Qed.

Example NewInfo_path_roundtrip_witness :
  ∃ i, NewInfo (mkRequest "GET" "/api//users/" 0 None None) ∅ "Authorization" 0 = Done i
       ∧ Path (RequestPart i) = ["api"; ""; "users"; ""]
       ∧ "/" +:+ Join (Path (RequestPart i)) "/" = "/api//users/".
Proof.
  eexists. split; [reflexivity|]. split; [reflexivity|].
  exact (proj1 (NewInfo_path_roundtrip (mkRequest "GET" "/api//users/" 0 None None)
    ∅ "Authorization" 0 _ "api//users/" eq_refl eq_refl)).
Defined.

Lemma Join_take_prefix (l : list string) sep n :
  (0 < n)%nat → ∃ rest, Join l sep = Join (take n l) sep +:+ rest.
Proof.
  revert n. induction l as [|x l IH]; intros [|n] Hn; try lia.
  { by exists "". }
  destruct l as [|y l].
  { exists "". destruct n; simpl; by rewrite append_nil_r. }
  destruct n as [|n].
  { exists (sep +:+ Join (y :: l) sep). done. }
  destruct (IH (S n)) as [rest Hr]; [lia|]. exists rest.
  rewrite Join_cons, Hr. simpl take. rewrite Join_cons, !append_assoc. done.
Qed.

(** With a positive level N the label [TruncateURLForMetrics] gives to a
    request is a prefix of the request path made of exactly its first
    min(N, number of segments) segments, so it never has more than N of them. *)
Theorem TruncateURLForMetrics_segments p level :
  (0 < level)%Z →
  let segs := Split p "/" in
  let label := TruncateURLForMetrics ("/" +:+ p) segs level in
  Split (TrimPrefix label "/") "/" = take (Z.to_nat level) segs
  ∧ (Z.of_nat (length (Split (TrimPrefix label "/") "/")) ≤ level)%Z
  ∧ HasPrefix ("/" +:+ p) label = true.
Proof.
  intros Hl segs label.
  assert (Ht : take (Z.to_nat (Z.min level (Z.of_nat (length segs)))) segs
               = take (Z.to_nat level) segs).
  { destruct (Z.le_ge_cases level (Z.of_nat (length segs))).
    - by rewrite Z.min_l.
    - rewrite Z.min_r, Nat2Z.id, !take_ge by lia. done. }
  assert (Hlab : label = "/" +:+ Join (take (Z.to_nat level) segs) "/").
  { unfold label, TruncateURLForMetrics. rewrite Ht.
    rewrite (proj2 (Z.ltb_ge _ _)), (proj2 (Z.eqb_neq _ _)) by lia. done. }
  assert (Hsplit : Split (TrimPrefix label "/") "/" = take (Z.to_nat level) segs).
  { rewrite Hlab, TrimPrefix_append. apply Split_Join.
    - destruct (Split_cons p "/") as (x & t & E). unfold segs. rewrite E.
      destruct (Z.to_nat level) eqn:?; [lia|done].
    - apply Forall_take, Split_no_sep. }
  split; [done|]. rewrite Hsplit. split; [rewrite length_take; lia|].
  rewrite Hlab. apply HasPrefix_spec.
  destruct (Join_take_prefix segs "/" (Z.to_nat level)) as [rest Hr]; [lia|].
  exists rest. rewrite append_assoc, <- Hr. f_equal. symmetry. apply Join_Split.
Qed.

Example TruncateURLForMetrics_segments_witness :
  TruncateURLForMetrics "/a/b/c" (Split "a/b/c" "/") 2 = "/a/b"
  ∧ HasPrefix "/a/b/c" (TruncateURLForMetrics "/a/b/c" (Split "a/b/c" "/") 2) = true.
Proof.
  split; [reflexivity|].
  exact (proj2 (proj2 (TruncateURLForMetrics_segments "a/b/c" 2 eq_refl))).
Defined.

(** ** Authorization header *)

Lemma NewInfo_Auth_single `{Unicode} r h k level v :
  h !! k = Some [v] →
  ∃ i, NewInfo r h k level = Done i ∧ Auth (RequestPart i) = Some (parse_auth v).
Proof.
  intros Hk. unfold NewInfo. rewrite lookup_fmap, Hk. simpl. eexists. by split.
Qed.

Lemma NewInfo_basic `{Unicode} r h k level scheme user pwd :
  ascii_only scheme = true → lower_string scheme = "basic" →
  byte_in ":" user = false →
  h !! k = Some [scheme +:+ " " +:+ EncodeToString (user +:+ ":" +:+ pwd)] →
  ∃ i, NewInfo r h k level = Done i
       ∧ Auth (RequestPart i)
         = Some (mkAuth "basic" (EncodeToString (user +:+ ":" +:+ pwd)) user pwd).
Proof.
  intros Hasc Hlow Hcolon Hk.
  destruct (NewInfo_Auth_single r h k level _ Hk) as (i & Hi & Ha).
  exists i. split; [done|]. rewrite Ha. f_equal.
  set (enc := EncodeToString (user +:+ ":" +:+ pwd)).
  assert (Henc : all_bytes visible enc = true) by apply EncodeToString_visible.
  assert (Hsp : byte_in " " scheme = false).
  { destruct (byte_in " " scheme) eqn:E; [|done]. exfalso. clear -Hlow E.
    assert (Hb : byte_in " " (lower_string scheme) = true); [|by rewrite Hlow in Hb].
    clear Hlow. induction scheme as [|c s IH]; [done|].
    rewrite lower_string_String. simpl in *.
    destruct (Ascii.eqb_spec c " ") as [->|]; [done|].
    rewrite IH by done. apply orb_true_r. }
  unfold parse_auth. rewrite SplitN2_append by done.
  rewrite ToLower_ascii, Hlow, TrimSpace_visible by done. cbn [Kind Token].
  rewrite EqualFold_refl. unfold enc. rewrite DecodeString_EncodeToString.
  by rewrite SplitN2_append.
Qed.

(** A client that sends "<scheme> base64(user:password)", the scheme being
    "basic" in any ASCII case and the user name without a colon, is seen with
    exactly that user and password, whatever bytes the password has. *)
Theorem NewInfo_basic_roundtrip `{Unicode} r h k level scheme user pwd :
  ascii_only scheme = true → lower_string scheme = "basic" →
  byte_in ":" user = false →
  h !! k = Some [scheme +:+ " " +:+ EncodeToString (user +:+ ":" +:+ pwd)] →
  ∃ i, NewInfo r h k level = Done i
       ∧ Auth (RequestPart i)
         = Some (mkAuth "basic" (EncodeToString (user +:+ ":" +:+ pwd)) user pwd).
Proof. apply NewInfo_basic. Qed.

Example NewInfo_basic_roundtrip_witness :
  ∃ i, NewInfo (mkRequest "GET" "/" 0 None None)
         {["Authorization" := ["Basic dTpwOncx"]]} "Authorization" 0 = Done i
       ∧ Auth (RequestPart i) = Some (mkAuth "basic" "dTpwOncx" "u" "p:w1").
Proof.
  exact (NewInfo_basic_roundtrip (mkRequest "GET" "/" 0 None None)
    {["Authorization" := ["Basic dTpwOncx"]]} "Authorization" 0 "Basic" "u" "p:w1"
    eq_refl eq_refl eq_refl eq_refl).
Defined.

(** C30: building the request information panics exactly when the request has
    the configured authorization header with a number of values other than one
    (two "Authorization" lines are enough): the header is then stored as a
    slice and the assertion to string fails.  A request without the header does
    not panic. *)
Theorem NewInfo_panics_iff `{Unicode} r h k level :
  (∃ w, NewInfo r h k level = Panic w) ↔ ∃ vs, h !! k = Some vs ∧ length vs ≠ 1%nat.
Proof.
  unfold NewInfo. rewrite lookup_fmap. destruct (h !! k) as [vs|]; simpl.
  - destruct vs as [|v [|v' vs]]; simpl; split.
    + eauto.
    + eauto.
    + by intros [? [=]].
    + by intros (vs & [= <-] & Hn).
    + eauto.
    + eauto.
  - split; [by intros [? [=]]|by intros (vs & [=] & _)].
Qed.

(** The bearer token the Azure provider reads from the header and the one
    recorded for the policy agree: when [GetBearerToken] succeeds, the recorded
    authorization has kind "bearer" and the same token with the surrounding
    white space removed. *)
Theorem GetBearerToken_agrees `{Unicode} r h k level v token i :
  CanonicalHeaderKey k = k → h !! k = Some [v] →
  GetBearerToken h k = (token, true) →
  NewInfo r h k level = Done i →
  Auth (RequestPart i) = Some (mkAuth "bearer" (TrimSpace token) "" "").
Proof.
  intros Hc Hk Hb Hi.
  destruct (NewInfo_Auth_single r h k level _ Hk) as (i' & Hi' & Ha).
  rewrite Hi in Hi'. injection Hi' as <-. rewrite Ha. f_equal.
  unfold GetBearerToken, Header_Get, Header_Values in Hb. rewrite Hc, Hk in Hb.
  simpl in Hb. unfold parse_auth.
  destruct (SplitN2 v " ") as [|kind [|tok [|? ?]]]; try done.
  destruct (EqualFold kind "bearer") eqn:E; [|done].
  apply EqualFold_plain in E as [Hasc Hlow]; [|done].
  rewrite ToLower_ascii, Hlow by done. simplify_eq. cbn [Kind Token].
  by rewrite EqualFold_ascii.
Qed.

Example GetBearerToken_agrees_witness :
  ∃ i, NewInfo (mkRequest "GET" "/" 0 None None)
         {["Authorization" := ["BEARER  a.b.c "]]} "Authorization" 0 = Done i
       ∧ Auth (RequestPart i) = Some (mkAuth "bearer" (TrimSpace " a.b.c ") "" "").
Proof.
  eexists. split; [reflexivity|].
  exact (GetBearerToken_agrees (mkRequest "GET" "/" 0 None None)
    {["Authorization" := ["BEARER  a.b.c "]]} "Authorization" 0 "BEARER  a.b.c "
    " a.b.c " _ eq_refl eq_refl eq_refl eq_refl).
Defined.
