(* ===== verification/Metrics.v ===== *)
(** * internal/metrics: the collectors

    The registered collectors as maps from label values to what they counted or
    observed, and the registry [New] builds.  Durations depend on the clock, so
    only their number is kept. *)

From S2P Require Import Prelude GoStrings GoValue GoHttp.
From stdpp Require Import pretty.
From Stdlib Require QArith.QArith_base.
Import QArith_base(Q, Qmake).

(** Values of the labels "method", "code", "url". *)
Abbreviation labels := (string * string * string)%type.

Record Metrics := mkMetrics {
  requestsTotal : gmap labels nat;
  requestDuration : gmap labels nat;            (* number of observations *)
  requestSize : gmap labels (list Z);
  responseSize : gmap labels (list Z);
  blockedHeadersExposed : Z;
  blockedHeadersCaptured : Z;
  requestsWithBlockedHeaders : Z
}.

(** [strconv.Itoa]. *)
Definition Itoa (n : Z) : string := pretty n.

(** The kinds of collectors; a vector has label names.  [buckets]: start, factor
    and count of [prometheus.ExponentialBuckets]. *)
Inductive collector : Type :=
| CounterVec (labelNames : list string)
| HistogramVec (buckets : Q * Q * nat) (labelNames : list string)
| SummaryVec (labelNames : list string)
| Gauge
| Counter.

Definition labelNames : list string := ["method"; "code"; "url"].
Definition buckets : Q * Q * nat := (Qmake 1 10, Qmake 3 2, 5%nat).

(** What [New] registers, in order. *)
Definition collectors : list (string * collector) :=
  [("http_requests_total", CounterVec labelNames);
   ("http_request_duration_seconds", HistogramVec buckets labelNames);
   ("http_request_size_bytes", SummaryVec labelNames);
   ("http_response_size_bytes", SummaryVec labelNames);
   ("restrego_blocked_headers_exposed", Gauge);
   ("restrego_blocked_headers_captured_total", Counter);
   ("restrego_requests_with_blocked_headers_total", Counter)].

Abbreviation registry := (gmap string collector).

(** [promauto] registers at once and panics when the name is taken. *)
Definition register (e : string * collector) (reg : registry) : outcome registry :=
  match reg !! e.1 with
  | Some _ => Panic "duplicate metrics collector registration attempted"
  | None => Done (<[e.1 := e.2]> reg)
  end.

Fixpoint register_all (l : list (string * collector)) (reg : registry) : outcome registry :=
  match l with
  | [] => Done reg
  | e :: l' => match register e reg with
               | Done reg' => register_all l' reg'
               | Panic why => Panic why
               end
  end.

(** [New]: the registry with the program's collectors (the Go runtime's and the
    process's are the library's), and the values they start with. *)
Definition New_registry : outcome registry := register_all collectors ∅.
Definition New : Metrics := mkMetrics ∅ ∅ ∅ ∅ 0 0 0.

(** Registering distinct names never panics and registers exactly them. *)
Lemma register_all_distinct l reg :
  NoDup l.*1 → (∀ n, n ∈ l.*1 → reg !! n = None) →
  ∃ reg', register_all l reg = Done reg'
          ∧ ∀ n k, reg' !! n = Some k ↔ (n, k) ∈ l ∨ reg !! n = Some k.
Proof.
  revert reg. induction l as [|[n k] l IH]; intros reg Hnd Hfree.
  { exists reg. split; [done|]. intros n k. split; [by right|].
    by intros [?%elem_of_nil|]. }
  apply NoDup_cons in Hnd as [Hn Hnd]. simpl. unfold register. simpl.
  rewrite Hfree by by left.
  destruct (IH (<[n := k]> reg)) as (reg' & E & Hl); [done| |].
  { intros m Hm. rewrite lookup_insert_ne by (intros ->; done). apply Hfree. by right. }
  exists reg'. split; [done|]. intros m k'. rewrite Hl, lookup_insert_Some, elem_of_cons.
  split; [intros [?|[[-> ->]|[? ?]]]; auto|]. intros [[[= -> ->]|?]|Hr]; auto.
  right. right. split; [|done]. intros ->. rewrite Hfree in Hr; [done|by left].
Qed.

Lemma New_registers :
  ∃ reg, New_registry = Done reg ∧ ∀ n k, reg !! n = Some k ↔ (n, k) ∈ collectors.
Proof.
  destruct (register_all_distinct collectors ∅) as (reg & E & Hl).
  - by apply (bool_decide_eq_true_1 (NoDup collectors.*1)).
  - done.
  - exists reg. split; [exact E|]. intros n k. rewrite Hl, lookup_empty.
    split; [by intros [?|]|by left].
Qed.

Definition SetBlockedHeadersExposed (enabled : bool) (m : Metrics) : Metrics :=
  mkMetrics (requestsTotal m) (requestDuration m) (requestSize m)
    (responseSize m) (if enabled then 1 else 0) (blockedHeadersCaptured m)
    (requestsWithBlockedHeaders m).

Definition IncrementBlockedHeadersCaptured (count : Z) (m : Metrics) : Metrics :=
  mkMetrics (requestsTotal m) (requestDuration m) (requestSize m)
    (responseSize m) (blockedHeadersExposed m)
    (blockedHeadersCaptured m + count) (requestsWithBlockedHeaders m).

Definition IncrementRequestsWithBlockedHeaders (m : Metrics) : Metrics :=
  mkMetrics (requestsTotal m) (requestDuration m) (requestSize m)
    (responseSize m) (blockedHeadersExposed m) (blockedHeadersCaptured m)
    (requestsWithBlockedHeaders m + 1).

(** [x.WithLabelValues(ls...)] followed by [Observe] or [Inc]. *)
Definition observe (ls : labels) (v : Z) (m : gmap labels (list Z)) :=
  <[ls := default [] (m !! ls) ++ [v]]> m.
Definition inc (ls : labels) (m : gmap labels nat) :=
  <[ls := S (default 0 (m !! ls))]> m.

(** The four updates of [Wrap] once the labels are known. *)
Definition record_request (ls : labels) (reqSize respSize : Z) (m : Metrics) : Metrics :=
  mkMetrics (inc ls (requestsTotal m)) (inc ls (requestDuration m))
    (observe ls reqSize (requestSize m)) (observe ls respSize (responseSize m))
    (blockedHeadersExposed m) (blockedHeadersCaptured m)
    (requestsWithBlockedHeaders m).

(** Requests counted so far under any label. *)
Definition total_requests (m : Metrics) : nat :=
  map_fold (λ _ n acc, n + acc) 0 (requestsTotal m).

Lemma total_requests_record ls a b m :
  total_requests (record_request ls a b m) = S (total_requests m).
Proof.
  unfold total_requests, record_request, inc. simpl.
  destruct (requestsTotal m !! ls) as [n|] eqn:E; simpl.
  - rewrite <- (insert_id (requestsTotal m) ls n E) at 2.
    rewrite <- !(insert_delete_eq (requestsTotal m)).
    rewrite !map_fold_insert_L; [lia|..]; try apply lookup_delete_eq; intros; lia.
  - rewrite map_fold_insert_L; [done|intros; lia|done].
Qed.

(** What one request leaves in the collectors: one count and one observation of
    each kind under its labels, and nothing else. *)
Record recorded_once (ls : labels) (reqSize respSize : Z) (m m' : Metrics) : Prop := {
  once_total k : default 0 (requestsTotal m' !! k)
                 = default 0 (requestsTotal m !! k) + (if decide (k = ls) then 1 else 0);
  once_duration k : default 0 (requestDuration m' !! k)
                    = default 0 (requestDuration m !! k) + (if decide (k = ls) then 1 else 0);
  once_request k : default [] (requestSize m' !! k)
                   = default [] (requestSize m !! k) ++ (if decide (k = ls) then [reqSize] else []);
  once_response k : default [] (responseSize m' !! k)
                    = default [] (responseSize m !! k) ++ (if decide (k = ls) then [respSize] else []);
  once_exposed : blockedHeadersExposed m' = blockedHeadersExposed m;
  once_captured : blockedHeadersCaptured m' = blockedHeadersCaptured m;
  once_blocked : requestsWithBlockedHeaders m' = requestsWithBlockedHeaders m
}.

Lemma inc_lookup ls m k :
  default 0 (inc ls m !! k) = default 0 (m !! k) + (if decide (k = ls) then 1 else 0).
Proof.
  unfold inc. destruct (decide (k = ls)) as [->|Hne].
  - rewrite lookup_insert_eq. simpl. lia.
  - rewrite lookup_insert_ne by done. lia.
Qed.

Lemma observe_lookup ls v m k :
  default [] (observe ls v m !! k) = default [] (m !! k) ++ (if decide (k = ls) then [v] else []).
Proof.
  unfold observe. destruct (decide (k = ls)) as [->|Hne].
  - by rewrite lookup_insert_eq.
  - rewrite lookup_insert_ne by done. by rewrite app_nil_r.
Qed.

Lemma record_request_once ls rq rs m : recorded_once ls rq rs m (record_request ls rq rs m).
Proof. split; simpl; done || intros k; apply inc_lookup || apply observe_lookup. Qed.
