(* ===== verification/Server.v ===== *)
(** * The store of a request and the response writers

    The router's handlers share, for one request, the infos they allocate, the
    request's header map, the response, and the process-wide metrics, provider
    and validator: the record [World].  [responseTracker] is router/wrap.go's
    wrapper of the server's response writer. *)

From S2P Require Import Prelude GoStrings GoValue GoHttp Types Metrics.

(** The tracker's own fields; the writer it embeds is the server's. *)
Record responseTracker := mkTracker {
  status : Z;
  respSize : Z;                              (* field size *)
  wroteHeader : bool
}.

(** The backend's answer to a forwarded request: an error of the transport, or
    informational (1xx) responses followed by the response. *)
Inductive backend_reply :=
| BackendError (why : string)
| BackendReply (informational : list Z) (code : Z) (h : Header) (body : string).

Record World (P V : Type) := mkWorld {
  infos : list Info;                          (* heap of *types.Info *)
  header : Header;                            (* r.Header *)
  response : Response;
  tracker : responseTracker;
  metrics : Metrics;
  provider : P;
  validator : V;
  backend_calls : list (Request * Header)     (* requests sent to the backend *)
}.
Arguments mkWorld {P V}.
Arguments infos {P V}. Arguments header {P V}. Arguments response {P V}.
Arguments tracker {P V}. Arguments metrics {P V}. Arguments provider {P V}.
Arguments validator {P V}. Arguments backend_calls {P V}.

(** The writer a handler is given: the server's or the tracker around it. *)
Inductive Writer := ServerWriter | TrackedWriter.

Section world.
Context {P V : Type}.
Local Abbreviation W := (World P V).

Definition Handler : Type := Writer → Request → go W unit.

Definition set_infos x (w : W) : W := mkWorld x (header w) (response w) (tracker w)
  (metrics w) (provider w) (validator w) (backend_calls w).
Definition set_header x (w : W) : W := mkWorld (infos w) x (response w) (tracker w)
  (metrics w) (provider w) (validator w) (backend_calls w).
Definition set_response x (w : W) : W := mkWorld (infos w) (header w) x (tracker w)
  (metrics w) (provider w) (validator w) (backend_calls w).
Definition set_tracker x (w : W) : W := mkWorld (infos w) (header w) (response w) x
  (metrics w) (provider w) (validator w) (backend_calls w).
Definition set_metrics x (w : W) : W := mkWorld (infos w) (header w) (response w)
  (tracker w) x (provider w) (validator w) (backend_calls w).
Definition set_provider x (w : W) : W := mkWorld (infos w) (header w) (response w)
  (tracker w) (metrics w) x (validator w) (backend_calls w).
Definition set_validator x (w : W) : W := mkWorld (infos w) (header w) (response w)
  (tracker w) (metrics w) (provider w) x (backend_calls w).
Definition set_backend_calls x (w : W) : W := mkWorld (infos w) (header w) (response w)
  (tracker w) (metrics w) (provider w) (validator w) x.

Definition modify_header (f : Header → Header) : go W unit :=
  go_modify (λ w, set_header (f (header w)) w).
Definition modify_metrics (f : Metrics → Metrics) : go W unit :=
  go_modify (λ w, set_metrics (f (metrics w)) w).

(** Run a procedure of the embedded response writer, or of the validator. *)
Definition on_response {A} (m : go Response A) : go W A := λ w,
  let '(o, r) := m (response w) in (o, set_response r w).
Definition on_validator {A} (m : go V A) : go W A := λ w,
  let '(o, v) := m (validator w) in (o, set_validator v w).

(** Infos: allocation, dereference (a nil or dangling pointer panics) and
    update in place. *)
Definition new_info (i : Info) : go W nat := λ w,
  (Done (length (infos w)), set_infos (infos w ++ [i]) w).
Definition deref (l : option nat) : go W Info := λ w,
  match l ≫= λ l, infos w !! l with
  | Some i => (Done i, w)
  | None => (Panic "invalid memory address or nil pointer dereference", w)
  end.
Definition modify_info (l : nat) (f : Info → Info) : go W unit :=
  go_modify (λ w, set_infos (alter f l (infos w)) w).

(** ** responseTracker *)

Definition newResponseTracker : responseTracker := mkTracker 200 0 false.

Definition tracker_WriteHeader (code : Z) : go W unit :=
  go_modify (λ w,
    if wroteHeader (tracker w) then w
    else set_tracker (mkTracker code (respSize (tracker w)) true) w) ;;
  on_response (resp_WriteHeader code).

Definition tracker_Write (data : string) : go W nat :=
  n ← on_response (resp_Write data);
  go_modify (λ w, set_tracker
    (mkTracker (status (tracker w)) (respSize (tracker w) + Z.of_nat n)
       (wroteHeader (tracker w))) w) ;;
  mret n.

Definition Status (w : W) : Z := status (tracker w).
Definition Size (w : W) : Z := respSize (tracker w).

(** ** Writing through either writer *)

Definition WriteHeader (wr : Writer) (code : Z) : go W unit :=
  match wr with
  | ServerWriter => on_response (resp_WriteHeader code)
  | TrackedWriter => tracker_WriteHeader code
  end.

Definition Write (wr : Writer) (data : string) : go W nat :=
  match wr with
  | ServerWriter => on_response (resp_Write data)
  | TrackedWriter => tracker_Write data
  end.

Definition response_header (f : Header → Header) : go W unit :=
  on_response (go_modify (resp_Header f)).

(** [http.Error]. *)
Definition http_Error (wr : Writer) (msg : string) (code : Z) : go W unit :=
  response_header (λ h,
    Header_Set (Header_Set (Header_Del h "Content-Length")
                  "Content-Type" "text/plain; charset=utf-8")
      "X-Content-Type-Options" "nosniff") ;;
  WriteHeader wr code ;;
  _ ← Write wr (msg +:+ bs [10%N]);
  mret tt.

(** [metrics.Wrap]: panics unless given the tracker; [labels_valid] is the
    metrics library's check of the label values ([WithLabelValues] panics on
    the ones it refuses). *)
Definition Wrap (labels_valid : labels → bool) (next : Handler) : Handler := λ wr r,
  match wr with
  | ServerWriter => go_panic "metrics: StatusWriter expected"
  | TrackedWriter =>
      next wr r ;;
      info ← deref (GetInfo r);
      st ← go_gets Status;
      sz ← go_gets Size;
      let ls := (req_Method r, Itoa st, URL info) in
      if labels_valid ls
      then modify_metrics (record_request ls (req_ContentLength r) sz)
      else go_panic "label value is not valid UTF-8"
  end.
End world.
Arguments Handler : clear implicits.
