(* ===== verification/Router.v ===== *)
(** * internal/router: the proxy's request pipeline

    The middlewares of router.go in the order [New] installs them: header
    cleanup, info and tracking, metrics, authentication, policy; then the
    handler that adds the policy's result as headers and forwards the request.
    The provider and the validator are the interfaces of [Types]; the backend's
    transport, chi's route matching and the label check of the metrics library
    are parameters. *)

From S2P Require Import Prelude GoStrings GoValue GoHttp GoServer Config Types Metrics Server.

(** What chi does with a request after the middlewares. *)
Inductive route := ToProxy | NotFound | MethodNotAllowed.

Record Proxy := mkProxy {
  listenAddr : string;
  requestName : string;
  authKey : string;
  backendURL : string;
  config : option Fields;                   (* nil pointer: None *)
  Transport : http_Transport                (* of the reverse proxy *)
}.

Definition headerPrefix : string := "X-Restrego-".

(** The transport [New] gives the reverse proxy (lines 41-62). *)
Definition new_transport (cfg : Fields) : http_Transport := {|
  MaxIdleConns := 100;
  MaxIdleConnsPerHost := 100;
  MaxConnsPerHost := 0;
  Dialer_Timeout := BackendDialTimeout cfg;
  Dialer_KeepAlive := 30 * second;
  TLSHandshakeTimeout := BackendDialTimeout cfg;
  ResponseHeaderTimeout := BackendResponseTimeout cfg;
  ExpectContinueTimeout := 1 * second;
  IdleConnTimeout := BackendIdleConnTimeout cfg;
  DisableKeepAlives := false;
  DisableCompression := false
|}.

(** [New], with the two results of [url.Parse] on the backend URL; a nil
    [*Proxy] is [None]. *)
Definition New (url_Parse_ok : string → bool) (cfg : Fields) : option Proxy :=
  let url := BackendScheme cfg +:+ "://" +:+ BackendHost cfg +:+ ":"
             +:+ Itoa (BackendPort cfg) in
  if url_Parse_ok url
  then Some (mkProxy (ListenAddr cfg) (RequestRego cfg) (AuthHeader cfg) url (Some cfg)
               (new_transport cfg))
  else None.

(** The server that [ListenAndServe] (router.go) starts; without a
    configuration it panics. *)
Definition listen_server (p : Proxy) : outcome http_Server :=
  match config p with
  | None => Panic "invalid memory address or nil pointer dereference"
  | Some c =>
      Done (mkServer (listenAddr p) (ReadHeaderTimeout c) (ReadTimeout c) (WriteTimeout c)
              (IdleTimeout c) (Z.shiftl 1 20))
  end.

(** The text of one entry of the policy's result. *)
Definition header_text (v : value) : string :=
  match v with
  | VStr s => s
  | VStrs l => Join l ","
  | VList l => Join (map Sprint l) ","
  | _ => Sprint v
  end.

Definition header_name (k : string) : string := headerPrefix +:+ ReplaceAll k "_" "-".

Definition set_policy_header (e : string * value) (h : Header) : Header :=
  let txt := header_text e.2 in
  if (0 <? String.length txt)%nat then Header_Set h (header_name e.1) txt else h.

(** The keys [CleanupHandler] removes, in the order its range takes. *)
Definition to_clean (h : Header) : list string :=
  filter (λ key, HasPrefix key "X-Restrego-" = true) (map_to_list h).*1.

(** The values [CleanupHandler] stores for one header. *)
Definition capture (h : Header) (m : gmap string value) (key : string) : gmap string value :=
  match Header_Values h key with
  | [] => m
  | [v] => <[key := VStr v]> m
  | vs => <[key := VStrs vs]> m
  end.

Definition exposed (p : Proxy) : bool :=
  match config p with Some c => ExposeBlockedHeaders c | None => false end.

Definition set_ctx_blocked (m : gmap string value) (r : Request) : Request :=
  mkRequest (req_Method r) (req_Path r) (req_ContentLength r) (ctx_info r) (Some m).

Section router.
Context `{Unicode} {P V : Type} `{AuthProvider P} `{Validator V}.
Context (backend : Request → Header → backend_reply).
Context (chi_route : Request → route).
Context (labels_valid : labels → bool).
Local Abbreviation W := (World P V).
Local Abbreviation handler := (Handler P V).

(** ** cleanup.go *)

Definition CleanupHandler (p : Proxy) (next : handler) : handler := λ wr r,
  h ← go_gets header;
  let toClean := to_clean h in
  r' ← (if exposed p && (0 <? length toClean)%nat then
          go_iter (λ _, modify_metrics (IncrementBlockedHeadersCaptured 1)) toClean ;;
          modify_metrics IncrementRequestsWithBlockedHeaders ;;
          mret (set_ctx_blocked (foldl (capture h) ∅ toClean) r)
        else mret r);
  go_iter (λ key, modify_header (λ h, Header_Del h key)) toClean ;;
  next wr r'.

(** ** wrap.go *)

Definition WrapHandler (p : Proxy) (next : handler) : handler := λ wr r,
  go_modify (set_tracker newResponseTracker) ;;
  h ← go_gets header;
  level ← match config p with
          | Some c => mret (URLMetricsLevel c)
          | None => go_panic "invalid memory address or nil pointer dereference"
          end;
  info ← go_outcome (NewInfo r h (authKey p) level);
  l ← new_info info;
  next TrackedWriter (RequestWithInfo l r).

(** ** auth.go *)

(** The call [proxy.auth.Authenticate(info, r)] on the info in the store. *)
Definition call_Authenticate (r : Request) (l : nat) : go W (option error) := λ w,
  match infos w !! l with
  | None => (Panic "invalid memory address or nil pointer dereference", w)
  | Some i =>
      let '(o, (i', prov)) := Authenticate r (header w) (i, provider w) in
      (o, set_provider prov (set_infos (<[l := i']> (infos w)) w))
  end.

Definition authHandler (p : Proxy) (next : handler) : handler := λ wr r,
  match GetInfo r with
  | None => http_Error wr "internal error" 500
  | Some l =>
      err ← call_Authenticate r l;
      match err with
      | None => next wr r
      | Some e =>
          if errors_Is e ErrAuthenticationFailed then
            auth ← go_gets provider;
            let challenge := default "Bearer" (WWWAuthenticate auth) in
            response_header (λ h, Header_Set h "WWW-Authenticate" challenge) ;;
            http_Error wr "invalid credentials" 401
          else if errors_Is e ErrAuthenticationUnavailable then
            http_Error wr "authentication service unavailable" 503
          else http_Error wr "internal error" 500
      end
  end.

(** ** policy.go *)

Definition policyHandler (p : Proxy) (next : handler) : handler := λ wr r,
  match GetInfo r with
  | None => http_Error wr "internal error" 500
  | Some l =>
      info ← deref (Some l);
      res ← on_validator (Validate (requestName p) info);
      match res with
      | Err _ => http_Error wr "policy evaluation error" 500
      | Ok result =>
          match result with
          | VMap resultMap =>
              match map_get resultMap "allow" with
              | None => http_Error wr "invalid policy result" 500
              | Some (VBool allowBool) =>
                  modify_info l (set_Result result) ;;
                  if negb allowBool then http_Error wr "access denied" 403
                  else
                    match map_get resultMap "url" with
                    | Some (VStr url) =>
                        if negb (String.eqb url "")
                        then modify_info l (set_URL url) else mret tt
                    | _ => mret tt
                    end ;;
                    next wr r
              | Some _ => http_Error wr "invalid policy result" 500
              end
          | _ => http_Error wr "invalid policy result" 500
          end
      end
  end.

(** ** router.go *)

(** [proxy.backend.ServeHTTP], with the [ErrorHandler] that [New] installs. *)
Definition backend_ServeHTTP (wr : Writer) (r : Request) : go W unit :=
  h ← go_gets header;
  let out := removeHopByHopHeaders h in
  go_modify (λ w, set_backend_calls (backend_calls w ++ [(r, out)]) w) ;;
  match backend r out with
  | BackendError _ => http_Error wr "bad gateway" 502
  | BackendReply informational code rh body =>
      go_iter (WriteHeader wr) informational ;;
      response_header (λ h, union_with (λ a b, Some (a ++ b)) h
                              (removeHopByHopHeaders rh)) ;;
      WriteHeader wr code ;;
      _ ← Write wr body;
      mret tt
  end.

Definition ServeHTTP (p : Proxy) : handler := λ wr r,
  match GetInfo r with
  | None => mret tt
  | Some l =>
      info ← deref (Some l);
      match ResultOf info with
      | VMap resultMap =>
          go_iter (λ e, modify_header (set_policy_header e)) resultMap
      | _ => mret tt
      end
  end ;;
  backend_ServeHTTP wr r.

Definition chi_dispatch (p : Proxy) : handler := λ wr r,
  match chi_route r with
  | ToProxy => ServeHTTP p wr r
  | NotFound => http_Error wr "404 page not found" 404
  | MethodNotAllowed => WriteHeader wr 405
  end.

(** [proxy.mux]: the handlers in the order of [mux.Use]. *)
Definition mux (p : Proxy) : handler :=
  CleanupHandler p
    (WrapHandler p
       (Wrap labels_valid
          (authHandler p
             (policyHandler p
                (chi_dispatch p))))).
End router.
