(* ===== verification/RouterSpec.v ===== *)
(** * What the router promises

    The pipeline of [Router] against an abstract reading of it: header cleanup
    is a filter, the decision on a request is the pure function [verdict_of],
    and [mux] implements it. *)

From S2P Require Import Prelude GoStrings GoValue GoHttp Config Types Metrics Server Router.

(** ** Header cleanup as a filter *)

Definition restrego (k : string) : Prop := HasPrefix k "X-Restrego-" = true.

#[export] Instance restrego_dec k : Decision (restrego k).
Proof. unfold restrego. apply _. Defined.

Definition clean_header (h : Header) : Header := filter (λ e, ¬ restrego e.1) h.
Definition blocked_header (h : Header) : Header := filter (λ e, restrego e.1) h.

Definition captures (p : Proxy) (h : Header) : bool :=
  exposed p && (0 <? size (blocked_header h))%nat.

Definition cleaned_request (p : Proxy) (h : Header) (r : Request) : Request :=
  if captures p h then set_ctx_blocked (header_value <$> blocked_header h) r else r.

Definition cleaned_metrics (p : Proxy) (h : Header) (m : Metrics) : Metrics :=
  if captures p h
  then IncrementRequestsWithBlockedHeaders
         (IncrementBlockedHeadersCaptured (Z.of_nat (size (blocked_header h))) m)
  else m.

Definition cleaned_world {P V} (p : Proxy) (w : World P V) : World P V :=
  set_header (clean_header (header w))
    (set_metrics (cleaned_metrics p (header w) (metrics w)) w).

Section cleanup_lemmas.
Context (h : Header) (Hh : server_header h).

Local Abbreviation toClean := (to_clean h).

Lemma elem_of_toClean k : k ∈ toClean ↔ restrego k ∧ is_Some (h !! k).
Proof.
  unfold to_clean. rewrite list_elem_of_filter, list_elem_of_fmap. unfold restrego.
  split; intros [Hk Hin]; (split; [done|]).
  - destruct Hin as ([k' vs] & -> & Hin%elem_of_map_to_list). eauto.
  - destruct Hin as [vs Hvs]. exists (k, vs). split; [done|].
    by apply elem_of_map_to_list.
Qed.

Lemma NoDup_toClean : NoDup toClean.
Proof. unfold to_clean. apply NoDup_filter, NoDup_fst_map_to_list. Qed.

Lemma length_toClean : length toClean = size (blocked_header h).
Proof.
  rewrite <- size_dom, <- (size_list_to_set (C := gset string)) by apply NoDup_toClean.
  f_equal. apply set_eq. intros k. rewrite elem_of_list_to_set, elem_of_toClean, elem_of_dom.
  unfold blocked_header. split.
  - intros [Hk [vs Hvs]]. exists vs. by apply map_lookup_filter_Some.
  - intros [vs [Hvs Hk]%map_lookup_filter_Some]. eauto.
Qed.

Lemma canonical_toClean : map CanonicalHeaderKey toClean = toClean.
Proof.
  apply map_id_on. intros k [_ [vs Hvs]]%elem_of_toClean.
  exact (server_header_key h k vs Hh Hvs).
Qed.

Lemma foldl_Del_toClean : foldl Header_Del h toClean = clean_header h.
Proof.
  apply map_eq. intros k. rewrite foldl_Header_Del_lookup, canonical_toClean.
  unfold clean_header. rewrite map_lookup_filter.
  case_decide as Hin; rewrite elem_of_toClean in Hin.
  - destruct Hin as [Hk [vs ->]]. simpl. by case_guard.
  - destruct (h !! k) as [vs|] eqn:E; [|done]. simpl.
    case_guard as Hg; [done|]. destruct (decide (restrego k)); [|done].
    destruct Hin. eauto.
Qed.

Lemma foldl_capture_lookup ks m k :
  (∀ k', k' ∈ ks → is_Some (h !! k')) →
  foldl (capture h) m ks !! k = if decide (k ∈ ks) then header_value <$> h !! k else m !! k.
Proof.
  revert m. induction ks as [|k' ks IH]; intros m Hks; [done|]. simpl.
  rewrite IH by set_solver.
  destruct (Hks k') as [vs Hvs]; [set_solver|].
  assert (capture h m k' = <[k' := header_value vs]> m) as ->.
  { unfold capture, Header_Values. erewrite server_header_key, Hvs by done. simpl.
    destruct (Hh _ _ Hvs) as (_ & _ & Hne). by destruct vs as [|v [|]]. }
  destruct (decide (k = k')) as [->|Hne].
  - rewrite lookup_insert_eq, Hvs. repeat case_decide; set_solver.
  - rewrite lookup_insert_ne by done. repeat case_decide; set_solver.
Qed.

Lemma foldl_capture_toClean :
  foldl (capture h) ∅ toClean = header_value <$> blocked_header h.
Proof.
  apply map_eq. intros k. rewrite foldl_capture_lookup
    by (intros k' []%elem_of_toClean; done).
  rewrite lookup_fmap. unfold blocked_header. rewrite map_lookup_filter.
  case_decide as Hin; rewrite elem_of_toClean in Hin.
  - destruct Hin as [Hk [vs ->]]. simpl. by case_guard.
  - destruct (h !! k) as [vs|] eqn:E; [|done]. simpl.
    case_guard; [|done]. destruct Hin. eauto.
Qed.
End cleanup_lemmas.

Lemma captured_n n m :
  Nat.iter n (IncrementBlockedHeadersCaptured 1) m
  = IncrementBlockedHeadersCaptured (Z.of_nat n) m.
Proof.
  induction n as [|n IH]; simpl.
  - destruct m. unfold IncrementBlockedHeadersCaptured. simpl. f_equal. lia.
  - rewrite IH. unfold IncrementBlockedHeadersCaptured. simpl. f_equal. lia.
Qed.

Section cleanup.
Context {P V : Type}.
Local Abbreviation W := (World P V).

Lemma iter_modify_metrics {A} f (l : list A) (w : W) :
  go_iter (λ _, modify_metrics f) l w
  = (Done tt, set_metrics (Nat.iter (length l) f (metrics w)) w).
Proof.
  revert w. induction l as [|x l IH]; intros w; [by destruct w|].
  cbn [go_iter]. erewrite go_bind_done by reflexivity. rewrite IH.
  by rewrite (Nat.iter_succ_r (length l)).
Qed.

Lemma iter_modify_header {A} (g : A → Header → Header) (l : list A) (w : W) :
  go_iter (λ x, modify_header (g x)) l w
  = (Done tt, set_header (foldl (λ h x, g x h) (header w) l) w).
Proof.
  revert w. induction l as [|x l IH]; intros w; [by destruct w|].
  cbn [go_iter]. erewrite go_bind_done by reflexivity. by rewrite IH.
Qed.

Lemma CleanupHandler_run (p : Proxy) (next : Handler P V) wr r (w : W) :
  server_header (header w) →
  CleanupHandler p next wr r w
  = next wr (cleaned_request p (header w) r) (cleaned_world p w).
Proof.
  intros Hh. unfold CleanupHandler.
  erewrite go_bind_done by reflexivity. cbv beta zeta.
  rewrite (length_toClean (header w)), (foldl_capture_toClean _ Hh).
  fold (captures p (header w)). unfold cleaned_request, cleaned_world, cleaned_metrics.
  destruct (captures p (header w)).
  - rewrite go_bind_assoc. erewrite go_bind_done by apply iter_modify_metrics.
    rewrite go_bind_assoc. erewrite go_bind_done by reflexivity.
    erewrite go_bind_done by reflexivity.
    erewrite go_bind_done by apply (iter_modify_header (λ key h, Header_Del h key)).
    simpl. change (foldl _ (header w) (to_clean (header w)))
      with (foldl Header_Del (header w) (to_clean (header w))).
    by rewrite (foldl_Del_toClean _ Hh), (length_toClean (header w)), captured_n.
  - erewrite go_bind_done by reflexivity.
    erewrite go_bind_done by apply (iter_modify_header (λ key h, Header_Del h key)).
    change (foldl _ (header w) (to_clean (header w)))
      with (foldl Header_Del (header w) (to_clean (header w))).
    rewrite (foldl_Del_toClean _ Hh). by destruct w.
Qed.
End cleanup.

(** *** No spoofed header is left *)

(** A header name that any HTTP server would read as X-Restrego-something. *)
Definition restrego_like (k : string) : Prop :=
  HasPrefix (lower_string k) "x-restrego-" = true.

Lemma restrego_like_canonical k :
  canon_key true k = k → restrego_like k → restrego k.
Proof.
  intros Hk [t Ht]%HasPrefix_spec. unfold restrego. rewrite <- Hk.
  rewrite canon_key_lower, Ht, canon_key_append.
  apply (HasPrefix_append "X-Restrego-").
Qed.

Lemma clean_header_not_restrego h k :
  server_header h → restrego_like k → clean_header h !! k = None.
Proof.
  intros Hh Hl. unfold clean_header. apply map_lookup_filter_None.
  destruct (h !! k) as [vs|] eqn:E; [right|by left].
  intros ? [= <-] Hn. apply Hn. simpl. apply restrego_like_canonical; [|done].
  by apply (Hh _ _ E).
Qed.

(** ** Writing responses *)

Section writers.
Context {P V : Type}.
Local Abbreviation W := (World P V).

(** What writing a response leaves alone. *)
Record same_store (w w' : W) : Prop := {
  ss_infos : infos w' = infos w;
  ss_header : header w' = header w;
  ss_metrics : metrics w' = metrics w;
  ss_provider : provider w' = provider w;
  ss_validator : validator w' = validator w;
  ss_backend : backend_calls w' = backend_calls w
}.

#[export] Instance same_store_preorder : PreOrder same_store.
Proof. split; [by split|]. intros ??? [] []; split; congruence. Qed.

Lemma preserves_on_response {A} (m : go Response A) :
  preserves same_store (on_response m).
Proof. intros w. unfold on_response. by destruct (m (response w)). Qed.

Hint Resolve preserves_on_response : rego.

Lemma preserves_WriteHeader wr code : preserves same_store (WriteHeader wr code).
Proof.
  destruct wr; simpl; [auto with rego|]. unfold tracker_WriteHeader.
  apply preserves_bind; [apply _| |auto with rego].
  apply preserves_modify. intros w. by destruct (wroteHeader (tracker w)).
Qed.

Lemma preserves_Write wr data : preserves same_store (Write wr data).
Proof.
  destruct wr; simpl; [auto with rego|]. unfold tracker_Write.
  apply preserves_bind; [apply _|auto with rego|intros n].
  apply preserves_bind; [apply _| |intros; apply preserves_ret, _].
  by apply preserves_modify.
Qed.

Hint Resolve preserves_WriteHeader preserves_Write : rego.

Lemma preserves_http_Error wr msg code : preserves same_store (http_Error wr msg code).
Proof.
  unfold http_Error, response_header.
  repeat (apply preserves_bind; [apply _|by auto with rego|intros ?]).
  apply preserves_ret, _.
Qed.

(** A final status code sent through either writer, when none was sent. *)
Lemma WriteHeader_sends wr code (w : W) :
  (200 ≤ code ≤ 999)%Z → rw_sent (response w) = None →
  ∃ w', WriteHeader wr code w = (Done tt, w')
        ∧ rw_sent (response w') = Some (code, (declared_length (rw_header (response w))).2)
        ∧ rw_informational (response w') = rw_informational (response w)
        ∧ (wr = TrackedWriter → wroteHeader (tracker w) = false → Status w' = code)
        ∧ rw_contentLength (response w') = (declared_length (rw_header (response w))).1
        ∧ rw_written (response w') = rw_written (response w)
        ∧ rw_body (response w') = rw_body (response w).
Proof.
  intros Hc Hs.
  assert (Hw : ∀ w0 : W, response w0 = response w →
    ∃ resp, on_response (resp_WriteHeader code) w0 = (Done tt, set_response resp w0)
      ∧ rw_sent resp = Some (code, (declared_length (rw_header (response w))).2)
      ∧ rw_informational resp = rw_informational (response w)
      ∧ rw_contentLength resp = (declared_length (rw_header (response w))).1
      ∧ rw_written resp = rw_written (response w)
      ∧ rw_body resp = rw_body (response w)).
  { intros w0 Hw0. unfold on_response. rewrite Hw0, resp_WriteHeader_final by done. by eexists. }
  destruct wr; cbn [WriteHeader].
  - destruct (Hw w eq_refl) as (resp & -> & ?). destruct_and!. eexists. by split_and!.
  - unfold tracker_WriteHeader. erewrite go_bind_done by reflexivity. cbv beta.
    set (w0 := if wroteHeader (tracker w) then _ else _).
    assert (Hw0 : response w0 = response w) by (unfold w0; by destruct (wroteHeader (tracker w))).
    destruct (Hw w0 Hw0) as (resp & -> & ?). destruct_and!. eexists.
    split_and!; try done. intros _ Hf. unfold w0, Status. by rewrite Hf.
Qed.

Lemma Write_done wr data (w : W) code h :
  rw_sent (response w) = Some (code, h) →
  ∃ n w', Write wr data w = (Done n, w')
        ∧ rw_sent (response w') = Some (code, h)
        ∧ rw_informational (response w') = rw_informational (response w)
        ∧ Status w' = Status w
        ∧ String.length (rw_body (response w')) = (String.length (rw_body (response w)) + n)%nat
        ∧ (accepts code data (response w) →
           rw_body (response w') = rw_body (response w) +:+ data).
Proof.
  intros Hs. destruct (resp_Write_done data _ _ _ Hs) as (n & resp' & Hw & ? & ? & ? & ? & _).
  destruct wr; simpl; unfold tracker_Write; go_unfold; unfold on_response;
    rewrite Hw; eexists _, _; by repeat split.
Qed.

(** An informational status goes out at once and decides nothing. *)
Definition informational (code : Z) : Prop := (100 ≤ code ≤ 199)%Z ∧ code ≠ 101%Z.

Lemma WriteHeader_informational wr code (w : W) :
  informational code → rw_sent (response w) = None →
  ∃ w', WriteHeader wr code w = (Done tt, w')
        ∧ response w'
          = mkResponse (rw_header (response w)) (rw_informational (response w) ++ [code]) None
              (rw_contentLength (response w)) (rw_written (response w)) (rw_body (response w)).
Proof.
  intros [Hc Hn] Hs.
  assert (Hw : ∀ w0 : W, response w0 = response w →
    on_response (resp_WriteHeader code) w0
    = (Done tt, set_response (mkResponse (rw_header (response w))
         (rw_informational (response w) ++ [code]) None (rw_contentLength (response w))
         (rw_written (response w)) (rw_body (response w))) w0)).
  { intros w0 Hw0. unfold on_response, resp_WriteHeader. rewrite Hw0, Hs.
    rewrite (proj2 (Z.ltb_ge code 100)), (proj2 (Z.ltb_ge 999 code)),
      (proj2 (Z.leb_le 100 code)), (proj2 (Z.leb_le code 199)),
      (proj2 (Z.eqb_neq code 101)) by lia. done. }
  destruct wr; cbn [WriteHeader]; [by rewrite Hw; eauto|].
  unfold tracker_WriteHeader. erewrite go_bind_done by reflexivity. cbv beta.
  rewrite Hw by (by destruct (wroteHeader (tracker w))). by eexists.
Qed.

Lemma iter_informational wr codes (w : W) :
  Forall informational codes → rw_sent (response w) = None →
  ∃ w', go_iter (WriteHeader wr) codes w = (Done tt, w')
        ∧ response w'
          = mkResponse (rw_header (response w)) (rw_informational (response w) ++ codes) None
              (rw_contentLength (response w)) (rw_written (response w)) (rw_body (response w)).
Proof.
  intros Hc. revert w. induction Hc as [|c codes Hc _ IH]; intros w Hs; simpl.
  - exists w. rewrite app_nil_r. split; [done|]. destruct (response w). simpl in *. by subst.
  - destruct (WriteHeader_informational wr c w Hc Hs) as (w1 & E & Hr).
    erewrite go_bind_done by exact E.
    destruct (IH w1) as (w2 & E2 & Hr2); [by rewrite Hr|].
    exists w2. split; [done|]. rewrite Hr2, Hr. simpl. by rewrite <- app_assoc.
Qed.

(** [http.Error] on an unsent response sends exactly its code. *)
Lemma http_Error_sends wr msg code (w : W) :
  (200 ≤ code ≤ 999)%Z → rw_sent (response w) = None →
  ∃ w', http_Error wr msg code w = (Done tt, w')
        ∧ (∃ h, rw_sent (response w') = Some (code, h))
        ∧ rw_informational (response w') = rw_informational (response w)
        ∧ (wr = TrackedWriter → wroteHeader (tracker w) = false → Status w' = code)
        ∧ same_store w w'.
Proof.
  intros Hc Hs. pose proof (preserves_http_Error wr msg code w) as Hsame.
  unfold http_Error in *.
  erewrite go_bind_done in * by reflexivity. cbv beta in *.
  set (w1 := set_response _ _) in *.
  destruct (WriteHeader_sends wr code w1) as (w2 & E2 & S2 & I2 & T2 & _); [done..|].
  erewrite go_bind_done in * by exact E2. cbv beta in *.
  destruct (Write_done wr (msg +:+ bs [10%N]) w2 _ _ S2) as (n & w3 & E3 & S3 & I3 & T3 & _).
  erewrite go_bind_done in * by exact E3. cbv beta in *.
  exists w3. split; [done|]. split; [eauto|]. split; [by rewrite I3, I2|].
  split; [|exact Hsame]. intros. rewrite T3. by apply T2.
Qed.
End writers.

(** ** The decision on a request *)

Inductive verdict :=
| VCrash                                       (* the handler panics *)
| VReject (code : Z)                           (* answered by the proxy itself *)
| VForward (resultMap : list (string * value)). (* sent on to the backend *)

Definition auth_status (e : error) : Z :=
  if errors_Is e ErrAuthenticationFailed then 401
  else if errors_Is e ErrAuthenticationUnavailable then 503 else 500.

(** The policy's answer: denied, or allowed with the result's entries; anything
    but an object with a boolean "allow" is no answer. *)
Definition policy_verdict (res : result value) : verdict :=
  match res with
  | Ok (VMap m) =>
      match map_get m "allow" with
      | Some (VBool true) => VForward m
      | Some (VBool false) => VReject 403
      | _ => VReject 500
      end
  | _ => VReject 500
  end.

Section pipeline.
Context `{Unicode} {P V : Type} `{!AuthProvider P} `{!Validator V}.
Context (backend : Request → Header → backend_reply).
Context (chi_route : Request → route).
Context (labels_valid : labels → bool).
Local Abbreviation W := (World P V).
Local Abbreviation run p := (mux backend chi_route labels_valid p ServerWriter).

(** Everything the decision depends on, in the order the code asks. *)
Definition verdict_of (p : Proxy) (r : Request) (w : W) : verdict :=
  let h := clean_header (header w) in
  let r1 := cleaned_request p (header w) r in
  match config p with
  | None => VCrash
  | Some c =>
      match NewInfo r1 h (authKey p) (URLMetricsLevel c) with
      | Panic _ => VCrash
      | Done i =>
          match Authenticate (RequestWithInfo (length (infos w)) r1) h (i, provider w) with
          | (Panic _, _) => VCrash
          | (Done (Some e), _) => VReject (auth_status e)
          | (Done None, (i', _)) =>
              match Validate (requestName p) i' (validator w) with
              | (Panic _, _) => VCrash
              | (Done res, _) => policy_verdict res
              end
          end
      end
  end.

(** What the client gets of the backend's answer: 502 where there is none, else
    the informational statuses, the status, the backend's header without the
    hop-by-hop names, and the body where the status and the length allow one. *)
Definition relayed (reply : backend_reply) (w w' : W) : Prop :=
  match reply with
  | BackendError _ => ∃ h, rw_sent (response w') = Some (502%Z, h)
  | BackendReply codes code rh body =>
      Forall informational codes → (200 ≤ code ≤ 999)%Z →
      let '(n, h) := declared_length (union_with (λ a b, Some (a ++ b))
                       (rw_header (response w)) (removeHopByHopHeaders rh)) in
      rw_sent (response w') = Some (code, h)
      ∧ rw_informational (response w') = rw_informational (response w) ++ codes
      ∧ (body_allowed code = true →
         (n = -1 ∨ rw_written (response w) + Z.of_nat (String.length body) ≤ n)%Z →
         rw_body (response w') = rw_body (response w) +:+ body)
  end.

(** The request that is forwarded is the client's but for its context. *)
Definition same_target (r r' : Request) : Prop :=
  req_Method r' = req_Method r ∧ req_Path r' = req_Path r
  ∧ req_ContentLength r' = req_ContentLength r.

(** What the run has to show for each verdict. *)
Definition implements (v : verdict) (r : Request) (w : W) (res : outcome unit * W) : Prop :=
  match v with
  | VCrash => (∃ why, res.1 = Panic why) ∧ rw_sent (response res.2) = None
              ∧ backend_calls res.2 = backend_calls w
  | VReject code => (∃ h, rw_sent (response res.2) = Some (code, h))
                    ∧ backend_calls res.2 = backend_calls w
  | VForward m =>
      ∃ r', same_target r r' ∧
        let h := removeHopByHopHeaders
                   (foldl (λ h e, set_policy_header e h) (clean_header (header w)) m) in
        backend_calls res.2 = backend_calls w ++ [(r', h)] ∧ relayed (backend r' h) w res.2
  end.

(** The metrics middleware changes neither the response nor the calls. *)
Lemma Wrap_run (next : Handler P V) r (w w1 : W) o :
  next TrackedWriter r w = (o, w1) →
  ∃ o' m, Wrap labels_valid next TrackedWriter r w = (o', set_metrics m w1)
          ∧ (∀ why, o = Panic why → o' = Panic why).
Proof.
  intros Hn. unfold Wrap. destruct o as [[]|why].
  - erewrite go_bind_done by exact Hn. cbv beta. unfold deref.
    assert (Hid : ∀ o' : outcome unit, ∃ m : Metrics, (o', w1) = (o', set_metrics m w1)).
    { intros o'. exists (metrics w1). by destruct w1. }
    destruct (GetInfo r ≫= λ l, infos w1 !! l) as [i|] eqn:E.
    + erewrite go_bind_done by (cbv beta; by rewrite E). go_unfold. simpl.
      destruct (labels_valid _); simpl; [by eexists _, _|].
      eexists _. destruct (Hid (Panic "label value is not valid UTF-8")) as [m Hm].
      exists m. split; [exact Hm|done].
    + erewrite go_bind_panic by (cbv beta; by rewrite E).
      eexists _, (metrics w1). split; [by destruct w1|done].
  - erewrite go_bind_panic by exact Hn. exists (Panic why), (metrics w1).
    split; [by destruct w1|]. congruence.
Qed.

Lemma implements_set_metrics v r w o o' w1 m :
  (∀ why, o = Panic why → o' = Panic why) →
  implements v r w (o, w1) → implements v r w (o', set_metrics m w1).
Proof. intros Ho. destruct v; simpl; try done. intros ([why ->] & ?). eauto. Qed.

Lemma auth_status_final e : (200 ≤ auth_status e ≤ 999)%Z.
Proof. unfold auth_status. repeat case_match; lia. Qed.

(** Every rejecting branch of the handlers ends in [http.Error]. *)
Lemma implements_reject wr msg code r (w0 w : W) :
  (200 ≤ code ≤ 999)%Z → rw_sent (response w) = None →
  backend_calls w = backend_calls w0 →
  implements (VReject code) r w0 (http_Error wr msg code w).
Proof.
  intros Hc Hs Hb. destruct (http_Error_sends wr msg code w) as (w' & -> & ? & _ & _ & []);
    [done..|]. simpl. split; [done|]. congruence.
Qed.

Lemma preserves_backend_ServeHTTP wr r (w : W) :
  backend_calls (backend_ServeHTTP backend wr r w).2
  = backend_calls w ++ [(r, removeHopByHopHeaders (header w))].
Proof.
  unfold backend_ServeHTTP. erewrite go_bind_done by reflexivity. cbv beta zeta.
  erewrite go_bind_done by reflexivity. cbv beta.
  set (w1 := set_backend_calls _ w).
  change (backend_calls w ++ _) with (backend_calls w1).
  assert (Hp : ∀ m : go W unit, preserves same_store m →
               backend_calls (m w1).2 = backend_calls w1).
  { intros m Hm. apply (Hm w1). }
  case_match; apply Hp; [apply preserves_http_Error|].
  repeat (apply preserves_bind; [apply _| |intros ?]);
    try apply preserves_ret; try apply _.
  - apply preserves_iter; [apply _|]. intros; apply preserves_WriteHeader.
  - apply preserves_on_response.
  - apply preserves_WriteHeader.
  - apply preserves_Write.
Qed.

(** The backend's answer reaches the client. *)
Lemma backend_ServeHTTP_relays wr r (w : W) :
  rw_sent (response w) = None →
  relayed (backend r (removeHopByHopHeaders (header w))) w (backend_ServeHTTP backend wr r w).2.
Proof.
  intros Hs. unfold backend_ServeHTTP. erewrite go_bind_done by reflexivity. cbv beta zeta.
  erewrite go_bind_done by reflexivity. cbv beta.
  set (w1 := set_backend_calls _ w). change (response w) with (response w1) in Hs |- *.
  destruct (backend r _) as [why|codes code rh body]; unfold relayed.
  { by destruct (http_Error_sends wr "bad gateway" 502 w1) as (w2 & -> & ? & _). }
  intros Hcodes Hcode. change (response w) with (response w1).
  destruct (iter_informational wr codes w1 Hcodes Hs) as (w2 & E2 & R2).
  erewrite go_bind_done by exact E2. cbv beta.
  erewrite go_bind_done by reflexivity. cbv beta. set (w3 := set_response _ w2).
  assert (Hresp : rw_header (response w3) = union_with (λ a b, Some (a ++ b))
                    (rw_header (response w1)) (removeHopByHopHeaders rh)
    ∧ rw_sent (response w3) = None
    ∧ rw_informational (response w3) = rw_informational (response w1) ++ codes
    ∧ rw_written (response w3) = rw_written (response w1)
    ∧ rw_body (response w3) = rw_body (response w1)) by (subst w3; simpl; by rewrite R2).
  destruct Hresp as (H3 & S3 & I3 & N3 & B3). clearbody w3.
  destruct (WriteHeader_sends wr code w3 Hcode S3) as (w4 & E4 & S4 & I4 & _ & L4 & N4 & B4).
  erewrite go_bind_done by exact E4. cbv beta. rewrite H3 in S4, L4.
  destruct (Write_done wr body w4 _ _ S4) as (n & w5 & E5 & S5 & I5 & _ & _ & B5).
  erewrite go_bind_done by exact E5. simpl.
  destruct (declared_length _) as [m h]. simpl in *.
  rewrite I5, I4, I3. split_and!; [done|done|].
  intros Hb Hroom. rewrite B5, B4, B3; [done|]. split; [done|]. by rewrite L4, N4, N3.
Qed.

(** The proxy handler sends the header map extended with the result. *)
Lemma ServeHTTP_sends p wr r (w : W) l i m :
  GetInfo r = Some l → infos w !! l = Some i → ResultOf i = VMap m →
  rw_sent (response w) = None →
  let h := removeHopByHopHeaders (foldl (λ h e, set_policy_header e h) (header w) m) in
  let w' := (ServeHTTP backend p wr r w).2 in
  backend_calls w' = backend_calls w ++ [(r, h)] ∧ relayed (backend r h) w w'.
Proof.
  intros Hl Hi Hm Hs. unfold ServeHTTP. rewrite Hl.
  rewrite go_bind_assoc. erewrite go_bind_done
    by (unfold deref; simpl; rewrite Hi; reflexivity).
  cbv beta zeta. rewrite Hm.
  erewrite go_bind_done by apply (iter_modify_header set_policy_header).
  rewrite preserves_backend_ServeHTTP. split; [done|].
  by apply (backend_ServeHTTP_relays wr r (set_header _ w)).
Qed.

Lemma relayed_same_response reply (w0 w w' : W) :
  response w0 = response w → relayed reply w0 w' → relayed reply w w'.
Proof. unfold relayed. by intros ->. Qed.

(** The policy handler, on the info the earlier handlers left. *)
Lemma policyHandler_implements p wr r0 r (w0 w : W) l i :
  (∀ r, chi_route r = ToProxy) →
  GetInfo r = Some l → infos w !! l = Some i → same_target r0 r →
  rw_sent (response w0) = None → response w = response w0 →
  backend_calls w = backend_calls w0 → header w = clean_header (header w0) →
  implements
    match Validate (requestName p) i (validator w) with
    | (Panic _, _) => VCrash
    | (Done res, _) => policy_verdict res
    end r0 w0
    (policyHandler p (chi_dispatch backend chi_route p) wr r w).
Proof.
  intros Hroute Hl Hi Hr Hs0 Hresp Hb Hh.
  assert (Hs : rw_sent (response w) = None) by (by rewrite Hresp).
  unfold policyHandler. rewrite Hl.
  erewrite go_bind_done by (unfold deref; simpl; rewrite Hi; reflexivity). cbv beta.
  unfold on_validator.
  destruct (Validate (requestName p) i (validator w)) as [[res|why] v'] eqn:EV.
  2: { erewrite go_bind_panic by (rewrite EV; reflexivity). simpl. eauto. }
  erewrite go_bind_done by (rewrite EV; reflexivity). cbv beta.
  set (w1 := set_validator v' w).
  destruct res as [[| | | | | |m]|e]; try (apply implements_reject; done).
  unfold policy_verdict.
  destruct (map_get m "allow") as [[|[]| | | | |]|]; try (apply implements_reject; done).
  erewrite go_bind_done by reflexivity. cbv beta. simpl negb. cbv iota.
  set (w2 := set_infos _ w1).
  assert (Hurl : ∃ i', infos w2 !! l = Some i' ∧ ResultOf i' = VMap m).
  { simpl. rewrite list_lookup_alter_eq, Hi. simpl. by eexists. }
  destruct Hurl as (i1 & Hi1 & Hr1).
  assert (Hgo : ∀ w3 : W, (∃ i', infos w3 !! l = Some i' ∧ ResultOf i' = VMap m) →
    header w3 = header w → backend_calls w3 = backend_calls w → response w3 = response w →
    implements (VForward m) r0 w0 (chi_dispatch backend chi_route p wr r w3)).
  { intros w3 (i' & Hi' & Hr') Hh3 Hb3 Hr3. unfold chi_dispatch. rewrite Hroute.
    exists r. split; [done|].
    destruct (ServeHTTP_sends p wr r w3 l i' m Hl Hi' Hr') as [Hc Hrel]; [by rewrite Hr3|].
    rewrite Hh3, Hh in Hc, Hrel. rewrite Hb3, Hb in Hc. cbv zeta. split; [exact Hc|].
    by apply (relayed_same_response _ w3); [rewrite Hr3|]. }
  assert (Hgo2 : implements (VForward m) r0 w0
                   ((mret tt ;; chi_dispatch backend chi_route p wr r) w2)).
  { apply (Hgo w2); [by exists i1|done|done|done]. }
  destruct (map_get m "url") as [[| |url| | | |]|]; try exact Hgo2.
  destruct (negb (String.eqb url "")); [|exact Hgo2].
  cbn [negb]. erewrite go_bind_done by reflexivity. apply Hgo; [|done|done|done]. simpl.
  rewrite list_lookup_alter_eq. simpl in Hi1. rewrite Hi1. by eexists.
Qed.

(** The authentication handler followed by the policy handler. *)
Lemma authHandler_implements p r0 r (w0 w : W) l i :
  (∀ r, chi_route r = ToProxy) →
  GetInfo r = Some l → infos w !! l = Some i → same_target r0 r →
  rw_sent (response w0) = None → response w = response w0 →
  backend_calls w = backend_calls w0 →
  header w = clean_header (header w0) → validator w = validator w0 →
  implements
    match Authenticate r (header w) (i, provider w) with
    | (Panic _, _) => VCrash
    | (Done (Some e), _) => VReject (auth_status e)
    | (Done None, (i', _)) =>
        match Validate (requestName p) i' (validator w0) with
        | (Panic _, _) => VCrash
        | (Done res, _) => policy_verdict res
        end
    end r0 w0
    (authHandler p (policyHandler p (chi_dispatch backend chi_route p)) TrackedWriter r w).
Proof.
  intros Hroute Hl Hi Hr Hs0 Hresp Hb Hh Hv.
  assert (Hs : rw_sent (response w) = None) by (by rewrite Hresp).
  unfold authHandler. rewrite Hl.
  assert (Hcall : call_Authenticate r l w
    = let '(o, (i', prov)) := Authenticate r (header w) (i, provider w) in
      (o, set_provider prov (set_infos (<[l := i']> (infos w)) w))).
  { unfold call_Authenticate. by rewrite Hi. }
  destruct (Authenticate r (header w) (i, provider w)) as [[[e|]|why] [i' prov]].
  - erewrite go_bind_done by exact Hcall. cbv beta. unfold auth_status.
    destruct (errors_Is e ErrAuthenticationFailed).
    + erewrite go_bind_done by reflexivity. by apply implements_reject.
    + by destruct (errors_Is e ErrAuthenticationUnavailable); apply implements_reject.
  - erewrite go_bind_done by exact Hcall. cbv beta. rewrite <- Hv.
    apply (policyHandler_implements p _ r0 r w0 (set_provider prov (set_infos _ w)) l);
      try done. apply list_lookup_insert_eq. by eapply lookup_lt_Some.
  - erewrite go_bind_panic by exact Hcall. simpl. eauto.
Qed.

Lemma mux_implements p r (w : W) :
  (∀ r, chi_route r = ToProxy) →
  server_header (header w) → rw_sent (response w) = None →
  implements (verdict_of p r w) r w (run p r w).
Proof.
  intros Hroute Hh Hs. unfold mux. rewrite CleanupHandler_run by done.
  unfold verdict_of, WrapHandler.
  erewrite go_bind_done by reflexivity. cbv beta.
  erewrite go_bind_done by reflexivity. cbv beta.
  destruct (config p) as [c|].
  2: { erewrite go_bind_panic by reflexivity. simpl. eauto. }
  erewrite go_bind_done by reflexivity. cbv beta. unfold go_outcome.
  simpl header.
  destruct (NewInfo _ _ _ _) as [i|why].
  2: { erewrite go_bind_panic by reflexivity. simpl. eauto. }
  erewrite go_bind_done by reflexivity. cbv beta.
  erewrite go_bind_done by reflexivity. cbv beta. simpl infos.
  set (r2 := RequestWithInfo _ _). set (w1 := set_infos _ _).
  destruct (authHandler p (policyHandler p (chi_dispatch backend chi_route p))
              TrackedWriter r2 w1) as [o w'] eqn:E.
  destruct (Wrap_run _ _ _ _ _ E) as (o' & m & -> & Ho).
  apply (implements_set_metrics _ _ _ o); [done|]. rewrite <- E.
  apply (authHandler_implements p r r2 w w1 (length (infos w)) i); try done.
  - simpl. by rewrite lookup_app_r, Nat.sub_diag by lia.
  - subst r2. unfold cleaned_request. by case_match.
Qed.

(** What reaches the backend was authenticated and allowed, and is sent with the
    policy's headers and no client's in their place. *)
Lemma forwarded_run p r (w : W) :
  (∀ r, chi_route r = ToProxy) →
  server_header (header w) → rw_sent (response w) = None →
  backend_calls (run p r w).2 ≠ backend_calls w →
  ∃ c r' i i' prov' m v' r2,
    config p = Some c
    ∧ NewInfo (cleaned_request p (header w) r) (clean_header (header w)) (authKey p)
        (URLMetricsLevel c) = Done i
    ∧ Authenticate r' (clean_header (header w)) (i, provider w) = (Done None, (i', prov'))
    ∧ Validate (requestName p) i' (validator w) = (Done (Ok (VMap m)), v')
    ∧ map_get m "allow" = Some (VBool true)
    ∧ same_target r r2
    ∧ backend_calls (run p r w).2
      = backend_calls w
        ++ [(r2, removeHopByHopHeaders
                   (foldl (λ h e, set_policy_header e h) (clean_header (header w)) m))].
Proof.
  intros Hroute Hh Hs Hcalls.
  pose proof (mux_implements p r w Hroute Hh Hs) as Hm.
  unfold verdict_of in Hm.
  destruct (config p) as [c|]; [|by destruct Hm as (_ & _ & ?)].
  destruct (NewInfo _ _ _ _) as [i|] eqn:EI; [|by destruct Hm as (_ & _ & ?)].
  destruct (Authenticate _ _ _) as [[[e|]|] [i' prov']] eqn:EA;
    [by destruct Hm as [_ ?]| |by destruct Hm as (_ & _ & ?)].
  destruct (Validate _ _ _) as [[res|] v'] eqn:EV; [|by destruct Hm as (_ & _ & ?)].
  unfold policy_verdict in Hm.
  destruct res as [[| | | | | |m]|]; try by destruct Hm as [_ ?].
  destruct (map_get m "allow") as [[|[]| | | | |]|] eqn:Em; try by destruct Hm as [_ ?].
  destruct Hm as (r2 & Ht & Hb & _).
  eexists c, _, i, i', prov', m, v', r2. by split_and!.
Qed.
End pipeline.
