(* ===== verification/RouterSim.v ===== *)
(** * The handlers behind their interfaces

    The chain uses the provider and the validator only through the two
    interfaces: implementations that answer alike make chains that answer
    alike. *)

From S2P Require Import Prelude GoStrings GoValue GoHttp GoServer Config Types Metrics Server Router.

(** ** Implementations that answer alike *)

(** While the states are related, the answers, challenges included, are the
    same and the states they leave are related. *)
Class AuthSim {P1 P2} `{!AuthProvider P1, !AuthProvider P2} (R : P1 → P2 → Prop) := {
  sim_Authenticate r h i p1 p2 :
    R p1 p2 →
    (Authenticate r h (i, p1)).1 = (Authenticate r h (i, p2)).1
    ∧ (Authenticate r h (i, p1)).2.1 = (Authenticate r h (i, p2)).2.1
    ∧ R (Authenticate r h (i, p1)).2.2 (Authenticate r h (i, p2)).2.2;
  sim_challenge p1 p2 : R p1 p2 → WWWAuthenticate p1 = WWWAuthenticate p2
}.

(** For the policy of the given name. *)
Class ValidatorSim {V1 V2} `{!Validator V1, !Validator V2} (name : string)
    (R : V1 → V2 → Prop) := {
  sim_Validate i : simulates R (Validate (V := V1) name i) (Validate (V := V2) name i)
}.

(** The two worlds agree but for the two components. *)
Record related {P1 V1 P2 V2} (RP : P1 → P2 → Prop) (RV : V1 → V2 → Prop)
    (w1 : World P1 V1) (w2 : World P2 V2) : Prop := {
  rel_infos : infos w1 = infos w2;
  rel_header : header w1 = header w2;
  rel_response : response w1 = response w2;
  rel_tracker : tracker w1 = tracker w2;
  rel_metrics : metrics w1 = metrics w2;
  rel_backend : backend_calls w1 = backend_calls w2;
  rel_provider : RP (provider w1) (provider w2);
  rel_validator : RV (validator w1) (validator w2)
}.

(** ** The handlers *)

Section simulation.
Context `{Unicode} {P1 V1 P2 V2 : Type}.
Context `{!AuthProvider P1, !AuthProvider P2, !Validator V1, !Validator V2}.
Context (RP : P1 → P2 → Prop) (RV : V1 → V2 → Prop) (p : Proxy).
Context `{!AuthSim RP, !ValidatorSim (requestName p) RV}.
Context (backend : Request → Header → backend_reply).
Context (chi_route : Request → route).
Context (labels_valid : labels → bool).
Local Abbreviation sim := (simulates (related RP RV)).

(** Handlers that answer alike, given the same writer and request. *)
Definition handlers_sim (h1 : Handler P1 V1) (h2 : Handler P2 V2) : Prop :=
  ∀ wr r, sim (h1 wr r) (h2 wr r).

Ltac rel := let Hw := fresh in
  intros ?? Hw; destruct Hw; split; simpl; try congruence; try done.

Lemma sim_on_response {A} (m : go Response A) : sim (on_response m) (on_response m).
Proof.
  intros w1 w2 []. unfold on_response. rewrite rel_response0.
  destruct (m (response w2)). by split.
Qed.

Lemma sim_modify_header f : sim (modify_header f) (modify_header f).
Proof. apply simulates_modify. rel. Qed.

Lemma sim_modify_metrics f : sim (modify_metrics f) (modify_metrics f).
Proof. apply simulates_modify. rel. Qed.

Lemma sim_modify_info l f : sim (modify_info l f) (modify_info l f).
Proof. apply simulates_modify. rel. Qed.

Lemma sim_new_info i : sim (new_info i) (new_info i).
Proof. rel. split; simpl; congruence. Qed.

Lemma sim_deref l : sim (deref l) (deref l).
Proof.
  intros w1 w2 Hw. unfold deref. rewrite (rel_infos _ _ _ _ Hw).
  by destruct (l ≫= λ l, infos w2 !! l).
Qed.

Lemma sim_outcome {A} (o : outcome A) : sim (go_outcome o) (go_outcome o).
Proof. by intros w1 w2 Hw. Qed.

Lemma sim_header : sim (go_gets header) (go_gets header).
Proof. apply simulates_gets. by intros ?? []. Qed.

Lemma sim_Status : sim (go_gets Status) (go_gets Status).
Proof. apply simulates_gets. intros ?? []. unfold Status. congruence. Qed.

Lemma sim_Size : sim (go_gets Size) (go_gets Size).
Proof. apply simulates_gets. intros ?? []. unfold Size. congruence. Qed.

Hint Resolve sim_on_response sim_modify_header sim_modify_metrics sim_modify_info
  sim_new_info sim_deref sim_outcome sim_header sim_Status sim_Size : rego.

(** Step through the same procedure on both sides. *)
Ltac sim_step :=
  match goal with
  | |- simulates _ (_ ≫= _) (_ ≫= _) => apply simulates_bind; [|intros ?]
  | |- simulates _ (match ?x with _ => _ end) (match ?x with _ => _ end) => destruct x
  | |- simulates _ (go_iter _ _) (go_iter _ _) => apply simulates_iter; intros ?
  | |- _ => by auto with rego nocore
  end.
Ltac sim_run := repeat sim_step.

Lemma sim_WriteHeader wr code : sim (WriteHeader wr code) (WriteHeader wr code).
Proof.
  destruct wr; unfold WriteHeader, tracker_WriteHeader; sim_run.
  apply simulates_modify. intros w1 w2 Hw. rewrite (rel_tracker _ _ _ _ Hw).
  destruct (wroteHeader (tracker w2)); [done|]. destruct Hw. split; simpl; congruence.
Qed.

Lemma sim_Write wr data : sim (Write wr data) (Write wr data).
Proof.
  destruct wr; unfold Write, tracker_Write; sim_run. apply simulates_modify. rel.
Qed.

Hint Resolve sim_WriteHeader sim_Write : rego.

Lemma sim_http_Error wr msg code : sim (http_Error wr msg code) (http_Error wr msg code).
Proof. unfold http_Error, response_header. sim_run. Qed.

Hint Resolve sim_http_Error : rego.

Lemma sim_backend_calls f :
  sim (go_modify (λ w, set_backend_calls (backend_calls w ++ f) w))
      (go_modify (λ w, set_backend_calls (backend_calls w ++ f) w)).
Proof. apply simulates_modify. rel. Qed.

Hint Resolve sim_backend_calls : rego.

Lemma sim_chi_dispatch :
  handlers_sim (chi_dispatch backend chi_route p) (chi_dispatch backend chi_route p).
Proof.
  intros wr r. unfold chi_dispatch, ServeHTTP, backend_ServeHTTP, response_header. sim_run.
Qed.

Lemma sim_policyHandler next1 next2 :
  handlers_sim next1 next2 → handlers_sim (policyHandler p next1) (policyHandler p next2).
Proof.
  intros Hn wr r. unfold handlers_sim in Hn. unfold policyHandler. sim_run.
  intros w1 w2 Hw. unfold on_validator.
  pose proof (sim_Validate a (validator w1) (validator w2) (rel_validator _ _ _ _ Hw)) as [E Hr].
  destruct (Validate (requestName p) a (validator w1)),
    (Validate (requestName p) a (validator w2)). simpl in *. split; [done|].
  destruct Hw. by split.
Qed.

Lemma sim_call_Authenticate r l : sim (call_Authenticate r l) (call_Authenticate r l).
Proof.
  intros w1 w2 Hw. unfold call_Authenticate.
  rewrite (rel_infos _ _ _ _ Hw), (rel_header _ _ _ _ Hw).
  destruct (infos w2 !! l) as [i|] eqn:Ei; [|done].
  destruct (sim_Authenticate r (header w2) i (provider w1) (provider w2)
    (rel_provider _ _ _ _ Hw)) as (E1 & E2 & E3).
  destruct (Authenticate r (header w2) (i, provider w1)) as [? []],
    (Authenticate r (header w2) (i, provider w2)) as [? []]. simpl in *. subst.
  split; [done|]. destruct Hw. split; simpl; congruence || done.
Qed.

Hint Resolve sim_call_Authenticate : rego.

Lemma sim_authHandler next1 next2 :
  handlers_sim next1 next2 → handlers_sim (authHandler p next1) (authHandler p next2).
Proof.
  intros Hn wr r. unfold handlers_sim in Hn. unfold authHandler, response_header.
  destruct (GetInfo r); sim_run.
  apply simulates_gets_bind. intros w1 w2 Hw.
  rewrite (sim_challenge _ _ (rel_provider _ _ _ _ Hw)). sim_run.
Qed.

Lemma sim_Wrap next1 next2 :
  handlers_sim next1 next2 → handlers_sim (Wrap labels_valid next1) (Wrap labels_valid next2).
Proof. intros Hn wr r. unfold handlers_sim in Hn. unfold Wrap. sim_run. Qed.

Lemma sim_set_tracker t : sim (go_modify (set_tracker t)) (go_modify (set_tracker t)).
Proof. apply simulates_modify. rel. Qed.

Hint Resolve sim_set_tracker : rego.

Lemma sim_WrapHandler next1 next2 :
  handlers_sim next1 next2 → handlers_sim (WrapHandler p next1) (WrapHandler p next2).
Proof. intros Hn wr r. unfold handlers_sim in Hn. unfold WrapHandler. sim_run. Qed.

Lemma sim_CleanupHandler next1 next2 :
  handlers_sim next1 next2 → handlers_sim (CleanupHandler p next1) (CleanupHandler p next2).
Proof. intros Hn wr r. unfold handlers_sim in Hn. unfold CleanupHandler. sim_run. Qed.

(** The whole chain. *)
Lemma mux_simulates :
  handlers_sim (mux backend chi_route labels_valid p) (mux backend chi_route labels_valid p).
Proof.
  apply sim_CleanupHandler, sim_WrapHandler, sim_Wrap, sim_authHandler, sim_policyHandler,
    sim_chi_dispatch.
Qed.
End simulation.
