(* ===== verification/NoAuth.v ===== *)
(** * internal/noauth: the provider that authenticates nobody *)

From S2P Require Import Prelude GoValue GoHttp Types.

Record NoAuthProvider := mkNoAuth {}.

(** [New]: a nil pointer in permissive mode. *)
Definition New (permissive : bool) : option NoAuthProvider :=
  if permissive then None else Some (mkNoAuth).

#[export] Instance noauth_provider : AuthProvider NoAuthProvider := {
  Authenticate r h := mret None;
  WWWAuthenticate _ := None
}.

#[export] Instance noauth_lawful : LawfulAuth NoAuthProvider.
Proof. split; intros; simpl in *; go_unfold; simplify_eq; reflexivity. Qed.
