(* ===== verification/GoOs.v ===== *)
(** * Files, watcher events and bufio's line scanner

    A file read is a [result]: the text, or the error of the open or read.  An
    fsnotify event carries the bits of its operation.  [scan_lines] is a
    [bufio.Scanner] over [ScanLines] with its default limit on a line. *)

From S2P Require Import Prelude GoStrings GoValue.

(** ** fsnotify *)

Definition fs_Create : N := 1.
Definition fs_Write : N := 2.
Definition fs_Remove : N := 4.
Definition fs_Rename : N := 8.
Definition fs_Chmod : N := 16.

Record Event := mkEvent { Name : string; Op : N }.

Definition Has (e : Event) (op : N) : bool := negb (N.land (Op e) op =? 0)%N.

(** What a watching goroutine can receive: an event, an error, or the end of
    one of the two channels. *)
Inductive watch_msg (A : Type) : Type :=
| EventMsg (e : Event) (a : A)
| ErrorMsg
| ChannelClosed.
Arguments EventMsg {A} e a.
Arguments ErrorMsg {A}.
Arguments ChannelClosed {A}.

(** ** bufio *)

Definition MaxScanTokenSize : N := 65536.

(** The newline byte. *)
Definition nl : ascii := Ascii.ascii_of_N 10.
Definition cr : ascii := Ascii.ascii_of_N 13.

(** A trailing empty piece is no line. *)
Fixpoint drop_last_empty (l : list string) : list string :=
  match l with
  | [] => []
  | [x] => if String.eqb x "" then [] else [x]
  | x :: l' => x :: drop_last_empty l'
  end.

Definition raw_lines (s : string) : list string := drop_last_empty (Split s nl).

Fixpoint drop_CR (s : string) : string :=
  match s with
  | EmptyString => EmptyString
  | String c EmptyString => if Ascii.eqb c cr then EmptyString else s
  | String c s' => String c (drop_CR s')
  end.

(** A line fills the buffer when it has no newline within the limit. *)
Definition too_long (line : string) : bool :=
  (MaxScanTokenSize <=? N.of_nat (String.length line))%N.

(** The lines scanned before the first that is too long, and whether there was
    one ([bufio.ErrTooLong]). *)
Fixpoint scan (l : list string) : list string * bool :=
  match l with
  | [] => ([], false)
  | x :: l' =>
      if too_long x then ([], true)
      else let '(ys, e) := scan l' in (drop_CR x :: ys, e)
  end.

Definition scan_lines (s : string) : list string * bool := scan (raw_lines s).

Lemma scan_ok l ys :
  scan l = (ys, false) ↔ Forall (λ x, too_long x = false) l ∧ ys = map drop_CR l.
Proof.
  revert ys. induction l as [|x l IH]; intros ys; simpl.
  { split; [intros [= <-]; done|by intros [_ ->]]. }
  destruct (too_long x) eqn:E.
  { split; [done|]. intros [Hf _]. apply Forall_cons_1 in Hf as [? _]. congruence. }
  destruct (scan l) as [ys' e]. split.
  - intros [= <- ->]. destruct (proj1 (IH ys') eq_refl) as [? ->].
    split; [by constructor|done].
  - intros [Hf ->]. apply Forall_cons_1 in Hf as [_ Hf].
    by pose proof (proj2 (IH _) (conj Hf eq_refl)) as [= -> ->].
Qed.

Lemma drop_CR_visible s : all_bytes visible s = true → drop_CR s = s.
Proof.
  induction s as [|c s IH]; [done|]. simpl. intros H. bool_prop.
  destruct s as [|c' s']; [|by rewrite IH].
  destruct (Ascii.eqb_spec c cr) as [->|]; [done|done].
Qed.

Lemma drop_last_empty_snoc l : drop_last_empty (l ++ [""]) = l.
Proof.
  induction l as [|x l IH]; [done|]. simpl. rewrite IH.
  destruct l; [|done]. by simpl in *.
Qed.

(** A text made of newline-terminated lines has exactly those lines. *)
Lemma raw_lines_unlines l :
  Forall (λ x, byte_in nl x = false) l →
  raw_lines (foldr (λ x s, x +:+ String nl s) "" l) = l.
Proof.
  intros Hl. unfold raw_lines.
  assert (Split (foldr (λ x s, x +:+ String nl s) "" l) nl = l ++ [""]) as ->.
  { induction Hl as [|x l Hx Hl IH]; [done|].
    cbn [foldr]. by rewrite Split_append, IH. }
  apply drop_last_empty_snoc.
Qed.
