(* ===== verification/BasicAuth.v ===== *)
(** * internal/basicauth: credentials from an htpasswd file

    [loadFile] (htpasswd.go) parses the file, [Authenticate] (basicauth.go)
    checks a request against the loaded credentials through a cache of earlier
    answers, and [startWatcher] (watcher.go) replaces the credentials when the
    file changes.  bcrypt, maphash and the ristretto cache are parameters. *)

From S2P Require Import Prelude GoStrings GoBase64 GoValue GoHttp GoOs Types.

(** ** Code outside the repository *)

Class Bcrypt := {
  bcrypt_Cost : string → option Z;                        (* None: an error *)
  CompareHashAndPassword : string → string → option error (* None: nil *)
}.

(** maphash: the sum of what was written under a seed. *)
Class Maphash (Seed : Type) := { Sum64 : Seed → string → N }.

(** A ristretto cache.  [may_hold c k b]: the cache holds [b] for [k], or has it
    buffered; an entry may be dropped, expire or become visible at any time, so
    that is all its client can know. *)
Class Cache (C : Type) := {
  cache_Get : C → N → option bool;
  SetWithTTL : N → bool → C → C;
  Clear : C → C;
  may_hold : C → N → bool → Prop
}.

Class LawfulCache (C : Type) `{!Cache C} : Prop := {
  Get_may_hold c k b : cache_Get c k = Some b → may_hold c k b;
  Set_may_hold c k b k' b' :
    may_hold (SetWithTTL k b c) k' b' → (k' = k ∧ b' = b) ∨ may_hold c k' b';
  Clear_may_hold c k b : ¬ may_hold (Clear c) k b
}.

(** ** htpasswd.go *)

Abbreviation credMap := (gmap string string).

Definition minAllowedCost : Z := 10.

(** What the scanning loop makes of a line. *)
Inductive entry : Type :=
| Blank                                   (* empty or a comment *)
| NoColon
| InvalidHash
| CostTooLow
| Credential (username hash : string)
| Unsupported.                            (* $apr1$, {SHA}, any other *)

Section htpasswd.
Context `{Bcrypt}.

Definition parse_line (text : string) : entry :=
  let line := TrimSpace text in
  if String.eqb line "" || HasPrefix line "#" then Blank
  else match cut_byte ":" line with
       | None => NoColon
       | Some (username, hash) =>
           if HasPrefix hash "$2y$" || HasPrefix hash "$2b$" || HasPrefix hash "$2a$"
           then match bcrypt_Cost hash with
                | None => InvalidHash
                | Some cost =>
                    if (cost <? minAllowedCost)%Z then CostTooLow
                    else Credential username hash
                end
           else Unsupported
       end.

Definition load_line (creds : credMap) (text : string) : credMap :=
  match parse_line text with
  | Credential username hash => <[username := hash]> creds
  | _ => creds
  end.

(** [f]: the result of opening the file; its text and the error, if any, that
    ended the reading of it. *)
Definition loadFile (f : result (string * option error)) : result credMap :=
  match f with
  | Err e => Err (ErrWrap "basicauth: cannot open file" e)
  | Ok (text, read_err) =>
      let '(lines, long) := scan_lines text in
      let creds := foldl load_line ∅ lines in
      if long then
        Err (ErrWrap "basicauth: error reading file" (ErrMsg "bufio.Scanner: token too long"))
      else match read_err with
           | Some e => Err (ErrWrap "basicauth: error reading file" e)
           | None => if (size creds =? 0)%nat then Err ErrNoValidCredentials else Ok creds
           end
  end.
End htpasswd.

(** ** basicauth.go *)

(** [watching]: the goroutine of [startWatcher] runs; [cache]: nil when the
    cache could not be created. *)
Record BasicAuthProvider (C Seed : Type) := mkBasicAuth {
  filePath : string;
  creds : credMap;
  permissive : bool;
  watching : bool;
  cache : option C;
  seed : Seed
}.
Arguments mkBasicAuth {C Seed}.
Arguments filePath {C Seed}.
Arguments creds {C Seed}.
Arguments permissive {C Seed}.
Arguments watching {C Seed}.
Arguments cache {C Seed}.
Arguments seed {C Seed}.

Definition set_creds {C Seed} (m : credMap) (b : BasicAuthProvider C Seed) :=
  mkBasicAuth (filePath b) m (permissive b) (watching b) (cache b) (seed b).
Definition set_cache {C Seed} (f : C → C) (b : BasicAuthProvider C Seed) :=
  mkBasicAuth (filePath b) (creds b) (permissive b) (watching b) (f <$> cache b) (seed b).

Section basicauth.
Context `{Unicode, Bcrypt} {C Seed : Type} `{!Cache C, !Maphash Seed}.
Local Abbreviation provider := (BasicAuthProvider C Seed).

(** [f]: the file when it is loaded; [watcher]: whether a watcher could be
    made; [added]: whether it accepts the file; [c]: the new cache. *)
Definition New (path : string) (perm : bool) (f : result (string * option error))
    (watcher added : bool) (c : option C) (s : Seed) : option provider :=
  match loadFile f with
  | Err _ => None
  | Ok m => if watcher then Some (mkBasicAuth path m perm added c s) else None
  end.

Definition cache_text (user password : string) : string :=
  user +:+ ":" +:+ password.

Definition createCacheKey (b : provider) (user password : string) : N :=
  Sum64 (seed b) (cache_text user password).

Definition verifyPassword (user hash password : string) : go provider (option error) :=
  b ← go_get;
  let cacheKey := createCacheKey b user password in
  match cache b ≫= λ c, cache_Get c cacheKey with
  | Some false => mret (Some ErrAuthenticationFailed)
  | Some true => mret None
  | None =>
      let err := CompareHashAndPassword hash password in
      go_modify (set_cache (SetWithTTL cacheKey (bool_decide (err = None))));;
      mret err
  end.

Definition handleFailure (perm : bool) : option error :=
  if perm then None else Some ErrAuthenticationFailed.

Definition clear_password (i : Info) : Info :=
  set_RequestPart (λ q, set_Auth (set_Password "" <$> Auth q) q) i.

(** On the provider's own state. *)
Definition on_provider {A} (m : go provider A) : go (Info * provider) A := λ '(i, b),
  let '(o, b') := m b in (o, (i, b')).

Definition basic_Authenticate (r : Request) (h : Header)
    : go (Info * provider) (option error) :=
  '(info, b) ← go_get;
  match Auth (RequestPart info) with
  | None => mret None
  | Some auth =>
      if negb (EqualFold (Kind auth) "basic") then mret None
      else
        go_defer (prod_map clear_password id)
          (if String.eqb (AuthUser auth) "" then mret (handleFailure (permissive b))
           else match creds b !! AuthUser auth with
                | None => mret (handleFailure (permissive b))
                | Some hash =>
                    err ← on_provider (verifyPassword (AuthUser auth) hash (Password auth));
                    match err with
                    | Some _ => mret (Some ErrAuthenticationFailed)
                    | None =>
                        go_modify (prod_map (set_User (VStr (AuthUser auth))) id);;
                        mret None
                    end
                end)
  end.

#[export] Instance basicauth_provider : AuthProvider provider := {
  Authenticate := basic_Authenticate;
  WWWAuthenticate _ := Some ("Basic realm=" +:+ quote +:+ "rest-rego" +:+ quote)
}.
End basicauth.

(** ** watcher.go *)

Section watcher.
Context `{Bcrypt} {C Seed : Type} `{!Cache C}.
Local Abbreviation provider := (BasicAuthProvider C Seed).

(** One event, with the file as the load then finds it. *)
Definition watch_event (e : Event) (f : result (string * option error))
    : go provider unit :=
  if Has e fs_Write || Has e fs_Create then
    match loadFile f with
    | Err _ => mret tt
    | Ok newCreds => go_modify (set_creds newCreds);; go_modify (set_cache Clear)
    end
  else mret tt.

(** The loop, over what the goroutine receives. *)
Fixpoint startWatcher (ms : list (watch_msg (result (string * option error))))
    : go provider unit :=
  match ms with
  | [] => mret tt
  | EventMsg e f :: ms' => watch_event e f;; startWatcher ms'
  | ErrorMsg :: ms' => startWatcher ms'
  | ChannelClosed :: _ => mret tt
  end.
End watcher.
