(* ===== verification/BasicAuthProps.v ===== *)
(** * Properties of basic authentication

    What the loader accepts, what [Authenticate] answers, and the answer cache:
    sound while requests and reloads are atomic, stale when they interleave. *)

From S2P Require Import Prelude GoStrings GoBase64 GoValue GoHttp GoOs Types BasicAuth.

(** ** Vocabulary of the specifications *)

Section vocabulary.
Context `{Unicode, Bcrypt}.

Definition bcrypt_hash (h : string) : Prop :=
  HasPrefix h "$2y$" || HasPrefix h "$2b$" || HasPrefix h "$2a$" = true
  ∧ ∃ cost, bcrypt_Cost h = Some cost ∧ (10 ≤ cost)%Z.

(** A line that gives [u] the hash [h]: between white space it is "u:h", not a
    comment, and [h] is a bcrypt hash. *)
Definition credential_line (u h text : string) : Prop :=
  TrimSpace text = u +:+ ":" +:+ h ∧ HasPrefix (TrimSpace text) "#" = false
  ∧ byte_in ":" u = false ∧ bcrypt_hash h.

(** [h] is the hash of the last such line for [u]. *)
Definition last_credential (u h : string) (lines : list string) : Prop :=
  ∃ before t after, lines = before ++ t :: after ∧ credential_line u h t
    ∧ Forall (λ t', ∀ h', ¬ credential_line u h' t') after.

(** An entry that is written as one visible line. *)
Definition writable (e : string * string) : Prop :=
  byte_in ":" e.1 = false ∧ HasPrefix (e.1 +:+ ":" +:+ e.2) "#" = false
  ∧ all_bytes visible (e.1 +:+ ":" +:+ e.2) = true
  ∧ too_long (e.1 +:+ ":" +:+ e.2) = false ∧ bcrypt_hash e.2.

Definition write_htpasswd (l : list (string * string)) : string :=
  foldr (λ e s, (e.1 +:+ ":" +:+ e.2) +:+ String nl s) "" l.

(** The credentials a request presents to the provider. *)
Definition presented (i : Info) : option (string * string) :=
  match Auth (RequestPart i) with
  | Some a => if EqualFold (Kind a) "basic" then Some (AuthUser a, Password a) else None
  | None => None
  end.

(** The decision without a cache: what is answered and who is recorded. *)
Definition check_presented (m : credMap) (perm : bool) (i : Info) : option error * value :=
  match presented i with
  | None => (None, User i)
  | Some (u, p) =>
      let unknown := if perm then None else Some ErrAuthenticationFailed in
      if String.eqb u "" then (unknown, User i)
      else match m !! u with
           | None => (unknown, User i)
           | Some hash =>
               match CompareHashAndPassword hash p with
               | Some _ => (Some ErrAuthenticationFailed, User i)
               | None => (None, VStr u)
               end
           end
  end.
End vocabulary.

(** ** Loading *)

Section loading.
Context `{Bcrypt}.

Lemma parse_line_Credential t u h :
  parse_line t = Credential u h ↔ credential_line u h t.
Proof.
  unfold parse_line, credential_line. split.
  - intros Hp. repeat (case_match; try discriminate). simplify_eq. bool_prop.
    edestruct cut_byte_Some as [Ht Hu]; [done|]. split_and!; [done..|].
    split; [done|]. by eexists.
  - intros (-> & Hc & Hu & Hp & cost & Hcost & Hmin).
    rewrite Hc, (cut_byte_append ":" u h Hu : cut_byte ":" (u +:+ ":" +:+ h) = _), Hp, Hcost.
    rewrite (proj2 (Z.ltb_ge cost minAllowedCost)) by done.
    by destruct u.
Qed.

Lemma load_line_lookup m t u h :
  load_line m t !! u = Some h ↔
  credential_line u h t ∨ (∀ h', ¬ credential_line u h' t) ∧ m !! u = Some h.
Proof.
  setoid_rewrite <- parse_line_Credential. unfold load_line.
  destruct (parse_line t) as [| | | |u' h'|]; try naive_solver.
  rewrite lookup_insert_Some. naive_solver.
Qed.

Lemma load_lines_lookup ls u h :
  foldl load_line ∅ ls !! u = Some h ↔ last_credential u h ls.
Proof.
  unfold last_credential. induction ls as [|t ls IH] using rev_ind.
  { cbn [foldl]. rewrite lookup_empty. split; [done|]. by intros ([] & ? & ? & [=] & _). }
  rewrite foldl_app. cbn [foldl]. rewrite load_line_lookup, IH. split.
  - intros [Ht|[Hno (l1 & t' & l2 & -> & Ht & Hl)]].
    + exists ls, t, []. by rewrite Forall_nil.
    + exists l1, t', (l2 ++ [t]). rewrite <- app_assoc. split_and!; [done|done|].
      by apply Forall_app; rewrite Forall_singleton.
  - intros (l1 & t' & l2 & E & Ht & Hl).
    destruct l2 as [|x l2 _] using rev_ind; [apply app_inj_tail in E as [-> ->]; by left|].
    rewrite app_comm_cons, app_assoc in E. apply app_inj_tail in E as [-> ->].
    apply Forall_app in Hl as [? Hx]. rewrite Forall_singleton in Hx. right. eauto 10.
Qed.

Lemma load_lines_credentials ls m :
  map_Forall (λ u h, byte_in ":" u = false ∧ bcrypt_hash h) m →
  map_Forall (λ u h, byte_in ":" u = false ∧ bcrypt_hash h) (foldl load_line m ls).
Proof.
  revert m. induction ls as [|t ls IH]; [done|]. intros m Hm. apply IH.
  unfold load_line. destruct (parse_line t) eqn:E; try done.
  apply map_Forall_insert_2; [by apply parse_line_Credential in E as (_ & _ & ?)|done].
Qed.

Lemma loadFile_Ok f m :
  loadFile f = Ok m ↔
  ∃ text lines, f = Ok (text, None) ∧ scan_lines text = (lines, false)
                ∧ m = foldl load_line ∅ lines ∧ m ≠ ∅.
Proof.
  unfold loadFile. split.
  - intros Hf. destruct f as [[text re]|]; [|done].
    destruct (scan_lines text) as [lines []] eqn:E; [done|].
    destruct re; [done|]. destruct (_ =? 0)%nat eqn:Es; [done|].
    injection Hf as <-. exists text, lines. split_and!; try done.
    intros Hn. by rewrite Hn in Es.
  - intros (text & lines & -> & -> & -> & Hne).
    destruct (_ =? 0)%nat eqn:Es; [|done].
    apply Nat.eqb_eq, map_size_empty_iff in Es. done.
Qed.

Lemma loadFile_credentials f m :
  loadFile f = Ok m → map_Forall (λ u h, byte_in ":" u = false ∧ bcrypt_hash h) m.
Proof.
  intros (text & lines & _ & _ & -> & _)%loadFile_Ok.
  apply load_lines_credentials, map_Forall_empty.
Qed.

(** C32: the loader succeeds exactly when the file is read to its end, no line
    reaches the scanner's limit of 65536 bytes and some line is a credential;
    then each user has the hash of the last credential line that names them
    and nobody else is known. *)
Theorem loadFile_ok_iff f m :
  loadFile f = Ok m ↔
  ∃ text, f = Ok (text, None)
    ∧ Forall (λ l, too_long l = false) (raw_lines text) ∧ m ≠ ∅
    ∧ ∀ u h, m !! u = Some h ↔ last_credential u h (map drop_CR (raw_lines text)).
Proof.
  rewrite loadFile_Ok. split.
  - intros (text & lines & -> & Hs & -> & Hne). apply scan_ok in Hs as [Hf ->].
    exists text. split_and!; [done..|]. intros u h. apply load_lines_lookup.
  - intros (text & -> & Hf & Hne & Hu). exists text, (map drop_CR (raw_lines text)).
    split_and!; [done|by apply scan_ok| |done].
    apply map_eq. intros u. apply option_eq. intros h. by rewrite Hu, load_lines_lookup.
Qed.

(** No credential the provider can match is anything but a bcrypt hash of
    cost at least 10, and no user name has a colon. *)
Theorem loadFile_only_bcrypt f m u h :
  loadFile f = Ok m → m !! u = Some h → byte_in ":" u = false ∧ bcrypt_hash h.
Proof. intros Hf Hu. by apply (loadFile_credentials f m Hf). Qed.

Lemma parse_line_writable u h :
  writable (u, h) → parse_line (u +:+ ":" +:+ h) = Credential u h.
Proof.
  intros (Hu & Hc & Hv & _ & Hp). simpl in *. apply parse_line_Credential.
  unfold credential_line. by rewrite TrimSpace_visible.
Qed.

(** C33: an htpasswd file written from a list of entries loads as the map of
    that list, later entries of a user replacing earlier ones. *)
Theorem loadFile_roundtrip l :
  l ≠ [] → Forall writable l →
  loadFile (Ok (write_htpasswd l, None))
  = Ok (foldl (λ m e, <[e.1 := e.2]> m) ∅ l).
Proof.
  intros Hne Hl. set (line (e : string * string) := e.1 +:+ ":" +:+ e.2).
  assert (Hraw : raw_lines (write_htpasswd l) = map line l).
  { rewrite <- (raw_lines_unlines (map line l)); [|].
    - unfold write_htpasswd. by rewrite foldr_fmap.
    - apply Forall_map. eapply Forall_impl; [done|]. intros e (_ & _ & Hv & _).
      by apply (all_bytes_not_in visible). }
  apply loadFile_Ok. exists (write_htpasswd l), (map line l). split_and!; [done| | |].
  - unfold scan_lines. rewrite Hraw. apply scan_ok. split.
    + apply Forall_map. eapply Forall_impl; [done|]. by intros e (_ & _ & _ & ? & _).
    + symmetry. apply map_id_on. intros x (e & -> & He)%list_elem_of_fmap.
      apply drop_CR_visible. eapply Forall_forall in Hl as (_ & _ & ? & _); done.
  - generalize (∅ : credMap). clear Hne Hraw.
    induction Hl as [|[u h] l He Hl IH]; [done|]. intros m. simpl.
    unfold load_line at 2, line. simpl. rewrite parse_line_writable by done. apply IH.
  - destruct l as [|e l] using rev_ind; [done|]. rewrite foldl_app. simpl.
    apply (insert_non_empty (M := gmap string)).
Qed.
End loading.

(** ** Authenticate *)

Section authenticate.
Context `{Unicode, Bcrypt} {C Seed : Type} `{!Cache C, !Maphash Seed}.
Local Abbreviation provider := (BasicAuthProvider C Seed).

(** The answer of [Authenticate] with what [verifyPassword] answers left open. *)
Definition answer_with (verify : string → string → string → option error)
    (m : credMap) (perm : bool) (i : Info) : option error * value :=
  match presented i with
  | None => (None, User i)
  | Some (u, p) =>
      if String.eqb u "" then (handleFailure perm, User i)
      else match m !! u with
           | None => (handleFailure perm, User i)
           | Some hash =>
               match verify u hash p with
               | Some _ => (Some ErrAuthenticationFailed, User i)
               | None => (None, VStr u)
               end
           end
  end.

(** What is left of the info: the password is gone, the user is recorded. *)
Definition answered_info (v : value) (i : Info) : Info :=
  match presented i with
  | None => i
  | Some _ => clear_password (set_User v i)
  end.

(** The pair whose password is actually verified. *)
Definition verified (m : credMap) (i : Info) : option (string * string * string) :=
  '(u, p) ← presented i;
  if String.eqb u "" then None else hash ← m !! u; Some (u, hash, p).

Lemma verifyPassword_run b u hash p :
  ∃ a b', verifyPassword u hash p b = (Done a, b').
Proof. unfold verifyPassword. go_unfold. repeat case_match; eauto. Qed.

Lemma basic_Authenticate_run r h i (b : provider) :
  let verify u hash p :=
    match (verifyPassword u hash p b).1 with Done a => a | Panic _ => None end in
  basic_Authenticate r h (i, b)
  = let '(o, v) := answer_with verify (creds b) (permissive b) i in
    (Done o, (answered_info v i,
      match verified (creds b) i with
      | Some (u, hash, p) => (verifyPassword u hash p b).2
      | None => b
      end)).
Proof.
  intros verify. unfold basic_Authenticate, answer_with, answered_info, verified, presented.
  go_unfold. destruct (Auth (RequestPart i)) as [a|] eqn:Ea; [|done].
  destruct (EqualFold (Kind a) "basic"); simpl; [|done].
  assert (Hset : set_User (User i) i = i) by by destruct i.
  unfold go_defer. destruct (String.eqb (AuthUser a) "").
  { by rewrite Hset. }
  destruct (creds b !! AuthUser a) as [hash|] eqn:Ec; simpl; [|by rewrite Hset].
  unfold verify. destruct (verifyPassword_run b (AuthUser a) hash (Password a))
    as (o & b' & E).
  rewrite E. simpl. destruct o; simpl; by rewrite ?Hset.
Qed.

Lemma clear_password_Auth i :
  Auth (RequestPart (clear_password i)) = set_Password "" <$> Auth (RequestPart i).
Proof. done. Qed.




(** C20: whatever the answer and whatever the cache holds, a request with Basic
    credentials leaves [Authenticate] without its password. *)
Theorem Authenticate_clears_password r h i (b : provider) a :
  Auth (RequestPart i) = Some a → EqualFold (Kind a) "basic" = true →
  ∃ o i' b', Authenticate r h (i, b) = (Done o, (i', b'))
             ∧ Auth (RequestPart i') = Some (set_Password "" a).
Proof.
  intros Ha Hk. simpl. rewrite basic_Authenticate_run.
  destruct (answer_with _ _ _ _) as [o v]. eexists _, _, _. split; [done|].
  unfold answered_info, presented. rewrite Ha, Hk, clear_password_Auth. simpl.
  by rewrite Ha.
Qed.

(** The policy still sees the password: the token of the info, which
    [Authenticate] leaves, is the base64 text of "user:password" and decodes
    to both. *)
Theorem password_left_in_token r h k level scheme user pwd (b : provider) i :
  ascii_only scheme = true → lower_string scheme = "basic" →
  byte_in ":" user = false →
  h !! k = Some [scheme +:+ " " +:+ EncodeToString (user +:+ ":" +:+ pwd)] →
  NewInfo r h k level = Done i →
  ∃ o i' b' a, Authenticate r h (i, b) = (Done o, (i', b'))
    ∧ Auth (RequestPart i') = Some a ∧ Password a = ""
    ∧ DecodeString (Token a) = Some (user +:+ ":" +:+ pwd).
Proof.
  intros Hasc Hlow Hcolon Hk Hi.
  destruct (NewInfo_basic r h k level scheme user pwd Hasc Hlow Hcolon Hk)
    as (i' & Hi' & Ha).
  rewrite Hi in Hi'. injection Hi' as <-. simpl. rewrite basic_Authenticate_run.
  destruct (answer_with _ _ _ _) as [o v]. eexists _, _, _, _. split; [done|].
  unfold answered_info, presented. rewrite Ha. cbn [Kind AuthUser Password].
  rewrite EqualFold_refl. rewrite clear_password_Auth. simpl. rewrite Ha.
  split; [done|]. split; [done|]. apply DecodeString_EncodeToString.
Qed.

#[export] Instance basicauth_lawful : LawfulAuth provider.
Proof.
  assert (Hpres : ∀ r h i (b : provider) o i' b',
    Authenticate r h (i, b) = (o, (i', b')) →
    ∃ verify e v, o = Done e ∧ i' = answered_info v i
      ∧ answer_with verify (creds b) (permissive b) i = (e, v)).
  { intros r h i b o i' b'. simpl. rewrite basic_Authenticate_run.
    destruct (answer_with _ _ _ _) as [e v] eqn:E. intros [= <- <- _]. by eexists _, _, _. }
  assert (Herr : ∀ verify m perm i e v,
    answer_with verify m perm i = (Some e, v) → e = ErrAuthenticationFailed ∧ v = User i).
  { intros verify m perm i e v. unfold answer_with, handleFailure.
    repeat case_match; by intros [= <- <-]. }
  split.
  - intros r h i p o i' p' (vf & e & v & -> & -> & _)%Hpres.
    unfold answered_info. by destruct (presented i) as [[]|].
  - intros r h i p e i' p' (vf & e' & v & [= <-] & _ & E)%Hpres. left. by eapply Herr.
  - intros r h i p e i' p' (vf & e' & v & [= <-] & -> & E)%Hpres.
    apply Herr in E as [_ ->]. unfold answered_info.
    destruct (presented i) as [[]|]; done.
Qed.
End authenticate.

(** ** Witnesses *)

Module Sample.
(** A hash that shows its password. *)
Definition toy_bcrypt : Bcrypt := {|
  bcrypt_Cost h := Some 10%Z;
  CompareHashAndPassword h p :=
    if String.eqb h ("$2y$10$" +:+ p) then None else Some (ErrMsg "mismatch")
|}.

Definition toy_maphash : Maphash unit := {| Sum64 _ s := Npos (encode s) |}.

(** A cache that never drops anything by itself. *)
Definition toy_cache : Cache (gmap N bool) := {|
  cache_Get c k := c !! k;
  SetWithTTL k b c := <[k := b]> c;
  Clear c := ∅;
  may_hold c k b := c !! k = Some b
|}.

Lemma toy_cache_lawful : @LawfulCache _ toy_cache.
Proof.
  split; simpl.
  - done.
  - intros c k b k' b'. rewrite lookup_insert_Some. naive_solver.
  - intros c k b. by rewrite lookup_empty.
Qed.

Definition file : string := write_htpasswd [("alice", "$2y$10$pw")].
Definition request : Request := mkRequest "GET" "/" 0 None None.
Definition info (u p : string) : Info :=
  mkInfo (mkRequestInfo "GET" [] ∅ None (Some (mkAuth "basic" "" u p)) 0 "")
    VNil VNil VNil "/".
End Sample.

#[local] Existing Instance Sample.toy_bcrypt.
#[local] Existing Instance Sample.toy_maphash.
#[local] Existing Instance Sample.toy_cache.

Lemma loadFile_only_bcrypt_witness :
  loadFile (Ok (Sample.file, None)) = Ok {["alice" := "$2y$10$pw"]}
  ∧ byte_in ":" "alice" = false ∧ bcrypt_hash "$2y$10$pw".
Proof.
  split; [vm_compute; reflexivity|].
  apply (loadFile_only_bcrypt (Ok (Sample.file, None)) {["alice" := "$2y$10$pw"]});
    vm_compute; reflexivity.
Defined.

Lemma loadFile_roundtrip_witness :
  loadFile (Ok (write_htpasswd [("bob", "$2y$10$a"); ("bob", "$2y$10$b")], None))
  = Ok (foldl (λ m e, <[e.1 := e.2]> m) ∅ [("bob", "$2y$10$a"); ("bob", "$2y$10$b")]).
Proof.
  apply loadFile_roundtrip; [discriminate|].
  repeat constructor; try (vm_compute; reflexivity); exists 10%Z; split; vm_compute; done.
Defined.

Definition sample_user : BasicAuthProvider (gmap N bool) unit :=
  mkBasicAuth "users" {["alice" := "$2y$10$pw"]} false true (Some ∅) tt.

Lemma Authenticate_clears_password_witness :
  ∃ o i' b', Authenticate Sample.request ∅ (Sample.info "alice" "wrong", sample_user)
             = (Done o, (i', b'))
             ∧ Auth (RequestPart i') = Some (mkAuth "basic" "" "alice" "").
Proof.
  exact (Authenticate_clears_password Sample.request ∅ (Sample.info "alice" "wrong")
    sample_user (mkAuth "basic" "" "alice" "wrong") eq_refl eq_refl).
Defined.

Definition basic_header : Header := {["Authorization" := ["Basic YWxpY2U6cHc="]]}.

Lemma password_left_in_token_witness :
  ∃ i o i' b' a,
    NewInfo Sample.request basic_header "Authorization" 0
      = Done i
    ∧ Authenticate Sample.request ∅ (i, sample_user) = (Done o, (i', b'))
    ∧ Auth (RequestPart i') = Some a ∧ Password a = ""
    ∧ DecodeString (Token a) = Some "alice:pw".
Proof.
  assert (Hi : ∃ i, NewInfo Sample.request basic_header
    "Authorization" 0 = Done i) by (eexists; vm_compute; reflexivity).
  destruct Hi as [i Hi]. exists i.
  destruct (password_left_in_token Sample.request basic_header
    "Authorization" 0 "Basic" "alice" "pw" sample_user i
    eq_refl eq_refl eq_refl ltac:(vm_compute; reflexivity) Hi) as (o & i' & b' & a & H).
  exists o, i', b', a. split; [exact Hi|exact H].
Defined.
