(* ===== verification/BasicAuthCache.v ===== *)
(** * The cache of verified passwords

    Requests, reloads and the cache's own evictions as steps on the provider.
    While each is atomic, every cached answer is the one bcrypt gives under the
    credentials in force; the goroutines of the program interleave, and then an
    answer can outlive the credentials it was computed from. *)

From S2P Require Import Prelude GoStrings GoValue GoHttp GoOs Types BasicAuth BasicAuthProps.

(** ** Atomic steps *)

Section atomic.
Context `{Unicode, Bcrypt} {C Seed : Type} `{!Cache C, !LawfulCache C, !Maphash Seed}.
Local Abbreviation provider := (BasicAuthProvider C Seed).

Inductive provider_op : Type :=
| OpRequest (r : Request) (h : Header) (i : Info)
| OpWatch (e : Event) (f : result (string * option error))
| OpEvict.

(** The cache may drop entries by itself, never invent one. *)
Inductive provider_step (b : provider) : provider_op → provider → Prop :=
| step_request r h i :
    provider_step b (OpRequest r h i) (Authenticate r h (i, b)).2.2
| step_watch e f : provider_step b (OpWatch e f) (watch_event e f b).2
| step_evict c' c :
    cache b = Some c → (∀ k v, may_hold c' k v → may_hold c k v) →
    provider_step b OpEvict (set_cache (λ _, c') b).

(** The credentials the requests of a run presented. *)
Definition asked (op : provider_op) : list (string * string) :=
  match op with
  | OpRequest _ _ i => match presented i with Some p => [p] | None => [] end
  | _ => []
  end.

(** Each answer the cache may give was asked for and is bcrypt's, under the
    credentials in force. *)
Record coherent (past : list (string * string)) (b : provider) : Prop := {
  coherent_names : map_Forall (λ u _, byte_in ":" u = false) (creds b);
  coherent_answers c k v :
    cache b = Some c → may_hold c k v →
    ∃ u p hash, (u, p) ∈ past ∧ k = createCacheKey b u p ∧ creds b !! u = Some hash
                ∧ v = bool_decide (CompareHashAndPassword hash p = None)
}.

Lemma coherent_mono past past' b :
  coherent past b → past ⊆ past' → coherent past' b.
Proof.
  intros [Hn Ha] Hsub. split; [done|]. intros c k v Hc Hk.
  destruct (Ha c k v Hc Hk) as (u & p & hash & Hin & Hrest). eauto 10.
Qed.

Lemma presented_verified (m : credMap) i u hash p :
  verified m i = Some (u, hash, p) → presented i = Some (u, p) ∧ m !! u = Some hash.
Proof.
  unfold verified. intros Hv. destruct (presented i) as [[u' p']|]; [|done].
  simpl in Hv. destruct (String.eqb u' ""); [done|].
  destruct (m !! u') eqn:E; simpl in Hv; [|done]. by simplify_eq.
Qed.

Lemma verifyPassword_coherent past (b : provider) u hash p :
  creds b !! u = Some hash → coherent past b →
  coherent ((u, p) :: past) (verifyPassword u hash p b).2.
Proof.
  intros Hu Hc. assert (Hc' : coherent ((u, p) :: past) b).
  { eapply coherent_mono; [done|]. intros x. by right. }
  unfold verifyPassword. erewrite go_bind_done by reflexivity. cbv zeta.
  destruct (cache b ≫= _) as [[]|]; [done|done|]. simpl.
  destruct Hc' as [Hn Ha]. split; [done|]. simpl.
  intros c k v Hc'. apply fmap_Some in Hc' as (c0 & Hc0 & ->).
  intros [[-> ->]|Hk]%Set_may_hold; [|by apply (Ha c0)].
  exists u, p, hash. split; [by left|]. done.
Qed.

Lemma watch_event_coherent past e f (b : provider) :
  coherent past b → coherent past (watch_event e f b).2.
Proof.
  intros Hc. unfold watch_event. go_unfold. destruct (_ || _); [|done].
  destruct (loadFile f) as [m|] eqn:Ef; [|done]. simpl. split; simpl.
  - intros u h Hu. by apply (loadFile_credentials f m Ef u h).
  - intros c k v Hk Hm. apply fmap_Some in Hk as (c0 & _ & ->).
    by apply Clear_may_hold in Hm.
Qed.

Lemma coherent_step past b op b' :
  coherent past b → provider_step b op b' → coherent (asked op ++ past) b'.
Proof.
  intros Hc Hstep. destruct Hstep as [r h i|e f|c' c Hcache Hsub]; simpl.
  - rewrite basic_Authenticate_run. destruct (answer_with _ _ _ _) as [o v]. simpl.
    destruct (verified (creds b) i) as [[[u hash] p]|] eqn:Ev.
    + apply presented_verified in Ev as [-> Hu]. by apply verifyPassword_coherent.
    + eapply coherent_mono; [done|]. intros x Hx. apply elem_of_app. by right.
  - by apply watch_event_coherent.
  - destruct Hc as [Hn Ha]. split; [done|]. simpl. rewrite Hcache.
    intros c0 k v [= <-] Hk. apply (Ha c); auto.
Qed.

(** A new provider with an empty cache is coherent. *)
Lemma coherent_New path perm f watcher added c s b :
  New path perm f watcher added c s = Some b →
  (∀ c' k v, c = Some c' → ¬ may_hold c' k v) → coherent [] b.
Proof.
  unfold New. intros Hn Hc. destruct (loadFile f) as [m|] eqn:Ef; [|done].
  destruct watcher; [|done]. injection Hn as <-. split; simpl.
  - intros u h Hu. by apply (loadFile_credentials f m Ef u h).
  - intros c' k v Hc' Hk. by destruct (Hc c' k v Hc').
Qed.

Lemma coherent_reachable b ops b' past :
  execution provider_step b ops b' → coherent past b →
  ∃ past', coherent past' b' ∧ past' ⊆ flat_map asked ops ++ past.
Proof.
  intros Hexec. revert past. induction Hexec as [b|b op b1 ops b' Hs _ IH]; intros past Hc.
  - by exists past.
  - destruct (IH _ (coherent_step _ _ _ _ Hc Hs)) as (past' & Hc' & Hsub).
    exists past'. split; [done|]. simpl. set_solver.
Qed.

Lemma cache_text_inj u p u' p' :
  byte_in ":" u = false → byte_in ":" u' = false →
  cache_text u p = cache_text u' p' → u = u' ∧ p = p'.
Proof.
  unfold cache_text. intros Hu Hu' E.
  pose proof (cut_byte_append ":" u p Hu) as H1.
  pose proof (cut_byte_append ":" u' p' Hu') as H2.
  change (String ":" p) with (":" +:+ p) in H1.
  change (String ":" p') with (":" +:+ p') in H2. split; congruence.
Qed.

Lemma verifyPassword_sound past (b : provider) u hash p :
  creds b !! u = Some hash → coherent past b →
  (∀ u' p', (u', p') ∈ past → createCacheKey b u' p' = createCacheKey b u p →
            cache_text u' p' = cache_text u p) →
  ∃ a, (verifyPassword u hash p b).1 = Done a
       ∧ (a = None ↔ CompareHashAndPassword hash p = None).
Proof.
  intros Hu [Hn Ha] Hcoll. unfold verifyPassword.
  erewrite go_bind_done by reflexivity. cbv zeta.
  destruct (cache b) as [c|] eqn:Ec; simpl; [|by eexists].
  destruct (cache_Get c (createCacheKey b u p)) as [v|] eqn:Eg; [|by eexists].
  destruct (Ha c _ _ eq_refl (Get_may_hold c _ _ Eg))
    as (u' & p' & hash' & Hin & Hkey & Hu' & Hv).
  destruct (cache_text_inj u' p' u p) as [-> ->];
    [by apply (Hn _ _ Hu')|by apply (Hn _ _ Hu)|by apply Hcoll|].
  rewrite Hu in Hu'. injection Hu' as <-.
  destruct v; eexists; (split; [done|]); symmetry in Hv.
  - by apply bool_decide_eq_true in Hv.
  - apply bool_decide_eq_false in Hv. done.
Qed.

(** An accepted password is one of the pair that made its cache key. *)
Lemma verifyPassword_accepts past (b : provider) u hash p :
  creds b !! u = Some hash → coherent past b →
  (verifyPassword u hash p b).1 = Done None →
  ∃ u' p' hash', createCacheKey b u' p' = createCacheKey b u p
    ∧ creds b !! u' = Some hash' ∧ CompareHashAndPassword hash' p' = None.
Proof.
  intros Hu [Hn Ha]. unfold verifyPassword. erewrite go_bind_done by reflexivity. cbv zeta.
  destruct (cache b) as [c|] eqn:Ec; simpl; [|intros [= Hp]; by exists u, p, hash].
  destruct (cache_Get c (createCacheKey b u p)) as [[]|] eqn:Eg; simpl; [|done|].
  - intros _. destruct (Ha c _ _ eq_refl (Get_may_hold c _ _ Eg))
      as (u' & p' & hash' & _ & Hkey & Hu' & Hv).
    symmetry in Hv. apply bool_decide_eq_true in Hv. by exists u', p', hash'.
  - intros [= Hp]. by exists u, p, hash.
Qed.

Lemma basic_strict_admits past r h i i' (b b' : provider) u p :
  coherent past b → permissive b = false → presented i = Some (u, p) →
  basic_Authenticate r h (i, b) = (Done None, (i', b')) →
  User i' = VStr u ∧ is_Some (creds b !! u)
  ∧ ∃ u' p' hash, createCacheKey b u' p' = createCacheKey b u p
      ∧ creds b !! u' = Some hash ∧ CompareHashAndPassword hash p' = None.
Proof.
  intros Hc Hperm Hp. rewrite basic_Authenticate_run. unfold answer_with, answered_info.
  rewrite Hp, Hperm. destruct (String.eqb u "") eqn:Eu; [done|].
  destruct (creds b !! u) as [hash|] eqn:Ehash; [|done].
  destruct (verifyPassword_run b u hash p) as (o & b1 & Ev). rewrite Ev. simpl.
  destruct o as [e|]; [done|]. intros [= <- _]. split; [done|]. split; [done|].
  apply (verifyPassword_accepts past b u hash p Ehash Hc). by rewrite Ev.
Qed.

(** C11: the cache is transparent: after any sequence of requests, file events
    and evictions from a provider with an empty cache, a request is answered
    exactly as the cache-less decision answers it under the credentials then
    in force, as long as its user and password do not collide, under the
    64-bit hash, with a different pair asked before. *)
Theorem cached_equals_uncached path perm f watcher added c s b ops b' r h i :
  New path perm f watcher added c s = Some b →
  (∀ c' k v, c = Some c' → ¬ may_hold c' k v) →
  execution provider_step b ops b' →
  (∀ u p u' p', presented i = Some (u, p) → (u', p') ∈ flat_map asked ops →
     createCacheKey b' u' p' = createCacheKey b' u p →
     cache_text u' p' = cache_text u p) →
  ∃ b'', Authenticate r h (i, b')
    = (Done (check_presented (creds b') (permissive b') i).1,
       (answered_info (check_presented (creds b') (permissive b') i).2 i, b'')).
Proof.
  intros Hnew Hempty Hexec Hcoll.
  destruct (coherent_reachable _ _ _ _ Hexec (coherent_New _ _ _ _ _ _ _ _ Hnew Hempty))
    as (past & Hc & Hsub).
  simpl. rewrite basic_Authenticate_run. unfold answer_with, check_presented.
  destruct (presented i) as [[u p]|] eqn:Ep; [|by eexists].
  destruct (String.eqb u "") eqn:Eu; [by eexists|].
  destruct (creds b' !! u) as [hash|] eqn:Ehash; [|by eexists].
  destruct (verifyPassword_sound past b' u hash p Ehash Hc) as (a & -> & Ha).
  { intros u' p' Hin. apply Hcoll; [done|]. apply Hsub in Hin. set_solver. }
  destruct (CompareHashAndPassword hash p), a; simpl; try by eexists.
  - discriminate (proj1 Ha eq_refl).
  - discriminate (proj2 Ha eq_refl).
Qed.
End atomic.

(** ** Interleaved goroutines

    The request's goroutine reads the credentials, then the cache, compares,
    and stores the answer; the watcher's stores the new credentials and then
    clears the cache.  No lock orders the two. *)

Section interleaving.
Context `{Unicode, Bcrypt} {C Seed : Type} `{!Cache C, !Maphash Seed}.
Local Abbreviation provider := (BasicAuthProvider C Seed).

(** Where a goroutine is; a request's carries what it has read so far. *)
Inductive goroutine : Type :=
| ReqStart (u p : string)
| ReqLoaded (u p hash : string)
| ReqMissed (u p hash : string)
| ReqDone (answer : option error)
| WatchLoaded (newCreds : credMap)
| WatchStored
| WatchDone.

(** One step of a goroutine on the shared provider. *)
Definition goroutine_step (g : goroutine) (b : provider) : goroutine * provider :=
  match g with
  | ReqStart u p =>
      match creds b !! u with
      | Some hash => (ReqLoaded u p hash, b)
      | None => (ReqDone (handleFailure (permissive b)), b)
      end
  | ReqLoaded u p hash =>
      match cache b ≫= λ c, cache_Get c (createCacheKey b u p) with
      | Some true => (ReqDone None, b)
      | Some false => (ReqDone (Some ErrAuthenticationFailed), b)
      | None => (ReqMissed u p hash, b)
      end
  | ReqMissed u p hash =>
      let err := CompareHashAndPassword hash p in
      (ReqDone (match err with Some _ => Some ErrAuthenticationFailed | None => None end),
       set_cache (SetWithTTL (createCacheKey b u p) (bool_decide (err = None))) b)
  | WatchLoaded m => (WatchStored, set_creds m b)
  | WatchStored => (WatchDone, set_cache Clear b)
  | ReqDone _ | WatchDone => (g, b)
  end.

(** A schedule names the goroutine that runs next. *)
Fixpoint run (schedule : list nat) (gs : list goroutine) (b : provider)
    : list goroutine * provider :=
  match schedule with
  | [] => (gs, b)
  | n :: schedule' =>
      match gs !! n with
      | Some g =>
          let '(g', b') := goroutine_step g b in run schedule' (<[n := g']> gs) b'
      | None => run schedule' gs b
      end
  end.

(** C34: a goroutine left alone is the operation it comes from: three steps of
    a request's give the answer and the provider of [Authenticate], two steps
    of the watcher's the provider of [watch_event]. *)
Theorem goroutines_refine_operations r h i u p (b : provider) e f m :
  presented i = Some (u, p) → u ≠ "" →
  Has e fs_Write = true → loadFile f = Ok m →
  run [0; 0; 0]%nat [ReqStart u p] b
    = ([ReqDone match (Authenticate r h (i, b)).1 with Done a => a | Panic _ => None end],
       (Authenticate r h (i, b)).2.2)
  ∧ run [0; 0]%nat [WatchLoaded m] b = ([WatchDone], (watch_event e f b).2).
Proof.
  intros Hp Hu He Hf. split; [|unfold watch_event; by rewrite He, Hf].
  simpl Authenticate. rewrite basic_Authenticate_run.
  unfold answer_with, verified. rewrite Hp. simpl.
  apply String.eqb_neq in Hu. rewrite Hu.
  destruct (creds b !! u) as [hash|] eqn:Ec; [|done]. simpl.
  unfold verifyPassword. erewrite go_bind_done by reflexivity. cbv zeta.
  destruct (cache b ≫= _) as [[]|] eqn:Eg; simpl; rewrite ?Eg; [done|done|].
  simpl. by destruct (CompareHashAndPassword hash p).
Qed.

(** C26: a changed password can stay valid: when a request has read the old
    hash before the reload and stores its answer after the watcher cleared
    the cache, the next request with the old password is accepted although
    the credentials in force reject it. *)
Theorem stale_answer_after_reload (b : provider) c u p old new m e :
  cache b = Some c → cache_Get c (createCacheKey b u p) = None →
  creds b !! u = Some old → CompareHashAndPassword old p = None →
  m !! u = Some new → CompareHashAndPassword new p = Some e →
  cache_Get (SetWithTTL (createCacheKey b u p) true (Clear c)) (createCacheKey b u p)
    = Some true →
  ∃ b', run [0; 0; 1; 1; 0; 2; 2]%nat [ReqStart u p; WatchLoaded m; ReqStart u p] b
          = ([ReqDone None; WatchDone; ReqDone None], b')
        ∧ creds b' = m.
Proof.
  intros Hc Hmiss Hold Hcmp Hnew _ Hstored. eexists.
  simpl. rewrite Hold. simpl. rewrite Hc. simpl. rewrite Hmiss. simpl.
  rewrite Hcmp, bool_decide_eq_true_2 by done. simpl. rewrite Hnew. simpl.
  unfold createCacheKey in *. simpl. rewrite Hc. simpl. rewrite Hstored. done.
Qed.
End interleaving.

(** ** Witnesses *)

#[local] Existing Instance Sample.toy_bcrypt.
#[local] Existing Instance Sample.toy_maphash.
#[local] Existing Instance Sample.toy_cache.
#[local] Existing Instance Sample.toy_cache_lawful.

Definition sample_provider (p : string) : BasicAuthProvider (gmap N bool) unit :=
  mkBasicAuth "users" {["alice" := "$2y$10$" +:+ p]} false true (Some ∅) tt.

(** The provider after alice's first request: her answer is cached. *)
Definition sample_after : BasicAuthProvider (gmap N bool) unit :=
  (Authenticate Sample.request ∅ (Sample.info "alice" "pw", sample_provider "pw")).2.2.

Lemma cached_equals_uncached_witness :
  ∃ b'', Authenticate Sample.request ∅ (Sample.info "alice" "pw", sample_after)
         = (Done None, (answered_info (VStr "alice") (Sample.info "alice" "pw"), b'')).
Proof.
  destruct (cached_equals_uncached "users" false (Ok (Sample.file, None)) true true (Some ∅)
    tt (sample_provider "pw") [OpRequest Sample.request ∅ (Sample.info "alice" "pw")]
    sample_after Sample.request ∅ (Sample.info "alice" "pw")) as [b'' Hb].
  - vm_compute. reflexivity.
  - intros c' k v [= <-]. simpl. by rewrite lookup_empty.
  - eapply execution_cons; [constructor|constructor].
  - intros u p u' p' [= <- <-] Hin _.
    apply list_elem_of_singleton in Hin. by injection Hin as -> ->.
  - exists b''. rewrite Hb.
    assert (check_presented (creds sample_after) (permissive sample_after)
      (Sample.info "alice" "pw") = (None, VStr "alice")) as -> by (vm_compute; reflexivity).
    reflexivity.
Defined.

Lemma goroutines_refine_operations_witness :
  run [0; 0; 0]%nat [ReqStart "alice" "pw"] (sample_provider "pw")
    = ([ReqDone None],
       (Authenticate Sample.request ∅ (Sample.info "alice" "pw", sample_provider "pw")).2.2)
  ∧ run [0; 0]%nat [WatchLoaded {["alice" := "$2y$10$pw"]}] (sample_provider "old")
    = ([WatchDone], sample_provider "pw").
Proof.
  split.
  - exact (proj1 (goroutines_refine_operations Sample.request ∅ (Sample.info "alice" "pw")
      "alice" "pw" (sample_provider "pw") (mkEvent "users" fs_Write)
      (Ok (Sample.file, None)) {["alice" := "$2y$10$pw"]}
      eq_refl ltac:(discriminate) eq_refl eq_refl)).
  - exact (proj2 (goroutines_refine_operations Sample.request ∅ (Sample.info "alice" "pw")
      "alice" "pw" (sample_provider "old") (mkEvent "users" fs_Write)
      (Ok (Sample.file, None)) {["alice" := "$2y$10$pw"]}
      eq_refl ltac:(discriminate) eq_refl eq_refl)).
Defined.

Lemma stale_answer_after_reload_witness :
  ∃ b', run [0; 0; 1; 1; 0; 2; 2]%nat
          [ReqStart "alice" "old"; WatchLoaded {["alice" := "$2y$10$new"]}; ReqStart "alice" "old"]
          (sample_provider "old")
        = ([ReqDone None; WatchDone; ReqDone None], b')
        ∧ creds b' = {["alice" := "$2y$10$new"]}.
Proof.
  by apply (stale_answer_after_reload (sample_provider "old") ∅ "alice" "old"
    "$2y$10$old" "$2y$10$new" {["alice" := "$2y$10$new"]} (ErrMsg "mismatch")).
Defined.
