(* ===== verification/Azure.v ===== *)
(** * internal/azure: application tokens looked up in Microsoft Graph

    [Authenticate] (azure-app.go) reads the claims of the bearer token without
    verifying it and lets Graph decide: [getApp] (app-cache.go) asks Graph for
    the application with that token and caches the answer under both. *)

From S2P Require Import Prelude GoStrings GoValue GoHttp Types.

(** ** Code outside the repository *)

(** jwx's parsed token. *)
Class InsecureJwt (Tok : Type) := {
  ParseInsecure : string → option Tok;     (* jwt.Parse(_, WithVerify(false)) *)
  tok_Get : Tok → string → option value
}.

(** A decoded JSON object of strings; [None] is the nil map a JSON null gives. *)
Abbreviation graph_app := (option (gmap string string)).

Record GraphRequest := mkGraphRequest {
  g_path : string;
  g_header : list (string * string);
  g_query : list (string * string)
}.

(** resthelp: building a request may fail, so may sending it and decoding the
    response; what Graph answers changes with time. *)
Record Graph := mkGraph {
  base_Get : string → option GraphRequest;
  Do : GraphRequest → option string;
  ParseJSON : string → option graph_app
}.

(** go-cache: an entry expires by itself. *)
Class AppCache (C : Type) := {
  app_Get : C → string → option graph_app;
  SetDefault : string → graph_app → C → C;
  app_may_hold : C → string → graph_app → Prop
}.

Class LawfulAppCache (C : Type) `{!AppCache C} : Prop := {
  app_Get_may_hold c k a : app_Get c k = Some a → app_may_hold c k a;
  SetDefault_may_hold c k a k' a' :
    app_may_hold (SetDefault k a c) k' a' → (k' = k ∧ a' = a) ∨ app_may_hold c k' a'
}.

(** ** Data *)

Record AzureAuthProvider := mkAzure {
  tenant : string;
  az_header : string;                     (* field header *)
  permissive : bool
}.

Definition New (t authHeader : string) (perm : bool) : AzureAuthProvider :=
  mkAzure t authHeader perm.

(** The provider with the package's cache and the service it reaches. *)
Record AzureState (C : Type) := mkState {
  az : AzureAuthProvider;
  userCache : C;
  graph : Graph
}.
Arguments mkState {C}.
Arguments az {C}.
Arguments userCache {C}.
Arguments graph {C}.

Definition set_userCache {C} (f : C → C) (s : AzureState C) : AzureState C :=
  mkState (az s) (f (userCache s)) (graph s).

(** ** Operations *)

(** helpers.go. *)
Definition getTokenString `{InsecureJwt Tok} (token : Tok) (field : string) : string :=
  match tok_Get token field with
  | Some (VStr s) => s
  | _ => ""
  end.

(** The keys the second loop of [getApp] deletes. *)
Definition toDelete (result : gmap string string) : list string :=
  filter (λ k, HasPrefix k "@" = true) (map_to_list result).*1.

Definition drop_annotations (result : gmap string string) : gmap string string :=
  foldl (λ m k, delete k m) result (toDelete result).

(** What is asked of Graph, and the answer less the annotations (lines 35-61). *)
Definition fetch_app (g : Graph) (appId token : string) : option graph_app :=
  req ← base_Get g ("servicePrincipals(appId='" +:+ appId +:+ "')");
  resp ← Do g (mkGraphRequest (g_path req)
    (g_header req ++ [("Authorization", "Bearer " +:+ token)])
    (g_query req
     ++ [("$select", "id,displayName,appId,appOwnerOrganizationId,servicePrincipalType")]));
  result ← ParseJSON g resp;
  Some (fmap (M := option) drop_annotations result).

Definition cache_key (appId token : string) : string := appId +:+ ":" +:+ token.

Section azure.
Context `{Unicode, InsecureJwt Tok} {C : Type} `{!AppCache C}.

(** A nil map is how [getApp] reports a failure. *)
Definition getApp (appId token : string) : go (AzureState C) graph_app :=
  s ← go_get;
  let key := cache_key appId token in
  match app_Get (userCache s) key with
  | Some x => mret x
  | None =>
      match fetch_app (graph s) appId token with
      | None => mret None
      | Some result =>
          go_modify (set_userCache (SetDefault key result));;
          mret result
      end
  end.

(** The application as the policy sees it. *)
Definition app_value (m : gmap string string) : value :=
  VMap (prod_map id VStr <$> map_to_list m).

Definition on_state {A} (m : go (AzureState C) A) : go (Info * AzureState C) A := λ '(i, s),
  let '(o, s') := m s in (o, (i, s')).

(** Strict mode refuses, permissive mode goes on as anonymous. *)
Definition refuse (a : AzureAuthProvider) : option error :=
  if permissive a then None else Some ErrAuthenticationFailed.

Definition azure_Authenticate (r : Request) (h : Header)
    : go (Info * AzureState C) (option error) :=
  '(info, s) ← go_get;
  let '(bearerToken, ok) := GetBearerToken h (az_header (az s)) in
  if String.eqb bearerToken "" || negb ok then mret None
  else match ParseInsecure bearerToken with
  | None => mret (refuse (az s))
  | Some token =>
      let appid := getTokenString token "appid" in
      let tid := getTokenString token "tid" in
      if String.eqb appid "" then mret (refuse (az s))
      else if negb (EqualFold tid (tenant (az s))) then mret (refuse (az s))
      else
        go_modify (prod_map (set_RequestPart (set_ID appid)) id);;
        user ← on_state (getApp appid bearerToken);
        match user with
        | None => mret (Some ErrAuthenticationUnavailable)
        | Some m => go_modify (prod_map (set_User (app_value m)) id);; mret None
        end
  end.

#[export] Instance azure_provider : AuthProvider (AzureState C) := {
  Authenticate := azure_Authenticate;
  WWWAuthenticate _ := None
}.
End azure.
