(* ===== verification/AzureProps.v ===== *)
(** * Properties of the Azure provider *)

From S2P Require Import Prelude GoStrings GoValue GoHttp Types Azure.

(** ** The cases of a request *)

(** What the token says, before anybody is asked. *)
Inductive token_case : Type :=
| NoToken
| Refused                                   (* malformed, no appid, other tenant *)
| AskGraph (appid token : string).

Section azure.
Context `{Unicode, InsecureJwt Tok} {C : Type} `{!AppCache C}.
Local Abbreviation state := (AzureState C).

Definition token_case_of (a : AzureAuthProvider) (h : Header) : token_case :=
  match GetBearerToken h (az_header a) with
  | (t, ok) =>
      if String.eqb t "" || negb ok then NoToken
      else match ParseInsecure t with
           | None => Refused
           | Some tok =>
               if String.eqb (getTokenString tok "appid") ""
                  || negb (EqualFold (getTokenString tok "tid") (tenant a))
               then Refused
               else AskGraph (getTokenString tok "appid") t
           end
  end.

Definition identified (appid : string) (a : graph_app) (i : Info) : Info :=
  let i' := set_RequestPart (set_ID appid) i in
  match a with None => i' | Some m => set_User (app_value m) i' end.

Lemma getApp_run appid token (s : state) :
  ∃ a s', getApp appid token s = (Done a, s') ∧ az s' = az s ∧ graph s' = graph s.
Proof. unfold getApp. go_unfold. repeat case_match; eauto 10. Qed.

Lemma azure_Authenticate_run r h i (s : state) :
  azure_Authenticate r h (i, s)
  = match token_case_of (az s) h with
    | NoToken => (Done None, (i, s))
    | Refused => (Done (refuse (az s)), (i, s))
    | AskGraph appid token =>
        let '(o, s') := getApp appid token s in
        match o with
        | Panic why => (Panic why, (set_RequestPart (set_ID appid) i, s'))
        | Done a =>
            (Done match a with None => Some ErrAuthenticationUnavailable | Some _ => None end,
             (identified appid a i, s'))
        end
    end.
Proof.
  unfold azure_Authenticate, token_case_of. go_unfold.
  destruct (GetBearerToken h (az_header (az s))) as [t ok].
  destruct (String.eqb t "" || negb ok); [done|].
  destruct (ParseInsecure t) as [tok|]; [|done].
  destruct (String.eqb _ ""); [done|]. destruct (negb _); [done|]. simpl.
  destruct (getApp _ t s) as [[[m|]|] s']; done.
Qed.


#[export] Instance azure_lawful : LawfulAuth (AzureState C).
Proof.
  split; intros r h i s.
  - intros o i' s'. simpl. rewrite azure_Authenticate_run.
    destruct (token_case_of (az s) h) as [| |appid token];
      [by intros [= _ <- _]..|].
    destruct (getApp appid token s) as [[[m|]|] ?]; intros [= _ <- _]; done.
  - intros e i' s'. simpl. rewrite azure_Authenticate_run. unfold refuse.
    destruct (token_case_of (az s) h) as [| |appid token]; [done| |].
    + destruct (permissive (az s)); intros [= <- _ _]; auto.
    + destruct (getApp appid token s) as [[[m|]|] ?]; intros [= <- _ _]; auto.
  - intros e i' s'. simpl. rewrite azure_Authenticate_run.
    destruct (token_case_of (az s) h) as [| |appid token]; [done| |].
    + by intros [= _ <- _].
    + destruct (getApp appid token s) as [[[m|]|] ?]; by intros [= _ <- _].
Qed.

(** ** Permissive mode *)

Definition set_permissive (b : bool) (s : state) : state :=
  mkState (mkAzure (tenant (az s)) (az_header (az s)) b) (userCache s) (graph s).

(** Permissive mode never gives an identity: the user and the request id a
    request ends up with, and what is cached, are those of strict mode; only
    the refusal of a bad token becomes an anonymous request, and a Graph
    failure is reported either way. *)
Theorem permissive_grants_no_identity r h i (s : state) :
  ∃ strict lax i' s',
    Authenticate r h (i, set_permissive false s) = (Done strict, (i', set_permissive false s'))
    ∧ Authenticate r h (i, set_permissive true s) = (Done lax, (i', set_permissive true s'))
    ∧ lax = (if bool_decide (strict = Some ErrAuthenticationFailed) then None else strict)
    ∧ (strict = Some ErrAuthenticationFailed → User i' = User i).
Proof.
  simpl. rewrite !azure_Authenticate_run. unfold refuse.
  assert (Hcase : ∀ b, token_case_of (az (set_permissive b s)) h = token_case_of (az s) h)
    by done.
  rewrite !Hcase. destruct (token_case_of (az s) h) as [| |appid token].
  - by exists None, None, i, s.
  - by exists (Some ErrAuthenticationFailed), None, i, s.
  - unfold getApp. go_unfold. simpl.
    destruct (app_Get (userCache s) _) as [[m|]|].
    + by exists None, None, (identified appid (Some m) i), s.
    + by exists (Some ErrAuthenticationUnavailable), (Some ErrAuthenticationUnavailable),
        (identified appid None i), s.
    + destruct (fetch_app (graph s) appid token) as [[m|]|].
      * by eexists None, None, _, (set_userCache (SetDefault (cache_key appid token) _) s).
      * by eexists (Some ErrAuthenticationUnavailable), (Some ErrAuthenticationUnavailable),
          _, (set_userCache (SetDefault (cache_key appid token) _) s).
      * by exists (Some ErrAuthenticationUnavailable), (Some ErrAuthenticationUnavailable),
          (identified appid None i), s.
Qed.
End azure.

(** ** Where an identity comes from *)

Section provenance.
Context `{Unicode, InsecureJwt Tok} {C : Type} `{!AppCache C, !LawfulAppCache C}.
Local Abbreviation state := (AzureState C).

(** The state with the requests that have Graph's answer and have not stored it
    yet: the key and the application. *)
Local Abbreviation shared := (state * list (string * graph_app))%type.

(** Requests in one go; the two halves of concurrent ones, the second at any
    later time, whatever happens in between; the cache dropping entries; and
    Graph changing its mind. *)
Inductive azure_step : shared → option Graph → shared → Prop :=
| step_request r h i s late :
    azure_step (s, late) (Some (graph s)) ((Authenticate r h (i, s)).2.2, late)
| step_fetches appid token a s late :
    app_Get (userCache s) (cache_key appid token) = None →
    fetch_app (graph s) appid token = Some a →
    azure_step (s, late) (Some (graph s)) (s, late ++ [(cache_key appid token, a)])
| step_stores n k a s late :
    late !! n = Some (k, a) →
    azure_step (s, late) None (set_userCache (SetDefault k a) s, delete n late)
| step_expire c' s late :
    (∀ k a, app_may_hold c' k a → app_may_hold (userCache s) k a) →
    azure_step (s, late) None (set_userCache (λ _, c') s, late)
| step_graph g s late : azure_step (s, late) None (mkState (az s) (userCache s) g, late).

(** Graph said that the application of [appid] is [m], annotations aside, to a
    request that carried [token]. *)
Definition graph_said (g : Graph) (appid token : string) (m : gmap string string) : Prop :=
  ∃ req resp raw,
    base_Get g ("servicePrincipals(appId='" +:+ appid +:+ "')") = Some req
    ∧ Do g (mkGraphRequest (g_path req) (g_header req ++ [("Authorization", "Bearer " +:+ token)])
         (g_query req ++ [("$select",
            "id,displayName,appId,appOwnerOrganizationId,servicePrincipalType")])) = Some resp
    ∧ ParseJSON g resp = Some (Some raw)
    ∧ ∀ k, m !! k = if HasPrefix k "@" then None else raw !! k.

Lemma drop_annotations_lookup m k :
  drop_annotations m !! k = if HasPrefix k "@" then None else m !! k.
Proof.
  unfold drop_annotations.
  assert (Hdel : ∀ ks (m : gmap string string), foldl (λ m k, delete k m) m ks !! k
    = if decide (k ∈ ks) then None else m !! k).
  { induction ks as [|k' ks IH]; intros m'; [done|]. simpl. rewrite IH, lookup_delete.
    repeat case_decide; rewrite elem_of_cons in *; naive_solver. }
  rewrite Hdel. unfold toDelete.
  destruct (m !! k) as [v|] eqn:E; [|by destruct (HasPrefix k "@"); case_decide].
  case_decide as Hin; rewrite list_elem_of_filter in Hin.
  - by destruct Hin as [-> _].
  - destruct (HasPrefix k "@") eqn:Ep; [|done]. exfalso. apply Hin. split; [done|].
    apply list_elem_of_fmap. exists (k, v). split; [done|]. by apply elem_of_map_to_list.
Qed.

Lemma fetch_app_said g appid token m :
  fetch_app g appid token = Some (Some m) → graph_said g appid token m.
Proof.
  unfold fetch_app, graph_said.
  destruct (base_Get g _) as [req|]; [|done]. simpl.
  destruct (Do g _) as [resp|] eqn:Ed; [|done]. simpl.
  destruct (ParseJSON g resp) as [[raw|]|] eqn:Ep; simpl; intros [= <-].
  exists req, resp, raw. split_and!; try done. apply drop_annotations_lookup.
Qed.

(** Graph's answer, in the past, to an id and token with the key [k]. *)
Definition answered (past : list (option Graph)) (k : string) (a : graph_app) : Prop :=
  ∃ g appid token, Some g ∈ past ∧ k = cache_key appid token
                   ∧ fetch_app g appid token = Some a.

(** Each cached application was Graph's answer to its id and token; so is each
    one still to be stored. *)
Definition provenance (past : list (option Graph)) (s : state) : Prop :=
  ∀ k a, app_may_hold (userCache s) k a → answered past k a.

Definition all_provenance (past : list (option Graph)) (x : shared) : Prop :=
  provenance past x.1 ∧ ∀ k a, (k, a) ∈ x.2 → answered past k a.

Lemma answered_mono past e k a : answered past k a → answered (e :: past) k a.
Proof. intros (g & ai & t & Hin & ?). exists g, ai, t. split; [by right|done]. Qed.

Lemma provenance_mono past e s : provenance past s → provenance (e :: past) s.
Proof. intros Hp k a ?%Hp. by apply answered_mono. Qed.

(** Ids without a colon: the key determines id and token. *)
Lemma cache_key_inj a t a' t' :
  cache_key a t = cache_key a' t' → byte_in ":" a = false → byte_in ":" a' = false →
  a = a' ∧ t = t'.
Proof.
  unfold cache_key. rewrite !append_cons. intros E Ha Ha'.
  assert (Hc : cut_byte ":" (a +:+ String ":" t) = cut_byte ":" (a' +:+ String ":" t'))
    by exact (f_equal (cut_byte ":") E).
  rewrite !cut_byte_append in Hc by done. by injection Hc.
Qed.

Lemma getApp_provenance past appid token (s : state) :
  provenance past s →
  provenance (Some (graph s) :: past) (getApp appid token s).2
  ∧ ∀ a, (getApp appid token s).1 = Done (Some a) →
      ∃ g appid' token', Some g ∈ Some (graph s) :: past
        ∧ cache_key appid' token' = cache_key appid token
        ∧ fetch_app g appid' token' = Some (Some a).
Proof.
  intros Hp. unfold getApp. go_unfold.
  assert (Hp' : provenance (Some (graph s) :: past) s).
  { by apply provenance_mono. }
  destruct (app_Get (userCache s) _) as [x|] eqn:Eg; simpl.
  { split; [done|]. intros a [= ->]. apply app_Get_may_hold, Hp' in Eg.
    destruct Eg as (g & ai & t & ? & ? & ?). by exists g, ai, t. }
  destruct (fetch_app (graph s) appid token) as [x|] eqn:Ef; simpl; [|done].
  split.
  - intros k a [[-> ->]|Hk]%SetDefault_may_hold; [|by apply Hp'].
    exists (graph s), appid, token. split; [by left|done].
  - intros a [= ->]. exists (graph s), appid, token. split; [by left|done].
Qed.

Lemma provenance_step past x e x' :
  all_provenance past x → azure_step x e x' → all_provenance (e :: past) x'.
Proof.
  intros [Hp Hlate] Hstep.
  assert (Hl : ∀ k a, (k, a) ∈ x.2 → answered (e :: past) k a).
  { intros k a ?%Hlate. by apply answered_mono. }
  destruct Hstep as [r h i s late|appid token a s late Hg Hf|n k a s late Hn|c' s late Hc|g s late];
    simpl in *; (split; simpl; [|try done]).
  - rewrite azure_Authenticate_run.
    destruct (token_case_of (az s) h) as [| |appid token]; try by apply provenance_mono.
    destruct (getApp_provenance past appid token s Hp) as [Hnew _].
    destruct (getApp appid token s) as [[[m|]|] s'] eqn:E; exact Hnew.
  - by apply provenance_mono.
  - intros k' a' [?%Hl|[= -> ->]%list_elem_of_singleton]%elem_of_app; [done|].
    exists (graph s), appid, token. split; [by left|done].
  - intros k' a' [[-> ->]|Hk]%SetDefault_may_hold.
    + apply Hl. by eapply list_elem_of_lookup_2.
    + by apply (provenance_mono _ _ s).
  - intros k' a' Hin%list_elem_of_delete_inv. by apply Hl.
  - intros k' a' ?%Hc. by apply (provenance_mono _ _ s).
  - by apply (provenance_mono _ _ s).
Qed.

Lemma provenance_reachable x es x' past :
  execution azure_step x es x' → all_provenance past x →
  ∃ past', all_provenance past' x' ∧ past' ⊆ es ++ past.
Proof.
  intros Hexec. revert past. induction Hexec as [x|x e x1 es x' Hs _ IH]; intros past Hp.
  - by exists past.
  - destruct (IH _ (provenance_step _ _ _ _ Hp Hs)) as (past' & Hp' & Hsub).
    exists past'. split; [done|]. set_solver.
Qed.

(** A user that a request gains is in the application that Graph returned for
    the request's own key. *)
Lemma identified_from past r h i i' s' s'' :
  provenance past s' →
  Authenticate r h (i, s') = (Done None, (i', s'')) → User i' ≠ User i →
  ∃ tok token g appid' token' m,
    GetBearerToken h (az_header (az s')) = (token, true)
    ∧ ParseInsecure token = Some tok
    ∧ ID (RequestPart i') = getTokenString tok "appid"
    ∧ EqualFold (getTokenString tok "tid") (tenant (az s')) = true
    ∧ Some g ∈ Some (graph s') :: past
    ∧ appid' +:+ ":" +:+ token' = getTokenString tok "appid" +:+ ":" +:+ token
    ∧ (byte_in ":" appid' = false → byte_in ":" (getTokenString tok "appid") = false →
       appid' = getTokenString tok "appid" ∧ token' = token)
    ∧ graph_said g appid' token' m ∧ User i' = app_value m.
Proof.
  intros Hp Hauth Hne. simpl in Hauth. rewrite azure_Authenticate_run in Hauth.
  destruct (token_case_of (az s') h) as [| |appid token] eqn:Ec.
  { injection Hauth as <- _. done. }
  { injection Hauth as _ <- _. done. }
  destruct (getApp_provenance past appid token s' Hp) as [_ Hget].
  destruct (getApp appid token s') as [[[m|]|] s1]; try discriminate.
  injection Hauth as <- _. destruct (Hget m eq_refl) as (g & ai & t & Hin & Hk & Hf).
  unfold token_case_of in Ec.
  destruct (GetBearerToken h (az_header (az s'))) as [t' ok] eqn:Eb.
  destruct (String.eqb t' "" || negb ok) eqn:Eok; [done|].
  destruct (ParseInsecure t') as [tok|] eqn:Ep; [|done].
  destruct (String.eqb (getTokenString tok "appid") ""
    || negb (EqualFold (getTokenString tok "tid") (tenant (az s')))) eqn:Et; [done|].
  injection Ec as <- <-. bool_prop. exists tok, t', g, ai, t, m.
  split_and!; try done; [by destruct ok|by apply cache_key_inj|].
  by apply fetch_app_said.
Qed.

(** C12: nobody is identified without Graph: after any sequence of requests,
    halves of concurrent requests, expiries and changes at Graph from an empty
    cache, a user that a request
    gains is an application Graph returned, then or earlier, for an id and a
    token that make the text "id:token" of the request's own; where the ids have
    no colon, as GUIDs have none, for the request's own id and token.  The
    token names that id and the configured tenant. *)
Theorem identity_from_graph s es s' late r h i i' s'' :
  (∀ k a, ¬ app_may_hold (userCache s) k a) →
  execution azure_step (s, []) es (s', late) →
  Authenticate r h (i, s') = (Done None, (i', s'')) → User i' ≠ User i →
  ∃ tok token g appid' token' m,
    GetBearerToken h (az_header (az s')) = (token, true)
    ∧ ParseInsecure token = Some tok
    ∧ ID (RequestPart i') = getTokenString tok "appid"
    ∧ EqualFold (getTokenString tok "tid") (tenant (az s')) = true
    ∧ Some g ∈ Some (graph s') :: es
    ∧ appid' +:+ ":" +:+ token' = getTokenString tok "appid" +:+ ":" +:+ token
    ∧ (byte_in ":" appid' = false → byte_in ":" (getTokenString tok "appid") = false →
       appid' = getTokenString tok "appid" ∧ token' = token)
    ∧ graph_said g appid' token' m ∧ User i' = app_value m.
Proof.
  intros Hempty Hexec Hauth Hne.
  destruct (provenance_reachable (s, []) es (s', late) [] Hexec) as (past & [Hp _] & Hsub).
  { split; [intros k a Hk; by destruct (Hempty k a)|by intros k a ?%elem_of_nil]. }
  rewrite app_nil_r in Hsub.
  destruct (identified_from past r h i i' s' s'' Hp Hauth Hne)
    as (tok & token & g & ai & t & m & ? & ? & ? & ? & Hg & Hrest).
  exists tok, token, g, ai, t, m. split_and!; try done; [set_solver|..]; by apply Hrest.
Qed.
End provenance.

(** ** Witness *)

Module Sample.
(** Tokens that all name the application "app" of the tenant "acme". *)
Definition toy_jwt : InsecureJwt string := {|
  ParseInsecure t := Some t;
  tok_Get t k := map_get [("appid", VStr "app"); ("tid", VStr "ACME")] k
|}.

Definition toy_cache : AppCache (gmap string graph_app) := {|
  app_Get c k := c !! k;
  SetDefault k a c := <[k := a]> c;
  app_may_hold c k a := c !! k = Some a
|}.

Lemma toy_app_cache_lawful : @LawfulAppCache _ toy_cache.
Proof.
  split; simpl; [done|]. intros c k a k' a'.
  rewrite lookup_insert_Some. naive_solver.
Qed.

Definition toy_graph : Graph := {|
  base_Get p := Some (mkGraphRequest p [] []);
  Do q := Some (g_path q);
  ParseJSON p := Some (Some {["id" := p; "@odata.context" := "x"]})
|}.

Definition state : AzureState (gmap string graph_app) :=
  mkState (mkAzure "acme" "Authorization" false) ∅ toy_graph.
Definition request : Request := mkRequest "GET" "/" 0 None None.
Definition header : Header := {["Authorization" := ["Bearer abc"]]}.
Definition info : Info :=
  mkInfo (mkRequestInfo "GET" [] ∅ None None 0 "") VNil VNil VNil "/".
End Sample.

#[local] Existing Instance Sample.toy_jwt.
#[local] Existing Instance Sample.toy_cache.
#[local] Existing Instance Sample.toy_app_cache_lawful.

Lemma identity_from_graph_witness :
  ∃ i' s'', Authenticate Sample.request Sample.header (Sample.info, Sample.state)
            = (Done None, (i', s''))
    ∧ ∃ tok token g appid' token' m,
      GetBearerToken Sample.header "Authorization" = (token, true)
      ∧ ParseInsecure token = Some tok
      ∧ ID (RequestPart i') = getTokenString tok "appid"
      ∧ EqualFold (getTokenString tok "tid") "acme" = true
      ∧ Some g ∈ [Some Sample.toy_graph]
      ∧ appid' +:+ ":" +:+ token' = getTokenString tok "appid" +:+ ":" +:+ token
      ∧ (byte_in ":" appid' = false → byte_in ":" (getTokenString tok "appid") = false →
         appid' = getTokenString tok "appid" ∧ token' = token)
      ∧ graph_said g appid' token' m ∧ User i' = app_value m.
Proof.
  eexists _, _. split; [vm_compute; reflexivity|].
  eapply (identity_from_graph Sample.state [] Sample.state [] Sample.request Sample.header
    Sample.info).
  - intros k a. simpl. by rewrite lookup_empty.
  - constructor.
  - vm_compute. reflexivity.
  - discriminate.
Defined.
