(* ===== verification/GoUrl.v ===== *)
(** * net/url and path/filepath, as far as file: URLs need them

    [url_Parse] follows net/url's [Parse] up to the parts the program reads,
    [Path] and [Opaque]; whether the authority of a URL is well formed is a
    parameter, since it is only ever used to refuse a URL.  [Clean] is
    filepath.Clean on Unix. *)

From S2P Require Import Prelude GoStrings.

Local Open Scope N_scope.

(** Whether net/url accepts an authority (user, host and port). *)
Class UrlAuthority := { valid_authority : string → bool }.

Record Url := mkUrl { url_Scheme : string; url_Path : string; url_Opaque : string }.

Definition ctl_byte (c : ascii) : bool := (byte c <? 0x20) || (byte c =? 0x7F).

Definition scheme_letter (c : ascii) : bool :=
  in_range c 0x41 0x5A || in_range c 0x61 0x7A.
Definition scheme_other (c : ascii) : bool :=
  in_range c 0x30 0x39 || Ascii.eqb c "+" || Ascii.eqb c "-" || Ascii.eqb c ".".

(** The loop of [getScheme] after [acc]; [None]: no scheme. *)
Fixpoint scan_scheme (s : string) : option (string * string) :=
  match s with
  | EmptyString => None
  | String c r =>
      if Ascii.eqb c ":" then Some (EmptyString, r)
      else if scheme_letter c || scheme_other c then
        match scan_scheme r with
        | Some (sch, rest) => Some (String c sch, rest)
        | None => None
        end
      else None
  end.

(** Scheme and rest; [None] is the error of a missing scheme. *)
Definition getScheme (s : string) : option (string * string) :=
  match s with
  | EmptyString => Some (EmptyString, s)
  | String c r =>
      if Ascii.eqb c ":" then None
      else if scheme_letter c then
        match scan_scheme s with Some p => Some p | None => Some (EmptyString, s) end
      else Some (EmptyString, s)
  end.

Definition unhex (c : ascii) : option N :=
  if in_range c 0x30 0x39 then Some (byte c - 0x30)
  else if in_range c 0x41 0x46 then Some (byte c - 0x41 + 10)
  else if in_range c 0x61 0x66 then Some (byte c - 0x61 + 10)
  else None.

(** [unescape] in a mode without restrictions of its own (path, fragment). *)
Fixpoint unescape (s : string) : option string :=
  match s with
  | EmptyString => Some EmptyString
  | String c r =>
      if Ascii.eqb c "%" then
        match r with
        | String a (String b r') =>
            match unhex a, unhex b with
            | Some x, Some y =>
                String (Ascii.ascii_of_N (16 * x + y)) <$> unescape r'
            | _, _ => None
            end
        | _ => None
        end
      else String c <$> unescape r
  end.

Definition cut (c : ascii) (s : string) : string * string :=
  match cut_byte c s with Some p => p | None => (s, EmptyString) end.

(** [parse] on a URL without its fragment. *)
Definition parse `{UrlAuthority} (u : string) : option Url :=
  if negb (all_bytes (λ c, negb (ctl_byte c)) u) then None
  else if String.eqb u "*" then Some (mkUrl "" "*" "")
  else match getScheme u with
  | None => None
  | Some (sch, after) =>
      let scheme := lower_string sch in
      let rest := (cut "?" after).1 in
      if negb (HasPrefix rest "/") && negb (String.eqb scheme "") then
        Some (mkUrl scheme "" rest)
      else if negb (HasPrefix rest "/") && byte_in ":" (cut "/" rest).1 then None
      else if (negb (String.eqb scheme "") || negb (HasPrefix rest "///"))
              && HasPrefix rest "//" then
        let auth := (cut "/" (TrimPrefix rest "//")).1 in
        if valid_authority auth then
          (λ p, mkUrl scheme p "") <$> unescape (TrimPrefix (TrimPrefix rest "//") auth)
        else None
      else (λ p, mkUrl scheme p "") <$> unescape rest
  end.

Definition url_Parse `{UrlAuthority} (raw : string) : option Url :=
  let '(u, frag) := cut "#" raw in
  match parse u with
  | None => None
  | Some url => match unescape frag with Some _ => Some url | None => None end
  end.

(** *** filepath.Clean *)

(** The kept segments, last first; a rooted path has nothing above its root. *)
Definition clean_step (rooted : bool) (kept : list string) (seg : string) : list string :=
  if String.eqb seg "" || String.eqb seg "." then kept
  else if String.eqb seg ".." then
    match kept with
    | [] => if rooted then [] else [".."]
    | s :: rest => if String.eqb s ".." then ".." :: kept else rest
    end
  else seg :: kept.

Definition Clean (p : string) : string :=
  let rooted := HasPrefix p "/" in
  let segs := rev (foldl (clean_step rooted) [] (Split p "/")) in
  if rooted then "/" +:+ Join segs "/"
  else match segs with [] => "." | _ => Join segs "/" end.

(** ** Lemmas *)

Example Clean_1 : Clean "/a//b/./c/../d/" = "/a/b/d". Proof. reflexivity. Qed.
Example Clean_2 : Clean "../a/.." = "..". Proof. reflexivity. Qed.
Example Clean_3 : Clean "" = ".". Proof. reflexivity. Qed.

(** A segment cleaning keeps as it is. *)
Definition plain_segment (s : string) : Prop :=
  s ≠ "" ∧ s ≠ "." ∧ s ≠ ".." ∧ byte_in "/" s = false.

Lemma clean_step_plain rooted kept seg :
  seg ≠ ".." → byte_in "/" seg = false → Forall plain_segment kept →
  Forall plain_segment (clean_step rooted kept seg).
Proof.
  intros Hd Hs Hk. unfold clean_step.
  destruct (String.eqb_spec seg ""); [done|]. destruct (String.eqb_spec seg "."); [done|].
  destruct (String.eqb_spec seg ".."); [done|]. by constructor.
Qed.

Lemma clean_segments_plain rooted l kept :
  Forall (λ s, s ≠ ".." ∧ byte_in "/" s = false) l → Forall plain_segment kept →
  Forall plain_segment (foldl (clean_step rooted) kept l).
Proof.
  intros Hl. revert kept. induction Hl as [|s l [] Hl IH]; intros kept Hk; [done|].
  simpl. by apply IH, clean_step_plain.
Qed.

(** Where no segment is "..", the cleaned path is its root and plain segments,
    or the current directory. *)
Lemma Clean_plain p :
  Forall (λ s, s ≠ "..") (Split p "/") →
  ∃ segs, Forall plain_segment segs
          ∧ Clean p = if HasPrefix p "/" then "/" +:+ Join segs "/"
                      else match segs with [] => "." | _ => Join segs "/" end.
Proof.
  intros Hp. exists (rev (foldl (clean_step (HasPrefix p "/")) [] (Split p "/"))).
  split; [|done]. apply Forall_rev, clean_segments_plain; [|done].
  pose proof (Split_no_sep p "/") as Hs. rewrite Forall_forall in *. auto.
Qed.

(** The last match of "..": a string with a ".." segment contains it. *)
Lemma Contains_sub s a b : Contains (a +:+ s +:+ b) s = true.
Proof.
  induction a as [|c a IH].
  - change ("" +:+ s +:+ b) with (s +:+ b). destruct s as [|x s].
    + by destruct b.
    + rewrite append_cons. simpl. rewrite <- append_cons.
      assert (HasPrefix (String x s +:+ b) (String x s) = true) as ->
        by apply HasPrefix_append. done.
  - rewrite append_cons. simpl. rewrite IH. apply orb_true_r.
Qed.

Lemma Join_segment_sub l x sep : x ∈ l → ∃ a b, Join l sep = a +:+ x +:+ b.
Proof.
  induction l as [|y l IH]; intros Hx; [by apply elem_of_nil in Hx|].
  apply elem_of_cons in Hx as [->|Hx].
  - exists "". destruct l as [|z l].
    + exists "". simpl. by rewrite append_nil_r.
    + rewrite Join_cons. by eexists.
  - destruct (IH Hx) as (a & b & E). destruct l as [|z l]; [by apply elem_of_nil in Hx|].
    rewrite Join_cons, E. exists (y +:+ sep +:+ a), b.
    by rewrite !append_assoc.
Qed.

Lemma Split_segment_sub p c x : x ∈ Split p c → ∃ a b, p = a +:+ x +:+ b.
Proof. intros Hx. rewrite <- (Join_Split p c). by apply Join_segment_sub. Qed.

(** A path without ".." cleans to one without a ".." segment. *)
Lemma no_dotdot_segments p :
  Contains p ".." = false → Forall (λ s, s ≠ "..") (Split p "/").
Proof.
  intros Hp. apply Forall_forall. intros s Hs ->.
  destruct (Split_segment_sub _ _ _ Hs) as (a & b & E).
  by rewrite E, Contains_sub in Hp.
Qed.
