(* ===== verification/Jwt.v ===== *)
(** * internal/jwtsupport: verified JWTs

    [LoadWellKnowns] and [LoadJWKS] (jwt.go) collect the issuers and their keys
    from file: or HTTP URLs (support.go), [PostFetch] completes the keys'
    algorithms, [Authenticate] checks a token against every issuer and audience.
    The jwx and resthelp libraries, JSON decoding and the file system are
    parameters. *)

From S2P Require Import Prelude GoStrings GoValue GoHttp GoUrl Types.

(** ** support.go *)

Definition isFileURL (urlStr : string) : bool := HasPrefix urlStr "file:".

Definition sourceType (urlStr : string) : string :=
  if isFileURL urlStr then "file" else "http".

Definition fileURLToPath `{UrlAuthority} (fileURL : string) : result string :=
  match url_Parse fileURL with
  | None => Err (ErrWrap "failed to parse file URL" (ErrMsg "url.Parse"))
  | Some parsed =>
      let path :=
        if String.eqb (url_Path parsed) "" && negb (String.eqb (url_Opaque parsed) "")
        then url_Opaque parsed else url_Path parsed in
      if Contains path ".." then Err (ErrMsg "path traversal not allowed")
      else Ok (Clean path)
  end.

Definition readFileURL `{UrlAuthority} (ReadFile : string → result string)
    (fileURL : string) : result string :=
  match fileURLToPath fileURL with
  | Err e => Err (ErrWrap "invalid file URL" e)
  | Ok path =>
      match ReadFile path with
      | Err e => Err (ErrWrap "failed to read file from URL" e)
      | Ok data => Ok data
      end
  end.

(** ** The library's keys

    A key is shared by pointer: [PostFetch] sets the algorithm of the object
    the old set and the new one both hold. *)

Class Jwk (Alg : Type) := {
  Alg_String : Alg → string;
  KeyAlgorithmFrom : string → Alg;
  (** [AddKey] appends a pointer, or refuses one that is in the set. *)
  AddKey : list nat → nat → list nat;
  AddKey_spec s l : AddKey s l = s ++ [l] ∨ (AddKey s l = s ∧ l ∈ s)
}.

Record Key (Alg : Type) := mkKey { Algorithm : Alg; material : string }.
Arguments mkKey {Alg}.
Arguments Algorithm {Alg}.
Arguments material {Alg}.

Definition set_alg {Alg} (a : Alg) (k : Key Alg) : Key Alg := mkKey a (material k).

Record wellKnownData := mkWellKnown {
  JwksURI : string;
  SupportedAlgorithms : list string;
  sourceURL : string;
  isLocalFile : bool
}.

Section postfetch.
Context `{Jwk Alg}.

(** [algConverter] and the key objects. *)
Record KeyWorld := mkKeyWorld { algConverter : gmap string Alg; heap : list (Key Alg) }.

Definition set_heap (f : list (Key Alg) → list (Key Alg)) (w : KeyWorld) : KeyWorld :=
  mkKeyWorld (algConverter w) (f (heap w)).

Definition getAlgorithm (name : string) : go KeyWorld Alg :=
  w ← go_get;
  match algConverter w !! name with
  | Some alg => mret alg
  | None =>
      let alg := KeyAlgorithmFrom name in
      go_modify (λ w, mkKeyWorld (<[name := alg]> (algConverter w)) (heap w));;
      mret alg
  end.

(** The loop over the supported algorithms for one key without its own. *)
Fixpoint enrich_key (l : nat) (algs : list string) (newset : list nat)
    : go KeyWorld (list nat) :=
  match algs with
  | [] => mret newset
  | alg :: algs' =>
      a ← getAlgorithm alg;
      go_modify (set_heap (alter (set_alg a) l));;
      enrich_key l algs' (AddKey newset l)
  end.

(** The body of the loop over the fetched set: the key at [l], if any. *)
Definition post_fetch_key (wkd : wellKnownData) (newset : list nat) (l : nat)
    : go KeyWorld (list nat) :=
  w ← go_get;
  match heap w !! l with
  | None => mret newset
  | Some key =>
      if negb (String.eqb (Alg_String (Algorithm key)) "") then mret (AddKey newset l)
      else enrich_key l (SupportedAlgorithms wkd) newset
  end.

Fixpoint post_fetch_loop (wkd : wellKnownData) (set newset : list nat)
    : go KeyWorld (list nat) :=
  match set with
  | [] => mret newset
  | l :: set' => newset' ← post_fetch_key wkd newset l; post_fetch_loop wkd set' newset'
  end.

Definition PostFetch (wkd : wellKnownData) (set : list nat) : go KeyWorld (list nat) :=
  post_fetch_loop wkd set [].

(** [PostFetch] on a set just parsed: its objects are new. *)
Definition post_fetched (wkd : wellKnownData) (keys : list (Key Alg)) : list (Key Alg) :=
  let '(o, w) := PostFetch wkd (seq 0 (length keys)) (mkKeyWorld ∅ keys) in
  match o with
  | Done newset => omap (λ l, heap w !! l) newset
  | Panic _ => []
  end.
End postfetch.
Arguments KeyWorld : clear implicits.

(** ** The provider *)

(** How a token is to be checked: jwt.ParseOption, as the program uses it. *)
Inductive ParseOption (Alg : Type) : Type :=
| WithKey (k : Key Alg)
| WithKeySet (ks : option (list (Key Alg)))       (* None: cannot be fetched *)
| WithValidate (b : bool)
| WithVerify (b : bool)
| WithAudience (aud : string)
| WithClaimValue (key aud : string).
Arguments WithKey {Alg} k.
Arguments WithKeySet {Alg} ks.
Arguments WithValidate {Alg} b.
Arguments WithVerify {Alg} b.
Arguments WithAudience {Alg} aud.
Arguments WithClaimValue {Alg} key aud.

(** [jwt_Parse]: the claims it returns. *)
Class Jwt (Alg : Type) := {
  jwt_Parse : string → list (ParseOption Alg) → result value;
  jwk_Parse : string → option (list (Key Alg));
  json_Unmarshal : string → option (string * list string)    (* a well-known *)
}.

(** What is reached over the network; it changes with time.  [jwks_Get]: the
    keys the JWKS cache has fetched from a registered URL, as its post-fetcher
    gets them. *)
Record Net (Alg : Type) := mkNet {
  rh_Get : string → bool;                       (* the request can be built *)
  rh_Do : string → option string;
  jwks_Register : string → bool;
  jwks_Get : string → result (list (Key Alg))
}.
Arguments mkNet {Alg}.
Arguments rh_Get {Alg}.
Arguments rh_Do {Alg}.
Arguments jwks_Register {Alg}.
Arguments jwks_Get {Alg}.

(** A [jwk.Set]: keys read from a file, or a view of the cache. *)
Inductive KeySet (Alg : Type) : Type :=
| StaticSet (keys : list (Key Alg))
| CachedSet (url : string).
Arguments StaticSet {Alg} keys.
Arguments CachedSet {Alg} url.

Record JWTSupport (Alg : Type) := mkJWT {
  audiences : list string;
  audienceKey : string;
  authKind : string;
  wellKnowns : list string;
  wellknownList : list wellKnownData;
  registered : gmap string wellKnownData;       (* cache: URL, post-fetcher *)
  JWKS : list (KeySet Alg);
  permissive : bool;
  net : Net Alg
}.
Arguments mkJWT {Alg}.
Arguments audiences {Alg}.
Arguments audienceKey {Alg}.
Arguments authKind {Alg}.
Arguments wellKnowns {Alg}.
Arguments wellknownList {Alg}.
Arguments registered {Alg}.
Arguments JWKS {Alg}.
Arguments permissive {Alg}.
Arguments net {Alg}.

Section jwt.
Context `{Unicode, UrlAuthority, Jwk Alg} `{!Jwt Alg}.
Local Abbreviation support := (JWTSupport Alg).

(** *** Loading *)

(** One well-known: [None] when it is skipped. *)
Definition load_well_known (ReadFile : string → result string) (n : Net Alg)
    (wellKnown : string) : option wellKnownData :=
  if String.eqb wellKnown "" then None
  else if isFileURL wellKnown then
    match readFileURL ReadFile wellKnown with
    | Err _ => None
    | Ok data =>
        '(uri, algs) ← json_Unmarshal data;
        Some (mkWellKnown uri algs wellKnown true)
    end
  else if rh_Get n wellKnown then
    match rh_Do n wellKnown with
    | None => None
    | Some resp =>
        '(uri, algs) ← json_Unmarshal resp;
        Some (mkWellKnown uri algs wellKnown false)
    end
  else None.

Definition LoadWellKnowns (ReadFile : string → result string) (j : support) : support :=
  mkJWT (audiences j) (audienceKey j) (authKind j) (wellKnowns j)
    (wellknownList j ++ omap (load_well_known ReadFile (net j)) (wellKnowns j))
    (registered j) (JWKS j) (permissive j) (net j).

(** One iteration of [LoadJWKS]: the set it appends, and the post-fetcher it
    registers, if any. *)
Definition load_jwks (ReadFile : string → result string) (n : Net Alg)
    (wk : wellKnownData) : option (KeySet Alg) * option wellKnownData :=
  if negb (Bool.eqb (isFileURL (sourceURL wk)) (isFileURL (JwksURI wk))) then (None, None)
  else if isFileURL (JwksURI wk) then
    match readFileURL ReadFile (JwksURI wk) with
    | Err _ => (None, None)
    | Ok data =>
        match jwk_Parse data with
        | None => (None, None)
        | Some keys => (Some (StaticSet (post_fetched wk keys)), None)
        end
    end
  else if jwks_Register n (JwksURI wk) then
    match jwks_Get n (JwksURI wk) with
    | Err _ => (None, Some wk)
    | Ok _ => (Some (CachedSet (JwksURI wk)), Some wk)
    end
  else (None, None).

(** [cache.Register]: the URL has the post-fetcher it was last given. *)
Definition register (m : gmap string wellKnownData) (wk : wellKnownData)
    : gmap string wellKnownData := <[JwksURI wk := wk]> m.

Definition load_jwks_step (ReadFile : string → result string) (j : support)
    (wk : wellKnownData) : support :=
  let '(s, u) := load_jwks ReadFile (net j) wk in
  mkJWT (audiences j) (audienceKey j) (authKind j) (wellKnowns j) (wellknownList j)
    (foldl register (registered j) (option_list u)) (JWKS j ++ option_list s)
    (permissive j) (net j).

(** The cache is made anew, so nothing is registered. *)
Definition LoadJWKS (ReadFile : string → result string) (j : support) : support :=
  foldl (load_jwks_step ReadFile)
    (mkJWT (audiences j) (audienceKey j) (authKind j) (wellKnowns j) (wellknownList j)
       ∅ (JWKS j) (permissive j) (net j))
    (wellknownList j).

Definition New (ReadFile : string → result string) (n : Net Alg)
    (wellKnowns : list string) (audKey : string) (audList : list string)
    (kind : string) (perm : bool) : startup support :=
  let j := LoadJWKS ReadFile
    (LoadWellKnowns ReadFile (mkJWT audList audKey kind wellKnowns [] ∅ [] perm n)) in
  exit_if (length (JWKS j) =? 0)%nat 1;;
  exit_if (length (audiences j) =? 0)%nat 1;;
  Started j.

(** *** Authenticating *)

(** The cache runs the post-fetcher on every set it fetches. *)
Definition cache_Get (j : support) (url : string) : result (list (Key Alg)) :=
  match registered j !! url with
  | None => Err (ErrMsg ("url " +:+ quote +:+ url +:+ quote +:+ " has not been registered"))
  | Some wk =>
      match jwks_Get (net j) url with
      | Err e => Err e
      | Ok keys => Ok (post_fetched wk keys)
      end
  end.

(** The keys of a set now. *)
Definition set_keys (j : support) (ks : KeySet Alg) : option (list (Key Alg)) :=
  match ks with
  | StaticSet keys => Some keys
  | CachedSet url => match cache_Get j url with Ok keys => Some keys | Err _ => None end
  end.

Definition key_option (keys : option (list (Key Alg))) : ParseOption Alg :=
  match keys with
  | Some [key] => WithKey key
  | _ => WithKeySet keys
  end.

Definition aud_option (j : support) (aud : string) : ParseOption Alg :=
  if String.eqb (audienceKey j) "aud" then WithAudience aud
  else WithClaimValue (audienceKey j) aud.

(** The options, in the order they are appended. *)
Definition parse_options (j : support) (keys : option (list (Key Alg))) (aud : string)
    : list (ParseOption Alg) :=
  [key_option keys] ++ [WithValidate true] ++ [WithVerify true] ++ [aud_option j aud].

(** The inner loop: the claims of the first audience that validates, or the
    last error. *)
Fixpoint try_audiences (j : support) (request : string) (keys : option (list (Key Alg)))
    (auds : list string) (lastError : option error) : value + option error :=
  match auds with
  | [] => inr lastError
  | aud :: auds' =>
      match jwt_Parse request (parse_options j keys aud) with
      | Ok fields => inl fields
      | Err err => try_audiences j request keys auds' (Some err)
      end
  end.

(** The outer loop, at index [i] of the list. *)
Fixpoint try_issuers (j : support) (request : string) (i : nat)
    (wks : list wellKnownData) (lastError : option error) : outcome (value + option error) :=
  match wks with
  | [] => Done (inr lastError)
  | wc :: wks' =>
      let next keys :=
        match try_audiences j request keys (audiences j) lastError with
        | inl fields => Done (inl fields)
        | inr e => try_issuers j request (S i) wks' e
        end in
      if isLocalFile wc then
        match JWKS j !! i with
        | None => Panic "runtime error: index out of range"
        | Some ks => next (set_keys j ks)
        end
      else
        match cache_Get j (JwksURI wc) with
        | Err err => try_issuers j request (S i) wks' (Some err)
        | Ok keys => next (Some keys)
        end
  end.

(** Lines 302-311. *)
Definition classify (e : error) : error :=
  let errStr := error_text e in
  if Contains errStr "failed to fetch" || Contains errStr "connection"
     || Contains errStr "timeout"
  then ErrAuthenticationUnavailable else ErrAuthenticationFailed.

Definition jwt_Authenticate (r : Request) (h : Header) : go (Info * support) (option error) :=
  '(info, j) ← go_get;
  match Auth (RequestPart info) with
  | None => mret None
  | Some auth =>
      if negb (EqualFold (Kind auth) (authKind j)) then
        mret (if permissive j then None else Some ErrAuthenticationFailed)
      else
        match try_issuers j (Token auth) 0 (wellknownList j) None with
        | Panic why => go_panic why
        | Done (inl fields) => go_modify (prod_map (set_JWT fields) id);; mret None
        | Done (inr (Some lastError)) =>
            mret (if permissive j then None else Some (classify lastError))
        | Done (inr None) => mret (Some ErrAuthenticationUnavailable)
        end
  end.

#[export] Instance jwt_provider : AuthProvider support := {
  Authenticate := jwt_Authenticate;
  WWWAuthenticate _ := None
}.
End jwt.
