(* ===== verification/JwtProps.v ===== *)
(** * Properties of the JWT provider

    File URLs, the keys' algorithms, the alignment of issuers and keys, and the
    soundness of [Authenticate]. *)

From S2P Require Import Prelude GoStrings GoValue GoHttp GoUrl Types Jwt.

(** ** File URLs *)

(** A file: URL never leaves its directory: the path [fileURLToPath] accepts
    has no ".." segment, whether or not the URL writes it percent-encoded. *)
Theorem fileURLToPath_no_traversal `{UrlAuthority} u p :
  fileURLToPath u = Ok p → Forall (λ s, s ≠ "..") (Split p "/").
Proof.
  unfold fileURLToPath. destruct (url_Parse u) as [url|]; [|done].
  set (path := if _ && _ then _ else _).
  destruct (Contains path "..") eqn:Ec; [done|]. intros [= <-].
  apply no_dotdot_segments in Ec.
  destruct (Clean_plain path Ec) as (segs & Hs & ->).
  assert (Hsegs : Forall (λ s, s ≠ "..") (Split (Join segs "/") "/")).
  { destruct segs as [|s segs]; [by repeat constructor|].
    rewrite (Split_Join (s :: segs) "/"); [|done|].
    - eapply Forall_impl; [done|]. by intros x (_ & _ & ? & _).
    - eapply Forall_impl; [done|]. by intros x (_ & _ & _ & ?). }
  destruct (HasPrefix path "/").
  - change ("/" +:+ Join segs "/") with ("" +:+ String "/" (Join segs "/")).
    rewrite Split_append by done. by constructor.
  - destruct segs; [by repeat constructor|done].
Qed.

Example fileURLToPath_no_traversal_witness :
  let H : UrlAuthority := {| valid_authority _ := true |} in
  fileURLToPath "file:///etc/keys/./a%20b.json" = Ok "/etc/keys/a b.json"
  ∧ Forall (λ s, s ≠ "..") (Split "/etc/keys/a b.json" "/").
Proof.
  intros H. split; [vm_compute; reflexivity|].
  apply (fileURLToPath_no_traversal "file:///etc/keys/./a%20b.json").
  vm_compute. reflexivity.
Defined.

Example fileURLToPath_encoded_dots :
  let H : UrlAuthority := {| valid_authority _ := true |} in
  fileURLToPath "file:///a/%2e%2E/b" = Err (ErrMsg "path traversal not allowed").
Proof. reflexivity. Qed.

(** ** Completing the keys' algorithms *)

Section postfetch.
Context `{Jwk Alg}.

(** The converter only remembers what the library says. *)
Definition converter_ok (w : KeyWorld Alg) : Prop :=
  map_Forall (λ name alg, alg = KeyAlgorithmFrom name) (algConverter w).

Lemma getAlgorithm_run name (w : KeyWorld Alg) :
  converter_ok w →
  ∃ w', getAlgorithm name w = (Done (KeyAlgorithmFrom name), w')
        ∧ heap w' = heap w ∧ converter_ok w'.
Proof.
  intros Hw. unfold getAlgorithm. go_unfold.
  destruct (algConverter w !! name) as [a|] eqn:E.
  - rewrite (Hw _ _ E). eauto.
  - eexists. split_and!; [done|done|]. by apply map_Forall_insert_2.
Qed.

(** The algorithms a key ends up with: each assignment replaces the former. *)
Definition last_alg (algs : list string) (k : Key Alg) : Key Alg :=
  match last algs with
  | Some a => set_alg (KeyAlgorithmFrom a) k
  | None => k
  end.

Lemma AddKey_elem s (l x : nat) : x ∈ AddKey s l ↔ x ∈ s ∨ x = l.
Proof. destruct (AddKey_spec s l) as [->|[-> Hl]]; set_solver. Qed.

Lemma enrich_key_run l algs newset (w : KeyWorld Alg) :
  converter_ok w →
  ∃ newset' w', enrich_key l algs newset w = (Done newset', w')
    ∧ converter_ok w' ∧ heap w' = alter (last_alg algs) l (heap w)
    ∧ ∀ x, x ∈ newset' ↔ x ∈ newset ∨ x = l ∧ algs ≠ [].
Proof.
  revert newset w. induction algs as [|a algs IH]; intros newset w Hw.
  { exists newset, w. split_and!; [done|done| |naive_solver].
    apply list_eq. intros n. destruct (decide (n = l)) as [->|].
    - rewrite list_lookup_alter_eq. by destruct (heap w !! l).
    - by rewrite list_lookup_alter_ne. }
  destruct (getAlgorithm_run a w Hw) as (w1 & E1 & Hheap & Hw1).
  cbn [enrich_key]. erewrite go_bind_done by exact E1. cbv beta.
  erewrite go_bind_done by reflexivity. cbv beta.
  destruct (IH (AddKey newset l) (set_heap (alter (set_alg (KeyAlgorithmFrom a)) l) w1) Hw1)
    as (newset' & w' & E & Hw' & Hh & Hin).
  exists newset', w'. split_and!; [done|done| |].
  - rewrite Hh. simpl. rewrite Hheap. apply list_eq. intros n.
    destruct (decide (n = l)) as [->|]; [|by rewrite !list_lookup_alter_ne].
    rewrite !list_lookup_alter_eq. destruct (heap w !! l) as [k|]; [|done]. simpl.
    unfold last_alg. destruct algs as [|b algs]; [done|].
    rewrite (last_cons_cons a b algs).
    destruct (last (b :: algs)) as [c|] eqn:El; [done|].
    by apply last_None in El.
  - intros x. rewrite Hin, AddKey_elem. naive_solver.
Qed.

(** What becomes of a key, and whether it is kept. *)
Definition completed (algs : list string) (k : Key Alg) : Key Alg :=
  if String.eqb (Alg_String (Algorithm k)) "" then last_alg algs k else k.
Definition kept (algs : list string) (k : Key Alg) : Prop :=
  Alg_String (Algorithm k) ≠ "" ∨ algs ≠ [].

Lemma post_fetch_key_run wkd newset l k (w : KeyWorld Alg) :
  converter_ok w → heap w !! l = Some k →
  ∃ newset' w', post_fetch_key wkd newset l w = (Done newset', w') ∧ converter_ok w'
    ∧ heap w' = alter (completed (SupportedAlgorithms wkd)) l (heap w)
    ∧ ∀ x, x ∈ newset' ↔ x ∈ newset ∨ x = l ∧ kept (SupportedAlgorithms wkd) k.
Proof.
  intros Hw Hk. unfold post_fetch_key, completed, kept.
  erewrite go_bind_done by reflexivity. cbv beta. rewrite Hk.
  destruct (String.eqb_spec (Alg_String (Algorithm k)) "") as [E|E]; cbn [negb].
  - destruct (enrich_key_run l (SupportedAlgorithms wkd) newset w Hw)
      as (s1 & w1 & E1 & Hw1 & Hh & Hin).
    exists s1, w1. split_and!; [done|done| |rewrite E; naive_solver].
    rewrite Hh. apply list_alter_ext; [|done]. intros k' Hk'. simplify_eq. by rewrite E.
  - exists (AddKey newset l), w. split_and!; [done|done| |].
    + symmetry. apply list_eq. intros n. destruct (decide (n = l)) as [->|].
      * rewrite list_lookup_alter_eq, Hk. simpl. by apply String.eqb_neq in E as ->.
      * by rewrite list_lookup_alter_ne.
    + intros x. rewrite AddKey_elem. naive_solver.
Qed.

Lemma post_fetch_loop_run wkd set newset (w : KeyWorld Alg) :
  converter_ok w → NoDup set → Forall (λ l, is_Some (heap w !! l)) set →
  ∃ newset' w', post_fetch_loop wkd set newset w = (Done newset', w')
    ∧ (∀ l, heap w' !! l = if decide (l ∈ set)
                           then completed (SupportedAlgorithms wkd) <$> heap w !! l
                           else heap w !! l)
    ∧ ∀ x, x ∈ newset' ↔
        x ∈ newset ∨ x ∈ set ∧ ∃ k, heap w !! x = Some k ∧ kept (SupportedAlgorithms wkd) k.
Proof.
  revert newset w. induction set as [|l set IH]; intros newset w Hw Hnd Hsome.
  { exists newset, w. split_and!; [done|done|]. set_solver. }
  apply NoDup_cons in Hnd as [Hl Hnd]. apply Forall_cons in Hsome as [[k Hk] Hsome].
  destruct (post_fetch_key_run wkd newset l k w Hw Hk) as (s1 & w1 & E1 & Hw1 & Hh & Hin).
  cbn [post_fetch_loop]. erewrite go_bind_done by exact E1. cbv beta.
  assert (Hother : ∀ x, x ≠ l → heap w1 !! x = heap w !! x).
  { intros x Hx. by rewrite Hh, list_lookup_alter_ne. }
  destruct (IH s1 w1 Hw1 Hnd) as (newset' & w' & E & Hh' & Hin').
  { eapply Forall_impl; [exact Hsome|]. intros x. destruct (decide (x = l)) as [->|].
    - intros _. rewrite Hh, list_lookup_alter_eq, Hk. eauto.
    - by rewrite Hother. }
  exists newset', w'. split_and!; [done| |].
  - intros x. rewrite Hh'. destruct (decide (x = l)) as [->|Hx].
    + rewrite decide_False, decide_True by set_solver. by rewrite Hh, list_lookup_alter_eq.
    + rewrite Hother by done. by repeat case_decide; set_solver.
  - intros x. rewrite Hin', Hin. destruct (decide (x = l)) as [->|Hx].
    + rewrite elem_of_cons. naive_solver.
    + rewrite Hother by done. rewrite elem_of_cons. naive_solver.
Qed.

(** C28: completing the keys keeps a key with an algorithm as it is and drops
    one without when the issuer names no algorithm; a key without one becomes
    a key for the LAST supported algorithm only: the earlier ones are written
    to the same object and lost. *)
Theorem PostFetch_last_algorithm wkd set (w : KeyWorld Alg) :
  converter_ok w → NoDup set → Forall (λ l, is_Some (heap w !! l)) set →
  ∃ newset w', PostFetch wkd set w = (Done newset, w')
    ∧ ∀ l k, heap w !! l = Some k → l ∈ set →
        (l ∈ newset ↔ Alg_String (Algorithm k) ≠ "" ∨ SupportedAlgorithms wkd ≠ [])
        ∧ heap w' !! l
          = Some (match last (SupportedAlgorithms wkd) with
                  | Some a => if String.eqb (Alg_String (Algorithm k)) ""
                              then set_alg (KeyAlgorithmFrom a) k else k
                  | None => k
                  end).
Proof.
  intros Hw Hnd Hsome.
  destruct (post_fetch_loop_run wkd set [] w Hw Hnd Hsome) as (s & w' & E & Hh & Hin).
  exists s, w'. split; [done|]. intros l k Hk Hl. split.
  - rewrite Hin. unfold kept. split.
    + intros [Hn|(_ & k' & Hk' & ?)]; [by apply elem_of_nil in Hn|]. by simplify_eq.
    + intros Hkeep. right. eauto.
  - rewrite Hh, decide_True, Hk by done. simpl. f_equal. unfold completed, last_alg.
    by destruct (String.eqb _ ""), (last _).
Qed.
End postfetch.

(** ** The search for an issuer and audience *)

Section search.
Context `{Unicode, UrlAuthority, Jwk Alg} `{!Jwt Alg}.
Local Abbreviation support := (JWTSupport Alg).

(** The keys an issuer's tokens are verified with. *)
Definition issuer_keys (j : support) (i : nat) (wc : wellKnownData)
    : outcome (result (option (list (Key Alg)))) :=
  if isLocalFile wc then
    match JWKS j !! i with
    | None => Panic "runtime error: index out of range"
    | Some ks => Done (Ok (set_keys j ks))
    end
  else match cache_Get j (JwksURI wc) with
       | Err e => Done (Err e)
       | Ok keys => Done (Ok (Some keys))
       end.

(** The options that make the library verify with [keys]: with the one key, or
    with the set. *)
Inductive checks_keys : option (list (Key Alg)) → ParseOption Alg → Prop :=
| checks_one_key key : checks_keys (Some [key]) (WithKey key)
| checks_key_set keys : (∀ key, keys ≠ Some [key]) → checks_keys keys (WithKeySet keys).

(** The options that make it check [aud]: the standard claim, or the configured
    one. *)
Inductive checks_audience (j : support) (aud : string) : ParseOption Alg → Prop :=
| checks_standard : audienceKey j = "aud" → checks_audience j aud (WithAudience aud)
| checks_claim :
    audienceKey j ≠ "aud" → checks_audience j aud (WithClaimValue (audienceKey j) aud).

(** The token verifies with the keys of the [i]th issuer for [aud]: the library
    accepts it when told to verify its signature, to validate its times and to
    check the audience. *)
Definition validates (j : support) (request : string) (i : nat) (wc : wellKnownData)
    (aud : string) (v : value) : Prop :=
  aud ∈ audiences j ∧ ∃ keys ko ao, issuer_keys j i wc = Done (Ok keys)
    ∧ checks_keys keys ko ∧ checks_audience j aud ao ∧ jwt_Parse request [ko; WithValidate true; WithVerify true; ao] = Ok v.

Lemma checks_keys_option keys ko : checks_keys keys ko ↔ ko = key_option keys.
Proof.
  split.
  - intros [key|keys' Hne]; [done|]. destruct keys' as [[|key []]|]; try done.
    by destruct (Hne key).
  - intros ->. destruct keys as [[|key []]|]; by constructor.
Qed.

Lemma checks_audience_option j aud ao : checks_audience j aud ao ↔ ao = aud_option j aud.
Proof.
  unfold aud_option. split.
  - intros [->|Hne]; [done|]. by apply String.eqb_neq in Hne as ->.
  - intros ->. destruct (String.eqb_spec (audienceKey j) "aud"); by constructor.
Qed.

(** The options the code makes are those. *)
Lemma validates_options j request i wc aud v :
  validates j request i wc aud v ↔
  aud ∈ audiences j ∧ ∃ keys, issuer_keys j i wc = Done (Ok keys)
    ∧ jwt_Parse request (parse_options j keys aud) = Ok v.
Proof.
  unfold validates. split; intros (Ha & keys & Hx); (split; [done|]); exists keys.
  - destruct Hx as (ko & ao & Hk & ->%checks_keys_option & ->%checks_audience_option & ?).
    done.
  - exists (key_option keys), (aud_option j aud).
    rewrite checks_keys_option, checks_audience_option. by destruct Hx.
Qed.

Lemma try_issuers_cons j request i wc wks e :
  try_issuers j request i (wc :: wks) e
  = match issuer_keys j i wc with
    | Panic why => Panic why
    | Done (Err err) => try_issuers j request (S i) wks (Some err)
    | Done (Ok keys) =>
        match try_audiences j request keys (audiences j) e with
        | inl fields => Done (inl fields)
        | inr e' => try_issuers j request (S i) wks e'
        end
    end.
Proof.
  unfold issuer_keys. simpl. destruct (isLocalFile wc).
  - by destruct (JWKS j !! i).
  - by destruct (cache_Get j (JwksURI wc)).
Qed.

Lemma try_audiences_inl j request keys auds e v :
  try_audiences j request keys auds e = inl v →
  ∃ aud, aud ∈ auds ∧ jwt_Parse request (parse_options j keys aud) = Ok v.
Proof.
  revert e. induction auds as [|a auds IH]; intros e; [done|]. simpl.
  destruct (jwt_Parse _ _) eqn:E.
  - intros [= ->]. exists a. split; [by left|done].
  - intros (aud & ? & ?)%IH. exists aud. split; [by right|done].
Qed.


Lemma try_issuers_inl j request i wks e v :
  try_issuers j request i wks e = Done (inl v) →
  ∃ n wc aud, wks !! n = Some wc ∧ validates j request (i + n) wc aud v.
Proof.
  revert i e. induction wks as [|wc wks IH]; intros i e; [done|].
  rewrite try_issuers_cons. destruct (issuer_keys j i wc) as [[keys|err]|why] eqn:Ek; [| |done].
  - destruct (try_audiences _ _ _ _ _) as [v'|e'] eqn:Ea.
    + intros [= ->]. apply try_audiences_inl in Ea as (aud & ? & ?).
      exists 0%nat, wc, aud. rewrite Nat.add_0_r. split; [done|].
      apply validates_options. split; [done|by exists keys].
    + intros (n & wc' & aud & ? & Hv)%IH. exists (S n), wc', aud.
      by replace (i + S n)%nat with (S i + n)%nat by lia.
  - intros (n & wc' & aud & ? & Hv)%IH. exists (S n), wc', aud.
    by replace (i + S n)%nat with (S i + n)%nat by lia.
Qed.



(** The search only ends with an error when every file issuer has its keys. *)
Lemma try_issuers_bounded j request i wks e e' :
  try_issuers j request i wks e = Done (inr e') →
  ∀ n wc, wks !! n = Some wc → isLocalFile wc = true → (i + n < length (JWKS j))%nat.
Proof.
  revert i e. induction wks as [|wc wks IH]; intros i e; [done|].
  rewrite try_issuers_cons. intros Ht [|n] wc' Hn Hf; simpl in Hn.
  - simplify_eq. unfold issuer_keys in Ht. rewrite Hf in Ht.
    destruct (JWKS j !! i) as [ks|] eqn:Ek; [|done]. apply lookup_lt_Some in Ek. lia.
  - replace (i + S n)%nat with (S i + n)%nat by lia.
    destruct (issuer_keys j i wc) as [[keys|err]|why] eqn:Ek; [| |done].
    + destruct (try_audiences _ _ _ _ _); [done|]. by eapply IH.
    + by eapply IH.
Qed.

Lemma try_issuers_panic_text j request i wks e why :
  try_issuers j request i wks e = Panic why → why = "runtime error: index out of range".
Proof.
  revert i e. induction wks as [|wc wks IH]; intros i e; [done|]. rewrite try_issuers_cons.
  unfold issuer_keys. repeat case_match; simplify_eq; eauto; congruence.
Qed.
End search.

(** ** Authenticate *)

Section authenticate.
Context `{Unicode, UrlAuthority, Jwk Alg} `{!Jwt Alg}.
Local Abbreviation support := (JWTSupport Alg).

(** The token of a request whose authorization is of the configured kind. *)
Definition jwt_token (j : support) (i : Info) : option string :=
  match Auth (RequestPart i) with
  | Some a => if EqualFold (Kind a) (authKind j) then Some (Token a) else None
  | None => None
  end.

(** What [Authenticate] does once the token has been searched for. *)
Lemma jwt_Authenticate_run r h i (j : support) :
  jwt_Authenticate r h (i, j)
  = match Auth (RequestPart i), jwt_token j i with
    | None, _ => (Done None, (i, j))
    | Some _, None => (Done (if permissive j then None else Some ErrAuthenticationFailed), (i, j))
    | Some _, Some token =>
        match try_issuers j token 0 (wellknownList j) None with
        | Panic why => (Panic why, (i, j))
        | Done (inl v) => (Done None, (set_JWT v i, j))
        | Done (inr (Some e)) => (Done (if permissive j then None else Some (classify e)), (i, j))
        | Done (inr None) => (Done (Some ErrAuthenticationUnavailable), (i, j))
        end
    end.
Proof.
  unfold jwt_Authenticate, jwt_token. go_unfold.
  destruct (Auth (RequestPart i)) as [a|]; [|done].
  destruct (EqualFold (Kind a) (authKind j)); [|done]. simpl.
  by destruct (try_issuers _ _ _ _ _) as [[|[]]|].
Qed.

#[export] Instance jwt_lawful : LawfulAuth (JWTSupport Alg).
Proof.
  split; intros r h i j.
  - intros o i' j'. simpl. rewrite jwt_Authenticate_run.
    repeat case_match; by intros [= _ <- _].
  - intros e i' j'. simpl. rewrite jwt_Authenticate_run. unfold classify.
    repeat case_match; intros [=]; subst; auto.
  - intros e i' j'. simpl. rewrite jwt_Authenticate_run.
    repeat case_match; by intros [=]; subst.
Qed.

(** C8: no unverified claim reaches the policy: the JWT of a request changes
    only to the claims of its own token, of the configured kind, as the library
    returned them on verifying the token with the keys of one configured
    issuer and for one configured audience. *)
Theorem jwt_claims_verified r h i (j : support) o i' j' :
  Authenticate r h (i, j) = (o, (i', j')) → JWT i' ≠ JWT i →
  ∃ token n wc aud,
    jwt_token j i = Some token ∧ wellknownList j !! n = Some wc
    ∧ validates j token n wc aud (JWT i') ∧ o = Done None ∧ i' = set_JWT (JWT i') i.
Proof.
  intros Ha Hne. simpl in Ha. rewrite jwt_Authenticate_run in Ha.
  destruct (Auth (RequestPart i)) as [a|]; [|by injection Ha as _ <- _].
  destruct (jwt_token j i) as [token|]; [|by injection Ha as _ <- _].
  destruct (try_issuers j token 0 (wellknownList j) None) as [[v|[e|]]|why] eqn:Et;
    injection Ha as <- <- _; try done.
  apply try_issuers_inl in Et as (n & wc & aud & Hn & Hv). by exists token, n, wc, aud.
Qed.



Definition with_permissive (b : bool) (j : support) : support :=
  mkJWT (audiences j) (audienceKey j) (authKind j) (wellKnowns j) (wellknownList j)
    (registered j) (JWKS j) b (net j).

Lemma try_issuers_permissive b j token n wks e :
  try_issuers (with_permissive b j) token n wks e = try_issuers j token n wks e.
Proof.
  revert n e. induction wks as [|wc wks IH]; intros n e; [done|].
  rewrite !try_issuers_cons.
  assert (Ha : ∀ keys auds e, try_audiences (with_permissive b j) token keys auds e
    = try_audiences j token keys auds e).
  { intros keys auds. induction auds as [|a auds IHa]; intros e'; [done|]. simpl.
    change (parse_options (with_permissive b j) keys a) with (parse_options j keys a).
    by destruct (jwt_Parse _ _). }
  assert (Hk : issuer_keys (with_permissive b j) n wc = issuer_keys j n wc) by done.
  rewrite Hk. destruct (issuer_keys j n wc) as [[keys|err]|]; [|by apply IH|done].
  rewrite Ha. by destruct (try_audiences _ _ _ _ _).
Qed.

(** Permissive mode gives no claims strict mode would not: the request it
    leaves is the same; an error strict mode reports it may drop, but never
    that no issuer is configured. *)
Theorem jwt_permissive_same_claims r h i (j : support) :
  ∃ strict lax i',
    Authenticate r h (i, with_permissive false j) = (strict, (i', with_permissive false j))
    ∧ Authenticate r h (i, with_permissive true j) = (lax, (i', with_permissive true j))
    ∧ (lax = strict ∨ lax = Done None ∧ i' = i)
    ∧ (wellknownList j = [] → jwt_token j i ≠ None →
       lax = Done (Some ErrAuthenticationUnavailable)).
Proof.
  simpl. rewrite !jwt_Authenticate_run.
  assert (Ht : ∀ b, jwt_token (with_permissive b j) i = jwt_token j i) by done.
  rewrite !Ht.
  destruct (Auth (RequestPart i)) as [a|] eqn:Ea.
  2: { eexists _, _, _. split; [done|]. split; [done|]. split; [by left|].
       unfold jwt_token. by rewrite Ea. }
  destruct (jwt_token j i) as [token|].
  2: { eexists _, _, _. split; [done|]. split; [done|]. split; [by right|done]. }
  rewrite !try_issuers_permissive. simpl wellknownList.
  destruct (try_issuers j token 0 (wellknownList j) None) as [[v|[e|]]|why] eqn:Et;
    eexists _, _, _; (split; [done|]); (split; [done|]);
    (split; [by (left + (right; by split))|]); intros Hw _; rewrite Hw in Et;
    by simpl in Et; simplify_eq.
Qed.

(** Strict mode answers by the last error alone: with one audience, when
    the keys of the first issuer cannot be fetched but the second refuses the
    token, the answer is "failed" (401) unless the second error's own text
    mentions a connection, although it was the first that would have known. *)
Theorem jwt_last_error_decides r h i (j : support) token wc1 wc2 aud e1 e2 keys :
  permissive j = false → jwt_token j i = Some token →
  wellknownList j = [wc1; wc2] → audiences j = [aud] →
  issuer_keys j 0 wc1 = Done (Err e1) → issuer_keys j 1 wc2 = Done (Ok keys) →
  jwt_Parse token (parse_options j keys aud) = Err e2 →
  Authenticate r h (i, j) = (Done (Some (classify e2)), (i, j)).
Proof.
  intros Hp Ht Hw Haud Hk1 Hk2 Hparse. simpl. rewrite jwt_Authenticate_run, Ht, Hp.
  assert (Ha : ∃ a, Auth (RequestPart i) = Some a).
  { unfold jwt_token in Ht. destruct (Auth (RequestPart i)); [eauto|done]. }
  destruct Ha as [a ->]. rewrite Hw, try_issuers_cons, Hk1, try_issuers_cons, Hk2, Haud.
  simpl. by rewrite Hparse.
Qed.
End authenticate.

(** ** Loading the issuers and their keys *)

Section loading.
Context `{Unicode, UrlAuthority, Jwk Alg} `{!Jwt Alg}.
Local Abbreviation support := (JWTSupport Alg).

Lemma LoadJWKS_fold rf (j : support) wks :
  let j' := foldl (load_jwks_step rf) j wks in
  JWKS j' = JWKS j ++ omap (λ wk, (load_jwks rf (net j) wk).1) wks
  ∧ registered j'
    = foldl register (registered j) (omap (λ wk, (load_jwks rf (net j) wk).2) wks)
  ∧ net j' = net j ∧ wellknownList j' = wellknownList j ∧ audiences j' = audiences j
  ∧ authKind j' = authKind j ∧ permissive j' = permissive j ∧ audienceKey j' = audienceKey j.
Proof.
  revert j. induction wks as [|wk wks IH]; intros j; cbv zeta.
  { simpl. rewrite app_nil_r. by split_and!. }
  destruct (IH (load_jwks_step rf j wk)) as (Hj & Hr & Hn & Hw & Ha & Hk & Hp & Hak).
  cbn [foldl]. rewrite Hj, Hr, Hn, Hw, Ha, Hk, Hp, Hak. unfold load_jwks_step.
  destruct (load_jwks rf (net j) wk) as [s u] eqn:E. simpl. rewrite E. simpl.
  rewrite <- (assoc_L (++)). by destruct s, u.
Qed.

(** The provider starts exactly when some issuer's keys load and an audience
    is configured; it then has the issuers that could be read, in order, and
    the key sets of those whose keys could be loaded, in order. *)
Lemma jwt_started rf n wks audKey auds kind perm (j : support) :
  New rf n wks audKey auds kind perm = Started j ↔
  let issuers := omap (load_well_known rf n) wks in
  let sets := omap (λ wk, (load_jwks rf n wk).1) issuers in
  sets ≠ [] ∧ auds ≠ []
  ∧ j = mkJWT auds audKey kind wks issuers
          (foldl register ∅ (omap (λ wk, (load_jwks rf n wk).2) issuers)) sets perm n.
Proof.
  unfold New, LoadJWKS, LoadWellKnowns. simpl. set (issuers := omap _ wks).
  match goal with |- context [foldl _ ?x issuers] => set (j0 := x) end.
  destruct (LoadJWKS_fold rf j0 issuers) as (Hj & Hr & Hn & Hw & Ha & Hk & Hp & Hak).
  assert (Hwk : wellKnowns (foldl (load_jwks_step rf) j0 issuers) = wks).
  { clear. enough (∀ l j, wellKnowns (foldl (load_jwks_step rf) j l) = wellKnowns j) as ->
      by done.
    induction l as [|x l IH]; intros j; [done|]. simpl. rewrite IH.
    unfold load_jwks_step. by destruct (load_jwks _ _ _). }
  rewrite !startup_seq_started, !exit_if_started, !Nat.eqb_neq, Hj, Ha. simpl.
  assert (Hnil : ∀ A (l : list A), length l ≠ 0%nat ↔ l ≠ []) by (intros A [|]; done).
  rewrite !Hnil.
  assert (Heq : foldl (load_jwks_step rf) j0 issuers
    = mkJWT auds audKey kind wks issuers
        (foldl register ∅ (omap (λ wk, (load_jwks rf n wk).2) issuers))
        (omap (λ wk, (load_jwks rf n wk).1) issuers) perm n).
  { destruct (foldl (load_jwks_step rf) j0 issuers). simpl in *. by subst. }
  rewrite Heq. naive_solver.
Qed.

(** The issuer [wk] was described, at [url], by a document with its key URL. *)
Definition described (rf : string → result string) (n : Net Alg) (url : string)
    (wk : wellKnownData) : Prop :=
  sourceURL wk = url ∧ isLocalFile wk = isFileURL url ∧
  ∃ doc, json_Unmarshal doc = Some (JwksURI wk, SupportedAlgorithms wk)
    ∧ if isFileURL url then ∃ path, fileURLToPath url = Ok path ∧ rf path = Ok doc
      else rh_Do n url = Some doc.

Lemma readFileURL_Ok rf url data :
  readFileURL rf url = Ok data ↔ ∃ path, fileURLToPath url = Ok path ∧ rf path = Ok data.
Proof.
  unfold readFileURL. destruct (fileURLToPath url) as [path|e].
  - split.
    + intros Hr. exists path. split; [done|]. by destruct (rf path).
    + by intros (? & [= <-] & ->).
  - split; [done|]. by intros (? & ? & _).
Qed.

Lemma load_well_known_described rf n url wk :
  load_well_known rf n url = Some wk → described rf n url wk.
Proof.
  unfold load_well_known, described. destruct (String.eqb url ""); [done|].
  destruct (isFileURL url) eqn:Ef.
  - destruct (readFileURL rf url) as [doc|] eqn:Er; [|done].
    destruct (json_Unmarshal doc) as [[uri algs]|] eqn:Ej; [|done]. intros [= <-].
    apply readFileURL_Ok in Er. eauto 10.
  - destruct (rh_Get n url); [|done]. destruct (rh_Do n url) as [doc|] eqn:Er; [|done].
    destruct (json_Unmarshal doc) as [[uri algs]|] eqn:Ej; [|done]. intros [= <-]. eauto 10.
Qed.

Lemma load_jwks_registers rf n wk wk' : (load_jwks rf n wk).2 = Some wk' → wk' = wk.
Proof. unfold load_jwks. repeat case_match; naive_solver. Qed.

(** A URL that was registered has the last post-fetcher registered for it. *)
Lemma registered_by l m wk :
  wk ∈ l → ∃ wk', wk' ∈ l ∧ JwksURI wk' = JwksURI wk
                  ∧ foldl register m l !! JwksURI wk = Some wk'.
Proof.
  induction l as [|x l IH] using rev_ind; [by intros ?%elem_of_nil|].
  rewrite foldl_app, elem_of_app, list_elem_of_singleton. simpl. unfold register at 1.
  destruct (decide (JwksURI x = JwksURI wk)) as [E|E].
  - intros _. exists x. rewrite E, lookup_insert_eq. set_solver.
  - intros [(wk' & ? & ? & ?)%IH| ->]; [|done]. exists wk'.
    rewrite lookup_insert_ne by done. set_solver.
Qed.

(** C18: where keys come from: every key set of a started provider belongs to an
    issuer that a configured URL describes, and is read by the same means as
    the description: a file's keys from a file, those of an HTTP issuer over
    HTTP.  So no document from the network makes the program read a local file,
    and no file path it reads has been percent-decoded into a traversal. *)
Theorem keys_same_scheme rf n wks audKey auds kind perm (j : support) ks :
  New rf n wks audKey auds kind perm = Started j → ks ∈ JWKS j →
  ∃ url wk, url ∈ wks ∧ wk ∈ wellknownList j ∧ described rf n url wk
    ∧ isFileURL (JwksURI wk) = isFileURL url
    ∧ match ks with
      | StaticSet keys =>
          isFileURL url = true
          ∧ ∃ path data parsed, fileURLToPath (JwksURI wk) = Ok path ∧ rf path = Ok data
              ∧ jwk_Parse data = Some parsed ∧ keys = post_fetched wk parsed
              ∧ Forall (λ s, s ≠ "..") (Split path "/")
      | CachedSet u =>
          isFileURL url = false ∧ u = JwksURI wk ∧ jwks_Register n u = true
          ∧ ∃ wk', wk' ∈ wellknownList j ∧ JwksURI wk' = u ∧ registered j !! u = Some wk'
      end.
Proof.
  intros (_ & _ & ->)%jwt_started Hks. simpl in *.
  apply list_elem_of_omap in Hks as (wk & Hwk & Hl).
  pose proof Hwk as (url & Hurl & Hd%load_well_known_described)%list_elem_of_omap.
  exists url, wk. split; [done|]. split; [done|]. split; [done|].
  set (issuers := omap (load_well_known rf n) wks) in *.
  assert (Hreg : (load_jwks rf n wk).2 = Some wk → ∃ wk', wk' ∈ issuers
    ∧ JwksURI wk' = JwksURI wk
    ∧ foldl register ∅ (omap (λ wk, (load_jwks rf n wk).2) issuers) !! JwksURI wk = Some wk').
  { intros Hu. destruct (registered_by (omap (λ wk, (load_jwks rf n wk).2) issuers) ∅ wk)
      as (wk' & (wk2 & Hin & Hwk2%load_jwks_registers)%list_elem_of_omap & ?).
    - apply list_elem_of_omap. by exists wk.
    - subst. by exists wk2. }
  destruct Hd as (Hsrc & _). unfold load_jwks in Hl, Hreg. rewrite Hsrc in Hl, Hreg.
  destruct (isFileURL url) eqn:E1, (isFileURL (JwksURI wk)) eqn:E2; simpl in Hl, Hreg;
    try done; (split; [done|]).
  - destruct (readFileURL rf (JwksURI wk)) as [data|] eqn:Er; [|done].
    destruct (jwk_Parse data) as [parsed|] eqn:Ep; [|done]. injection Hl as <-.
    apply readFileURL_Ok in Er as (path & Hp & Hr). split; [done|].
    exists path, data, parsed. split_and!; try done.
    by eapply fileURLToPath_no_traversal.
  - destruct (jwks_Register n (JwksURI wk)) eqn:Er; [|done].
    destruct (jwks_Get n (JwksURI wk)); [|done]. injection Hl as <-. split_and!; auto.
Qed.

Lemma omap_length {A B} (f : A → option B) (l : list A) :
  (length (omap f l) ≤ length l)%nat
  ∧ ∀ x, x ∈ l → f x = None → (length (omap f l) < length l)%nat.
Proof.
  induction l as [|y l [IHle IHlt]]; [split; [done|by intros x ?%elem_of_nil]|].
  cbn [omap list_omap]. change (list_omap A B f l) with (omap f l).
  destruct (f y) as [b|] eqn:Ef; simpl; (split; [lia|]).
  - intros x [->|Hx]%elem_of_cons Hf; [congruence|]. specialize (IHlt x Hx Hf). lia.
  - intros x _ _. lia.
Qed.

(** C27: an issuer whose keys cannot be loaded turns refusals into crashes: when
    the provider has started without the keys of some issuer, the last issuer is
    described by a file and the token verifies for no issuer and audience,
    [Authenticate] panics on an index out of range instead of refusing, in
    permissive mode too. *)
Theorem misaligned_keys_panic rf n wks audKey auds kind perm (j : support) r h i token wk w :
  New rf n wks audKey auds kind perm = Started j →
  wk ∈ wellknownList j → (load_jwks rf n wk).1 = None →
  last (wellknownList j) = Some w → isLocalFile w = true →
  jwt_token j i = Some token →
  (∀ k wc aud v, wellknownList j !! k = Some wc → ¬ validates j token k wc aud v) →
  Authenticate r h (i, j) = (Panic "runtime error: index out of range", (i, j)).
Proof.
  intros Hnew Hwk Hnone Hlast Hw Ht Hno. simpl. rewrite jwt_Authenticate_run, Ht.
  assert (Ha : ∃ a, Auth (RequestPart i) = Some a).
  { unfold jwt_token in Ht. destruct (Auth (RequestPart i)); [eauto|done]. }
  destruct Ha as [a ->].
  assert (Hlen : (length (JWKS j) < length (wellknownList j))%nat).
  { apply jwt_started in Hnew as (_ & _ & ->). simpl in *. by eapply omap_length. }
  rewrite last_lookup in Hlast.
  destruct (try_issuers j token 0 (wellknownList j) None) as [[v|e]|why] eqn:Et.
  - apply try_issuers_inl in Et as (k & wc & aud & Hk & Hv). by destruct (Hno k wc aud v Hk).
  - pose proof (try_issuers_bounded _ _ _ _ _ _ Et _ _ Hlast Hw). lia.
  - by apply try_issuers_panic_text in Et as ->.
Qed.
End loading.

(** ** Witnesses *)

Module Sample.
(** Algorithms are their names; a set refuses a pointer it holds. *)
#[refine] Definition toy_jwk : Jwk string := {|
  Alg_String a := a;
  KeyAlgorithmFrom a := a;
  AddKey s l := if decide (l ∈ s) then s else s ++ [l]
|}.
Proof. intros s l. case_decide; auto. Defined.

(** A token verifies when it is the key's material and the audience is "api". *)
Definition toy_jwt : Jwt string := {|
  jwt_Parse t options :=
    match options with
    | [WithKey k; WithValidate true; WithVerify true; WithAudience "api"] =>
        if String.eqb t (material k) then Ok (VMap [("sub", VStr t)])
        else Err (ErrMsg "could not verify message")
    | _ => Err (ErrMsg "no key")
    end;
  jwk_Parse data := Some [mkKey "" data];
  json_Unmarshal data := Some (data, ["RS256"; "ES256"])
|}.

Definition toy_url : UrlAuthority := {| valid_authority _ := true |}.

(** The keys of the first issuer are missing. *)
Definition ReadFile (p : string) : result string :=
  match p with
  | "/a.json" => Ok "file:///a-keys.json"
  | "/b.json" => Ok "file:///b-keys.json"
  | "/b-keys.json" => Ok "secret-b"
  | _ => Err (ErrMsg "no such file")
  end.

Definition net : Net string := {|
  rh_Get _ := true; rh_Do _ := None; jwks_Register _ := true;
  jwks_Get _ := Err (ErrMsg "failed to fetch")
|}.

Definition request : Request := mkRequest "GET" "/" 0 None None.
Definition info (token : string) : Info :=
  mkInfo (mkRequestInfo "GET" [] ∅ None (Some (mkAuth "bearer" token "" "")) 0 "")
    VNil VNil VNil "/".

Definition issuer_b : wellKnownData :=
  mkWellKnown "file:///b-keys.json" ["RS256"; "ES256"] "file:///b.json" true.
Definition issuer_a : wellKnownData :=
  mkWellKnown "file:///a-keys.json" ["RS256"; "ES256"] "file:///a.json" true.
Definition remote : wellKnownData := mkWellKnown "https://x/keys" [] "https://x" false.

Definition support (wks : list wellKnownData) : JWTSupport string :=
  mkJWT ["api"] "aud" "bearer" ["file:///a.json"; "file:///b.json"] wks ∅
    [StaticSet [mkKey "ES256" "secret-b"]] false net.
End Sample.

#[local] Existing Instance Sample.toy_jwk.
#[local] Existing Instance Sample.toy_jwt.
#[local] Existing Instance Sample.toy_url.

Lemma PostFetch_last_algorithm_witness :
  ∃ newset w',
    PostFetch (mkWellKnown "" ["RS256"; "ES256"] "" true) [0%nat]
      (mkKeyWorld ∅ [mkKey "" "k"]) = (Done newset, w')
    ∧ heap w' !! 0%nat = Some (mkKey "ES256" "k").
Proof.
  destruct (PostFetch_last_algorithm (mkWellKnown "" ["RS256"; "ES256"] "" true) [0%nat]
    (mkKeyWorld ∅ [mkKey "" "k"])) as (newset & w' & E & Hk).
  - apply map_Forall_empty.
  - by apply (bool_decide_eq_true_1 (NoDup [0%nat])).
  - repeat constructor. by exists (mkKey "" "k").
  - exists newset, w'. split; [exact E|].
    exact (proj2 (Hk 0%nat (mkKey "" "k") eq_refl ltac:(by left))).
Defined.

Lemma jwt_claims_verified_witness :
  ∃ token n wc aud,
    jwt_token (Sample.support [Sample.issuer_b]) (Sample.info "secret-b") = Some token
    ∧ wellknownList (Sample.support [Sample.issuer_b]) !! n = Some wc
    ∧ validates (Sample.support [Sample.issuer_b]) token n wc aud (VMap [("sub", VStr "secret-b")])
    ∧ Done None = Done (A := option error) None
    ∧ set_JWT (VMap [("sub", VStr "secret-b")]) (Sample.info "secret-b")
      = set_JWT (VMap [("sub", VStr "secret-b")]) (Sample.info "secret-b").
Proof.
  apply (jwt_claims_verified Sample.request ∅ (Sample.info "secret-b")
    (Sample.support [Sample.issuer_b]) (Done None)
    (set_JWT (VMap [("sub", VStr "secret-b")]) (Sample.info "secret-b"))
    (Sample.support [Sample.issuer_b])).
  - vm_compute. reflexivity.
  - discriminate.
Defined.


Lemma jwt_last_error_decides_witness :
  Authenticate Sample.request ∅
    (Sample.info "forged",
     mkJWT ["api"] "aud" "bearer" [] [Sample.remote; Sample.issuer_b] {["https://x/keys" := Sample.remote]}
       [CachedSet "https://x/keys"; StaticSet [mkKey "ES256" "secret-b"]] false Sample.net)
  = (Done (Some ErrAuthenticationFailed),
     (Sample.info "forged",
      mkJWT ["api"] "aud" "bearer" [] [Sample.remote; Sample.issuer_b] {["https://x/keys" := Sample.remote]}
        [CachedSet "https://x/keys"; StaticSet [mkKey "ES256" "secret-b"]] false Sample.net)).
Proof.
  exact (jwt_last_error_decides Sample.request ∅ (Sample.info "forged")
    (mkJWT ["api"] "aud" "bearer" [] [Sample.remote; Sample.issuer_b] {["https://x/keys" := Sample.remote]}
      [CachedSet "https://x/keys"; StaticSet [mkKey "ES256" "secret-b"]] false Sample.net)
    "forged" Sample.remote Sample.issuer_b "api" (ErrMsg "failed to fetch")
    (ErrMsg "could not verify message") (Some [mkKey "ES256" "secret-b"])
    eq_refl eq_refl eq_refl eq_refl eq_refl eq_refl eq_refl).
Defined.

Lemma misaligned_keys_panic_witness :
  New Sample.ReadFile Sample.net ["file:///a.json"; "file:///b.json"] "aud" ["api"] "bearer"
    false = Started (Sample.support [Sample.issuer_a; Sample.issuer_b])
  ∧ Authenticate Sample.request ∅
      (Sample.info "forged", Sample.support [Sample.issuer_a; Sample.issuer_b])
    = (Panic "runtime error: index out of range",
       (Sample.info "forged", Sample.support [Sample.issuer_a; Sample.issuer_b])).
Proof.
  split; [vm_compute; reflexivity|].
  apply (misaligned_keys_panic Sample.ReadFile Sample.net ["file:///a.json"; "file:///b.json"]
    "aud" ["api"] "bearer" false _ _ _ _ "forged" Sample.issuer_a Sample.issuer_b).
  - vm_compute. reflexivity.
  - by left.
  - vm_compute. reflexivity.
  - reflexivity.
  - reflexivity.
  - vm_compute. reflexivity.
  - intros k wc aud v _ (Haud & keys & Hk & Hp)%validates_options.
    apply list_elem_of_singleton in Haud as ->. unfold issuer_keys in Hk.
    destruct k as [|k]; destruct (isLocalFile wc); try done; injection Hk as <-.
    vm_compute in Hp. discriminate.
Defined.

Lemma keys_same_scheme_witness :
  ∃ url wk, url ∈ ["file:///a.json"; "file:///b.json"]
    ∧ described Sample.ReadFile Sample.net url wk
    ∧ isFileURL (JwksURI wk) = true ∧ isFileURL url = true.
Proof.
  destruct (keys_same_scheme Sample.ReadFile Sample.net ["file:///a.json"; "file:///b.json"]
    "aud" ["api"] "bearer" false (Sample.support [Sample.issuer_a; Sample.issuer_b])
    (StaticSet [mkKey "ES256" "secret-b"])) as (url & wk & Hu & _ & Hd & Hs & Hf & _).
  - vm_compute. reflexivity.
  - by left.
  - exists url, wk. rewrite Hs. done.
Defined.
