(* ===== verification/GoPath.v ===== *)
(** * Package path: patterns and base names

    [path_Match] is path.Match as documented: the pattern is read into tokens
    (a malformed one matches nothing here: the program treats an error like a
    mismatch) and the tokens are matched against the name. *)

From S2P Require Import Prelude GoStrings GoUrl.

Local Open Scope N_scope.

Inductive token : Type :=
| Star                                             (* any run of non-slashes *)
| Any                                              (* one rune, not a slash *)
| Lit (c : ascii)
| Class (negated : bool) (ranges : list (N * N)).

Definition backslash : ascii := Ascii.ascii_of_N 0x5C.

(** [getEsc]: a rune of a class, which must not be the pattern's end. *)
Definition getEsc (s : string) : option (N * string) :=
  match s with
  | EmptyString => None
  | String c r =>
      if Ascii.eqb c "-" || Ascii.eqb c "]" then None
      else
        let s' := if Ascii.eqb c backslash then r else s in
        match DecodeRune s' with
        | Some (x, rest) =>
            if (x =? RuneError) && (N.of_nat (String.length s')
                                    =? N.of_nat (String.length rest) + 1) then None
            else if String.eqb rest "" then None else Some (x, rest)
        | None => None
        end
  end.

(** The ranges up to the closing bracket. *)
Fixpoint read_ranges (n : nat) (s : string) (acc : list (N * N))
    : option (list (N * N) * string) :=
  match n with
  | O => None
  | S n' =>
      let range :=
        match getEsc s with
        | None => None
        | Some (lo, r) =>
            match r with
            | String c r' =>
                if Ascii.eqb c "-" then
                  match getEsc r' with
                  | Some (hi, r'') => read_ranges n' r'' (acc ++ [(lo, hi)])
                  | None => None
                  end
                else read_ranges n' r (acc ++ [(lo, lo)])
            | EmptyString => None
            end
        end in
      match s with
      | String c r => if Ascii.eqb c "]" && (0 <? length acc)%nat then Some (acc, r) else range
      | EmptyString => None
      end
  end.

(** Each step consumes a byte, so the length of the pattern is fuel enough. *)
Fixpoint read_tokens (n : nat) (s : string) : option (list token) :=
  match n, s with
  | _, EmptyString => Some []
  | O, _ => None
  | S n', String c r =>
      if Ascii.eqb c "*" then cons Star <$> read_tokens n' r
      else if Ascii.eqb c "?" then cons Any <$> read_tokens n' r
      else if Ascii.eqb c "[" then
        let '(neg, r1) :=
          match r with String x r' => if Ascii.eqb x "^" then (true, r') else (false, r)
                  | EmptyString => (false, r) end in
        match read_ranges (S (String.length r1)) r1 [] with
        | Some (ranges, rest) => cons (Class neg ranges) <$> read_tokens n' rest
        | None => None
        end
      else if Ascii.eqb c backslash then
        match r with
        | String x r' => cons (Lit x) <$> read_tokens n' r'
        | EmptyString => None
        end
      else cons (Lit c) <$> read_tokens n' r
  end.

Definition in_class (neg : bool) (ranges : list (N * N)) (r : N) : bool :=
  xorb neg (existsb (λ p, (p.1 <=? r) && (r <=? p.2)) ranges).

Fixpoint match_tokens (ts : list token) (s : string) : bool :=
  match ts with
  | [] => String.eqb s ""
  | Star :: ts' =>
      (fix star (s : string) : bool :=
         match_tokens ts' s
         || match s with
            | EmptyString => false
            | String c r => negb (Ascii.eqb c "/") && star r
            end) s
  | Any :: ts' =>
      match s with
      | EmptyString => false
      | String c _ =>
          if Ascii.eqb c "/" then false
          else match DecodeRune s with Some (_, r) => match_tokens ts' r | None => false end
      end
  | Lit c :: ts' =>
      match s with
      | EmptyString => false
      | String x r => Ascii.eqb x c && match_tokens ts' r
      end
  | Class neg ranges :: ts' =>
      match DecodeRune s with
      | Some (x, r) => in_class neg ranges x && match_tokens ts' r
      | None => false
      end
  end.

(** [match, err := path.Match(pattern, name)]: match and no error. *)
Definition path_Match (pattern name : string) : bool :=
  match read_tokens (String.length pattern) pattern with
  | Some ts => match_tokens ts name
  | None => false
  end.

(** path.Base. *)
Fixpoint trim_slashes (l : list string) : list string :=
  match l with
  | x :: l' => if String.eqb x "" then trim_slashes l' else l
  | [] => []
  end.

Definition path_Base (p : string) : string :=
  if String.eqb p "" then "."
  else match trim_slashes (rev (Split p "/")) with
       | x :: _ => x
       | [] => "/"
       end.

(** path.Join of two elements. *)
Definition path_Join (a b : string) : string :=
  if String.eqb a "" then (if String.eqb b "" then "" else Clean b)
  else if String.eqb b "" then Clean a
  else Clean (a +:+ "/" +:+ b).

Example match_1 : path_Match "*.rego" "request.rego" = true. Proof. reflexivity. Qed.
Example match_2 : path_Match "*.rego" "request.rego.bak" = false. Proof. reflexivity. Qed.
Example match_3 : path_Match "[a-c]?x*" "bzx" = true. Proof. reflexivity. Qed.
Example match_4 : path_Match "[^a-c]" "b" = false. Proof. reflexivity. Qed.
Example match_5 : path_Match "[]a]" "a" = false. Proof. reflexivity. Qed.
Example base_1 : path_Base "./policies//request.rego" = "request.rego". Proof. reflexivity. Qed.

Lemma trim_slashes_nonempty l x t : trim_slashes l = x :: t → x ≠ "".
Proof.
  induction l as [|y l IH]; [done|]. simpl.
  destruct (String.eqb_spec y ""); [apply IH|]. by intros [= -> _].
Qed.

(** The base name of a file in a folder. *)
Lemma path_Base_in_folder folder name :
  name ≠ "" → byte_in "/" name = false → path_Base (folder +:+ "/" +:+ name) = name.
Proof.
  intros Hne Hn. unfold path_Base.
  destruct (String.eqb_spec (folder +:+ "/" +:+ name) "") as [E|_]; [by destruct folder|].
  assert (Hs : ∃ l, Split (folder +:+ "/" +:+ name) "/" = l ++ [name]) .
  { clear Hne. induction folder as [|c folder [l IH]].
    - exists [""]. change ("" +:+ "/" +:+ name) with (String "/" name).
      change (String "/" name) with ("" +:+ String "/" name).
      by rewrite Split_append, Split_single.
    - rewrite append_cons. simpl. rewrite IH.
      destruct (Ascii.eqb c "/"); [by exists ("" :: l)|].
      destruct l as [|x l]; [|by exists (String c x :: l)]. simpl in *.
      exfalso. destruct (Split_cons (folder +:+ "/" +:+ name) "/") as (h & t & E).
      pose proof (Split_no_sep (folder +:+ "/" +:+ name) "/") as Hf.
      pose proof (Join_Split (folder +:+ "/" +:+ name) "/") as Hj.
      rewrite IH in Hj, Hf. simpl in Hj. apply Forall_cons_1 in Hf as [Hf _].
      rewrite Hj, !byte_in_append in Hf. by rewrite orb_true_r in Hf. }
  destruct Hs as [l ->]. rewrite rev_unit. simpl.
  by destruct (String.eqb_spec name "").
Qed.
