(* ===== verification/FileCache.v ===== *)
(** * pkg/filecache: files of a folder, cached and watched

    [Cache] (filecache.go) reads a file on demand and keeps it until a watcher
    event marks it dirty or removes it; [delayedCallbacks] (callbacks.go) turns
    the bursts of events into one callback a while after the last.  Each
    operation holds its mutex throughout and is one step here; the goroutines
    they start are kept in the state until they run. *)

From S2P Require Import Prelude GoStrings GoValue GoOs GoUrl GoPath.

(** ** callbacks.go *)

(** [pending]: name to timer; [timers]: the armed timers with their name and
    deadline; [fired]: the functions of expired timers that have not run yet. *)
Record delayedCallbacks := mkDelayed {
  delay : N;
  pending : gmap string nat;
  timers : gmap nat (string * N);
  fired : list string;
  next_timer : nat
}.

Definition newDelayedCallbacks (d : N) : delayedCallbacks := mkDelayed d ∅ ∅ [] 0.

(** [timer.Stop()] keeps an armed timer from firing; on an expired one it does
    nothing. *)
Definition stop_timer (id : nat) (q : delayedCallbacks) : delayedCallbacks :=
  mkDelayed (delay q) (pending q) (delete id (timers q)) (fired q) (next_timer q).

Definition add (name : string) (now : N) (q : delayedCallbacks) : delayedCallbacks :=
  let q1 := match pending q !! name with Some id => stop_timer id q | None => q end in
  mkDelayed (delay q1) (<[name := next_timer q1]> (pending q1))
    (<[next_timer q1 := (name, (now + delay q1)%N)]> (timers q1)) (fired q1) (S (next_timer q1)).

(** The runtime fires a timer whose deadline has passed. *)
Definition expire (id : nat) (now : N) (q : delayedCallbacks) : delayedCallbacks :=
  match timers q !! id with
  | Some (name, deadline) =>
      if (deadline <=? now)%N then
        mkDelayed (delay q) (pending q) (delete id (timers q)) (fired q ++ [name]) (next_timer q)
      else q
  | None => q
  end.

(** The [n]th fired function: it forgets the name; then it calls [q.fn name]. *)
Definition run_fired (n : nat) (q : delayedCallbacks) : option (string * delayedCallbacks) :=
  match fired q !! n with
  | Some name =>
      Some (name, mkDelayed (delay q) (delete name (pending q)) (timers q)
                    (delete n (fired q)) (next_timer q))
  | None => None
  end.

(** ** filecache.go *)

Definition callbackDelay : N := 500.                  (* milliseconds *)

Record File := mkFile { dirty : bool; data : string }.

(** The function values given to [AddCallback]: regocache.Watch registers the
    method [Callback] of its cache, which [RegoCache.call] runs. *)
Inductive callback := PolicyCallback.

(** [files]: a nil map and an empty one read alike; [getters]: the goroutines
    [go c.Get(name)] still to run. *)
Record Cache := mkCache {
  folder : string;
  pattern : string;
  files : gmap string File;
  queue : delayedCallbacks;
  getters : list string;
  callbacks : list callback
}.

Definition set_files (f : gmap string File → gmap string File) (c : Cache) : Cache :=
  mkCache (folder c) (pattern c) (f (files c)) (queue c) (getters c) (callbacks c).
Definition set_queue (f : delayedCallbacks → delayedCallbacks) (c : Cache) : Cache :=
  mkCache (folder c) (pattern c) (files c) (f (queue c)) (getters c) (callbacks c).
Definition set_getters (f : list string → list string) (c : Cache) : Cache :=
  mkCache (folder c) (pattern c) (files c) (queue c) (f (getters c)) (callbacks c).

Definition AddCallback (fn : callback) : go Cache unit :=
  go_modify (λ c, mkCache (folder c) (pattern c) (files c) (queue c) (getters c)
                    (callbacks c ++ [fn])).

(** What the file system answers. *)
Inductive read_result : Type :=
| ReadData (d : string)
| NotExist
| ReadError (e : error).

Inductive lstat_result : Type :=
| LstatError
| LstatDir
| LstatRegular
| LstatOther.                                        (* a symbolic link, a device *)

(** [watcher], [add_ok]: whether fsnotify could make the watcher and watch. *)
Definition New (lstat : string → lstat_result) (watcher add_ok : bool)
    (folder pattern : string) : result Cache :=
  match lstat folder with
  | LstatError => Err (ErrMsg "lstat")
  | LstatDir =>
      if negb watcher then Err (ErrMsg "fsnotify.NewWatcher")
      else if negb add_ok then Err (ErrMsg "watcher.Add")
      else Ok (mkCache folder pattern ∅ (newDelayedCallbacks callbackDelay) [] [])
  | _ => Err (ErrMsg "not a folder")
  end.

Section cache.
Context (ReadFile : string → read_result).

(** The file, when it exists, or an error. *)
Definition readFile (folder name : string) : result (option File * bool) :=
  match ReadFile (path_Join folder name) with
  | NotExist => Ok (None, false)
  | ReadError e => Err e
  | ReadData d => Ok (Some (mkFile false d), true)
  end.

(** Data (nil when the file is gone) and whether it was just read. *)
Definition Get (name : string) : go Cache (result (option string * bool)) :=
  c ← go_get;
  let load : go Cache (result (option string * bool)) :=
    match readFile (folder c) name with
    | Err err => mret (Err err)
    | Ok (None, _) => go_modify (set_files (delete name));; mret (Ok (None, true))
    | Ok (Some f, updated) =>
        go_modify (set_files (<[name := f]>));; mret (Ok (Some (data f), updated))
    end in
  match files c !! name with
  | Some f => if negb (dirty f) then mret (Ok (Some (data f), false)) else load
  | None => load
  end.
End cache.

Definition set_dirty (f : File) : File := mkFile true (data f).

(** [op]: [fs_Write] or [fs_Remove]. *)
Definition invalidate (name : string) (op : N) (now : N) : go Cache unit :=
  c ← go_get;
  match files c !! name with
  | Some f =>
      if (op =? fs_Remove)%N then
        go_modify (set_files (delete name));; go_modify (set_queue (add name now))
      else
        (if negb (dirty f) then go_modify (set_queue (add name now)) else mret tt);;
        go_modify (set_files (alter set_dirty name))
  | None =>
      go_modify (set_getters (λ l, l ++ [name]));; go_modify (set_queue (add name now))
  end.

Definition shouldProcess (lstat : string → lstat_result) (pat fullPath name : string) : bool :=
  if HasPrefix name "." then false
  else if negb (path_Match pat name) then false
  else match lstat fullPath with
       | LstatError => true
       | LstatRegular => true
       | _ => false
       end.

(** One event of the watching goroutine. *)
Definition watch_event (lstat : string → lstat_result) (now : N) (e : Event) : go Cache unit :=
  c ← go_get;
  let name := path_Base (Name e) in
  let process := shouldProcess lstat (pattern c) (Name e) name in
  let removed : go Cache unit :=
    if Has e fs_Remove || Has e fs_Rename then
      if process then invalidate name fs_Remove now else mret tt
    else mret tt in
  if Has e fs_Write || Has e fs_Create then
    if process then invalidate name fs_Write now;; removed else mret tt
  else removed.

(** What [Watch] calls back for at once: the entries of the folder. *)
Definition watch_names (c : Cache) (ReadDir : result (list (string * bool))) : list string :=
  match ReadDir with
  | Err _ => []
  | Ok entries =>
      omap (λ e : string * bool, let '(name, is_dir) := e in
              if is_dir then None
              else if path_Match (pattern c) name then Some name else None) entries
  end.

(** ** The queue: timers and names *)

(** Timer ids are fresh, and a pending name's timer is its own: while armed it
    is for that name. *)
Record queue_ok (q : delayedCallbacks) : Prop := {
  timers_old : map_Forall (λ id _, (id < next_timer q)%nat) (timers q);
  pending_old : map_Forall (λ _ id, (id < next_timer q)%nat) (pending q);
  pending_name name id n d :
    pending q !! name = Some id → timers q !! id = Some (n, d) → n = name
}.

(** An armed timer that belongs to no pending entry is one whose entry a late
    callback removed; [debounced]: there is none. *)
Definition debounced (q : delayedCallbacks) : Prop :=
  map_Forall (λ id nd, pending q !! nd.1 = Some id) (timers q).

Lemma queue_ok_new d : queue_ok (newDelayedCallbacks d).
Proof. split; simpl; intros *; by rewrite ?lookup_empty. Qed.

Lemma queue_ok_add name now q : queue_ok q → queue_ok (add name now q).
Proof.
  intros [Ht Hp Hn]. unfold add. cbv zeta.
  set (q1 := match pending q !! name with Some id => stop_timer id q | None => q end).
  assert (Hpend : pending q1 = pending q) by (unfold q1; by case_match).
  assert (Hnext : next_timer q1 = next_timer q) by (unfold q1; by case_match).
  assert (Htim : timers q1 ⊆ timers q).
  { unfold q1. case_match; [apply delete_subseteq|done]. }
  split; simpl; rewrite ?Hpend, ?Hnext.
  - apply map_Forall_insert_2; [lia|]. intros id nd Hid.
    eapply lookup_weaken in Hid; [|exact Htim]. specialize (Ht id nd Hid). simpl in *. lia.
  - apply map_Forall_insert_2; [lia|]. intros n id Hid. specialize (Hp n id Hid). simpl in *. lia.
  - intros name' id n d. rewrite !lookup_insert_Some.
    intros [[<- <-]|[Hne Hid]] [[? [= <- <-]]|[? Hti]]; try done.
    + exfalso. specialize (Hp name' id Hid). simpl in *. lia.
    + eapply Hn; [exact Hid|]. by eapply lookup_weaken.
Qed.

Lemma queue_ok_expire id now q : queue_ok q → queue_ok (expire id now q).
Proof.
  intros [Ht Hp Hn]. unfold expire.
  destruct (timers q !! id) as [[name deadline]|]; [|by split].
  destruct (deadline <=? now)%N; [|by split]. split; simpl; [|done|].
  - by apply map_Forall_delete.
  - intros name' id' n d Hid. rewrite lookup_delete_Some. intros [_ ?]. eauto.
Qed.

Lemma queue_ok_run_fired n q name q' :
  queue_ok q → run_fired n q = Some (name, q') → queue_ok q'.
Proof.
  unfold run_fired. intros [Ht Hp Hn]. destruct (fired q !! n); [|done].
  intros [= <- <-]. split; simpl; [done|by apply map_Forall_delete|].
  intros name' id m d. rewrite lookup_delete_Some. intros [_ ?]. eauto.
Qed.
