(* ===== verification/FileCacheProps.v ===== *)
(** * Properties of the file cache *)

From S2P Require Import Prelude GoStrings GoValue GoOs GoUrl GoPath FileCache.

(** ** Reading through the cache *)

(** The file is read: it is not cached, or marked dirty. *)
Definition stale (c : Cache) (name : string) : bool :=
  match files c !! name with Some f => dirty f | None => true end.

Section get.
Context (ReadFile : string → read_result).

(** What a read through to the file system does. *)
Definition reload (name : string) (c : Cache)
    : outcome (result (option string * bool)) * Cache :=
  match ReadFile (path_Join (folder c) name) with
  | NotExist => (Done (Ok (None, true)), set_files (delete name) c)
  | ReadError e => (Done (Err e), c)
  | ReadData d => (Done (Ok (Some d, true)), set_files (<[name := mkFile false d]>) c)
  end.

Lemma Get_run name c :
  Get ReadFile name c
  = match files c !! name with
    | Some f => if dirty f then reload name c else (Done (Ok (Some (data f), false)), c)
    | None => reload name c
    end.
Proof.
  unfold Get, reload, readFile. erewrite go_bind_done by reflexivity. cbv beta zeta.
  destruct (files c !! name) as [[[] d]|]; simpl;
    by destruct (ReadFile (path_Join (folder c) name)).
Qed.

Lemma Get_frame name c :
  let c' := (Get ReadFile name c).2 in
  folder c' = folder c ∧ pattern c' = pattern c ∧ queue c' = queue c ∧ getters c' = getters c
  ∧ callbacks c' = callbacks c ∧ ∀ n, n ≠ name → files c' !! n = files c !! n.
Proof.
  cbv zeta. rewrite Get_run. unfold reload.
  destruct (files c !! name) as [[[] d]|]; try (by split_and!);
    destruct (ReadFile _); simpl; split_and!; try done; intros n Hn;
    by rewrite ?lookup_insert_ne, ?lookup_delete_ne.
Qed.

(** Where what is cached, and what is returned, was read. *)
Lemma Get_files name c n f :
  files (Get ReadFile name c).2 !! n = Some f →
  files c !! n = Some f
  ∨ n = name ∧ ReadFile (path_Join (folder c) name) = ReadData (data f).
Proof.
  assert (Hrel : files (reload name c).2 !! n = Some f → files c !! n = Some f
    ∨ n = name ∧ ReadFile (path_Join (folder c) name) = ReadData (data f)).
  { unfold reload. destruct (ReadFile _) as [d| |e]; simpl; [| |by left].
    - intros [[<- <-]|[_ ?]]%lookup_insert_Some; [by right|by left].
    - intros [_ ?]%lookup_delete_Some. by left. }
  rewrite Get_run. destruct (files c !! name) as [[[] d0]|]; simpl; auto.
Qed.

Lemma Get_data name c d b :
  (Get ReadFile name c).1 = Done (Ok (Some d, b)) →
  ReadFile (path_Join (folder c) name) = ReadData d
  ∨ ∃ f, files c !! name = Some f ∧ data f = d.
Proof.
  assert (Hrel : (reload name c).1 = Done (Ok (Some d, b)) →
    ReadFile (path_Join (folder c) name) = ReadData d).
  { unfold reload. destruct (ReadFile _) as [d'| |e]; simpl; intros [=]. by subst. }
  rewrite Get_run. destruct (files c !! name) as [[[] d0]|]; simpl; auto.
  intros [= <- _]. eauto.
Qed.

(** A change is reported once: the first [Get] of a file that is new or
    dirty returns its current content as updated, every later one the same
    content as not updated and without reading the file, until an event marks
    it; a [Get] of an unchanged file has no effect. *)
Lemma Get_fresh name c d :
  ReadFile (path_Join (folder c) name) = ReadData d →
  stale c name = true →
  ∃ c', Get ReadFile name c = (Done (Ok (Some d, true)), c')
        ∧ stale c' name = false
        ∧ ∀ ReadFile', FileCache.Get ReadFile' name c' = (Done (Ok (Some d, false)), c').
Proof.
  intros Hd Hs. exists (set_files (<[name := mkFile false d]>) c).
  rewrite Get_run. unfold stale in *.
  split; [|split].
  - destruct (files c !! name) as [f|]; [rewrite Hs|]; unfold reload; by rewrite Hd.
  - simpl. by rewrite lookup_insert_eq.
  - intros rf. unfold FileCache.Get. erewrite go_bind_done by reflexivity. cbv beta zeta.
    simpl. by rewrite lookup_insert_eq.
Qed.
End get.

(** ** Events *)

(** An event about a file whose name starts with a dot, about a symbolic link
    or about a name outside the pattern changes nothing.  A mounted ConfigMap
    is updated by replacing the symbolic link "..data" that its files go
    through, so no update of a mounted policy is ever noticed. *)
Theorem ignored_events lstat now e c :
  HasPrefix (path_Base (Name e)) "." = true
  ∨ path_Match (pattern c) (path_Base (Name e)) = false
  ∨ lstat (Name e) = LstatOther →
  watch_event lstat now e c = (Done tt, c).
Proof.
  intros Hcase.
  assert (Hp : shouldProcess lstat (pattern c) (Name e) (path_Base (Name e)) = false).
  { unfold shouldProcess. destruct Hcase as [->|[->| ->]]; [done|by case_match|].
    by repeat case_match. }
  unfold watch_event. erewrite go_bind_done by reflexivity. cbv beta zeta. rewrite Hp.
  by destruct (Has e fs_Write || Has e fs_Create), (Has e fs_Remove || Has e fs_Rename).
Qed.

Example ignored_events_witness :
  let c := mkCache "/policies" "*" {["request.rego" := mkFile false "old"]}
             (newDelayedCallbacks 500) [] [PolicyCallback] in
  watch_event (λ _, LstatRegular) 0 (mkEvent "/policies/..data" fs_Create) c = (Done tt, c).
Proof. intros c. apply ignored_events. left. reflexivity. Defined.

(** ** Debouncing *)

(** The time of the last event of [name]. *)
Definition last_time (name : string) (l : list (string * N)) : option N :=
  last (omap (λ e, if String.eqb e.1 name then Some e.2 else None) l).

Definition adds (l : list (string * N)) (q : delayedCallbacks) : delayedCallbacks :=
  foldl (λ q e, add e.1 e.2 q) q l.

Lemma last_time_snoc name l e :
  last_time name (l ++ [e]) = if String.eqb e.1 name then Some e.2 else last_time name l.
Proof.
  unfold last_time. rewrite omap_app, last_app. simpl.
  by destruct (String.eqb e.1 name).
Qed.

Lemma queue_ok_adds l q : queue_ok q → queue_ok (adds l q).
Proof.
  unfold adds. revert q. induction l as [|e l IH]; intros q Hq; [done|].
  simpl. by apply IH, queue_ok_add.
Qed.

Lemma add_delay name now q : delay (add name now q) = delay q.
Proof. unfold add. by destruct (pending q !! name). Qed.

Lemma add_fired name now q : fired (add name now q) = fired q.
Proof. unfold add. by destruct (pending q !! name). Qed.

Lemma adds_frame l q : delay (adds l q) = delay q ∧ fired (adds l q) = fired q.
Proof.
  unfold adds. revert q. induction l as [|e l IH]; intros q; [done|]. simpl.
  destruct (IH (add e.1 e.2 q)) as [-> ->]. by rewrite add_delay, add_fired.
Qed.

(** An armed timer after an [add]. *)
Lemma add_timers name now q id n dl :
  queue_ok q →
  timers (add name now q) !! id = Some (n, dl) ↔
  (id = next_timer q ∧ n = name ∧ dl = (now + delay q)%N)
  ∨ (timers q !! id = Some (n, dl) ∧ pending q !! name ≠ Some id).
Proof.
  intros [Ht Hp Hn]. unfold add. cbv zeta.
  assert (Hlt : ∀ x, timers q !! x = Some (n, dl) → (x < next_timer q)%nat).
  { intros x Hx. by apply (Ht x _ Hx). }
  destruct (pending q !! name) as [old|] eqn:E; simpl; rewrite lookup_insert_Some.
  - rewrite lookup_delete_Some. specialize (Hp name old E). simpl in Hp.
    split.
    + intros [[<- [= <- <-]]|[_ [? ?]]]; [by left|right]. split; [done|congruence].
    + intros [(-> & -> & ->)|[Hti Hne]]; [by left|right].
      split; [specialize (Hlt id Hti); lia|]. split; [congruence|done].
  - split.
    + intros [[<- [= <- <-]]|[_ ?]]; [by left|by right].
    + intros [(-> & -> & ->)|[Hti _]]; [by left|right].
      split; [specialize (Hlt id Hti); lia|done].
Qed.

Lemma add_pending name now q n :
  pending (add name now q) !! n
  = if String.eqb name n then Some (next_timer q) else pending q !! n.
Proof.
  unfold add. cbv zeta. destruct (String.eqb_spec name n) as [->|Hne];
    destruct (pending q !! _); simpl; by rewrite ?lookup_insert_eq, ?lookup_insert_ne.
Qed.

(** An armed timer is the pending one of its file and fires the delay after the
    file's last event. *)
Lemma armed_timers d l id name deadline :
  let q := adds l (newDelayedCallbacks d) in
  timers q !! id = Some (name, deadline) ↔
  pending q !! name = Some id ∧ ∃ t, last_time name l = Some t ∧ deadline = (t + d)%N.
Proof.
  cbv zeta. revert id name deadline.
  induction l as [|[n t] l IH] using rev_ind; intros id name deadline.
  { simpl. rewrite !lookup_empty. split; [done|]. by intros [? _]. }
  unfold adds in *. rewrite foldl_app. cbn [foldl fst snd].
  fold (adds l (newDelayedCallbacks d)) in *.
  pose proof (queue_ok_adds l _ (queue_ok_new d)) as Hok.
  rewrite (add_timers n t _ id name deadline Hok), IH, add_pending, last_time_snoc.
  cbn [fst snd]. rewrite (proj1 (adds_frame l (newDelayedCallbacks d))). simpl delay.
  destruct (String.eqb_spec n name) as [->|Hne].
  - split.
    + intros [(-> & _ & ->)|[[Hp _] Hnp]]; [eauto|done].
    + intros [[= <-] (t' & [= <-] & ->)]. by left.
  - split.
    + intros [(_ & -> & _)|[[Hp Ht] _]]; [done|by split].
    + intros [Hp (t' & Ht & ->)]. right. split; [eauto|].
      intros Hp'. destruct Hok as [_ _ Hn].
      assert (Hti : timers (adds l (newDelayedCallbacks d)) !! id = Some (name, (t' + d)%N)).
      { apply IH. eauto. }
      by apply Hne, eq_sym, (Hn n id name (t' + d)%N).
Qed.

Lemma pending_last d l name :
  is_Some (pending (adds l (newDelayedCallbacks d)) !! name) ↔ is_Some (last_time name l).
Proof.
  induction l as [|[n t] l IH] using rev_ind.
  { simpl. rewrite lookup_empty. split; by intros [? ?]. }
  unfold adds in *. rewrite foldl_app. cbn [foldl fst snd].
  rewrite add_pending, last_time_snoc. cbn [fst snd].
  destruct (String.eqb n name); [split; by eauto|exact IH].
Qed.

(** C35: a burst of events on a file causes one callback: however events on any
    number of files are interleaved, as long as no timer has expired, each file
    with an event has exactly one armed timer, which is set to fire the delay
    after its last event; a file without events has none. *)
Theorem add_debounces d l name :
  let q := adds l (newDelayedCallbacks d) in
  match last_time name l with
  | Some t =>
      ∃ id, pending q !! name = Some id
        ∧ ∀ id' deadline,
            timers q !! id' = Some (name, deadline) ↔ id' = id ∧ deadline = (t + d)%N
  | None => pending q !! name = None ∧ ∀ id deadline, timers q !! id ≠ Some (name, deadline)
  end.
Proof.
  cbv zeta. pose proof (pending_last d l name) as Hp.
  destruct (last_time name l) as [t|] eqn:Et.
  - destruct (proj2 Hp) as [id Hid]; [by eexists|]. exists id. split; [done|].
    intros id' deadline. rewrite armed_timers, Hid, Et. naive_solver.
  - destruct (pending _ !! name) as [id|] eqn:Hid; [|split; [done|]].
    + by destruct (proj1 Hp) as [? ?]; [eexists|].
    + intros id deadline [Hpe _]%armed_timers. congruence.
Qed.

(** The callback of an expired timer that runs late forgets the newer timer
    of the same file; the next event then leaves that one armed too, and the
    file is called back twice although all events are within the delay. *)
Theorem late_callback_fires_twice d name t0 t1 t2 :
  (t0 + d ≤ t1)%N →
  let q := newDelayedCallbacks d in
  ∃ q', run_fired 0 (add name t1 (expire 0 (t0 + d)%N (add name t0 q))) = Some (name, q')
        ∧ timers (add name t2 q') = {[1%nat := (name, (t1 + d)%N); 2%nat := (name, (t2 + d)%N)]}.
Proof.
  intros Ht. cbv zeta. eexists.
  assert (Hadd : add name t0 (newDelayedCallbacks d)
    = mkDelayed d {[name := 0%nat]} {[0%nat := (name, (t0 + d)%N)]} [] 1) by done.
  rewrite Hadd. unfold expire. simpl timers. rewrite lookup_singleton_eq.
  rewrite (proj2 (N.leb_le _ _)) by done.
  unfold add at 1. simpl. rewrite lookup_singleton_eq. simpl.
  unfold run_fired. simpl. split; [done|].
  unfold add. simpl. rewrite insert_singleton_eq, delete_singleton_eq, lookup_empty. simpl.
  rewrite delete_singleton_eq, delete_empty. by apply insert_insert_ne.
Qed.

Example late_callback_fires_twice_witness :
  ∃ q', run_fired 0 (add "a.rego" 510 (expire 0 500 (add "a.rego" 0 (newDelayedCallbacks 500))))
          = Some ("a.rego", q')
        ∧ timers (add "a.rego" 520 q')
          = {[1%nat := ("a.rego", 1010%N); 2%nat := ("a.rego", 1020%N)]}.
Proof. by apply (late_callback_fires_twice 500 "a.rego" 0 510 520). Defined.
