(* ===== verification/RegoCache.v ===== *)
(** * pkg/regocache: compiled policies

    [GetRego] (rego.go) compiles a policy file when the file cache has read it
    anew and keeps the query; [Validate] evaluates it on a request.  OPA and the
    expansion of environment variables are parameters. *)

From S2P Require Import Prelude GoStrings GoValue GoOs FileCache Types.

(** ** Code outside the repository *)

(** envsubst; OPA's compilation of a module under a query, and its evaluation:
    the bindings of each result. *)
Class Opa (Q : Type) := {
  ConvertBytes : string → result string;
  PrepareForEval : string → string → string → bool → result Q;  (* question, file, module *)
  Eval : Q → Info → result (list (list (string * value)))
}.

(** ** rego.go *)

(** [bytes.Lines]: the lines with their newline. *)
Fixpoint Lines (s : string) : list string :=
  match s with
  | EmptyString => []
  | String c r =>
      if Ascii.eqb c nl then String c "" :: Lines r
      else match Lines r with
           | l :: ls => String c l :: ls
           | [] => [String c ""]
           end
  end.

(** The package of the first package line (lines 97-103). *)
Fixpoint package_of (lines : list string) : string :=
  match lines with
  | [] => ""
  | line :: ls =>
      if HasPrefix line "package " then TrimSpace (TrimPrefix line "package ")
      else package_of ls
  end.

(** The cache and what it sits on: the file cache and the file system. *)
Record RegoCache (Q : Type) := mkRego {
  cache : Cache;
  regos : gmap string Q;
  ready : string;
  debug : bool;
  fs : string → read_result
}.
Arguments mkRego {Q}.
Arguments cache {Q}.
Arguments regos {Q}.
Arguments ready {Q}.
Arguments debug {Q}.
Arguments fs {Q}.

Section rego.
Context `{Opa Q}.
Local Abbreviation world := (RegoCache Q).

Definition set_cache (f : Cache → Cache) (r : world) : world :=
  mkRego (f (cache r)) (regos r) (ready r) (debug r) (fs r).
Definition set_regos (f : gmap string Q → gmap string Q) (r : world) : world :=
  mkRego (cache r) (f (regos r)) (ready r) (debug r) (fs r).
Definition set_fs (f : string → read_result) (r : world) : world :=
  mkRego (cache r) (regos r) (ready r) (debug r) f.

(** A procedure of the file cache. *)
Definition on_cache {A} (m : go Cache A) : go world A := λ r,
  let '(o, c) := m (cache r) in (o, set_cache (λ _, c) r).

Definition New (c : result Cache) (debugFlag : bool) (readyName : string)
    (fs : string → read_result) : result world :=
  match c with
  | Err e => Err e
  | Ok c => Ok (mkRego c ∅ readyName debugFlag fs)
  end.

(** A nil receiver is never ready. *)
Definition Ready (r : option world) : bool :=
  match r with
  | None => false
  | Some r => bool_decide (is_Some (regos r !! ready r))
  end.

(** [Info] prints the names of the loaded policies, without taking the mutex; a
    nil receiver is followed.  The lines it prints: *)
Definition Info_lines (r : option world) : outcome (list string) :=
  match r with
  | None => Panic "invalid memory address or nil pointer dereference"
  | Some r =>
      Done (["RegoCache - status"] ++ map (λ k, "  - " +:+ k) (map_to_list (regos r)).*1
            ++ ["---"])
  end.

(** Expansion, package and compilation (lines 91-121). *)
Definition compile (dbg : bool) (name data : string) : result Q :=
  match ConvertBytes data with
  | Err e => Err e
  | Ok expanded =>
      let pkg := package_of (Lines expanded) in
      if String.eqb pkg "" then Err (ErrMsg "package not found")
      else PrepareForEval ("x = data." +:+ pkg) name expanded dbg
  end.

(** [GetRego] is two critical sections: the file cache's lock is released
    before the mutex of the queries is taken. *)
Definition get_file (name : string) : go world (result (option string * bool)) :=
  r ← go_get;
  on_cache (Get (fs r) name).

(** Lines 77 to 125: the query, or nil when the file is gone. *)
Definition get_query (name : string) (got : result (option string * bool))
    : go world (result (option Q)) :=
  r ← go_get;
  match got with
  | Err e => mret (Err e)
  | Ok (None, _) => go_modify (set_regos (delete name));; mret (Ok None)
  | Ok (Some data, dirty) =>
      let fresh : go world (result (option Q)) :=
        match compile (debug r) name data with
        | Err e => mret (Err e)
        | Ok q => go_modify (set_regos (<[name := q]>));; mret (Ok (Some q))
        end in
      match regos r !! name with
      | Some query => if negb dirty then mret (Ok (Some query)) else fresh
      | None => fresh
      end
  end.

Definition GetRego (name : string) : go world (result (option Q)) :=
  got ← get_file name;
  get_query name got.

Definition Callback (name : string) : go world unit := GetRego name;; mret tt.

(** What [Validate] makes of the query: calling a method through the nil pointer
    panics. *)
Definition evaluate (got : result (option Q)) (input : Info) : outcome (result value) :=
  match got with
  | Err e => Done (Err e)
  | Ok None => Panic "invalid memory address or nil pointer dereference"
  | Ok (Some query) =>
      match Eval query input with
      | Err e => Done (Err e)
      | Ok [] => Done (Ok VNil)
      | Ok (bindings :: _) => Done (Ok (default VNil (map_get bindings "x")))
      end
  end.

Definition rego_Validate (name : string) (input : Info) : go world (result value) :=
  got ← GetRego name;
  go_outcome (evaluate got input).

#[export] Instance rego_validator : Validator (RegoCache Q) := {
  Validate := rego_Validate
}.

(** filecache's [doCallbacks], with what its functions are. *)
Definition call (fn : callback) (name : string) : go world unit :=
  match fn with PolicyCallback => Callback name end.

Definition doCallbacks (name : string) : go world unit :=
  r ← go_get;
  go_iter (λ fn, call fn name) (callbacks (cache r)).

(** [Watch]: every matching file is called back at once. *)
Definition Watch (ReadDir : result (list (string * bool))) : go world unit :=
  on_cache (AddCallback PolicyCallback) ;;
  r ← go_get;
  go_iter doCallbacks (watch_names (cache r) ReadDir).

(** ** The running program *)

(** A goroutine of a fired timer that is about to call the next of the file's
    callbacks; one inside [GetRego] (a request's [Validate] or a callback) that
    has left the file cache and not yet taken the mutex of the queries: the
    file's name, what [Get] returned, and the callbacks still to be called. *)
Inductive goroutine : Type :=
| Calling (name : string) (todo : list callback)
| Between (name : string) (got : result (option string * bool)) (todo : list callback).

Record running := mkRunning {
  policies : world;
  goroutines : list goroutine
}.

(** What can happen: a file changes; the watcher delivers an event; a spawned
    [go c.Get] runs; a timer expires; the function of a fired timer removes its
    pending entry and releases the queue's mutex; a request enters [GetRego]; a
    goroutine goes on: it enters its next callback's [GetRego], or goes through
    the second half. *)
Inductive rego_event : Type :=
| FilesChange (f : string → read_result)
| Notified (lstat : string → lstat_result) (now : N) (e : Event)
| GetterRuns (n : nat)
| TimerExpires (id : nat) (now : N)
| TimerRuns (n : nat)
| Requested (name : string)
| Proceeds (n : nat).

Definition set_policies (f : world → world) (s : running) : running :=
  mkRunning (f (policies s)) (goroutines s).

(** A goroutine runs the first half of [GetRego]. *)
Definition enter (name : string) (todo : list callback) (s : running) : running :=
  match get_file name (policies s) with
  | (Done got, r) => mkRunning r (goroutines s ++ [Between name got todo])
  | (Panic _, r) => mkRunning r (goroutines s)
  end.

(** A goroutine with callbacks to call. *)
Definition calling (name : string) (todo : list callback) : list goroutine :=
  match todo with
  | [] => []
  | _ => [Calling name todo]
  end.

(** Each callback starts with [GetRego]. *)
Definition proceed (g : goroutine) (s : running) : running :=
  match g with
  | Calling name (PolicyCallback :: todo) => enter name todo s
  | Calling name [] => s
  | Between name got todo =>
      mkRunning (get_query name got (policies s)).2 (goroutines s ++ calling name todo)
  end.

Definition step (ev : rego_event) (s : running) : running :=
  let r := policies s in
  match ev with
  | FilesChange f => set_policies (set_fs f) s
  | Notified lstat now e => set_policies (λ r, (on_cache (watch_event lstat now e) r).2) s
  | GetterRuns n =>
      match getters (cache r) !! n with
      | Some name =>
          set_policies (λ r, (get_file name (set_cache (set_getters (delete n)) r)).2) s
      | None => s
      end
  | TimerExpires id now => set_policies (set_cache (set_queue (expire id now))) s
  | TimerRuns n =>
      match run_fired n (queue (cache r)) with
      | Some (name, q) =>
          mkRunning (set_cache (set_queue (λ _, q)) r)
            (goroutines s ++ calling name (callbacks (cache r)))
      | None => s
      end
  | Requested name => enter name [] s
  | Proceeds n =>
      match goroutines s !! n with
      | Some g => proceed g (mkRunning r (delete n (goroutines s)))
      | None => s
      end
  end.

Definition steps (evs : list rego_event) (s : running) : running :=
  foldl (λ s ev, step ev s) s evs.
End rego.
Arguments mkRunning {Q}.
Arguments policies {Q}.
Arguments goroutines {Q}.
