(* ===== verification/RegoCacheProps.v ===== *)
(** * Properties of the policy cache

    Where a policy in force comes from, what a failed or missing file does, and
    which changes of a file reach it. *)

From S2P Require Import Prelude GoStrings GoValue GoOs GoUrl GoPath FileCache FileCacheProps Types RegoCache.

Section rego.
Context `{Opa Q}.
Local Abbreviation world := (RegoCache Q).

(** ** The effect of each operation *)

Definition policy_path (r : world) (name : string) : string :=
  path_Join (folder (cache r)) name.

Lemma get_file_run name (r : world) :
  get_file name r
  = ((Get (fs r) name (cache r)).1, set_cache (λ _, (Get (fs r) name (cache r)).2) r).
Proof. unfold get_file, on_cache. go_unfold. by destruct (Get (fs r) name (cache r)). Qed.

(** What [GetRego] does with freshly read data. *)
Definition install (name d : string) (r : world) : outcome (result (option Q)) * world :=
  match compile (debug r) name d with
  | Err e => (Done (Err e), r)
  | Ok q => (Done (Ok (Some q)), set_regos (<[name := q]>) r)
  end.

Lemma get_query_run name got (r : world) :
  get_query name got r
  = match got with
    | Err e => (Done (Err e), r)
    | Ok (None, _) => (Done (Ok None), set_regos (delete name) r)
    | Ok (Some d, dirty) =>
        match regos r !! name with
        | Some q => if dirty then install name d r else (Done (Ok (Some q)), r)
        | None => install name d r
        end
    end.
Proof.
  unfold get_query, install. erewrite go_bind_done by reflexivity. cbv beta.
  destruct got as [[[d|] dirty]|e]; try done. unfold go_modify, mret, go_ret.
  destruct (regos r !! name) as [q|]; [destruct dirty|]; simpl;
    by destruct (compile (debug r) name d).
Qed.

Lemma Get_done rf name c : ∃ got, (Get rf name c).1 = Done got.
Proof. rewrite Get_run. unfold reload. repeat case_match; eauto. Qed.

(** Alone, a goroutine goes through the two halves in turn. *)
Lemma GetRego_halves name (r : world) :
  ∃ got, (Get (fs r) name (cache r)).1 = Done got
    ∧ GetRego name r
      = get_query name got (set_cache (λ _, (Get (fs r) name (cache r)).2) r).
Proof.
  destruct (Get_done (fs r) name (cache r)) as [got Hg]. exists got. split; [done|].
  unfold GetRego, mbind, go_bind. rewrite get_file_run. by rewrite Hg.
Qed.

Lemma GetRego_run name (r : world) :
  GetRego name r
  = let '(got, c) := Get (fs r) name (cache r) in
    let r' := set_cache (λ _, c) r in
    match got with
    | Panic w => (Panic w, r')
    | Done (Err e) => (Done (Err e), r')
    | Done (Ok (None, _)) => (Done (Ok None), set_regos (delete name) r')
    | Done (Ok (Some d, dirty)) =>
        match regos r !! name with
        | Some q => if dirty then install name d r' else (Done (Ok (Some q)), r')
        | None => install name d r'
        end
    end.
Proof.
  unfold GetRego, mbind, go_bind. rewrite get_file_run.
  destruct (Get (fs r) name (cache r)) as [[got|w] c]; [|done]. simpl.
  rewrite get_query_run. by destruct got as [[[]]|].
Qed.

Lemma GetRego_frame name (r : world) :
  let r' := (GetRego name r).2 in
  fs r' = fs r ∧ debug r' = debug r ∧ ready r' = ready r
  ∧ cache r' = (Get (fs r) name (cache r)).2
  ∧ ∀ n, n ≠ name → regos r' !! n = regos r !! n.
Proof.
  cbv zeta. rewrite GetRego_run. unfold install.
  destruct (Get (fs r) name (cache r)) as [[[[[d|] dirty]|e]|w] c];
    repeat case_match; simpl; split_and!; try done; intros n Hn;
    by rewrite ?lookup_insert_ne, ?lookup_delete_ne.
Qed.

(** ** Where a policy comes from *)

(** The text's first package line, its name trimmed, is not empty. *)
Definition declares_package (text pkg : string) : Prop :=
  ∃ before rest after,
    Lines text = before ++ ("package " +:+ rest) :: after
    ∧ Forall (λ l, HasPrefix l "package " = false) before
    ∧ pkg = TrimSpace rest ∧ pkg ≠ "".

(** The query for everything the package defines, of the expanded content. *)
Definition compiled_from (dbg : bool) (name d : string) (q : Q) : Prop :=
  ∃ text pkg, ConvertBytes d = Ok text ∧ declares_package text pkg
    ∧ PrepareForEval ("x = data." +:+ pkg) name text dbg = Ok q.

Lemma package_of_Some lines pkg :
  pkg ≠ "" →
  package_of lines = pkg ↔
  ∃ before rest after, lines = before ++ ("package " +:+ rest) :: after
    ∧ Forall (λ l, HasPrefix l "package " = false) before ∧ pkg = TrimSpace rest.
Proof.
  intros Hne. induction lines as [|l lines IH]; simpl.
  { split; [by intros <-|]. by intros ([] & ? & ? & ? & _). }
  destruct (HasPrefix l "package ") eqn:E.
  - apply HasPrefix_spec in E as [rest ->]. rewrite TrimPrefix_append. split.
    + intros <-. by exists [], rest, lines.
    + intros ([|b before] & rest' & after & Heq & Hall & ->).
      * injection Heq as Heq _. change (rest = rest') in Heq. by subst.
      * injection Heq as <- _. apply Forall_cons in Hall as [Hb _].
        by rewrite HasPrefix_append in Hb.
  - rewrite IH. split.
    + intros (b & rest & a & -> & Hall & ->). exists (l :: b), rest, a.
      split_and!; [done|by apply Forall_cons|done].
    + intros ([|b before] & rest & after & Heq & Hall & ->).
      * injection Heq as -> _. by rewrite HasPrefix_append in E.
      * injection Heq as <- ->. apply Forall_cons in Hall as [_ ?]. by exists before, rest, after.
Qed.

Lemma compile_Ok dbg name d q : compile dbg name d = Ok q ↔ compiled_from dbg name d q.
Proof.
  unfold compile, compiled_from. destruct (ConvertBytes d) as [text|e]; [|naive_solver].
  destruct (String.eqb_spec (package_of (Lines text)) "") as [E|Hne].
  - split; [done|]. intros (? & pkg & [= <-] & (b & rest & a & Hl & Hall & Hp & Hn) & _).
    exfalso. apply Hn. rewrite <- E. symmetry. apply package_of_Some; [done|]. by exists b, rest, a.
  - split.
    + intros Hq. exists text, (package_of (Lines text)). split; [done|]. split; [|done].
      destruct (proj1 (package_of_Some (Lines text) _ Hne) eq_refl) as (b & rest & a & ? & ? & ?).
      by exists b, rest, a.
    + intros (? & pkg & [= <-] & (b & rest & a & Hl & Hall & Hp & Hn) & Hq).
      rewrite <- Hq. do 2 f_equal. apply package_of_Some; [done|]. by exists b, rest, a.
Qed.

(** The file systems there have been. *)
Definition fs_of (ev : rego_event) : list (string → read_result) :=
  match ev with FilesChange f => [f] | _ => [] end.

(** Cached content and compiled queries are of contents the file has had. *)
Record sourced (past : list (string → read_result)) (r : world) : Prop := {
  sourced_fs : fs r ∈ past;
  sourced_files name f :
    files (cache r) !! name = Some f →
    ∃ g, g ∈ past ∧ g (policy_path r name) = ReadData (data f);
  sourced_regos name q :
    regos r !! name = Some q →
    ∃ g d, g ∈ past ∧ g (policy_path r name) = ReadData d
           ∧ compile (debug r) name d = Ok q
}.

Lemma Get_sourced past name (r : world) :
  sourced past r → sourced past (set_cache (λ _, (Get (fs r) name (cache r)).2) r)
    ∧ ∀ d b, (Get (fs r) name (cache r)).1 = Done (Ok (Some d, b)) →
        ∃ g, g ∈ past ∧ g (policy_path r name) = ReadData d.
Proof.
  intros [Hfs Hf Hq]. unfold policy_path in *.
  destruct (Get_frame (fs r) name (cache r)) as (Hfold & _).
  split; [split; [done| |]|]; unfold policy_path; simpl.
  - intros n f. rewrite Hfold. intros [Hn|[-> Hn]]%Get_files; [by apply Hf|eauto].
  - rewrite Hfold. done.
  - intros d b [Hd|(f & Hn & <-)]%Get_data; [eauto|by apply Hf].
Qed.

(** What a goroutine between the halves holds is of a content the file has had. *)
Definition sourced_got (past : list (string → read_result)) (r : world)
    (g : goroutine) : Prop :=
  match g with
  | Calling _ _ => True
  | Between name got _ =>
      ∀ d b, got = Ok (Some d, b) → ∃ f, f ∈ past ∧ f (policy_path r name) = ReadData d
  end.

Lemma get_query_sourced past name got todo (r : world) :
  sourced past r → sourced_got past r (Between name got todo) → sourced past (get_query name got r).2.
Proof.
  intros Hs Hgot. rewrite get_query_run. destruct got as [[[d|] dirty]|e]; [| |done].
  - assert (Hinst : sourced past (install name d r).2).
    { unfold install. destruct (compile (debug r) name d) as [q|e] eqn:Ec; [|done].
      destruct Hs as [? Hf Hq]. split; [done|done|]. simpl.
      intros n q' [[<- <-]|[_ ?]]%lookup_insert_Some; [|by apply Hq].
      destruct (Hgot d dirty eq_refl) as (g & ? & ?). by exists g, d. }
    by destruct (regos r !! name); [destruct dirty|].
  - destruct Hs as [? Hf Hq]. split; [done|done|]. simpl.
    intros n q [_ ?]%lookup_delete_Some. by apply Hq.
Qed.

(** The query a goroutine is given is one in force, or compiled from what it
    holds. *)
Lemma get_query_source past name got todo (r r' : world) q :
  sourced past r → sourced_got past r (Between name got todo) →
  get_query name got r = (Done (Ok (Some q)), r') →
  ∃ g d, g ∈ past ∧ g (policy_path r name) = ReadData d ∧ compile (debug r) name d = Ok q.
Proof.
  intros [_ _ Hq] Hgot. rewrite get_query_run. destruct got as [[[d|] dirty]|e]; try done.
  assert (Hinst : ∀ r', install name d r = (Done (Ok (Some q)), r') →
    ∃ g d, g ∈ past ∧ g (policy_path r name) = ReadData d ∧ compile (debug r) name d = Ok q).
  { unfold install. destruct (compile (debug r) name d) as [q'|e] eqn:Ec; intros ? [= -> <-].
    destruct (Hgot d dirty eq_refl) as (g & ? & ?). by exists g, d. }
  destruct (regos r !! name) as [q'|] eqn:Er; [|apply Hinst].
  destruct dirty; [apply Hinst|]. intros [= -> <-]. by apply Hq.
Qed.

Lemma get_query_folder name got (r : world) :
  folder (cache (get_query name got r).2) = folder (cache r).
Proof. rewrite get_query_run. unfold install. by repeat case_match. Qed.

Lemma sourced_same_files past (r : world) c :
  sourced past r → folder c = folder (cache r) →
  (∀ n f, files c !! n = Some f → ∃ f0, files (cache r) !! n = Some f0 ∧ data f = data f0) →
  sourced past (set_cache (λ _, c) r).
Proof.
  intros [Hfs Hf Hq] Hfold Hfiles. unfold policy_path in *. split; [done| |].
  - unfold policy_path. simpl. intros n f Hn. rewrite Hfold.
    destruct (Hfiles n f Hn) as (f0 & Hf0 & ->). by apply Hf.
  - unfold policy_path. simpl. rewrite Hfold. done.
Qed.

Lemma invalidate_files name op now c :
  let c' := (invalidate name op now c).2 in
  folder c' = folder c ∧ pattern c' = pattern c ∧
  ∀ n f, files c' !! n = Some f → ∃ f0, files c !! n = Some f0 ∧ data f = data f0.
Proof.
  cbv zeta. unfold invalidate. go_unfold.
  destruct (files c !! name) as [f|] eqn:E; [|simpl; by eauto 10].
  destruct (op =? fs_Remove)%N; [|destruct (dirty f)]; simpl; split_and!; try done;
    intros n f'.
  - intros [_ ?]%lookup_delete_Some. eauto.
  - destruct (decide (n = name)) as [->|].
    + rewrite lookup_alter_eq, E. intros [= <-]. by exists f.
    + rewrite lookup_alter_ne by done. eauto.
  - destruct (decide (n = name)) as [->|].
    + rewrite lookup_alter_eq, E. intros [= <-]. by exists f.
    + rewrite lookup_alter_ne by done. eauto.
Qed.

Lemma watch_event_files lstat now e c :
  let c' := (watch_event lstat now e c).2 in
  folder c' = folder c ∧
  ∀ n f, files c' !! n = Some f → ∃ f0, files c !! n = Some f0 ∧ data f = data f0.
Proof.
  cbv zeta. unfold watch_event. erewrite go_bind_done by reflexivity. cbv beta zeta.
  set (name := path_Base (Name e)).
  destruct (invalidate_files name fs_Remove now c) as (Hr1 & Hr2 & Hr3).
  destruct (invalidate_files name fs_Write now c) as (Hw1 & Hw2 & Hw3).
  destruct (shouldProcess _ _ _ _).
  - destruct (Has e fs_Write || Has e fs_Create), (Has e fs_Remove || Has e fs_Rename);
      try by eauto.
    + unfold mbind, go_bind.
      destruct (invalidate name fs_Write now c) as [[]  c1]; simpl in *; [|by eauto].
      destruct (invalidate_files name fs_Remove now c1) as (Hx1 & _ & Hx3).
      split; [congruence|]. intros n f (f0 & (f1 & ? & E)%Hw3 & ->)%Hx3. eauto.
    + unfold mbind, go_bind. destruct (invalidate name fs_Write now c) as [[] c1]; by eauto.
  - repeat case_match; by eauto.
Qed.

(** What no event changes. *)
Record same_setup (r r' : world) : Prop := {
  same_folder : folder (cache r') = folder (cache r);
  same_debug : debug r' = debug r;
  same_ready : ready r' = ready r
}.

#[export] Instance same_setup_preorder : PreOrder same_setup.
Proof. split; [by split|]. intros ??? [] []. split; congruence. Qed.

Lemma get_file_setup name r : same_setup r (get_file name r).2.
Proof.
  rewrite get_file_run. split; try done. simpl.
  by destruct (Get_frame (fs r) name (cache r)) as (-> & _).
Qed.

Lemma get_query_setup name got r : same_setup r (get_query name got r).2.
Proof. rewrite get_query_run. unfold install. by repeat case_match. Qed.

(** The invariant of the running program. *)
Definition all_sourced (past : list (string → read_result)) (s : running) : Prop :=
  sourced past (policies s) ∧ Forall (sourced_got past (policies s)) (goroutines s).

Lemma sourced_got_folder past (r r' : world) l :
  folder (cache r') = folder (cache r) →
  Forall (sourced_got past r) l → Forall (sourced_got past r') l.
Proof.
  intros Hf Hb. apply (Forall_impl _ _ _ Hb). intros [|? ? ?] Hg; [done|].
  unfold sourced_got, policy_path in *. by rewrite Hf.
Qed.

Lemma all_sourced_app past more s : all_sourced past s → all_sourced (past ++ more) s.
Proof.
  intros [[Hfs Hf Hq] Hb]. split; [split; [set_solver| |]|].
  - intros n f Hn. destruct (Hf n f Hn) as (g & ? & ?). exists g. set_solver.
  - intros n q Hn. destruct (Hq n q Hn) as (g & d & ? & ? & ?). exists g, d. set_solver.
  - apply (Forall_impl _ _ _ Hb). intros [|name got todo] Hg; [done|]. intros d b Hd.
    destruct (Hg d b Hd) as (f & ? & ?). exists f. set_solver.
Qed.

Lemma all_sourced_cache past s c :
  all_sourced past s → folder c = folder (cache (policies s)) →
  (∀ n f, files c !! n = Some f →
     ∃ f0, files (cache (policies s)) !! n = Some f0 ∧ data f = data f0) →
  all_sourced past (set_policies (set_cache (λ _, c)) s).
Proof.
  intros [Hs Hb] Hfold Hfiles. split; [by apply sourced_same_files|].
  by apply (sourced_got_folder _ (policies s)).
Qed.

(** What the first half gives a goroutine is of a content the file has had. *)
Lemma get_file_sourced past name todo (r : world) :
  sourced past r →
  sourced past (get_file name r).2
  ∧ ∃ got, (get_file name r).1 = Done got
           ∧ sourced_got past (get_file name r).2 (Between name got todo).
Proof.
  intros Hs. rewrite get_file_run.
  destruct (Get_sourced past name r Hs) as [Hs' Hd].
  destruct (Get_frame (fs r) name (cache r)) as (Hfold & _).
  destruct (Get_done (fs r) name (cache r)) as [got Hg]. rewrite Hg in *.
  split; [done|]. exists got. split; [done|]. intros d b Hgot. simpl in Hgot. subst got.
  destruct (Hd d b eq_refl) as (f & ? & Hf). exists f. split; [done|].
  unfold policy_path in *. simpl. by rewrite Hfold.
Qed.

Lemma enter_sourced past name todo s :
  all_sourced past s → all_sourced past (enter name todo s).
Proof.
  intros [Hs Hb]. unfold enter. pose proof (get_file_setup name (policies s)) as Hset.
  destruct (get_file_sourced past name todo _ Hs) as (Hs' & got & Hg & Hgot).
  destruct (get_file name (policies s)) as [o r]. simpl in *. subst o. split; [done|].
  apply Forall_app. split; [|by constructor].
  by apply (sourced_got_folder _ (policies s)), Hb; apply Hset.
Qed.

Lemma calling_sourced past r name fns : Forall (sourced_got past r) (calling name fns).
Proof. destruct fns; by repeat constructor. Qed.

Lemma proceed_sourced past g s :
  all_sourced past s → sourced_got past (policies s) g → all_sourced past (proceed g s).
Proof.
  intros Hs Hg. destruct g as [name [|[] todo]|name got todo]; simpl; [done|by apply enter_sourced|].
  destruct Hs as [Hs Hb]. split; simpl; [by eapply get_query_sourced|].
  apply Forall_app. split; [|apply calling_sourced].
  apply (sourced_got_folder _ (policies s)); [apply get_query_folder|done].
Qed.

Lemma step_sourced past s ev : all_sourced past s → all_sourced (past ++ fs_of ev) (step ev s).
Proof.
  intros Hs%(all_sourced_app past (fs_of ev)).
  destruct ev as [f|lstat now e|n|id now|n|name|n]; unfold step; simpl in *.
  - destruct Hs as [[_ Hf Hq] Hb]. split; [split; [set_solver|done|done]|done].
  - destruct (watch_event_files lstat now e (cache (policies s))) as [Hfold Hfiles].
    apply (all_sourced_cache _ s (watch_event lstat now e (cache (policies s))).2) in Hs;
      [|done..]. unfold set_policies, on_cache in *. simpl.
    by destruct (watch_event lstat now e (cache (policies s))).
  - destruct (getters (cache (policies s)) !! n) as [name|]; [|done].
    apply (all_sourced_cache _ s (set_getters (delete n) (cache (policies s)))) in Hs;
      [|done|simpl; by eauto].
    apply (enter_sourced _ name []) in Hs. unfold enter in Hs. rewrite get_file_run in Hs.
    unfold set_policies. rewrite get_file_run. simpl in *.
    destruct (Get_done (fs (policies s)) name (set_getters (delete n) (cache (policies s))))
      as [got Hg]. rewrite Hg in Hs. destruct Hs as [? Hb]. split; [done|].
    simpl in Hb. by apply Forall_app in Hb as [? _].
  - apply (all_sourced_cache _ s _ Hs); [done|]. simpl. eauto.
  - destruct (run_fired n (queue (cache (policies s)))) as [[name q]|]; [|done].
    apply (all_sourced_cache _ s (set_queue (λ _, q) (cache (policies s)))) in Hs as [Hs Hb];
      [|done|simpl; by eauto].
    split; [done|]. apply Forall_app. split; [done|apply calling_sourced].
  - by apply enter_sourced.
  - destruct (goroutines s !! n) as [g|] eqn:En; [|done]. destruct Hs as [Hs Hb].
    apply proceed_sourced; [|by apply (Forall_lookup_1 _ _ _ _ Hb En)]. split; [done|].
    simpl. rewrite delete_take_drop. apply Forall_app.
    split; [by apply Forall_take|by apply Forall_drop].
Qed.

Lemma enter_setup name todo s : same_setup (policies s) (policies (enter name todo s)).
Proof.
  unfold enter. pose proof (get_file_setup name (policies s)) as Hf.
  by destruct (get_file name (policies s)) as [[] ?].
Qed.

Lemma proceed_setup g s : same_setup (policies s) (policies (proceed g s)).
Proof.
  destruct g as [name [|[] todo]|name got todo]; [done|apply enter_setup|apply get_query_setup].
Qed.

Lemma step_setup ev s : same_setup (policies s) (policies (step ev s)).
Proof.
  destruct ev as [f|lstat now e|n|id now|n|name|n]; unfold step; cbv zeta.
  - done.
  - destruct (watch_event_files lstat now e (cache (policies s))) as [Hfold _].
    simpl. unfold on_cache.
    by destruct (watch_event lstat now e (cache (policies s))) as [o c].
  - case_match; [|done].
    etrans; [|apply get_file_setup]. done.
  - done.
  - by repeat case_match.
  - apply enter_setup.
  - case_match; [|done]. etrans; [|apply proceed_setup]. done.
Qed.

Lemma steps_setup evs s : same_setup (policies s) (policies (steps evs s)).
Proof.
  unfold steps. revert s. induction evs as [|ev evs IH]; intros s; [done|].
  etrans; [apply step_setup|apply IH].
Qed.

Lemma steps_sourced past s evs :
  all_sourced past s → all_sourced (past ++ flat_map fs_of evs) (steps evs s).
Proof.
  unfold steps. revert past s. induction evs as [|ev evs IH]; intros past s Hs; simpl.
  - by rewrite app_nil_r.
  - rewrite app_assoc. apply IH. by apply step_sourced.
Qed.

Lemma sourced_new (c : Cache) dbg rdy f0 :
  files c = ∅ → all_sourced [f0] (mkRunning (mkRego c ∅ rdy dbg f0) []).
Proof.
  intros Hc. split; [|constructor].
  split; simpl; [by left| |]; intros *; by rewrite ?Hc, lookup_empty.
Qed.

(** C13: no policy out of thin air: however changes, events, timers, goroutines and
    the two halves of requests and reloads interleave, every query in force was
    compiled from a content its own file has had since the start, under that
    file's name. *)
Theorem policy_provenance (c : Cache) dbg rdy f0 evs name q :
  files c = ∅ →
  let r := policies (steps evs (mkRunning (mkRego c ∅ rdy dbg f0) [])) in
  regos r !! name = Some q →
  ∃ f d, f ∈ f0 :: flat_map fs_of evs
         ∧ f (path_Join (folder (cache r)) name) = ReadData d
         ∧ compiled_from (debug r) name d q.
Proof.
  intros Hc. cbv zeta. setoid_rewrite <- compile_Ok. intros Hq.
  destruct (steps_sourced [f0] (mkRunning (mkRego c ∅ rdy dbg f0) []) evs) as [[_ _ Hs] _];
    [by apply sourced_new|exact (Hs name q Hq)].
Qed.

(** ** Failures *)

(** C21: a bad edit keeps the last good policy: when the changed file does not
    expand, names no package or does not compile, the call that reads it gets
    the error, and every later one the query that was in force, until the file
    changes again. *)
Theorem failed_reload_keeps_policy (r : world) name d e q :
  stale (cache r) name = true → fs r (policy_path r name) = ReadData d →
  compile (debug r) name d = Err e → regos r !! name = Some q →
  ∃ r', GetRego name r = (Done (Err e), r')
        ∧ GetRego name r' = (Done (Ok (Some q)), r').
Proof.
  intros Hst Hd He Hq. unfold policy_path in Hd.
  destruct (Get_fresh (fs r) name (cache r) d Hd Hst) as (c & Ec & Hc & Hagain).
  exists (set_cache (λ _, c) r). rewrite !GetRego_run, Ec. unfold install. simpl.
  rewrite Hq, He. split; [done|]. by rewrite Hagain.
Qed.

(** An object as result is what the query binds to "x". *)
Lemma evaluate_VMap got i m :
  evaluate got i = Done (Ok (VMap m)) →
  ∃ q bindings rest, got = Ok (Some q) ∧ Eval q i = Ok (bindings :: rest)
    ∧ map_get bindings "x" = Some (VMap m).
Proof.
  destruct got as [[q|]|e]; simpl; [|done..].
  destruct (Eval q i) as [[|bindings rest]|e] eqn:E; try done.
  intros [= Hb]. exists q, bindings, rest. split_and!; try done.
  by destruct (map_get bindings "x"); simpl in Hb; subst.
Qed.

(** C31: a request for a policy whose file is missing crashes: [Validate] panics
    exactly when the file is to be read and does not exist. *)
Theorem Validate_panics_iff (r : world) name i :
  (∃ why, (Validate name i r).1 = Panic why) ↔
  stale (cache r) name = true ∧ fs r (policy_path r name) = NotExist.
Proof.
  simpl. unfold rego_Validate, mbind, go_bind. rewrite GetRego_run, Get_run.
  unfold stale, reload, install, policy_path.
  destruct (files (cache r) !! name) as [[[] d0]|]; simpl.
  all: try destruct (fs r (path_Join (folder (cache r)) name)) as [d| |e] eqn:Ed.
  all: simpl; split; [intros [why Hw]|intros [Hx Hy]]; try done; eauto.
  all: exfalso; repeat (case_match; simplify_eq/=); try done.
Qed.

(** ** Which changes reach the policy in force *)

(** The watcher accepts an event of the file [name] with operation [op]. *)
Definition notifies (lstat : string → lstat_result) (c : Cache) (name : string) (e : Event)
    (op : N) : Prop :=
  path_Base (Name e) = name ∧ Op e = op
  ∧ shouldProcess lstat (pattern c) (Name e) name = true.

Lemma notified_write lstat now e name op c :
  notifies lstat c name e op → op = fs_Write ∨ op = fs_Create →
  watch_event lstat now e c = invalidate name fs_Write now c.
Proof.
  intros (<- & Hop & Hs) Hc. unfold watch_event.
  erewrite go_bind_done by reflexivity. cbv beta zeta. rewrite Hs. unfold Has.
  rewrite Hop. destruct Hc as [-> | ->]; simpl; unfold mbind, go_bind, mret, go_ret;
    by destruct (invalidate _ _ _ _) as [[[]|] ?].
Qed.

Lemma notified_remove lstat now e name c :
  notifies lstat c name e fs_Remove →
  watch_event lstat now e c = invalidate name fs_Remove now c.
Proof.
  intros (<- & Hop & Hs). unfold watch_event.
  erewrite go_bind_done by reflexivity. cbv beta zeta. rewrite Hs. unfold Has.
  by rewrite Hop.
Qed.

(** A timer just armed expires and its function runs. *)
Lemma add_expire_run name now q :
  fired q = [] →
  ∃ q', run_fired 0 (expire (next_timer q) (now + delay q)%N (add name now q)) = Some (name, q').
Proof.
  intros Hf. unfold expire.
  assert (Ht : timers (add name now q) !! next_timer q = Some (name, (now + delay q)%N)).
  { unfold add. destruct (pending q !! name); simpl; by rewrite lookup_insert_eq. }
  rewrite Ht, N.leb_refl. unfold run_fired. cbn [fired]. rewrite add_fired, Hf. by eexists.
Qed.

Lemma steps_cons ev evs (s : running) : steps (ev :: evs) s = steps evs (step ev s).
Proof. done. Qed.

(** A goroutine that is not overtaken between the halves runs [GetRego]. *)
Lemma enter_proceeds name (s : running) :
  step (Proceeds (length (goroutines s))) (enter name [] s)
  = mkRunning (GetRego name (policies s)).2 (goroutines s).
Proof.
  unfold enter. rewrite get_file_run.
  destruct (GetRego_halves name (policies s)) as (got & -> & ->). unfold step. simpl.
  rewrite lookup_app_r, Nat.sub_diag by done. simpl. f_equal.
  by rewrite delete_middle, !app_nil_r.
Qed.

(** Nor is one on its way to its only callback. *)
Lemma calling_proceeds name (s : running) :
  step (Proceeds (length (goroutines s)))
    (mkRunning (policies s) (goroutines s ++ calling name [PolicyCallback]))
  = enter name [] s.
Proof.
  unfold step. simpl. rewrite lookup_app_r, Nat.sub_diag by done. simpl.
  rewrite delete_middle, app_nil_r. by destruct s.
Qed.

Lemma step_written (s : running) lstat now e name f :
  notifies lstat (cache (policies s)) name e fs_Write →
  files (cache (policies s)) !! name = Some f → dirty f = false →
  step (Notified lstat now e) s
  = set_policies (set_cache
      (λ c, set_files (alter set_dirty name) (set_queue (add name now) c))) s.
Proof.
  intros Hn Hf Hd. unfold step, set_policies, on_cache.
  rewrite (notified_write lstat now e name fs_Write) by auto.
  unfold invalidate. erewrite go_bind_done by reflexivity. cbv beta. by rewrite Hf, Hd.
Qed.

Lemma step_removed (s : running) lstat now e name f :
  notifies lstat (cache (policies s)) name e fs_Remove →
  files (cache (policies s)) !! name = Some f →
  step (Notified lstat now e) s
  = set_policies (set_cache (λ c, set_queue (add name now) (set_files (delete name) c))) s.
Proof.
  intros Hn Hf. unfold step, set_policies, on_cache.
  rewrite (notified_remove lstat now e name) by done.
  unfold invalidate. erewrite go_bind_done by reflexivity. cbv beta. by rewrite Hf.
Qed.

Lemma step_created (s : running) lstat now e name :
  notifies lstat (cache (policies s)) name e fs_Create →
  files (cache (policies s)) !! name = None →
  step (Notified lstat now e) s
  = set_policies (set_cache
      (λ c, set_queue (add name now) (set_getters (λ l, l ++ [name]) c))) s.
Proof.
  intros Hn Hf. unfold step, set_policies, on_cache.
  rewrite (notified_write lstat now e name fs_Create) by auto.
  unfold invalidate. erewrite go_bind_done by reflexivity. cbv beta. by rewrite Hf.
Qed.

(** A spawned [go c.Get] reads a new file. *)
Lemma step_getter (s : running) name d :
  getters (cache (policies s)) = [name] → files (cache (policies s)) !! name = None →
  fs (policies s) (policy_path (policies s) name) = ReadData d →
  step (GetterRuns 0) s
  = set_policies (set_cache
      (λ c, set_files (<[name := mkFile false d]>) (set_getters (λ _, []) c))) s.
Proof.
  intros Hg Hgone Hd. unfold step. rewrite Hg. simpl. unfold set_policies.
  rewrite get_file_run, Get_run. simpl. rewrite Hgone. unfold reload. simpl.
  unfold policy_path in Hd. rewrite Hd. unfold set_cache, set_files, set_getters. simpl.
  by rewrite Hg.
Qed.

(** The callback that follows an event armed at [now], not overtaken: it runs
    [GetRego] on an unchanged cache of files and queries. *)
Lemma callback_after (s : running) name now q0 :
  callbacks (cache (policies s)) = [PolicyCallback] →
  queue (cache (policies s)) = add name now q0 → fired q0 = [] →
  ∃ q', steps [TimerExpires (next_timer q0) (now + delay q0); TimerRuns 0;
               Proceeds (length (goroutines s)); Proceeds (length (goroutines s))] s
        = mkRunning (GetRego name (set_cache (set_queue (λ _, q')) (policies s))).2 (goroutines s).
Proof.
  intros Hcb Hq Hf. destruct (add_expire_run name now q0 Hf) as [q' Eq]. exists q'.
  unfold steps. cbn [foldl].
  set (s1 := step (TimerExpires _ _) s).
  assert (Hs1 : s1 = set_policies (set_cache (set_queue (expire (next_timer q0) (now + delay q0)))) s)
    by done.
  assert (Hr : run_fired 0 (queue (cache (policies s1))) = Some (name, q')).
  { rewrite Hs1. simpl. by rewrite Hq. }
  set (s2 := set_policies (set_cache (set_queue (λ _, q'))) s1).
  assert (Ht : step (TimerRuns 0) s1
    = mkRunning (policies s2) (goroutines s2 ++ calling name [PolicyCallback])).
  { unfold step. rewrite Hr, Hs1. simpl callbacks. by rewrite Hcb. }
  rewrite Ht. etrans; [|exact (enter_proceeds name s2)].
  exact (f_equal (step _) (calling_proceeds name s2)).
Qed.

(** A file that is not dirty keeps its query. *)
Lemma GetRego_kept name (r : world) d q :
  files (cache r) !! name = Some (mkFile false d) → regos r !! name = Some q →
  GetRego name r = (Done (Ok (Some q)), r).
Proof.
  intros Hf Hq. rewrite GetRego_run, Get_run, Hf. simpl. rewrite Hq. by destruct r.
Qed.

Lemma kept_policy f name (r : world) d q (l : list goroutine) :
  fs r = f → files (cache r) !! name = Some (mkFile false d) → regos r !! name = Some q →
  let r' := policies (mkRunning (GetRego name r).2 l) in
  fs r' = f ∧ regos r' !! name = Some q ∧ GetRego name r' = (Done (Ok (Some q)), r').
Proof.
  intros <- Hf Hq. cbv zeta. rewrite (GetRego_kept name r d q) by done. simpl.
  by rewrite (GetRego_kept name r d q).
Qed.

(** C22: an edited policy is reloaded: after a write event on a loaded file, the
    callback that follows it after the delay puts the policy compiled from the
    file's content in force, unless another goroutine overtakes it. *)
Theorem edited_policy_reloaded (s : running) lstat now e name f d q :
  let r := policies s in
  callbacks (cache r) = [PolicyCallback] → notifies lstat (cache r) name e fs_Write →
  files (cache r) !! name = Some f → dirty f = false → fired (queue (cache r)) = [] →
  fs r (policy_path r name) = ReadData d → compile (debug r) name d = Ok q →
  regos (policies (steps [Notified lstat now e;
                TimerExpires (next_timer (queue (cache r))) (now + delay (queue (cache r)));
                TimerRuns 0; Proceeds (length (goroutines s));
                Proceeds (length (goroutines s))] s)) !! name = Some q.
Proof.
  cbv zeta. intros Hcb Hn Hf Hclean Hfired Hd Hq.
  change (steps (?ev :: ?evs) s) with (steps evs (step ev s)).
  rewrite (step_written s lstat now e name f) by done.
  destruct (callback_after (set_policies (set_cache (λ c, set_files (alter set_dirty name)
    (set_queue (add name now) c))) s) name now (queue (cache (policies s))) Hcb eq_refl Hfired)
    as [q' Eq]. simpl goroutines in Eq. rewrite Eq.
  rewrite GetRego_run, Get_run. simpl. rewrite lookup_alter_eq, Hf. simpl. unfold reload.
  simpl. unfold policy_path in Hd. rewrite Hd. unfold install. simpl. rewrite Hq.
  by destruct (regos (policies s) !! name); simpl; rewrite lookup_insert_eq.
Qed.

(** C23: a policy replaced by removing its file and creating it anew within the
    delay never comes into force: the goroutine that the creation starts reads
    the file and uses up its update, so the callback and every later request
    find the file unchanged and keep the old query. *)
Theorem replaced_policy_stays (s : running) lstat t1 t2 e1 e2 name f old fs' d :
  let r := policies s in
  callbacks (cache r) = [PolicyCallback] → notifies lstat (cache r) name e1 fs_Remove →
  notifies lstat (cache r) name e2 fs_Create →
  files (cache r) !! name = Some f → regos r !! name = Some old →
  getters (cache r) = [] → fired (queue (cache r)) = [] →
  fs' (policy_path r name) = ReadData d →
  let r' := policies (steps [Notified lstat t1 e1; FilesChange fs'; Notified lstat t2 e2;
                   GetterRuns 0; TimerExpires (S (next_timer (queue (cache r))))
                     (t2 + delay (queue (cache r))); TimerRuns 0;
                   Proceeds (length (goroutines s)); Proceeds (length (goroutines s))] s) in
  fs r' = fs' ∧ regos r' !! name = Some old ∧ GetRego name r' = (Done (Ok (Some old)), r').
Proof.
  cbv zeta. intros Hcb Hn1 Hn2 Hf Hold Hg Hfired Hd.
  rewrite (steps_cons (Notified _ _ e1)), (steps_cons (FilesChange _)), (steps_cons (Notified _ _ e2)).
  rewrite (step_removed s lstat t1 e1 name f) by done.
  set (s1 := step (FilesChange fs') _).
  assert (Hq1 : next_timer (queue (cache (policies s1))) = S (next_timer (queue (cache (policies s))))
    ∧ delay (queue (cache (policies s1))) = delay (queue (cache (policies s)))
    ∧ fired (queue (cache (policies s1))) = []).
  { unfold s1. simpl. by destruct (pending (queue (cache (policies s))) !! name). }
  destruct Hq1 as (Hnext & Hdelay & Hfired1). rewrite <- Hnext, <- Hdelay.
  assert (Hgone : files (cache (policies s1)) !! name = None) by apply lookup_delete_eq.
  rewrite (step_created s1 lstat t2 e2 name) by done.
  rewrite (steps_cons (GetterRuns 0)).
  rewrite (step_getter _ name d); [|by simpl; rewrite Hg|done|exact Hd].
  set (s2 := set_policies _ (set_policies _ s1)).
  destruct (callback_after s2 name t2 (queue (cache (policies s1)))) as [q' Eq];
    [exact Hcb|done|done|]. simpl goroutines in Eq. rewrite Eq.
  apply (kept_policy fs' _ _ d); [done|apply lookup_insert_eq|exact Hold].
Qed.

(** A stale file is read on entering [GetRego]. *)
Lemma enter_fresh name (s : running) d :
  stale (cache (policies s)) name = true →
  fs (policies s) (policy_path (policies s) name) = ReadData d →
  enter name [] s
  = mkRunning (set_cache (set_files (<[name := mkFile false d]>)) (policies s))
      (goroutines s ++ [Between name (Ok (Some d, true)) []]).
Proof.
  intros Hst Hd. unfold policy_path in Hd. unfold enter. rewrite get_file_run, Get_run.
  assert (Hrel : reload (fs (policies s)) name (cache (policies s))
    = (Done (Ok (Some d, true)), set_files (<[name := mkFile false d]>) (cache (policies s)))).
  { unfold reload. by rewrite Hd. }
  unfold stale in Hst. destruct (files (cache (policies s)) !! name) as [f|];
    [rewrite Hst|]; by rewrite Hrel.
Qed.

(** A goroutine that read a change installs what it read. *)
Lemma proceeds_fresh n name d q (s : running) :
  goroutines s !! n = Some (Between name (Ok (Some d, true)) []) →
  compile (debug (policies s)) name d = Ok q →
  step (Proceeds n) s
  = mkRunning (set_regos (<[name := q]>) (policies s)) (delete n (goroutines s)).
Proof.
  intros Hn Hq. unfold step. rewrite Hn. cbv zeta. unfold proceed. simpl.
  rewrite get_query_run, app_nil_r. unfold install. rewrite Hq.
  by destruct (regos (policies s) !! name).
Qed.

(** C24: a reload can be undone: a goroutine that read the file's previous content
    and is overtaken, between its two critical sections, by one that read the
    new content puts the policy of the previous content back in force.  The
    file counts as unchanged, so the callback of the change and every later
    request keep the superseded policy. *)
Theorem overtaken_reload_reverts (s : running) lstat now e name fs' d1 d2 q1 q2 :
  let r := policies s in
  callbacks (cache r) = [PolicyCallback] → goroutines s = [] → fired (queue (cache r)) = [] →
  stale (cache r) name = true → fs r (policy_path r name) = ReadData d1 →
  compile (debug r) name d1 = Ok q1 →
  fs' (policy_path r name) = ReadData d2 → compile (debug r) name d2 = Ok q2 →
  notifies lstat (cache r) name e fs_Write →
  let r2 := policies (steps [Requested name; FilesChange fs'; Notified lstat now e;
                             Requested name; Proceeds 1] s) in
  let r' := policies (steps [Requested name; FilesChange fs'; Notified lstat now e;
                             Requested name; Proceeds 1; Proceeds 0;
                             TimerExpires (next_timer (queue (cache r)))
                               (now + delay (queue (cache r)));
                             TimerRuns 0; Proceeds 0; Proceeds 0] s) in
  regos r2 !! name = Some q2
  ∧ fs r' = fs' ∧ regos r' !! name = Some q1 ∧ GetRego name r' = (Done (Ok (Some q1)), r').
Proof.
  cbv zeta. intros Hcb Hb Hfired Hst Hd1 Hq1 Hd2 Hq2 Hn.
  rewrite !steps_cons.
  assert (Hs1 : step (Requested name) s = enter name [] s) by done.
  rewrite (enter_fresh name s d1), Hb in Hs1 by done. cbn [app] in Hs1. rewrite Hs1. clear Hs1.
  set (s1 := mkRunning _ _).
  assert (Hs2 : step (FilesChange fs') s1 = set_policies (set_fs fs') s1) by done.
  rewrite Hs2. clear Hs2. set (s2 := set_policies (set_fs fs') s1).
  rewrite (step_written s2 lstat now e name (mkFile false d1));
    [|exact Hn|apply lookup_insert_eq|done].
  set (s3 := set_policies _ s2).
  assert (Hs4 : step (Requested name) s3 = enter name [] s3) by done.
  rewrite (enter_fresh name s3 d2) in Hs4;
    [|by unfold stale; simpl; rewrite lookup_alter_eq, lookup_insert_eq|exact Hd2].
  rewrite Hs4. clear Hs4. set (s4 := mkRunning _ _).
  rewrite (proceeds_fresh 1 name d2 q2 s4) by done.
  set (s5 := mkRunning _ _).
  rewrite (proceeds_fresh 0 name d1 q1 s5) by done.
  set (s6 := mkRunning _ _).
  split; [apply lookup_insert_eq|].
  destruct (callback_after s6 name now (queue (cache (policies s))) Hcb eq_refl Hfired) as [q' Eq].
  rewrite !steps_cons in Eq.
  change (length (goroutines s6)) with 0%nat in Eq. rewrite Eq. clear Eq.
  apply (kept_policy fs' _ _ d2); [done|apply lookup_insert_eq..].
Qed.

(** ** Start-up *)

Lemma Callback_frame name (r : world) n :
  n ≠ name →
  let r' := (Callback name r).2 in
  (Callback name r).1 = Done tt ∧ fs r' = fs r ∧ debug r' = debug r ∧ ready r' = ready r
  ∧ folder (cache r') = folder (cache r)
  ∧ files (cache r') !! n = files (cache r) !! n ∧ regos r' !! n = regos r !! n.
Proof.
  intros Hn. destruct (GetRego_frame name r) as (Hfs & Hdb & Hrd & Hc & Hr).
  destruct (Get_frame (fs r) name (cache r)) as (Hfold & _ & _ & _ & _ & Hfiles).
  assert (Hdone : ∃ a, (GetRego name r).1 = Done a).
  { rewrite GetRego_run, Get_run. unfold reload, install.
    repeat case_match; simplify_eq/=; eauto. }
  destruct Hdone as [a Ha]. unfold Callback, mbind, go_bind.
  destruct (GetRego name r) as [o r']. simpl in *. subst o. simpl.
  split_and!; try done; [by rewrite Hc|rewrite Hc; by apply Hfiles|by apply Hr].
Qed.

Lemma Callback_callbacks name (r : world) :
  callbacks (cache (Callback name r).2) = callbacks (cache r).
Proof.
  destruct (GetRego_frame name r) as (_ & _ & _ & Hc & _).
  destruct (Get_frame (fs r) name (cache r)) as (_ & _ & _ & _ & Hcb & _).
  unfold Callback, mbind, go_bind. destruct (GetRego name r) as [[a|w] r']; simpl in *; by rewrite Hc.
Qed.

(** What start-up has made of the file [n]: nothing yet, or its outcome. *)
Definition settled (n : string) (touched : bool) (r : world) : Prop :=
  match touched, fs r (policy_path r n) with
  | true, ReadData d =>
      files (cache r) !! n = Some (mkFile false d)
      ∧ regos r !! n = match compile (debug r) n d with Ok q => Some q | Err _ => None end
  | _, _ => files (cache r) !! n = None ∧ regos r !! n = None
  end.

Lemma Callback_settled n touched (r : world) :
  settled n touched r →
  (Callback n r).1 = Done tt ∧ settled n true (Callback n r).2
  ∧ fs (Callback n r).2 = fs r ∧ debug (Callback n r).2 = debug r
  ∧ ready (Callback n r).2 = ready r ∧ folder (cache (Callback n r).2) = folder (cache r).
Proof.
  unfold settled, policy_path. intros Hs. unfold Callback, mbind, go_bind.
  rewrite GetRego_run, Get_run. unfold reload, install.
  destruct (fs r (path_Join (folder (cache r)) n)) as [d| |e] eqn:Ed;
    destruct touched; destruct Hs as [Hf Hr]; rewrite Hf; simpl; rewrite ?Hr;
    try (destruct (compile (debug r) n d) as [q|e] eqn:Ec); simpl;
    (split_and!; try done); rewrite Ed, ?Ec; simpl;
    by rewrite ?lookup_insert_eq, ?lookup_delete_eq.
Qed.

Lemma Callbacks_settled n names touched (r : world) :
  settled n touched r →
  let r' := (go_iter Callback names r).2 in
  settled n (touched || bool_decide (n ∈ names)) r'
  ∧ fs r' = fs r ∧ debug r' = debug r ∧ ready r' = ready r
  ∧ folder (cache r') = folder (cache r).
Proof.
  revert touched r. induction names as [|m names IH]; intros touched r Hs; cbv zeta.
  { rewrite bool_decide_eq_false_2, orb_false_r by apply not_elem_of_nil. done. }
  assert (Hm : ∃ t, (Callback m r).1 = Done tt ∧ settled n t (Callback m r).2
    ∧ fs (Callback m r).2 = fs r ∧ debug (Callback m r).2 = debug r
    ∧ ready (Callback m r).2 = ready r ∧ folder (cache (Callback m r).2) = folder (cache r)
    ∧ t || bool_decide (n ∈ names) = touched || bool_decide (n ∈ m :: names)).
  { destruct (decide (n = m)) as [<-|Hne].
    - destruct (Callback_settled n touched r Hs) as (? & ? & ? & ? & ? & ?).
      exists true. split_and!; try done.
      rewrite (bool_decide_eq_true_2 (n ∈ n :: names)) by by left. by rewrite orb_true_r.
    - destruct (Callback_frame m r n Hne) as (H1 & Hfs & Hdb & Hrd & Hfold & Hf & Hr).
      exists touched. split_and!; try done.
      + unfold settled, policy_path in *. by rewrite Hfs, Hfold, Hf, Hr, Hdb.
      + f_equal. apply bool_decide_ext. rewrite elem_of_cons. naive_solver. }
  destruct Hm as (t & H1 & H2 & Hfs & Hdb & Hrd & Hfold & Ht).
  cbn [go_iter]. unfold mbind, go_bind.
  destruct (Callback m r) as [o r1]. simpl in *. subst o.
  destruct (IH t r1 H2) as (HI & Hfs' & Hdb' & Hrd' & Hfold').
  rewrite Ht in HI. by rewrite Hfs', Hdb', Hrd', Hfold'.
Qed.

Lemma elem_of_watch_names c entries n :
  n ∈ watch_names c (Ok entries) ↔ (n, false) ∈ entries ∧ path_Match (pattern c) n = true.
Proof.
  simpl. rewrite list_elem_of_omap. split.
  - intros ([m []] & Hin & Hm); [done|]. destruct (path_Match (pattern c) m) eqn:E; [|done].
    by injection Hm as <-.
  - intros [Hin Hm]. exists (n, false). by rewrite Hm.
Qed.

(** Registering the callback. *)
Definition registered (c : Cache) : Cache := (AddCallback PolicyCallback c).2.

Lemma iter_doCallbacks names (r : world) :
  callbacks (cache r) = [PolicyCallback] →
  go_iter doCallbacks names r = go_iter Callback names r.
Proof.
  revert r. induction names as [|n names IH]; intros r Hcb; [done|]. cbn [go_iter].
  assert (Hone : doCallbacks n r = Callback n r).
  { unfold doCallbacks. erewrite go_bind_done by reflexivity. cbv beta. rewrite Hcb.
    cbn [go_iter call]. unfold mbind, go_bind. by destruct (Callback n r) as [[[]|] ?]. }
  unfold mbind, go_bind. rewrite Hone.
  pose proof (Callback_callbacks n r) as Hk. destruct (Callback n r) as [[[]|] r1]; [|done].
  apply IH. simpl in Hk. congruence.
Qed.

(** From a new cache, [Watch] registers the callback and runs it on each name. *)
Lemma Watch_Callbacks RD (r : world) :
  callbacks (cache r) = [] →
  Watch RD r
  = go_iter Callback (watch_names (cache r) RD) (set_cache registered r).
Proof.
  intros Hcb. unfold Watch. erewrite go_bind_done by reflexivity. cbv beta.
  erewrite go_bind_done by reflexivity. cbv beta. apply iter_doCallbacks.
  simpl. by rewrite Hcb.
Qed.

Lemma Callback_sourced past name (r : world) :
  sourced past r → sourced past (Callback name r).2 ∧ same_setup r (Callback name r).2.
Proof.
  intros Hs. destruct (GetRego_halves name r) as (got & Hg & E).
  destruct (Get_sourced past name r Hs) as [Hs' Hd].
  pose proof (get_file_setup name r) as Hf. rewrite get_file_run in Hf. simpl in Hf.
  set (r1 := set_cache _ r) in *.
  assert (H2 : sourced past (GetRego name r).2 ∧ same_setup r (GetRego name r).2).
  { rewrite E. split; [|etrans; [exact Hf|apply get_query_setup]].
    apply (get_query_sourced past name got []); [done|]. intros d b Hgot. simpl in Hgot.
    destruct (Hd d b) as (g & ? & Hgd); [by rewrite Hg, Hgot|]. exists g. split; [done|].
    unfold policy_path in *. by rewrite (same_folder _ _ Hf). }
  unfold Callback, mbind, go_bind. by destruct (GetRego name r) as [[] ?].
Qed.

(** Start-up from a new cache reads and compiles only what the files hold. *)
Lemma Watch_sourced past RD (r : world) :
  callbacks (cache r) = [] → sourced past r →
  sourced past (Watch RD r).2 ∧ same_setup r (Watch RD r).2.
Proof.
  intros Hcb Hs. rewrite Watch_Callbacks by done.
  assert (Hall : ∀ names r', sourced past r' →
    sourced past (go_iter Callback names r').2 ∧ same_setup r' (go_iter Callback names r').2).
  { induction names as [|n names IH]; intros r' Hr'; [done|]. cbn [go_iter].
    destruct (Callback_sourced past n r' Hr') as [H1 H2]. unfold mbind, go_bind.
    destruct (Callback n r') as [[[]|why] r1]; simpl in *; [|done].
    destruct (IH r1 H1) as [? H3]. split; [done|by etrans]. }
  destruct (Hall (watch_names (cache r) RD) (set_cache registered r)) as [H1 []].
  { destruct Hs. by split. }
  by split; [|split].
Qed.

(** C36: the probes are ready after start-up exactly when the policy for
    requests is a file of the folder, matches the pattern, can be read and
    compiles, whatever becomes of the other files. *)
Theorem Watch_ready_iff (c : Cache) dbg rdy f0 entries :
  files c = ∅ → callbacks c = [] →
  Ready (Some (Watch (Ok entries) (mkRego c ∅ rdy dbg f0)).2) = true ↔
  (rdy, false) ∈ entries ∧ path_Match (pattern c) rdy = true
  ∧ ∃ d q, f0 (path_Join (folder c) rdy) = ReadData d ∧ compiled_from dbg rdy d q.
Proof.
  intros Hc Hcb. setoid_rewrite <- compile_Ok. rewrite Watch_Callbacks by done. simpl cache.
  set (c1 := registered c).
  change (set_cache registered _) with (mkRego c1 (∅ : gmap string Q) rdy dbg f0).
  assert (Hs : settled rdy false (mkRego c1 ∅ rdy dbg f0)).
  { unfold settled. simpl. by rewrite Hc, !lookup_empty. }
  destruct (Callbacks_settled rdy (watch_names c (Ok entries)) false _ Hs)
    as (HI & Hfs & Hdb & Hrd & Hfold).
  unfold Ready. rewrite Hrd. simpl ready. rewrite bool_decide_eq_true.
  unfold settled, policy_path in HI. rewrite Hfs, Hfold, Hdb in HI. cbn [orb] in HI.
  set (r' := (go_iter _ _ _).2) in *. simpl in HI.
  rewrite (and_assoc ((rdy, false) ∈ entries)), <- elem_of_watch_names.
  destruct (decide (rdy ∈ watch_names c (Ok entries))) as [Hin|Hout];
    [rewrite bool_decide_eq_true_2 in HI by done|rewrite bool_decide_eq_false_2 in HI by done].
  - destruct (f0 (path_Join (folder c) rdy)) as [d| |e]; destruct HI as [_ ->].
    + destruct (compile dbg rdy d) as [q|e] eqn:Ec.
      * split; [intros _|by eauto]. split; [done|]. by exists d, q.
      * split; [by intros [? ?]|]. intros (_ & d' & q & [= <-] & ?). congruence.
    + split; [by intros [? ?]|]. by intros (_ & d' & q & ? & _).
    + split; [by intros [? ?]|]. by intros (_ & d' & q & ? & _).
  - destruct HI as [_ ->]. split; [by intros [? ?]|]. by intros [? _].
Qed.
End rego.

(** ** Witnesses *)

Module Sample.
(** A query is its module's text; a text with "bad" does not compile. *)
Definition toy_opa : Opa string := {|
  ConvertBytes s := Ok s;
  PrepareForEval question name m dbg :=
    if Contains m "bad" then Err (ErrMsg "rego_parse_error") else Ok m;
  Eval q i := Ok [[("x", VMap [("allow", VBool true)])]]
|}.

Definition files (d : string) (p : string) : read_result :=
  if String.eqb p "policies/request.rego" then ReadData d else NotExist.

Definition empty : Cache := mkCache "policies" "*.rego" ∅ (newDelayedCallbacks 500) [] [].
Definition loaded (d : bool) : Cache :=
  mkCache "policies" "*.rego" {["request.rego" := mkFile d "package old"]}
    (newDelayedCallbacks 500) [] [PolicyCallback].

(** The policy "package old" is in force and the file has content [d]. *)
Definition world (stale : bool) (d : string) : RegoCache string :=
  mkRego (loaded stale) {["request.rego" := "package old"]} "request.rego" false (files d).

Definition info : Info :=
  mkInfo (mkRequestInfo "GET" [] ∅ None None 0 "") VNil VNil VNil "/".
Definition regular (p : string) : lstat_result := LstatRegular.
Definition event (op : N) : Event := mkEvent "policies/request.rego" op.
End Sample.

#[local] Existing Instance Sample.toy_opa.

Lemma policy_provenance_witness :
  ∃ f d, f ∈ [Sample.files "package p"]
         ∧ f "policies/request.rego" = ReadData d
         ∧ compiled_from false "request.rego" d "package p".
Proof.
  destruct (policy_provenance Sample.empty false "request.rego" (Sample.files "package p")
    [Requested "request.rego"; Proceeds 0] "request.rego" "package p") as (f & d & Hin & Hf & Hc).
  - reflexivity.
  - vm_compute. reflexivity.
  - exists f, d. split; [exact Hin|]. split; [exact Hf|exact Hc].
Defined.

Lemma failed_reload_keeps_policy_witness :
  ∃ r', GetRego "request.rego" (Sample.world true "package bad")
          = (Done (Err (ErrMsg "rego_parse_error")), r')
        ∧ GetRego "request.rego" r' = (Done (Ok (Some "package old")), r').
Proof.
  apply (failed_reload_keeps_policy (Sample.world true "package bad") "request.rego"
    "package bad" (ErrMsg "rego_parse_error") "package old"); vm_compute; reflexivity.
Defined.

Lemma edited_policy_reloaded_witness :
  regos (policies (steps [Notified Sample.regular 0 (Sample.event fs_Write); TimerExpires 0 500;
                          TimerRuns 0; Proceeds 0; Proceeds 0]
           (mkRunning (Sample.world false "package new") []))) !! "request.rego"
  = Some "package new".
Proof.
  apply (edited_policy_reloaded (mkRunning (Sample.world false "package new") []) Sample.regular 0
    (Sample.event fs_Write) "request.rego" (mkFile false "package old") "package new");
    try (vm_compute; reflexivity).
  repeat split.
Defined.

Lemma replaced_policy_stays_witness :
  let r' := policies (steps [Notified Sample.regular 0 (Sample.event fs_Remove);
                   FilesChange (Sample.files "package new");
                   Notified Sample.regular 20 (Sample.event fs_Create); GetterRuns 0;
                   TimerExpires 1 520; TimerRuns 0; Proceeds 0; Proceeds 0]
                   (mkRunning (Sample.world false "package old") [])) in
  fs r' = Sample.files "package new" ∧ regos r' !! "request.rego" = Some "package old"
  ∧ GetRego "request.rego" r' = (Done (Ok (Some "package old")), r').
Proof.
  apply (replaced_policy_stays (mkRunning (Sample.world false "package old") []) Sample.regular 0 20
    (Sample.event fs_Remove) (Sample.event fs_Create) "request.rego"
    (mkFile false "package old") "package old" (Sample.files "package new") "package new");
    try (vm_compute; reflexivity); repeat split.
Defined.

Lemma overtaken_reload_reverts_witness :
  let before := [Requested "request.rego"; FilesChange (Sample.files "package new");
                 Notified Sample.regular 0 (Sample.event fs_Write);
                 Requested "request.rego"; Proceeds 1] in
  let s := mkRunning (Sample.world true "package old") [] in
  let r' := policies (steps (before ++ [Proceeds 0; TimerExpires 0 500; TimerRuns 0;
                                      Proceeds 0; Proceeds 0]) s) in
  regos (policies (steps before s)) !! "request.rego" = Some "package new"
  ∧ fs r' = Sample.files "package new" ∧ regos r' !! "request.rego" = Some "package old"
  ∧ GetRego "request.rego" r' = (Done (Ok (Some "package old")), r').
Proof.
  apply (overtaken_reload_reverts (mkRunning (Sample.world true "package old") []) Sample.regular 0
    (Sample.event fs_Write) "request.rego" (Sample.files "package new") "package old" "package new"
    "package old" "package new"); try (vm_compute; reflexivity); repeat split.
Defined.

Lemma Watch_ready_iff_witness :
  Ready (Some (Watch (Ok [("request.rego", false); ("x.rego", true)])
    (mkRego Sample.empty ∅ "request.rego" false (Sample.files "package p"))).2) = true.
Proof.
  apply (Watch_ready_iff Sample.empty false "request.rego" (Sample.files "package p")
    [("request.rego", false); ("x.rego", true)] eq_refl eq_refl).
  split; [by left|]. split; [reflexivity|].
  exists "package p", "package p". split; [vm_compute; reflexivity|].
  apply compile_Ok. vm_compute. reflexivity.
Defined.
