(* ===== verification/App.v ===== *)
(** * internal/application: putting the program together

    [New] (app.go) reads the configuration, makes the policy cache and the one
    authentication provider the configuration names, and the router.  [iface] is
    the value of the variable [app.auth]: a dynamic type and a pointer of it,
    which may be nil while the interface is not.  mgmt.go's probe handlers and
    cmd/main.go's exit code are here too. *)

From S2P Require Import Prelude GoStrings GoValue GoHttp GoServer GoOs GoUrl Config Types Metrics Router NoAuth BasicAuth BasicAuthProps Azure AzureProps Jwt JwtProps FileCache RegoCache.

(** ** The provider behind the interface *)

Section provider.
Context {C Seed AC Alg : Type}.

(** A non-nil interface; [azure.New] and [jwtsupport.New] never return nil. *)
Inductive iface : Type :=
| IAzure (s : AzureState AC)
| IJWT (j : JWTSupport Alg)
| IBasic (b : option (BasicAuthProvider C Seed))
| INoAuth (n : option NoAuthProvider).

Context `{Unicode, Bcrypt, !BasicAuth.Cache C, !Maphash Seed, InsecureJwt Tok, !AppCache AC,
          UrlAuthority, !Jwk Alg, !Jwt Alg}.

(** Run a provider's method and put the pointer back. *)
Definition with_provider {P A} (wrap : P → iface) (m : go (Info * P) A) (i : Info) (p : P)
    : outcome A * (Info * iface) :=
  let '(o, (i', p')) := m (i, p) in (o, (i', wrap p')).

(** A method called on a nil pointer runs until it follows the pointer. *)
Definition iface_Authenticate (r : Request) (h : Header) : go (Info * iface) (option error) :=
  λ '(i, a),
    match a with
    | IAzure s => with_provider IAzure (azure_Authenticate r h) i s
    | IJWT j => with_provider IJWT (jwt_Authenticate r h) i j
    | IBasic (Some b) => with_provider (IBasic ∘ Some) (basic_Authenticate r h) i b
    | IBasic None =>
        match presented i with
        | None => (Done None, (i, a))
        | Some _ =>
            (Panic "invalid memory address or nil pointer dereference", (clear_password i, a))
        end
    | INoAuth _ => (Done None, (i, a))
    end.

Definition iface_WWWAuthenticate (a : iface) : option string :=
  match a with
  | IBasic _ => Some ("Basic realm=" +:+ quote +:+ "rest-rego" +:+ quote)
  | _ => None
  end.

#[export] Instance iface_provider : AuthProvider iface := {
  Authenticate := iface_Authenticate;
  WWWAuthenticate := iface_WWWAuthenticate
}.
End provider.
Arguments iface : clear implicits.

(** ** mgmt.go *)

(** The package's variables as [startMgmt] sets them up; the division of
    durations rounds towards zero. *)
Record Mgmt := mkMgmt {
  mgmt_server : http_Server;
  mgmt_metrics : Metrics
}.

Definition startMgmt (f : Fields) : Mgmt :=
  mkMgmt
    (mkServer (MgmtAddr f) (ReadHeaderTimeout f ÷ 2) (ReadTimeout f ÷ 2) (WriteTimeout f ÷ 2)
       (IdleTimeout f ÷ 2) (Z.shiftl 1 20))
    (SetBlockedHeadersExposed (ExposeBlockedHeaders f) Metrics.New).

Section mgmt.
Context {Q : Type}.

(** [None]: the probes run before [New] has made the policy cache. *)
Definition healthzHandler (regos : option (RegoCache Q)) : go Response unit :=
  if negb (Ready regos) then resp_WriteHeader 424 else resp_WriteHeader 200.

Definition readyzHandler (regos : option (RegoCache Q)) : go Response unit :=
  if negb (Ready regos) then resp_WriteHeader 424 else resp_WriteHeader 200.

Definition versionHandler (version : string) : go Response unit :=
  resp_Write version;; resp_WriteHeader 200.

(** What it prints goes to the standard output. *)
Definition configHandler (regos : option (RegoCache Q)) : go Response unit :=
  match Info_lines regos with
  | Panic why => go_panic why
  | Done _ => resp_WriteHeader 200
  end.
End mgmt.

(** ** app.go *)

(** What the rest of the system answers while the program starts. *)
Record Env (C Seed AC Alg : Type) := mkEnv {
  env_lstat : string → lstat_result;
  env_fs : string → read_result;
  policy_watcher : bool;                  (* fsnotify.NewWatcher in filecache *)
  policy_added : bool;
  htpasswd : string → result (string * option error);
  basic_watcher : bool;                   (* fsnotify.NewWatcher in basicauth *)
  basic_added : bool;
  basic_cache : option C;
  basic_seed : Seed;
  azure_cache : AC;
  azure_graph : Graph;
  ReadFile : string → result string;
  jwt_net : Net Alg;
  url_Parse_ok : string → bool
}.
Arguments mkEnv {C Seed AC Alg}.
Arguments env_lstat {C Seed AC Alg}.
Arguments env_fs {C Seed AC Alg}.
Arguments policy_watcher {C Seed AC Alg}.
Arguments policy_added {C Seed AC Alg}.
Arguments htpasswd {C Seed AC Alg}.
Arguments basic_watcher {C Seed AC Alg}.
Arguments basic_added {C Seed AC Alg}.
Arguments basic_cache {C Seed AC Alg}.
Arguments basic_seed {C Seed AC Alg}.
Arguments azure_cache {C Seed AC Alg}.
Arguments azure_graph {C Seed AC Alg}.
Arguments ReadFile {C Seed AC Alg}.
Arguments jwt_net {C Seed AC Alg}.
Arguments url_Parse_ok {C Seed AC Alg}.

Record AppData (C Seed AC Alg Q : Type) := mkApp {
  app_config : Fields;
  app_regos : RegoCache Q;
  app_router : Proxy;
  app_auth : iface C Seed AC Alg;
  app_mgmt : Mgmt                         (* the package's variables *)
}.
Arguments mkApp {C Seed AC Alg Q}.
Arguments app_config {C Seed AC Alg Q}.
Arguments app_regos {C Seed AC Alg Q}.
Arguments app_router {C Seed AC Alg Q}.
Arguments app_auth {C Seed AC Alg Q}.
Arguments app_mgmt {C Seed AC Alg Q}.

Section app.
Context {C Seed AC Alg Q : Type}.
Context `{Unicode, Envsubst, Bcrypt, UrlAuthority, !Jwk Alg, !Jwt Alg}.

(** The switch (lines 46-65): the interface variable; [None] is the default
    case, which gives up. *)
Definition choose_auth (env : Env C Seed AC Alg) (f : Fields)
    : startup (option (iface C Seed AC Alg)) :=
  if (0 <? String.length (AzureTenant f))%nat then
    Started (Some (IAzure (mkState
      (Azure.New (AzureTenant f) (AuthHeader f) (PermissiveAuth f))
      (azure_cache env) (azure_graph env))))
  else if (0 <? length (WellKnownURL f))%nat then
    j ← Jwt.New (ReadFile env) (jwt_net env) (WellKnownURL f) (AudienceKey f) (Audiences f)
          (AuthKind f) (PermissiveAuth f);
    Started (Some (IJWT j))
  else if (0 <? String.length (BasicAuthFile f))%nat then
    Started (Some (IBasic (BasicAuth.New (BasicAuthFile f) (PermissiveAuth f)
      (htpasswd env (BasicAuthFile f)) (basic_watcher env) (basic_added env)
      (basic_cache env) (basic_seed env))))
  else if NoAuth f then
    Started (Some (INoAuth (NoAuth.New (PermissiveAuth f))))
  else Started None.

(** [args]: the parsed command line; [None]: [New] reports failure. *)
Definition New (env : Env C Seed AC Alg) (args : Fields)
    : startup (option (AppData C Seed AC Alg Q)) :=
  f ← Config.New args;
  let mgmt := startMgmt f in
  match RegoCache.New
          (FileCache.New (env_lstat env) (policy_watcher env) (policy_added env)
             (PolicyDir f) (FilePattern f))
          (Debug f) (RequestRego f) (env_fs env) with
  | Err _ => Started None
  | Ok c =>
      auth ← choose_auth env f;
      match auth with
      | None => Started None
      | Some a =>
          match Router.New (url_Parse_ok env) f with
          | None => Started None
          | Some router => Started (Some (mkApp f c router a mgmt))
          end
      end
  end.
End app.

(** ** Run and cmd/main.go *)

Section run.
Context `{Opa Q}.

(** The policies are loaded and watched; [evs] is what happens until the
    signal.  The result says whether the policy for requests is in force. *)
Definition Run (ReadDir : result (list (string * bool))) (evs : list rego_event)
    (r : RegoCache Q) : bool * RegoCache Q :=
  let r' := policies (steps evs (mkRunning (Watch ReadDir r).2 [])) in (Ready (Some r'), r').

(** The exit status of [main]. *)
Definition main (started : startup (option (RegoCache Q)))
    (ReadDir : result (list (string * bool))) (evs : list rego_event) : startup unit :=
  app ← started;
  match app with
  | None => Exited 1
  | Some r => exit_if (negb (Run ReadDir evs r).1) 1
  end.
End run.
