(* ===== verification/AppProps.v ===== *)
(** * Properties of the whole program *)

From S2P Require Import Prelude GoStrings GoValue GoHttp GoOs GoUrl Config Types Metrics Server Router RouterSpec NoAuth BasicAuth BasicAuthProps Azure AzureProps Jwt JwtProps FileCache FileCacheProps RegoCache RegoCacheProps App.

(** ** Any provider the program can have is lawful *)

Section lawful.
Context {C Seed AC Alg : Type}.
Context `{Unicode, Bcrypt, !BasicAuth.Cache C, !Maphash Seed, InsecureJwt Tok, !AppCache AC,
          UrlAuthority, !Jwk Alg, !Jwt Alg}.

Lemma with_provider_Done {P A} (wrap : P → iface C Seed AC Alg) (m : go (Info * P) A)
    i p o i' a' :
  with_provider wrap m i p = (o, (i', a')) → ∃ p', m (i, p) = (o, (i', p')) ∧ a' = wrap p'.
Proof. unfold with_provider. destruct (m (i, p)) as [? [? p']]. intros [= -> -> <-]. eauto. Qed.

#[export] Instance iface_lawful : LawfulAuth (iface C Seed AC Alg).
Proof.
  split.
  - intros r h i a o i' a'. destruct a as [s|j|[b|]|n]; simpl;
      [intros (p' & E & ->)%with_provider_Done..| |].
    + exact (auth_frame (P := AzureState AC) r h i s _ i' p' E).
    + exact (auth_frame (P := JWTSupport Alg) r h i j _ i' p' E).
    + exact (auth_frame (P := BasicAuthProvider C Seed) r h i b _ i' p' E).
    + destruct (presented i); by intros [= _ <- _].
    + by intros [= _ <- _].
  - intros r h i a e i' a'. destruct a as [s|j|[b|]|n]; simpl;
      [intros (p' & E & ->)%with_provider_Done..| |].
    + exact (auth_error_known (P := AzureState AC) r h i s _ i' p' E).
    + exact (auth_error_known (P := JWTSupport Alg) r h i j _ i' p' E).
    + exact (auth_error_known (P := BasicAuthProvider C Seed) r h i b _ i' p' E).
    + by destruct (presented i).
    + done.
  - intros r h i a e i' a'. destruct a as [s|j|[b|]|n]; simpl;
      [intros (p' & E & ->)%with_provider_Done..| |].
    + exact (auth_error_anonymous (P := AzureState AC) r h i s _ i' p' E).
    + exact (auth_error_anonymous (P := JWTSupport Alg) r h i j _ i' p' E).
    + exact (auth_error_anonymous (P := BasicAuthProvider C Seed) r h i b _ i' p' E).
    + by destruct (presented i).
    + done.
Qed.
End lawful.

(** ** End to end *)

Section end_to_end.
Context {C Seed AC Alg Q : Type}.
Context `{Unicode, Bcrypt, !BasicAuth.Cache C, !Maphash Seed, InsecureJwt Tok, !AppCache AC,
          UrlAuthority, !Jwk Alg, !Jwt Alg, !Opa Q}.
Context (backend : Request → Header → backend_reply).
Context (chi_route : Request → route).
Context (labels_valid : labels → bool).
Local Abbreviation W := (World (iface C Seed AC Alg) (RegoCache Q)).

(** In the assembled program a request reaches the backend only after the
    configured provider returned no error for it and the compiled policy of
    the configured file, as the cache then gave it, was evaluated on the info
    the provider left and bound "x" to an object whose "allow" is true. *)
Theorem app_forwards_only_allowed p r (w : W) :
  (∀ r, chi_route r = ToProxy) →
  server_header (header w) → rw_sent (response w) = None →
  backend_calls (mux backend chi_route labels_valid p ServerWriter r w).2
    ≠ backend_calls w →
  ∃ r' i i' a' q v bindings rest m,
    Authenticate r' (clean_header (header w)) (i, provider w) = (Done None, (i', a'))
    ∧ GetRego (requestName p) (validator w) = (Done (Ok (Some q)), v)
    ∧ Eval q i' = Ok (bindings :: rest)
    ∧ map_get bindings "x" = Some (VMap m) ∧ map_get m "allow" = Some (VBool true).
Proof.
  intros Hroute Hh Hs Hcalls.
  destruct (forwarded_run backend chi_route labels_valid p r w Hroute Hh Hs Hcalls)
    as (c & r' & i & i' & a' & m & v & r2 & _ & _ & HA & HV & Hm & _).
  simpl in HV. unfold rego_Validate, mbind, go_bind in HV.
  destruct (GetRego (requestName p) (validator w)) as [[got|why] v0] eqn:EG; [|done].
  injection HV as (q & bindings & rest & -> & HE & Hx)%evaluate_VMap <-.
  by exists r', i, i', a', q, v0, bindings, rest, m.
Qed.
End end_to_end.

(** ** Start-up *)

Section startup.
Context {C Seed AC Alg Q : Type}.
Context `{Unicode, Envsubst, Bcrypt, UrlAuthority, !Jwk Alg, !Jwt Alg}.
Local Abbreviation env := (Env C Seed AC Alg).
Local Abbreviation app := (AppData C Seed AC Alg Q).

(** The configuration as the rest of the program sees it. *)
Definition canonical (args : Fields) : Fields :=
  set_AuthHeader args (CanonicalHeaderKey (AuthHeader args)).

(** What must go well besides the provider: the policy folder, the URL. *)
Definition surroundings_ok (e : env) (args : Fields) : Prop :=
  env_lstat e (PolicyDir args) = LstatDir ∧ policy_watcher e = true
  ∧ policy_added e = true ∧ ∃ p, Router.New (url_Parse_ok e) (canonical args) = Some p.

Lemma New_app_started e args (a : app) :
  App.New e args = Started (Some a) →
  valid_config args ∧ app_config a = canonical args ∧ app_mgmt a = startMgmt (canonical args)
  ∧ choose_auth e (canonical args) = Started (Some (app_auth a))
  ∧ Router.New (url_Parse_ok e) (canonical args) = Some (app_router a).
Proof.
  unfold App.New. intros (f & (Hv & ->)%Config.New_started & Hn)%startup_bind_started.
  fold (canonical args) in Hn.
  destruct (RegoCache.New _ _ _ _) as [c|]; [|done].
  apply startup_bind_started in Hn as (auth & Ha & Hn).
  destruct auth as [x|]; [|done].
  destruct (Router.New _ _) as [p|] eqn:Ep; [|done]. by injection Hn as <-.
Qed.

Lemma New_app_with e args i :
  valid_config args → surroundings_ok e args →
  choose_auth e (canonical args) = Started (Some i) →
  ∃ a : app, App.New e args = Started (Some a) ∧ app_auth a = i.
Proof.
  intros Hv (Hl & Hw & Ha & p & Hp) Hc. unfold App.New.
  assert (Config.New args = Started (canonical args)) as ->
    by (by apply Config.New_started).
  unfold mbind, startup_bind. unfold FileCache.New. simpl PolicyDir.
  rewrite Hl, Hw, Ha. simpl. rewrite Hc, Hp. by eexists.
Qed.

(** The policy cache it starts with: nothing read, compiled or registered yet. *)
Lemma New_app_regos e args (a : app) :
  App.New e args = Started (Some a) →
  ∃ c, app_regos a = mkRego c ∅ (RequestRego args) (Debug args) (env_fs e)
       ∧ folder c = PolicyDir args ∧ files c = ∅ ∧ callbacks c = [].
Proof.
  unfold App.New. intros (f & (Hv & ->)%Config.New_started & Hn)%startup_bind_started.
  unfold RegoCache.New in Hn.
  destruct (FileCache.New _ _ _ _ _) as [c|] eqn:Ec; [|done]. exists c.
  apply startup_bind_started in Hn as (auth & Ha & Hn).
  destruct auth as [x|]; [|done].
  destruct (Router.New _ _) as [p|] eqn:Ep; [|done]. injection Hn as <-. split; [done|].
  unfold FileCache.New in Ec. repeat case_match; by simplify_eq.
Qed.

(** The provider [x] is the one the command line [args] asks for, set up with
    what it says: for JWT every issuer is described at a configured URL; for
    Basic the credentials are those of the file, or there is no provider. *)
Definition configured_as (e : env) (args : Fields) (x : iface C Seed AC Alg) : Prop :=
  match x with
  | IAzure s =>
      AzureTenant args ≠ ""
      ∧ tenant (az s) = AzureTenant args
      ∧ az_header (az s) = CanonicalHeaderKey (AuthHeader args)
      ∧ Azure.permissive (az s) = PermissiveAuth args
      ∧ userCache s = azure_cache e ∧ graph s = azure_graph e
  | IJWT j =>
      WellKnownURL args ≠ [] ∧ wellKnowns j = WellKnownURL args
      ∧ audiences j = Audiences args ∧ audiences j ≠ []
      ∧ audienceKey j = AudienceKey args ∧ authKind j = AuthKind args
      ∧ Jwt.permissive j = PermissiveAuth args ∧ net j = jwt_net e ∧ JWKS j ≠ []
      ∧ ∀ wk, wk ∈ wellknownList j →
          ∃ url, url ∈ WellKnownURL args ∧ described (ReadFile e) (jwt_net e) url wk
  | IBasic (Some b) =>
      BasicAuthFile args ≠ "" ∧ filePath b = BasicAuthFile args
      ∧ loadFile (htpasswd e (BasicAuthFile args)) = Ok (creds b)
      ∧ BasicAuth.permissive b = PermissiveAuth args
      ∧ BasicAuth.cache b = basic_cache e ∧ seed b = basic_seed e
      ∧ watching b = basic_added e
  | IBasic None =>
      BasicAuthFile args ≠ ""
      ∧ (basic_watcher e = false ∨ ∃ err, loadFile (htpasswd e (BasicAuthFile args)) = Err err)
  | INoAuth n => NoAuth args = true ∧ (n = None ↔ PermissiveAuth args = true)
  end.

Lemma choose_auth_configured e args x :
  choose_auth e (canonical args) = Started (Some x) → configured_as e args x.
Proof.
  unfold choose_auth. simpl. destruct (AzureTenant args) as [|c s] eqn:Et; simpl.
  2: { intros [= <-]. simpl. by rewrite Et. }
  destruct (WellKnownURL args) as [|u us] eqn:Ew; simpl.
  2: { intros (j & Hj & [= <-])%startup_bind_started.
       apply jwt_started in Hj as (Hs & Ha & ->). simpl. rewrite Ew. split_and!; try done.
       intros wk Hwk.
       change (wk ∈ omap (load_well_known (ReadFile e) (jwt_net e)) (u :: us)) in Hwk.
       apply list_elem_of_omap in Hwk as (url & Hurl & Hd%load_well_known_described).
       by exists url. }
  destruct (BasicAuthFile args) as [|c s] eqn:Eb; simpl.
  2: { unfold BasicAuth.New. destruct (loadFile _) as [m|err] eqn:El.
       - destruct (basic_watcher e) eqn:Ebw; intros [= <-]; simpl; rewrite Eb; [by rewrite El|auto].
       - intros [= <-]. simpl. rewrite Eb, El. eauto. }
  destruct (NoAuth args) eqn:En; [|done]. intros [= <-]. simpl. split; [done|].
  unfold NoAuth.New. by destruct (PermissiveAuth args).
Qed.

(** C37: the program that starts has exactly one provider configured (several are
    refused by the configuration, none by [New]), and runs a provider of that
    kind with the values configured for it: its permissive flag, and the
    tenant and header of Azure, the URLs, audiences, audience claim and kind of
    JWT, the file and its credentials of Basic. *)
Theorem app_one_provider e args (a : app) :
  App.New e args = Started (Some a) →
  configured_providers args = 1%nat ∧ configured_as e args (app_auth a).
Proof.
  intros (Hv & _ & _ & Hc & _)%New_app_started.
  split; [|by apply choose_auth_configured].
  assert (Hle : (authCount args ≤ 1)%Z) by by apply valid_authCount.
  assert (Hinj : authCount args = 1%Z → configured_providers args = 1%nat)
    by (rewrite authCount_configured; lia).
  apply Hinj. revert Hc Hle. unfold choose_auth, authCount. simpl.
  destruct (AzureTenant args), (WellKnownURL args), (BasicAuthFile args), (NoAuth args);
    simpl; intros; done || lia.
Qed.

(** C25: a credentials file that cannot be loaded does not stop the program:
    [basicauth.New] returns a nil pointer, which is not a nil interface.  The
    program then lets requests without credentials through to the policy and
    panics on every request with Basic credentials. *)
Theorem broken_htpasswd_starts `{!BasicAuth.Cache C, !Maphash Seed, InsecureJwt Tok,
    !AppCache AC} e args err :
  valid_config args → surroundings_ok e args → BasicAuthFile args ≠ "" →
  loadFile (htpasswd e (BasicAuthFile args)) = Err err →
  ∃ a : app, App.New e args = Started (Some a)
    ∧ ∀ r h i,
        (presented i = None →
           Authenticate r h (i, app_auth a) = (Done None, (i, app_auth a)))
        ∧ (presented i ≠ None →
           ∃ why i', Authenticate r h (i, app_auth a) = (Panic why, (i', app_auth a))).
Proof.
  intros Hv Hs Hb Hl.
  destruct (New_app_with e args (IBasic None) Hv Hs) as (a & Ha & Hauth).
  { assert (Hle : (authCount args ≤ 1)%Z) by by apply valid_authCount. unfold authCount in Hle.
    unfold choose_auth. simpl.
    destruct (BasicAuthFile args) as [|c s] eqn:Ef; [done|].
    destruct (AzureTenant args); simpl in *; [|revert Hle; repeat case_match; simpl; lia].
    destruct (WellKnownURL args); simpl in *; [|revert Hle; case_match; simpl; lia].
    unfold BasicAuth.New. by rewrite Hl. }
  exists a. split; [done|]. intros r h i. rewrite Hauth. simpl.
  destruct (presented i) as [c|]; split; try done. intros _. eauto.
Qed.

(** NO_AUTH with PERMISSIVE_AUTH starts all the same: the nil pointer of
    [noauth.New] makes a non-nil interface whose method accepts every request. *)
Theorem noauth_permissive_starts `{!BasicAuth.Cache C, !Maphash Seed, InsecureJwt Tok,
    !AppCache AC} e args :
  valid_config args → surroundings_ok e args → NoAuth args = true →
  PermissiveAuth args = true →
  NoAuth.New (PermissiveAuth args) = None
  ∧ ∃ a : app, App.New e args = Started (Some a)
      ∧ ∀ r h i, Authenticate r h (i, app_auth a) = (Done None, (i, app_auth a)).
Proof.
  intros Hv Hs Hn Hp. rewrite Hp. split; [done|].
  destruct (New_app_with e args (INoAuth None) Hv Hs) as (a & Ha & Hauth).
  { assert (Hle : (authCount args ≤ 1)%Z) by by apply valid_authCount. unfold authCount in Hle.
    unfold choose_auth. simpl. rewrite Hn, Hp in *.
    destruct (AzureTenant args); simpl in *; [|revert Hle; repeat case_match; simpl; lia].
    destruct (WellKnownURL args); simpl in *; [|revert Hle; case_match; simpl; lia].
    by destruct (BasicAuthFile args); simpl in *; [|lia]. }
  exists a. split; [done|]. intros r h i. by rewrite Hauth.
Qed.
End startup.

(** ** Probes *)

(** Both probes answer 200 exactly while the policy for requests is in
    force and 424 otherwise, also before there is a policy cache. *)
Theorem probes_report_policy {Q} (regos : option (RegoCache Q)) :
  let ok := match regos with
            | Some r => bool_decide (is_Some (RegoCache.regos r !! ready r))
            | None => false
            end in
  (∃ w, healthzHandler regos fresh_response = (Done tt, w)
        ∧ rw_sent w = Some ((if ok then 200 else 424)%Z, ∅))
  ∧ readyzHandler regos fresh_response = healthzHandler regos fresh_response.
Proof.
  cbv zeta. split; [|done]. unfold healthzHandler, Ready.
  destruct regos as [r|]; [|by eexists].
  destruct (bool_decide _); by eexists.
Qed.

(** ** Witnesses *)

Module Sample.
Definition toy_envsubst : Envsubst := {|
  SetPrefix c := (c =? 0x24)%N; SetWrapper c := (c =? 0x7B)%N
|}.

Abbreviation env := (Env (gmap N bool) unit (gmap string graph_app) string).
Abbreviation provider := (iface (gmap N bool) unit (gmap string graph_app) string).
Abbreviation app := (AppData (gmap N bool) unit (gmap string graph_app) string string).

(** A policy folder with a readable policy, and no credentials file. *)
Definition e : env :=
  mkEnv (λ _, LstatDir) (RegoCacheProps.Sample.files "package p") true true
    (λ _, Err (ErrMsg "no such file")) true true (Some ∅) tt ∅
    AzureProps.Sample.toy_graph JwtProps.Sample.ReadFile JwtProps.Sample.net (λ _, true).

Definition args (perm : bool) (htpasswd : string) (noauth : bool) : Fields :=
  mkFields false false "policies" "*.rego" "request.rego" ":8181" ":8182" ""
    "authorization" "bearer" "http" "localhost" 8080 [] [] "aud" perm htpasswd noauth
    false "$" "{" 0 (10 * second) (30 * second) (90 * second) (120 * second)
    (10 * second) (30 * second) (90 * second).

Definition proxy : Proxy :=
  mkProxy ":8181" "request.rego" "Authorization" "http://localhost:8080"
    (Some (args false "" true)) (new_transport (args false "" true)).
Definition request : Request := mkRequest "GET" "/api" 0 None None.
Definition header : Header := {["Accept" := ["*/*"]]}.
Definition world : World provider (RegoCache string) :=
  mkWorld [] header fresh_response newResponseTracker Metrics.New (INoAuth (Some mkNoAuth))
    (mkRego RegoCacheProps.Sample.empty ∅ "request.rego" false
       (RegoCacheProps.Sample.files "package p")) [].
Definition to_proxy (r : Request) : route := ToProxy.
Definition any_label (ls : labels) : bool := true.
Definition ok_backend (r : Request) (h : Header) : backend_reply :=
  BackendReply [] 200 ∅ "ok".

Lemma header_ok : server_header header.
Proof.
  intros k vs. unfold header. rewrite lookup_singleton.
  case_decide; intros; by simplify_eq.
Qed.
End Sample.

#[local] Existing Instance Sample.toy_envsubst.
#[local] Existing Instance BasicAuthProps.Sample.toy_bcrypt.
#[local] Existing Instance BasicAuthProps.Sample.toy_maphash.
#[local] Existing Instance BasicAuthProps.Sample.toy_cache.
#[local] Existing Instance AzureProps.Sample.toy_jwt.
#[local] Existing Instance AzureProps.Sample.toy_cache.
#[local] Existing Instance JwtProps.Sample.toy_jwk.
#[local] Existing Instance JwtProps.Sample.toy_jwt.
#[local] Existing Instance JwtProps.Sample.toy_url.
#[local] Existing Instance RegoCacheProps.Sample.toy_opa.

Lemma sample_valid perm htpasswd noauth :
  (htpasswd = "" ∨ noauth = false) → valid_config (Sample.args perm htpasswd noauth).
Proof.
  intros Hone. split; simpl; try done.
  - by exists "$"%char, "".
  - by exists "{"%char, "".
  - repeat constructor; done.
  - destruct Hone as [-> | ->]; [destruct noauth|destruct htpasswd]; vm_compute; lia.
Qed.

Lemma sample_surroundings perm htpasswd noauth :
  surroundings_ok Sample.e (Sample.args perm htpasswd noauth).
Proof. repeat split. by eexists. Qed.

Lemma sent (calls : list (Request * Header)) : length calls = 1%nat → calls ≠ [].
Proof. by destruct calls. Qed.

Lemma app_forwards_only_allowed_witness :
  ∃ r' i i' a' q v bindings rest m,
    Authenticate r' (clean_header Sample.header) (i, provider Sample.world)
      = (Done None, (i', a'))
    ∧ GetRego "request.rego" (validator Sample.world) = (Done (Ok (Some q)), v)
    ∧ Eval q i' = Ok (bindings :: rest)
    ∧ map_get bindings "x" = Some (VMap m) ∧ map_get m "allow" = Some (VBool true).
Proof.
  apply (app_forwards_only_allowed Sample.ok_backend Sample.to_proxy Sample.any_label
    Sample.proxy Sample.request Sample.world (λ _, eq_refl) Sample.header_ok eq_refl).
  apply sent. vm_compute. reflexivity.
Defined.

Lemma app_one_provider_witness :
  ∃ a : Sample.app, App.New Sample.e (Sample.args false "" true) = Started (Some a)
    ∧ configured_providers (Sample.args false "" true) = 1%nat.
Proof.
  assert (Ha : ∃ a : Sample.app, App.New Sample.e (Sample.args false "" true)
    = Started (Some a)) by (eexists; vm_compute; reflexivity).
  destruct Ha as [a Ha]. exists a. split; [exact Ha|].
  exact (proj1 (app_one_provider Sample.e (Sample.args false "" true) a Ha)).
Defined.

Lemma broken_htpasswd_starts_witness :
  ∃ a : Sample.app, App.New Sample.e (Sample.args false "users" false) = Started (Some a)
    ∧ ∃ why i', Authenticate Sample.request ∅
        (BasicAuthProps.Sample.info "alice" "pw", app_auth a) = (Panic why, (i', app_auth a)).
Proof.
  destruct (broken_htpasswd_starts (Q := string) Sample.e (Sample.args false "users" false)
    (ErrWrap "basicauth: cannot open file" (ErrMsg "no such file"))
    (sample_valid false "users" false (or_intror eq_refl))
    (sample_surroundings false "users" false) ltac:(discriminate) eq_refl) as (a & Ha & Hr).
  exists a. split; [exact Ha|]. apply Hr. vm_compute. discriminate.
Defined.

Lemma noauth_permissive_starts_witness :
  NoAuth.New true = None
  ∧ ∃ a : Sample.app, App.New Sample.e (Sample.args true "" true) = Started (Some a)
      ∧ ∀ r h i, Authenticate r h (i, app_auth a) = (Done None, (i, app_auth a)).
Proof.
  exact (noauth_permissive_starts Sample.e (Sample.args true "" true)
    (sample_valid true "" true (or_introl eq_refl)) (sample_surroundings true "" true)
    eq_refl eq_refl).
Defined.
