(* ===== verification/Lifecycle.v ===== *)
(** * The life of the process: serving, the signal, the graceful close

    The started program as a transition system: the two servers' goroutines and
    clients, the policies' events, the signal, and [Close] (app.go), which shuts
    the servers down one after the other.  [next] is executable; a run is an
    [execution] of it.  Times are nanoseconds; the goroutine of [main] is taken
    to run as soon as what it waits for has happened. *)

From S2P Require Import Prelude GoStrings GoValue GoServer GoOs Config Types Metrics Router BasicAuth Azure Jwt FileCache RegoCache App.

Section lifecycle.
Context {C Seed AC Alg Q : Type} `{Opa Q}.
Local Abbreviation app := (AppData C Seed AC Alg Q).
Local Abbreviation running := (RegoCache.running (Q := Q)).

(** ** State *)

(** Where the goroutine of [main] is.  The deadlines are those of the contexts
    given to [Shutdown]. *)
Inductive point : Type :=
| Serving                                 (* in [Run], waiting for the signal *)
| ClosingMgmt (deadline : Z)
| ClosingRouter (deadline : Z)
| Ended (code : Z).

(** [proxy]: the field [Proxy.server]; [ranging]: the requests for /config that
    are inside [Info]'s range over the queries. *)
Record process := mkProcess {
  clock : Z;
  policy : running;
  watcher_open : bool;
  mgmt : option server;
  proxy : option server;
  ranging : nat;
  at_point : point
}.

Definition set_clock (t : Z) (p : process) : process :=
  mkProcess t (policy p) (watcher_open p) (mgmt p) (proxy p) (ranging p) (at_point p).
Definition set_policy (s : running) (p : process) : process :=
  mkProcess (clock p) s (watcher_open p) (mgmt p) (proxy p) (ranging p) (at_point p).
Definition set_watcher (b : bool) (p : process) : process :=
  mkProcess (clock p) (policy p) b (mgmt p) (proxy p) (ranging p) (at_point p).
Definition set_mgmt (s : option server) (p : process) : process :=
  mkProcess (clock p) (policy p) (watcher_open p) s (proxy p) (ranging p) (at_point p).
Definition set_proxy (s : option server) (p : process) : process :=
  mkProcess (clock p) (policy p) (watcher_open p) (mgmt p) s (ranging p) (at_point p).
Definition set_ranging (n : nat) (p : process) : process :=
  mkProcess (clock p) (policy p) (watcher_open p) (mgmt p) (proxy p) n (at_point p).
Definition set_point (x : point) (p : process) : process :=
  mkProcess (clock p) (policy p) (watcher_open p) (mgmt p) (proxy p) (ranging p) x.

(** ** Starting *)

(** [Run] up to the wait: the policies are loaded and watched, and
    [Proxy.ListenAndServe] makes its server; the management server was made by
    [New].  Both goroutines are still to listen. *)
Definition boot (a : app) (ReadDir : result (list (string * bool))) (now : Z) : process :=
  let s := mkRunning (RegoCache.Watch ReadDir (app_regos a)).2 [] in
  let m := Some (new_server (mgmt_server (app_mgmt a))) in
  match listen_server (app_router a) with
  | Done h => mkProcess now s true m (Some (new_server h)) 0 Serving
  | Panic _ => mkProcess now s true m None 0 (Ended 2)
  end.

(** ** Closing *)

Definition mgmt_grace : Z := 30 * second.
Definition router_grace : Z := minute.

(** [Close] of the file cache: its watcher's channels are closed. *)
Definition cache_Close (p : process) : process := set_watcher false p.

(** [app.regos.Close]. *)
Definition regos_Close (p : process) : process := cache_Close p.

(** The end of [app.Close]; then [main] returns. *)
Definition close_regos (p : process) : process := set_point (Ended 0) (regos_Close p).

(** [app.router.Close]. *)
Definition close_router (p : process) : process :=
  match proxy p with
  | Some s => set_point (ClosingRouter (clock p + router_grace)) (set_proxy (Some (begin_shutdown s)) p)
  | None => close_regos p
  end.

(** [app.Close]. *)
Definition Close (p : process) : process :=
  match mgmt p with
  | Some s => set_point (ClosingMgmt (clock p + mgmt_grace)) (set_mgmt (Some (begin_shutdown s)) p)
  | None => close_router p
  end.

Definition is_ready (p : process) : bool := Ready (Some (policies (policy p))).

(** [Run] returns with the signal; [os.Exit] does not run the deferred [Close]. *)
Definition on_signal (p : process) : process :=
  if is_ready p then Close p else set_point (Ended 1) p.

(** ** Steps *)

Inductive side := OnMgmt | OnProxy.

Inductive life_event : Type :=
| Binds (w : side) (bound : bool)         (* the goroutine calls [ListenAndServe] *)
| Accepts (w : side)
| Completes (w : side)
| PolicyEvent (ev : rego_event)
| InfoStarts                              (* a /config request enters the range *)
| InfoEnds
| Throws (n : nat)                        (* it meets the map write of goroutine [n] *)
| Signalled
| ShutdownReturns
| Elapses (d : Z).

Definition on_side (w : side) (f : server → option server) (p : process) : option process :=
  match w with
  | OnMgmt => s ← mgmt p; s' ← f s; Some (set_mgmt (Some s') p)
  | OnProxy => s ← proxy p; s' ← f s; Some (set_proxy (Some s') p)
  end.

(** A request of the management server is complete: not one inside [Info]. *)
Definition complete_on (w : side) (p : process) (s : server) : option server :=
  match w with
  | OnMgmt => if (ranging p <? active s)%nat then complete s else None
  | OnProxy => complete s
  end.

(** The second half of [GetRego] assigns to, or deletes from, the map. *)
Definition writes_queries (g : goroutine) (r : RegoCache Q) : bool :=
  match g with
  | Calling _ _ | Between _ (Err _) _ => false
  | Between _ (Ok (None, _)) _ => true
  | Between name (Ok (Some d, dirty)) _ =>
      (dirty || bool_decide (regos r !! name = None))
      && match compile (debug r) name d with Ok _ => true | Err _ => false end
  end.

(** The events a closed watcher no longer delivers. *)
Definition delivered (ev : rego_event) (p : process) : bool :=
  match ev with Notified _ _ _ => watcher_open p | _ => true end.

(** One step; [None] when it cannot happen. *)
Definition next (e : life_event) (p : process) : option process :=
  match at_point p with
  | Ended _ => None
  | pt =>
      match e with
      | Binds w bound => on_side w (ListenAndServe bound) p
      | Accepts w => on_side w accept p
      | Completes w => on_side w (complete_on w p) p
      | PolicyEvent ev =>
          if delivered ev p then Some (set_policy (step ev (policy p)) p) else None
      | InfoStarts =>
          s ← mgmt p;
          if (ranging p <? active s)%nat then Some (set_ranging (S (ranging p)) p) else None
      | InfoEnds =>
          match ranging p with O => None | S n => Some (set_ranging n p) end
      | Throws n =>
          g ← goroutines (policy p) !! n;
          if (0 <? ranging p)%nat && writes_queries g (policies (policy p))
          then Some (set_point (Ended 2) p) else None
      | Signalled => match pt with Serving => Some (on_signal p) | _ => None end
      | ShutdownReturns =>
          match pt with
          | ClosingMgmt d =>
              s ← mgmt p;
              if shutdown_returns s d (clock p) then Some (close_router p) else None
          | ClosingRouter d =>
              s ← proxy p;
              if shutdown_returns s d (clock p) then Some (close_regos p) else None
          | _ => None
          end
      | Elapses d =>
          let t := clock p + d in
          if (d <=? 0)%Z then None
          else match pt with
               | ClosingMgmt deadline | ClosingRouter deadline =>
                   if (t <=? deadline)%Z then Some (set_clock t p) else None
               | _ => Some (set_clock t p)
               end
      end
  end%Z.

Definition life_step (p : process) (e : life_event) (p' : process) : Prop := next e p = Some p'.

(** ** What a run consists of *)

(** The policies' events up to the signal. *)
Fixpoint before_signal (es : list life_event) : list rego_event :=
  match es with
  | [] => []
  | Signalled :: _ => []
  | PolicyEvent ev :: es' => ev :: before_signal es'
  | _ :: es' => before_signal es'
  end.

(** When the signal came, if it did, in a run that starts at [t]. *)
Fixpoint signal_time (t : Z) (es : list life_event) : option Z :=
  match es with
  | [] => None
  | Signalled :: _ => Some t
  | Elapses d :: es' => signal_time (t + d) es'
  | _ :: es' => signal_time t es'
  end%Z.

(** No /config request met a map write. *)
Definition no_throw (es : list life_event) : Prop :=
  Forall (λ e, match e with Throws _ => False | _ => True end) es.
End lifecycle.
Arguments process : clear implicits.
