(* ===== verification/LifecycleProps.v ===== *)
(** * Properties of the life of the process

    How and when the process ends, what its servers promise while it runs, and
    what it does not notice. *)

From S2P Require Import Prelude GoStrings GoValue GoHttp GoServer GoOs GoUrl Config Types Metrics Router BasicAuth Azure Jwt FileCache FileCacheProps RegoCache RegoCacheProps App AppProps Lifecycle.

Section lifecycle.
Context {C Seed AC Alg Q : Type} `{Opa Q}.
Local Abbreviation app := (AppData C Seed AC Alg Q).
Local Abbreviation process := (Lifecycle.process Q).
Local Open Scope Z_scope.

(** ** The phases *)

Definition stopped (o : option server) : Prop := ∃ s, o = Some s ∧ state s = Stopped.
Definition unstopped (o : option server) : Prop := ∃ s, o = Some s ∧ state s ≠ Stopped.

(** [main] waits and no server was shut down. *)
Definition serving (p : process) : Prop :=
  at_point p = Serving ∧ unstopped (mgmt p) ∧ unstopped (proxy p).

(** While closing after a signal at [t], up to a graceful end. *)
Definition closing (t : Z) (p : process) : Prop :=
  stopped (mgmt p) ∧
  match at_point p with
  | Serving => False
  | ClosingMgmt d => d = t + mgmt_grace ∧ t ≤ clock p ≤ d ∧ unstopped (proxy p)
  | ClosingRouter d =>
      ∃ t', d = t' + router_grace ∧ t ≤ t' ≤ t + mgmt_grace ∧ t' ≤ clock p ≤ d
            ∧ stopped (proxy p)
  | Ended c =>
      c = 0 ∧ t ≤ clock p ≤ t + mgmt_grace + router_grace ∧ watcher_open p = false
      ∧ ∃ s, proxy p = Some s ∧ state s = Stopped
             ∧ (active s = 0%nat ∨ t + router_grace ≤ clock p)
  end.

Lemma server_op_stopped (f : server → option server) s s' :
  (∃ b, f = ListenAndServe b) ∨ f = accept ∨ f = complete →
  f s = Some s' → (state s' = Stopped ↔ state s = Stopped).
Proof.
  intros [[b ->]|[-> | ->]]; unfold ListenAndServe, accept, complete; intros E;
    repeat case_match; simplify_eq/=; intuition congruence.
Qed.

(** The events of one server change nothing else. *)
Lemma on_side_frame w f (p p' : process) :
  (∀ s s', f s = Some s' → (state s' = Stopped ↔ state s = Stopped)) →
  on_side w f p = Some p' →
  clock p' = clock p ∧ policy p' = policy p ∧ watcher_open p' = watcher_open p
  ∧ at_point p' = at_point p
  ∧ (stopped (mgmt p') ↔ stopped (mgmt p)) ∧ (unstopped (mgmt p') ↔ unstopped (mgmt p))
  ∧ (stopped (proxy p') ↔ stopped (proxy p)) ∧ (unstopped (proxy p') ↔ unstopped (proxy p)).
Proof.
  intros Hf. unfold on_side, stopped, unstopped. destruct w; simpl.
  - destruct (mgmt p) as [s|]; [|done]. simpl. destruct (f s) as [s'|] eqn:E; [|done].
    intros [= <-]. specialize (Hf s s' E). simpl. naive_solver.
  - destruct (proxy p) as [s|]; [|done]. simpl. destruct (f s) as [s'|] eqn:E; [|done].
    intros [= <-]. specialize (Hf s s' E). simpl. naive_solver.
Qed.

(** The events that concern neither [main] nor the clock. *)
Definition background (e : life_event) : bool :=
  match e with
  | Signalled | ShutdownReturns | Elapses _ | Throws _ => false
  | _ => true
  end.

Lemma background_frame e (p p' : process) :
  background e = true → next e p = Some p' →
  clock p' = clock p ∧ at_point p' = at_point p ∧ watcher_open p' = watcher_open p
  ∧ policy p' = (match e with PolicyEvent ev => step ev (policy p) | _ => policy p end)
  ∧ (stopped (mgmt p') ↔ stopped (mgmt p)) ∧ (unstopped (mgmt p') ↔ unstopped (mgmt p))
  ∧ (stopped (proxy p') ↔ stopped (proxy p)) ∧ (unstopped (proxy p') ↔ unstopped (proxy p)).
Proof.
  intros Hb. unfold next. destruct (at_point p) eqn:Hp; [..|done];
  (destruct e as [w b|w|w|ev| | |n| | |d]; try done;
   [intros E; eapply on_side_frame in E;
     [rewrite Hp in E; naive_solver|intros s s'; apply server_op_stopped; by eauto]
   |intros E; eapply on_side_frame in E;
     [rewrite Hp in E; naive_solver|intros s s'; apply server_op_stopped; by eauto]
   |intros E; eapply on_side_frame in E;
     [rewrite Hp in E; naive_solver|
      intros s s' Hs; apply (server_op_stopped complete); [by eauto|];
      destruct w; simpl in Hs; [by case_match|done]]
   |destruct (delivered ev p); [|done]; intros [= <-]; by rewrite <- Hp
   |destruct (mgmt p) as [s|] eqn:Em; [|done]; simpl; case_match; [|done];
      intros [= <-]; simpl; by rewrite Em, Hp
   |destruct (ranging p); [done|]; intros [= <-]; simpl; by rewrite Hp]).
Qed.

Lemma closing_step t e (p p' : process) :
  (∀ n, e ≠ Throws n) → closing t p → next e p = Some p' → closing t p'.
Proof.
  intros Hnt Hc Hn. destruct (background e) eqn:Hb.
  { destruct (background_frame e p p' Hb Hn)
      as (Hclk & Hat & Hw & _ & Hm & _ & Hps & Hpu).
    destruct Hc as [Hs Hc]. split; [by apply Hm|]. rewrite Hat, Hclk.
    destruct (at_point p) as [|d|d|c] eqn:Ep; [done| | |by unfold next in Hn; rewrite Ep in Hn].
    - by rewrite Hpu.
    - by setoid_rewrite Hps. }
  unfold next in Hn. destruct Hc as [(sm & Em & Hsm) Hc].
  destruct (at_point p) as [|d|d|c] eqn:Ep; [done| | |done].
  - destruct Hc as (Hd & Hclk & sp & Esp & Hsp). destruct e as [| | | | | |n| | |dt]; try done; [by destruct (Hnt n)|..].
    + rewrite Em in Hn. simpl in Hn. destruct (shutdown_returns _ _ _); [|done].
      injection Hn as <-. unfold close_router. rewrite Esp. split; [by exists sm|]. simpl.
      exists (clock p). split_and!; [done|lia|lia|unfold router_grace, minute, second; lia..|].
      by eexists.
    + destruct (dt <=? 0) eqn:E1; [done|]. destruct (_ <=? d) eqn:E2; [|done].
      injection Hn as <-. bool_prop. split; [by exists sm|]. simpl. rewrite Ep.
      split_and!; [done|lia|lia|by exists sp].
  - destruct Hc as (t' & Hd & Ht' & Hclk & sp & Esp & Hsp).
    destruct e as [| | | | | |n| | |dt]; try done; [by destruct (Hnt n)|..].
    + rewrite Esp in Hn. simpl in Hn. destruct (shutdown_returns sp d (clock p)) eqn:Er; [|done].
      injection Hn as <-. split; [by exists sm|]. simpl.
      split_and!; [done|lia|lia|done|]. exists sp. split_and!; [done|done|].
      unfold shutdown_returns in Er. apply orb_true_iff in Er as [Er|Er].
      * left. by apply Nat.eqb_eq.
      * right. bool_prop. lia.
    + destruct (dt <=? 0) eqn:E1; [done|]. destruct (_ <=? d) eqn:E2; [|done].
      injection Hn as <-. bool_prop. split; [by exists sm|]. simpl. rewrite Ep.
      exists t'. split_and!; [done|lia..|by exists sp].
Qed.

Lemma serving_step e (p p' : process) :
  serving p → (∀ n, e ≠ Throws n) → e ≠ Signalled → next e p = Some p' →
  serving p'
  ∧ clock p' = (match e with Elapses d => clock p + d | _ => clock p end)
  ∧ policy p' = (match e with PolicyEvent ev => step ev (policy p) | _ => policy p end).
Proof.
  intros (Hat & Hm & Hp) Hnt Hsig Hn. destruct (background e) eqn:Hb.
  { destruct (background_frame e p p' Hb Hn)
      as (Hclk & Hat' & _ & Hpol & _ & Hm' & _ & Hp').
    split_and!; [split_and!; [congruence|by apply Hm'|by apply Hp']| |done].
    rewrite Hclk. by destruct e. }
  unfold next in Hn. rewrite Hat in Hn.
  destruct e as [| | | | | |n| | |d]; try done; [by destruct (Hnt n)|].
  destruct (d <=? 0); [done|]. by injection Hn as <-.
Qed.

Lemma execution_ended c es (p p' : process) :
  execution life_step p es p' → at_point p = Ended c → p' = p.
Proof.
  intros [|? e p1 l p2 Hs _] Hat; [done|]. unfold life_step, next in Hs.
  by rewrite Hat in Hs.
Qed.

Lemma execution_closing t es (p p' : process) :
  execution life_step p es p' → no_throw es → closing t p → closing t p'.
Proof.
  induction 1 as [|p e p1 es p2 Hs _ IH]; [done|].
  intros [He Hes]%Forall_cons Hc. apply IH; [done|].
  eapply closing_step; [|done|done]. by intros n ->.
Qed.

(** What a signal does to a process that serves. *)
Lemma on_signal_run (p : process) :
  serving p →
  if is_ready p then closing (clock p) (on_signal p)
  else on_signal p = set_point (Ended 1) p.
Proof.
  intros (_ & (s & Es & _) & Hp). unfold on_signal. destruct (is_ready p); [|done].
  unfold Close. rewrite Es. split; [by eexists|]. simpl.
  split_and!; [done|lia|unfold mgmt_grace, second; lia|done].
Qed.

(** A run from a process that serves: it still serves, or the signal came and
    decided how it goes on. *)
Lemma run_from_serving es (p p' : process) :
  execution life_step p es p' → serving p → no_throw es →
  let s := steps (before_signal es) (policy p) in
  match signal_time (clock p) es with
  | None => serving p' ∧ policy p' = s
  | Some t =>
      if Ready (Some (policies s)) then closing t p'
      else at_point p' = Ended 1 ∧ clock p' = t ∧ unstopped (mgmt p') ∧ unstopped (proxy p')
  end.
Proof.
  induction 1 as [p|p e p1 es p2 Hs Hrun IH]; intros Hsv Hnt; [done|].
  apply Forall_cons in Hnt as [He Hnt]. cbv zeta in IH |- *.
  assert (Hcase : e = Signalled ∨ e ≠ Signalled) by (destruct e; auto).
  destruct Hcase as [->|Hne].
  - unfold life_step, next in Hs. destruct Hsv as (Hat & Hm & Hp). rewrite Hat in Hs.
    injection Hs as <-. pose proof (on_signal_run p (conj Hat (conj Hm Hp))) as Hon.
    cbn [signal_time before_signal]. change (steps [] (policy p)) with (policy p).
    change (Ready (Some (policies (policy p)))) with (is_ready p).
    destruct (is_ready p).
    + by eapply execution_closing.
    + rewrite Hon in Hrun. by apply (execution_ended 1) in Hrun as ->.
  - destruct (serving_step e p p1) as (Hsv' & Hclk & Hpol); [done|by intros n ->|done|done|].
    specialize (IH Hsv' Hnt). rewrite Hclk, Hpol in IH. by destruct e.
Qed.

(** ** The promises *)

Lemma boot_serving (a : app) RD t0 f :
  Router.config (app_router a) = Some f →
  serving (boot a RD t0) ∧ clock (boot a RD t0) = t0
  ∧ policy (boot a RD t0) = mkRunning (RegoCache.Watch RD (app_regos a)).2 [].
Proof.
  intros Hc. unfold boot, listen_server. rewrite Hc. split; [|done].
  split_and!; [done|by eexists..].
Qed.

(** C10: the exit status is that of [main], and the shutdown is graceful exactly
    when the process was ready at the signal: then both servers stop accepting,
    the policies' watcher is closed, the process is gone within 90 seconds and
    no proxied request is cut off before a minute after the signal.  Otherwise
    [os.Exit(1)] skips the deferred [Close]: the process is gone at once with
    its servers accepting.  The 90 seconds are the code's two deadlines, 30
    seconds for the management server and then a minute for the proxy;
    .specs/PRD.md (REQ-011, AC-005) asks for at most 30 seconds in all. *)
Theorem graceful_exit_iff_ready (a : app) RD t0 f es p c :
  Router.config (app_router a) = Some f →
  execution life_step (boot a RD t0) es p → no_throw es → at_point p = Ended c →
  App.main (Started (Some (app_regos a))) RD (before_signal es)
    = (if c =? 0 then Started tt else Exited c)
  ∧ ∃ t, signal_time t0 es = Some t ∧
    let r := policies (steps (before_signal es) (mkRunning (RegoCache.Watch RD (app_regos a)).2 [])) in
    if Ready (Some r) then
      c = 0 ∧ clock p ≤ t + 90 * second ∧ stopped (mgmt p) ∧ watcher_open p = false
      ∧ ∃ s, proxy p = Some s ∧ state s = Stopped
             ∧ (active s = 0%nat ∨ t + 60 * second ≤ clock p)
    else c = 1 ∧ clock p = t ∧ unstopped (mgmt p) ∧ unstopped (proxy p).
Proof.
  intros Hc Hrun Hnt Hat. destruct (boot_serving a RD t0 f Hc) as (Hsv & Hclk & Hpol).
  pose proof (run_from_serving es _ p Hrun Hsv Hnt) as Hend. cbv zeta in *.
  rewrite Hclk, Hpol in Hend. unfold App.main, Run. cbv zeta. unfold mbind, startup_bind.
  destruct (signal_time t0 es) as [t|]; [|by destruct Hend as [[Hx _] _]; rewrite Hat in Hx].
  destruct (Ready _); cbn [fst snd negb exit_if].
  - destruct Hend as [Hm Hp]. rewrite Hat in Hp.
    destruct Hp as (-> & Hle & Hw & s & Es & Hs & Hi). split; [done|].
    exists t. unfold mgmt_grace, router_grace, minute in *. split; [done|].
    split_and!; [done|lia|done|done|]. exists s. split_and!; [done|done|].
    destruct Hi as [?|?]; [by left|right; lia].
  - destruct Hend as (Hat' & Ht & Hm & Hp). rewrite Hat in Hat'. injection Hat' as ->.
    split; [done|]. exists t. by split_and!.
Qed.

(** What the process does by itself. *)
Definition by_itself (e : life_event) : Prop :=
  e = ShutdownReturns ∨ ∃ d, e = Elapses d.

Lemma execution_one e (p p' : process) : next e p = Some p' → execution life_step p [e] p'.
Proof. intros Hs. by eapply execution_cons; [|constructor]. Qed.

(** Shutdown waits at most for its deadline. *)
Lemma wait_shutdown (p q : process) s d :
  at_point p = ClosingMgmt d ∧ mgmt p = Some s ∧ q = close_router (set_clock d p)
  ∨ at_point p = ClosingRouter d ∧ proxy p = Some s ∧ q = close_regos (set_clock d p) →
  clock p ≤ d →
  ∃ es, execution life_step p es q ∧ Forall by_itself es ∧ (length es ≤ 2)%nat.
Proof.
  intros Hat Hle.
  assert (Hret : next ShutdownReturns (set_clock d p) = Some q).
  { unfold next, shutdown_returns. destruct Hat as [(Ha & Es & ->)|(Ha & Es & ->)];
      simpl; rewrite Ha, Es; simpl; by rewrite Z.leb_refl, orb_true_r. }
  destruct (decide (clock p = d)) as [<-|Hne].
  - exists [ShutdownReturns]. split_and!; [|by repeat constructor|simpl; lia].
    apply execution_one. rewrite <- Hret. by destruct p.
  - exists [Elapses (d - clock p); ShutdownReturns]. split_and!; [| |simpl; lia].
    + eapply execution_cons; [|by apply execution_one]. unfold life_step, next.
      replace (clock p + (d - clock p)) with d by lia.
      destruct (d - clock p <=? 0) eqn:E; [bool_prop; lia|].
      destruct Hat as [(Ha & _)|(Ha & _)]; rewrite Ha; by rewrite Z.leb_refl.
    + apply Forall_cons. split; [right; by eexists|]. apply Forall_singleton. by left.
Qed.

Lemma closing_ends t (p : process) :
  closing t p →
  ∃ es p', execution life_step p es p' ∧ Forall by_itself es ∧ (length es ≤ 4)%nat
           ∧ at_point p' = Ended 0.
Proof.
  assert (Hrouter : ∀ (p : process) d s, at_point p = ClosingRouter d → proxy p = Some s →
    clock p ≤ d → ∃ es p', execution life_step p es p' ∧ Forall by_itself es
      ∧ (length es ≤ 2)%nat ∧ at_point p' = Ended 0).
  { clear. intros p d s Ha Es Hle.
    destruct (wait_shutdown p _ s d (or_intror (conj Ha (conj Es eq_refl))) Hle)
      as (es & Hrun & Hes & Hlen). by exists es, (close_regos (set_clock d p)). }
  intros [(sm & Em & Hsm) Hc]. destruct (at_point p) as [|d|d|c] eqn:Ep; [done|..].
  - destruct Hc as (Hd & Hclk & sp & Esp & Hsp).
    destruct (wait_shutdown p _ sm d (or_introl (conj Ep (conj Em eq_refl)))) as
      (es1 & Hrun1 & Hes1 & Hlen1); [lia|].
    destruct (Hrouter (close_router (set_clock d p)) (d + router_grace) (begin_shutdown sp))
      as (es2 & p' & Hrun2 & Hes2 & Hlen2 & Hat);
      [unfold close_router; simpl; by rewrite Esp..| |].
    { unfold close_router. simpl. rewrite Esp. simpl. unfold router_grace, minute, second. lia. }
    exists (es1 ++ es2), p'. split_and!; [by eapply execution_app|by apply Forall_app| |done].
    rewrite length_app. lia.
  - destruct Hc as (t' & Hd & _ & Hclk & sp & Esp & _).
    destruct (Hrouter p d sp Ep Esp) as (es & p' & ? & ? & ? & ?); [lia|].
    exists es, p'. split_and!; [done|done|lia|done].
  - destruct Hc as (-> & _). exists [], p. split_and!; [constructor|done|simpl; lia|done].
Qed.

(** C16: closing terminates: however clients behave, from any state after the
    signal the process can end within four steps that need no one's help, and
    no run of it is still there more than 90 seconds after the signal. *)
Theorem close_terminates (a : app) RD t0 f es p t :
  Router.config (app_router a) = Some f →
  execution life_step (boot a RD t0) es p → no_throw es → signal_time t0 es = Some t →
  clock p ≤ t + 90 * second
  ∧ ∃ es' p' c, execution life_step p es' p' ∧ Forall by_itself es' ∧ (length es' ≤ 4)%nat
                ∧ at_point p' = Ended c.
Proof.
  intros Hc Hrun Hnt Ht. destruct (boot_serving a RD t0 f Hc) as (Hsv & Hclk & Hpol).
  pose proof (run_from_serving es _ p Hrun Hsv Hnt) as Hend. cbv zeta in Hend.
  rewrite Hclk, Ht in Hend. destruct (Ready _).
  - split.
    + destruct Hend as [_ Hp]. unfold mgmt_grace, router_grace, minute, second in *.
      destruct (at_point p); [done| | |]; [|destruct Hp as (? & ? & ? & ? & _)|]; lia.
    + destruct (closing_ends t p Hend) as (es' & p' & ? & ? & ? & ?). eauto 10.
  - destruct Hend as (Hat & -> & _). split; [unfold second; lia|].
    exists [], p, 1. split_and!; [constructor|done|simpl; lia|done].
Qed.

(** ** What the process does not notice *)

Definition bind_failed (e : life_event) : bool :=
  match e with Binds OnProxy false => true | _ => false end.

(** The proxy's server while [main] waits; [b]: its address could not be bound. *)
Definition proxy_state (b : bool) (p : process) : Prop :=
  at_point p = Serving →
  ∃ s, proxy p = Some s ∧
    if b then state s = BindFailed ∧ active s = 0%nat
    else (state s = Unstarted ∨ state s = BindFailed) ∧ active s = 0%nat ∨ state s = Listening.

Lemma proxy_state_step b e (p p' : process) :
  proxy_state b p → next e p = Some p' → proxy_state (b || bind_failed e) p'.
Proof.
  intros Hb Hn Hat'. unfold next in Hn. destruct (at_point p) as [|d|d|c] eqn:Ep; [..|done].
  - destruct (Hb Ep) as (s & Es & Hs). destruct e as [w bd|w|w|ev| | |n| | |dt]; simpl in Hn |- *;
      rewrite ?orb_false_r.
    + destruct w; simpl in Hn |- *.
      * rewrite orb_false_r. destruct (mgmt p) as [m|]; [|done]. simpl in Hn.
        destruct (ListenAndServe bd m); [|done]. injection Hn as <-. by exists s.
      * rewrite Es in Hn. simpl in Hn. unfold ListenAndServe in Hn.
        destruct b; [by destruct Hs as [Hs _]; rewrite Hs in Hn|].
        destruct Hs as [[[Hs|Hs] Ha]|Hs]; rewrite Hs in Hn; try discriminate.
        injection Hn as <-. eexists. split; [done|]. destruct bd; simpl; auto.
    + destruct w; simpl in Hn.
      * destruct (mgmt p) as [m|]; [|done]. simpl in Hn.
        destruct (accept m); [|done]. injection Hn as <-. by exists s.
      * rewrite Es in Hn. simpl in Hn. unfold accept in Hn.
        destruct (state s) eqn:Est; try done. injection Hn as <-. eexists. split; [done|].
        destruct b; simpl; [by destruct Hs|by right].
    + destruct w; simpl in Hn.
      * destruct (mgmt p) as [m|]; [|done]. simpl in Hn.
        destruct (_ <? _)%nat; [|done]. destruct (complete m); [|done]. injection Hn as <-. by exists s.
      * rewrite Es in Hn. simpl in Hn. unfold complete in Hn.
        destruct (active s) as [|k] eqn:Ea; [done|]. injection Hn as <-. eexists.
        split; [done|]. destruct b; simpl; [by destruct Hs|]. right. naive_solver.
    + destruct (delivered ev p); [|done]. injection Hn as <-. by exists s.
    + destruct (mgmt p) as [m|]; [|done]. simpl in Hn. destruct (_ <? _)%nat; [|done].
      injection Hn as <-. by exists s.
    + destruct (ranging p); [done|]. injection Hn as <-. by exists s.
    + destruct (goroutines _ !! n); [|done]. simpl in Hn.
      destruct (_ && _); [|done]. by injection Hn as <-.
    + injection Hn as <-. revert Hat'. unfold on_signal, Close, close_router.
      by repeat case_match.
    + done.
    + destruct (dt <=? 0); [done|]. injection Hn as <-. by exists s.
  - exfalso. revert Hn Hat'. clear -Ep. unfold close_router, close_regos, on_side, mbind, option_bind.
    intros Hn Hat'. repeat (case_match; simplify_eq/=; try congruence).
  - exfalso. revert Hn Hat'. clear -Ep. unfold close_router, close_regos, on_side, mbind, option_bind.
    intros Hn Hat'. repeat (case_match; simplify_eq/=; try congruence).
Qed.

Lemma proxy_state_run b es (p p' : process) :
  execution life_step p es p' → proxy_state b p → proxy_state (b || existsb bind_failed es) p'.
Proof.
  intros Hrun. revert b. induction Hrun as [p|p e p1 es p2 Hs _ IH]; intros b Hb; simpl.
  - by rewrite orb_false_r.
  - rewrite orb_assoc. apply IH. by eapply proxy_state_step.
Qed.

(** Nobody notices that the proxy cannot bind its address: the goroutine
    logs the error and ends; from then on no request is ever accepted while the
    process waits for its signal, and the probes still answer 200 as soon as
    the policy is loaded. *)
Theorem bind_failure_unnoticed (a : app) RD t0 f es p :
  Router.config (app_router a) = Some f →
  execution life_step (boot a RD t0) es p → Binds OnProxy false ∈ es → at_point p = Serving →
  next (Accepts OnProxy) p = None
  ∧ (is_ready p = true →
     rw_sent (readyzHandler (Some (policies (policy p))) fresh_response).2 = Some (200, ∅)
     ∧ next Signalled p = Some (Close p)).
Proof.
  intros Hc Hrun Hin Hat. split.
  - assert (Hb : existsb bind_failed es = true).
    { apply existsb_exists. exists (Binds OnProxy false). split; [by apply list_elem_of_In|done]. }
    destruct (proxy_state_run false es _ p Hrun) as (s & Es & Hs); [|done|].
    + intros _. unfold boot, listen_server. rewrite Hc. eexists. split; [done|]. by left; auto.
    + rewrite Hb in Hs. simpl in Hs. unfold next. rewrite Hat. simpl. rewrite Es. simpl.
      unfold accept. by destruct Hs as [-> _].
  - intros Hr. split.
    + unfold readyzHandler. unfold is_ready in Hr. by rewrite Hr.
    + unfold next. rewrite Hat. unfold on_signal. by rewrite Hr.
Qed.

(** A request for /config can end the process: [Info] ranges over the
    queries without the mutex that the loading of a policy holds, and the Go
    runtime ends a process whose map iteration meets a map write.  It takes a
    /config request while a request or callback loads a policy that compiles. *)
Theorem config_request_can_crash (p : process) m name d q :
  at_point p = Serving → mgmt p = Some m → state m = Listening → ranging p = active m →
  stale (RegoCache.cache (policies (policy p))) name = true →
  fs (policies (policy p)) (policy_path (policies (policy p)) name) = ReadData d →
  compile (debug (policies (policy p))) name d = Ok q →
  ∃ p', execution life_step p
          [Accepts OnMgmt; InfoStarts; PolicyEvent (Requested name);
           Throws (length (goroutines (policy p)))] p'
        ∧ at_point p' = Ended 2.
Proof.
  intros Hat Hm Hl Hr Hst Hd Hq. eexists. split.
  - eapply execution_cons; [unfold life_step, next; rewrite Hat; simpl; rewrite Hm; simpl;
      unfold accept; by rewrite Hl|].
    eapply execution_cons; [unfold life_step, next; simpl; rewrite Hat; simpl; rewrite Hr;
      by rewrite (proj2 (Nat.ltb_lt _ _) (Nat.lt_succ_diag_r _))|].
    eapply execution_cons; [unfold life_step, next; simpl; by rewrite Hat|].
    eapply execution_cons; [|constructor].
    unfold life_step, next. simpl. rewrite Hat. simpl.
    rewrite (enter_fresh name (policy p) d) by done. simpl.
    rewrite lookup_app_r, Nat.sub_diag by done. simpl. by rewrite Hq.
  - done.
Qed.
End lifecycle.

(** ** The servers' settings *)

Section settings.
Context {C Seed AC Alg Q : Type}.
Context `{Unicode, Envsubst, Bcrypt, UrlAuthority, !Jwk Alg, !Jwt Alg}.
Local Open Scope Z_scope.

(** Limited: net/http takes zero for no limit. *)
Definition limited (t : Z) : Prop := 0 < t ≤ 600 * second.

Lemma limited_half t : timeout_ok t → limited (t ÷ 2).
Proof.
  unfold timeout_ok, limited, second. intros Ht. split.
  - apply Z.quot_str_pos. lia.
  - transitivity t; [apply Z.quot_le_upper_bound|]; lia.
Qed.

Lemma limited_whole t : timeout_ok t → limited t.
Proof. unfold timeout_ok, limited, second. lia. Qed.

(** C39: no connection can be held open for ever: in a program that starts, every
    timeout of both servers and of the connections to the backend is positive
    and at most ten minutes, request headers are limited to a megabyte, and the
    headers' timeout is within the request's. *)
Theorem timeouts_limited (e : Env C Seed AC Alg) args (a : AppData C Seed AC Alg Q) :
  App.New e args = Started (Some a) →
  ∃ h, listen_server (app_router a) = Done h
    ∧ (∀ s, s = h ∨ s = mgmt_server (app_mgmt a) →
         limited (srv_ReadHeaderTimeout s) ∧ limited (srv_ReadTimeout s)
         ∧ limited (srv_WriteTimeout s) ∧ limited (srv_IdleTimeout s)
         ∧ srv_ReadHeaderTimeout s ≤ srv_ReadTimeout s ∧ MaxHeaderBytes s = 1048576)
    ∧ let t := Transport (app_router a) in
      limited (Dialer_Timeout t) ∧ limited (TLSHandshakeTimeout t)
      ∧ limited (ResponseHeaderTimeout t) ∧ limited (ExpectContinueTimeout t)
      ∧ limited (IdleConnTimeout t).
Proof.
  intros ([_ _ Ht Hrd _ _ _] & _ & Hm & _ & Hr)%New_app_started.
  rewrite !Forall_cons in Ht. destruct_and!.
  unfold Router.New in Hr. destruct (url_Parse_ok e _); [|done]. injection Hr as <-.
  rewrite Hm. eexists. split; [reflexivity|]. split; [|simpl; split_and!].
  - intros s [-> | ->]; simpl; split_and!; try done; auto using limited_half, limited_whole.
    by apply Z.quot_le_mono.
  - by apply limited_whole.
  - by apply limited_whole.
  - by apply limited_whole.
  - unfold limited, second. lia.
  - by apply limited_whole.
Qed.
End settings.

(** ** Witnesses *)

Module Sample.
Abbreviation app := AppProps.Sample.app.
Abbreviation args := (AppProps.Sample.args false "" true).

(** The sample program; [d]: the content of its policy file. *)
Definition the_app (d : string) : app :=
  mkApp args (mkRego RegoCacheProps.Sample.empty ∅ "request.rego" false
                (RegoCacheProps.Sample.files d))
    AppProps.Sample.proxy (INoAuth None) (startMgmt args).

Definition folder : result (list (string * bool)) := Ok [("request.rego", false)].
End Sample.

#[local] Existing Instance AppProps.Sample.toy_envsubst.
#[local] Existing Instance BasicAuthProps.Sample.toy_bcrypt.
#[local] Existing Instance BasicAuthProps.Sample.toy_maphash.
#[local] Existing Instance BasicAuthProps.Sample.toy_cache.
#[local] Existing Instance JwtProps.Sample.toy_jwk.
#[local] Existing Instance JwtProps.Sample.toy_jwt.
#[local] Existing Instance JwtProps.Sample.toy_url.
#[local] Existing Instance RegoCacheProps.Sample.toy_opa.

(** A run of the sample program by evaluation. *)
Ltac run_events :=
  repeat (eapply execution_cons; [vm_compute; reflexivity|]); constructor.

Lemma graceful_exit_iff_ready_witness :
  App.main (Started (Some (app_regos (Sample.the_app "package p")))) Sample.folder [] = Started tt
  ∧ ∃ t, signal_time 0 [Binds OnProxy true; Accepts OnProxy; Signalled; ShutdownReturns;
                        Completes OnProxy; ShutdownReturns] = Some t.
Proof.
  eassert (Hrun : execution life_step (boot (Sample.the_app "package p") Sample.folder 0)
    [Binds OnProxy true; Accepts OnProxy; Signalled; ShutdownReturns;
     Completes OnProxy; ShutdownReturns] _) by run_events.
  eapply (graceful_exit_iff_ready (Sample.the_app "package p") Sample.folder 0 Sample.args)
    in Hrun as [Hm (t & Ht & _)]; [|reflexivity|by repeat constructor|reflexivity].
  split; [exact Hm|]. exists t. exact Ht.
Defined.

Lemma close_terminates_witness :
  ∃ p, execution life_step (boot (Sample.the_app "package p") Sample.folder 0)
         [Binds OnProxy true; Accepts OnProxy; Signalled] p
    ∧ (clock p ≤ 0 + 90 * second)%Z
    ∧ ∃ es' p' c, execution life_step p es' p' ∧ Forall by_itself es' ∧ (length es' ≤ 4)%nat
                  ∧ at_point p' = Ended c.
Proof.
  eexists. split; [run_events|].
  eapply (close_terminates (Sample.the_app "package p") Sample.folder 0 Sample.args
    [Binds OnProxy true; Accepts OnProxy; Signalled]).
  - reflexivity.
  - run_events.
  - by repeat constructor.
  - reflexivity.
Defined.

Lemma bind_failure_unnoticed_witness :
  ∃ p, execution life_step (boot (Sample.the_app "package p") Sample.folder 0)
         [Binds OnProxy false; Binds OnMgmt true] p
    ∧ next (Accepts OnProxy) p = None ∧ is_ready p = true.
Proof.
  eexists. split; [run_events|]. split; [|vm_compute; reflexivity].
  eapply (bind_failure_unnoticed (Sample.the_app "package p") Sample.folder 0 Sample.args
    [Binds OnProxy false; Binds OnMgmt true]).
  - reflexivity.
  - run_events.
  - by left.
  - reflexivity.
Defined.

Lemma config_request_can_crash_witness :
  ∃ p p', execution life_step
            (boot (Sample.the_app "package p") (Err (ErrMsg "not read")) 0) [Binds OnMgmt true] p
    ∧ execution life_step p
        [Accepts OnMgmt; InfoStarts; PolicyEvent (Requested "request.rego"); Throws 0] p'
    ∧ at_point p' = Ended 2.
Proof.
  eexists. edestruct (config_request_can_crash (Q := string)) as (p' & Hrun & Hat);
    [..|exists p'; split; [run_events|split; [exact Hrun|exact Hat]]];
    vm_compute; reflexivity.
Defined.

Lemma timeouts_limited_witness :
  ∃ a : Sample.app, App.New AppProps.Sample.e Sample.args = Started (Some a)
    ∧ ∃ h, listen_server (app_router a) = Done h ∧ limited (srv_ReadTimeout h).
Proof.
  assert (Ha : ∃ a : Sample.app, App.New AppProps.Sample.e Sample.args = Started (Some a))
    by (eexists; vm_compute; reflexivity).
  destruct Ha as [a Ha]. exists a. split; [exact Ha|].
  destruct (timeouts_limited AppProps.Sample.e Sample.args a Ha) as (h & Hh & Hs & _).
  exists h. split; [exact Hh|]. apply (Hs h). by left.
Defined.
