(* ===== verification/RouterProps.v ===== *)
(** * Properties of the request pipeline

    Refinement of the decision function, the safety of forwarding, the
    cleanup's specification, and what the headers and labels of a request are. *)

From S2P Require Import Prelude GoStrings GoValue GoHttp Config Types Metrics Server Router RouterSpec NoAuth.

(** ** Concrete parameters for the witnesses *)

Module Sample.
(** A validator that answers every request with a fixed result. *)
#[global] Instance fixed_answer : Validator (result value) := {
  Validate name i := λ v, (Done v, v)
}.

Definition fields : Fields :=
  mkFields false false "./policies" "*.rego" "request.rego" ":8181" ":8182" ""
    "Authorization" "bearer" "http" "localhost" 8080 [] [] "aud" false "" true
    true "$" "{" 0 10 30 90 120 10 30 90.

Definition proxy : Proxy :=
  mkProxy ":8181" "request.rego" "Authorization" "http://localhost:8080" (Some fields)
    (new_transport fields).

Definition request : Request := mkRequest "GET" "/api/items" 0 None None.

Definition world (h : Header) (answer : result value)
    : World NoAuthProvider (result value) :=
  mkWorld [] h fresh_response newResponseTracker Metrics.New (mkNoAuth) answer [].

Definition to_proxy (r : Request) : route := ToProxy.
Definition any_label (ls : labels) : bool := true.
Definition ok_backend (r : Request) (h : Header) : backend_reply :=
  BackendReply [] 200 ∅ "ok".

Definition spoofed : Header :=
  <["X-Restrego-User" := ["root"]]> {["Accept" := ["*/*"]]}.
Definition allow : result value :=
  Ok (VMap [("allow", VBool true); ("user_id", VStr "alice")]).

Lemma spoofed_server_header : server_header spoofed.
Proof.
  intros k vs. unfold spoofed.
  rewrite lookup_insert, lookup_singleton. repeat case_decide; intros; by simplify_eq.
Qed.
End Sample.

Section properties.
Context `{Unicode} {P V : Type} `{!AuthProvider P} `{!Validator V}.
Context (backend : Request → Header → backend_reply).
Context (chi_route : Request → route).
Context (labels_valid : labels → bool).
Local Abbreviation W := (World P V).

(** C1: the whole middleware chain implements the decision function
    [verdict_of]: a request the decision rejects is answered by the proxy with
    exactly the decided status (401/503/500 from authentication, 403/500 from
    the policy) and nothing reaches the backend; one it accepts is sent to the
    backend exactly once, with the client's headers less every X-Restrego-*
    one, extended with the policy's result, less the hop-by-hop ones, and the
    client gets the backend's status, header and body (502 without an answer);
    where the decision is a crash the handler panics with nothing sent. *)
Theorem mux_refines_verdict p r (w : W) :
  (∀ r, chi_route r = ToProxy) →
  server_header (header w) → rw_sent (response w) = None →
  implements backend (verdict_of p r w) r w
    (mux backend chi_route labels_valid p ServerWriter r w).
Proof. apply mux_implements. Qed.

Lemma foldl_policy_lookup h m k vs :
  foldl (λ h e, set_policy_header e h) h m !! k = Some vs →
  h !! k = Some vs
  ∨ ∃ e, e ∈ m ∧ k = CanonicalHeaderKey (header_name e.1)
         ∧ vs = [header_text e.2] ∧ header_text e.2 ≠ "".
Proof.
  revert h. induction m as [|e m IH]; intros h; simpl; [by left|].
  intros [Hin|(e' & He' & ?)]%IH; [|right; exists e'; split; [by right|done]].
  unfold set_policy_header, Header_Set in Hin.
  destruct (0 <? String.length (header_text e.2))%nat eqn:El; [|by left].
  apply lookup_insert_Some in Hin as [[<- <-]|[_ ?]]; [|by left].
  right. exists e. split; [by left|]. repeat split.
  intros Hn. by rewrite Hn in El.
Qed.

(** C7: the backend can trust the X-Restrego-* headers it receives: whatever a
    client sends, in whatever letter case, a header of a forwarded request
    whose name reads as X-Restrego-* is one entry of the policy's result: its
    canonical name and exactly its text. *)
Theorem backend_headers_trusted p r (w : W) r' h' k vs :
  (∀ r, chi_route r = ToProxy) →
  server_header (header w) → rw_sent (response w) = None →
  backend_calls w = [] →
  (r', h') ∈ backend_calls (mux backend chi_route labels_valid p ServerWriter r w).2 →
  restrego_like k → h' !! k = Some vs →
  ∃ m name v,
    verdict_of p r w = VForward m ∧ (name, v) ∈ m
    ∧ k = CanonicalHeaderKey ("X-Restrego-" +:+ ReplaceAll name "_" "-")
    ∧ vs = [header_text v].
Proof.
  intros Hroute Hh Hs Hb Hin Hk Hvs.
  pose proof (mux_implements backend chi_route labels_valid p r w Hroute Hh Hs) as Hm.
  destruct (verdict_of p r w) as [|code|m]; simpl in Hm.
  - destruct Hm as (_ & _ & Hc). rewrite Hc, Hb in Hin. by apply elem_of_nil in Hin.
  - destruct Hm as (_ & Hc). rewrite Hc, Hb in Hin. by apply elem_of_nil in Hin.
  - destruct Hm as (r0 & _ & Hc & _). rewrite Hc, Hb in Hin. simpl in Hin.
    apply list_elem_of_singleton in Hin. injection Hin as -> ->.
    eapply lookup_weaken in Hvs as Hl; [|apply removeHopByHopHeaders_subset].
    apply foldl_policy_lookup in Hl.
    destruct Hl as [Hl|([name v] & He & -> & -> & _)].
    + by rewrite clean_header_not_restrego in Hl.
    + exists m, name, v. done.
Qed.
End properties.

(** *** The four theorems on a spoofing request *)

Local Abbreviation sample_run h answer :=
  (mux Sample.ok_backend Sample.to_proxy Sample.any_label Sample.proxy ServerWriter
     Sample.request (Sample.world h answer)).

Lemma mux_refines_verdict_witness :
  verdict_of Sample.proxy Sample.request (Sample.world Sample.spoofed Sample.allow)
    = VForward [("allow", VBool true); ("user_id", VStr "alice")]
  ∧ implements Sample.ok_backend
      (verdict_of Sample.proxy Sample.request (Sample.world Sample.spoofed Sample.allow))
      Sample.request (Sample.world Sample.spoofed Sample.allow)
      (sample_run Sample.spoofed Sample.allow).
Proof.
  split; [vm_compute; reflexivity|].
  exact (mux_refines_verdict Sample.ok_backend Sample.to_proxy Sample.any_label
    Sample.proxy Sample.request (Sample.world Sample.spoofed Sample.allow)
    (λ _, eq_refl) Sample.spoofed_server_header eq_refl).
Defined.

Lemma backend_headers_trusted_witness :
  ∃ m name v,
    verdict_of Sample.proxy Sample.request (Sample.world Sample.spoofed Sample.allow)
      = VForward m ∧ (name, v) ∈ m
    ∧ "X-Restrego-User-Id" = CanonicalHeaderKey ("X-Restrego-" +:+ ReplaceAll name "_" "-")
    ∧ ["alice"] = [header_text v].
Proof.
  assert (Hc : ∃ r' h',
    backend_calls (sample_run Sample.spoofed Sample.allow).2 = [(r', h')]
    ∧ h' !! "X-Restrego-User-Id" = Some ["alice"]).
  { eexists _, _. split; [vm_compute; reflexivity|vm_compute; reflexivity]. }
  destruct Hc as (r' & h' & Hc & Hv).
  apply (backend_headers_trusted Sample.ok_backend Sample.to_proxy Sample.any_label
    Sample.proxy Sample.request (Sample.world Sample.spoofed Sample.allow) r' h'
    "X-Restrego-User-Id" ["alice"] (λ _, eq_refl) Sample.spoofed_server_header
    eq_refl eq_refl); [|reflexivity|exact Hv].
  rewrite Hc. left.
Defined.

(** ** Header cleanup *)

(** [CleanupHandler] hands on exactly the client's headers less the
    X-Restrego-* ones, whatever the feature flag: with the flag on and such a
    header present it adds to the context exactly the removed headers with all
    their values and counts them; no name that reads as X-Restrego-* in any
    letter case is left. *)
Theorem CleanupHandler_spec {P V} (p : Proxy) (next : Handler P V) wr r (w : World P V) :
  server_header (header w) →
  CleanupHandler p next wr r w
    = next wr (cleaned_request p (header w) r) (cleaned_world p w)
  ∧ (∀ k, restrego_like k → header (cleaned_world p w) !! k = None)
  ∧ (∀ k, ¬ restrego k → header (cleaned_world p w) !! k = header w !! k)
  ∧ (∀ k m, ctx_blocked r = None →
       ctx_blocked (cleaned_request p (header w) r) = Some m →
       exposed p = true
       ∧ m !! k = if decide (restrego k) then header_value <$> header w !! k else None).
Proof.
  intros Hh. split; [by apply CleanupHandler_run|]. split; [|split].
  - intros k Hk. by apply clean_header_not_restrego.
  - intros k Hk. simpl. unfold clean_header. rewrite map_lookup_filter.
    destruct (header w !! k); simpl; [|done]. by case_guard.
  - intros k m Hr. unfold cleaned_request.
    destruct (captures p (header w)) eqn:Ec; [|congruence].
    unfold captures in Ec. apply andb_true_iff in Ec as [Hexp _].
    intros [= <-]. split; [done|]. rewrite lookup_fmap. unfold blocked_header.
    rewrite map_lookup_filter. destruct (header w !! k) as [l|]; cbn [mbind option_bind].
    + destruct (decide (restrego k));
        [by rewrite option_guard_True|by rewrite option_guard_False].
    + by destruct (decide (restrego k)).
Qed.

Lemma CleanupHandler_spec_witness :
  ctx_blocked (cleaned_request Sample.proxy Sample.spoofed Sample.request)
    = Some {["X-Restrego-User" := VStr "root"]}
  ∧ header (cleaned_world Sample.proxy (Sample.world Sample.spoofed Sample.allow))
      !! "X-RESTREGO-USER" = None.
Proof.
  split; [vm_compute; reflexivity|].
  exact (proj1 (proj2 (CleanupHandler_spec Sample.proxy (λ _ _, mret tt) ServerWriter
    Sample.request (Sample.world Sample.spoofed Sample.allow)
    Sample.spoofed_server_header)) "X-RESTREGO-USER" eq_refl).
Defined.

(** ** Policy headers and the order of a range over a map *)

Definition policy_key (e : string * value) : string := CanonicalHeaderKey (header_name e.1).

Lemma set_policy_header_comm e1 e2 h :
  policy_key e1 ≠ policy_key e2 →
  set_policy_header e1 (set_policy_header e2 h)
  = set_policy_header e2 (set_policy_header e1 h).
Proof.
  unfold policy_key, set_policy_header, Header_Set. intros Hne.
  repeat case_match; try done. by rewrite insert_insert_ne.
Qed.

(** The headers [ServeHTTP] adds do not depend on the order in which Go
    ranges over the policy's result, provided no two of its keys name the same
    header after the underscore replacement and canonicalisation. *)
Theorem policy_headers_order m m' h :
  NoDup (map policy_key m) → m ≡ₚ m' →
  foldl (λ h e, set_policy_header e h) h m = foldl (λ h e, set_policy_header e h) h m'.
Proof.
  intros Hnd Hp. revert h Hnd.
  induction Hp as [|e m m' Hp IH|e1 e2 m|m1 m2 m3 Hp1 IH1 Hp2 IH2]; intros h Hnd;
    simpl in *; [done|..].
  - apply NoDup_cons in Hnd as [_ Hnd]. by apply IH.
  - apply NoDup_cons in Hnd as [Hni _]. rewrite set_policy_header_comm; [done|].
    set_solver.
  - rewrite IH1 by done. apply IH2. by rewrite <- Hp1.
Qed.

Lemma policy_headers_order_witness :
  foldl (λ h e, set_policy_header e h) ∅ [("allow", VBool true); ("user_id", VNum "7")]
  = foldl (λ h e, set_policy_header e h) ∅ [("user_id", VNum "7"); ("allow", VBool true)].
Proof.
  apply policy_headers_order.
  - apply (bool_decide_eq_true_1
      (NoDup (map policy_key [("allow", VBool true); ("user_id", VNum "7")]))).
    vm_compute. reflexivity.
  - apply Permutation_swap.
Defined.

(** Two result keys that name the same header ("user_id" and "user-id")
    overwrite each other, so which value the backend gets depends on the
    iteration order of the map, which Go does not specify. *)
Theorem policy_headers_collision h e1 e2 :
  policy_key e1 = policy_key e2 →
  header_text e1.2 ≠ "" → header_text e2.2 ≠ "" →
  foldl (λ h e, set_policy_header e h) h [e1; e2] !! policy_key e1 = Some [header_text e2.2]
  ∧ foldl (λ h e, set_policy_header e h) h [e2; e1] !! policy_key e1 = Some [header_text e1.2].
Proof.
  intros Hk H1 H2. unfold policy_key in *. simpl.
  assert (Hpos : ∀ s, s ≠ "" → (0 <? String.length s)%nat = true) by (by intros []).
  unfold set_policy_header, Header_Set. rewrite !Hpos by done.
  rewrite <- Hk, !lookup_insert_eq. done.
Qed.

Lemma policy_headers_collision_witness :
  policy_key ("user_id", VStr "a") = "X-Restrego-User-Id"
  ∧ foldl (λ h e, set_policy_header e h) ∅ [("user_id", VStr "a"); ("user-id", VStr "b")]
      !! "X-Restrego-User-Id" = Some ["b"]
  ∧ foldl (λ h e, set_policy_header e h) ∅ [("user-id", VStr "b"); ("user_id", VStr "a")]
      !! "X-Restrego-User-Id" = Some ["a"].
Proof.
  split; [vm_compute; reflexivity|].
  apply (policy_headers_collision ∅ ("user_id", VStr "a") ("user-id", VStr "b")).
  - vm_compute. reflexivity.
  - discriminate.
  - discriminate.
Defined.

(** ** Hop-by-hop removal *)

Lemma policy_key_X e : String.get 0 (policy_key e) = Some "X"%char.
Proof.
  unfold policy_key, CanonicalHeaderKey, header_name, headerPrefix.
  case_match; [rewrite canon_key_append|].
  - change (canon_key true "X-Restrego-") with "X-Restrego-". by rewrite append_cons.
  - by rewrite append_cons.
Qed.

Lemma foldl_policy_other h m k :
  String.get 0 k ≠ Some "X"%char →
  foldl (λ h e, set_policy_header e h) h m !! k = h !! k.
Proof.
  intros Hk. revert h. induction m as [|e m IH]; intros h; [done|]. simpl. rewrite IH.
  unfold set_policy_header, Header_Set. case_match; [|done].
  rewrite lookup_insert_ne; [done|]. intros <-. exact (Hk (policy_key_X e)).
Qed.

Lemma foldl_policy_set h m e :
  e ∈ m → header_text e.2 ≠ "" →
  is_Some (foldl (λ h e, set_policy_header e h) h m !! policy_key e).
Proof.
  intros He Ht. revert h. induction m as [|e' m IH] using rev_ind; intros h;
    [by apply elem_of_nil in He|].
  rewrite foldl_app. simpl. unfold set_policy_header at 1, Header_Set.
  apply elem_of_app in He as [He|<-%list_elem_of_singleton].
  - case_match; [|by apply IH]. fold (policy_key e').
    destruct (decide (policy_key e' = policy_key e)) as [->|];
      [rewrite lookup_insert_eq; eauto|rewrite lookup_insert_ne by done; by apply IH].
  - destruct (header_text e.2) as [|c s]; [done|]. simpl.
    fold (policy_key e). rewrite lookup_insert_eq. eauto.
Qed.

Lemma connection_names_clean h m :
  connection_names (foldl (λ h e, set_policy_header e h) (clean_header h) m)
  = connection_names h.
Proof.
  unfold connection_names. rewrite foldl_policy_other by done.
  unfold clean_header. rewrite map_lookup_filter. by destruct (h !! "Connection").
Qed.

Section connection.
Context `{Unicode} {P V : Type} `{!AuthProvider P} `{!Validator V}.
Context (backend : Request → Header → backend_reply).
Context (chi_route : Request → route).
Context (labels_valid : labels → bool).

(** C40: a client decides which policy headers the backend gets: of a request that
    is forwarded with a policy result, an entry with a text becomes a header at
    the backend unless, and only unless, the client's own Connection header
    names it: "Connection: X-Restrego-User" strips the header the policy set. *)
Theorem connection_strips_policy_header p r (w : World P V) m name v :
  (∀ r, chi_route r = ToProxy) →
  server_header (header w) → rw_sent (response w) = None →
  verdict_of p r w = VForward m → (name, v) ∈ m → header_text v ≠ "" →
  ∃ r' out,
    backend_calls (mux backend chi_route labels_valid p ServerWriter r w).2
      = backend_calls w ++ [(r', out)]
    ∧ (out !! policy_key (name, v) = None ↔
       policy_key (name, v) ∈ map CanonicalHeaderKey (connection_names (header w))).
Proof.
  intros Hroute Hh Hs Hv Hin Ht.
  pose proof (mux_implements backend chi_route labels_valid p r w Hroute Hh Hs) as Hm.
  rewrite Hv in Hm. destruct Hm as (r' & _ & Hc & _). eexists r', _. split; [exact Hc|].
  unfold removeHopByHopHeaders. rewrite !foldl_Header_Del_lookup, connection_names_clean.
  rewrite decide_False.
  - case_decide; [done|].
    destruct (foldl_policy_set (clean_header (header w)) m (name, v) Hin Ht) as [vs ->].
    by split.
  - intros Hhop. pose proof (policy_key_X (name, v)) as HX.
    change (map _ hopHeaders) with hopHeaders in Hhop. revert HX.
    assert (Hnot : Forall (λ k, String.get 0 k ≠ Some "X"%char) hopHeaders)
      by (repeat constructor; done).
    rewrite Forall_forall in Hnot. exact (Hnot _ Hhop).
Qed.
End connection.

(** The header the policy adds for this client is stripped. *)
Lemma connection_strips_policy_header_witness :
  let h : Header := {["Connection" := ["close, X-Restrego-User-Id"]]} in
  ∃ r' out, backend_calls (sample_run h Sample.allow).2 = [(r', out)]
    ∧ out !! "X-Restrego-User-Id" = None.
Proof.
  intros h.
  destruct (connection_strips_policy_header Sample.ok_backend Sample.to_proxy Sample.any_label
    Sample.proxy Sample.request (Sample.world h Sample.allow)
    [("allow", VBool true); ("user_id", VStr "alice")] "user_id" (VStr "alice"))
    as (r' & out & Hc & Hstrip).
  - reflexivity.
  - intros k vs Hk. simpl in Hk. unfold h in Hk. apply lookup_singleton_Some in Hk as [<- <-]. done.
  - reflexivity.
  - vm_compute. reflexivity.
  - right. left.
  - discriminate.
  - exists r', out. split; [exact Hc|]. apply Hstrip.
    apply (bool_decide_eq_true_1 (policy_key ("user_id", VStr "alice")
      ∈ map CanonicalHeaderKey (connection_names h))).
    vm_compute. reflexivity.
Defined.

(** ** The response tracker *)

(** What a handler does to its writer. *)
Inductive writer_op := OpWriteHeader (code : Z) | OpWrite (data : string).

Section tracker.
Context {P V : Type}.
Local Abbreviation W := (World P V).

Definition run_op (o : writer_op) : go W unit :=
  match o with
  | OpWriteHeader code => WriteHeader TrackedWriter code
  | OpWrite data => _ ← Write TrackedWriter data; mret tt
  end.

Definition op_ok (o : writer_op) : Prop :=
  match o with OpWriteHeader code => (200 ≤ code ≤ 999)%Z | OpWrite _ => True end.

(** Once the status is sent the tracker and the response stay as they are. *)
Definition settled (code : Z) (w : W) : Prop :=
  Status w = code ∧ wroteHeader (tracker w) = true
  ∧ Size w = Z.of_nat (String.length (rw_body (response w)))
  ∧ ∃ h, rw_sent (response w) = Some (code, h).

Lemma settled_op code o (w : W) :
  settled code w → ∃ w', run_op o w = (Done tt, w') ∧ settled code w'.
Proof.
  intros (Hst & Hwr & Hsz & h & Hs). destruct o as [c|data]; cbn [run_op WriteHeader Write].
  - unfold tracker_WriteHeader, on_response. go_unfold. rewrite Hwr.
    unfold resp_WriteHeader. rewrite Hs. eexists. split; [done|].
    split_and!; [done|done|done|by exists h].
  - unfold tracker_Write. rewrite go_bind_assoc.
    destruct (Write_done ServerWriter data w code h Hs) as (n & w1 & E & Hs1 & _ & Hst1 & Hb1 & _).
    assert (Ht : tracker w1 = tracker w).
    { revert E. simpl. unfold on_response. destruct (resp_Write data (response w)).
      intros [= _ <-]. done. }
    erewrite go_bind_done by exact E. go_unfold. eexists. split; [done|].
    unfold settled, Status, Size in *. simpl. rewrite Ht, Hsz, Hb1. split_and!; try done; [lia|].
    by exists h.
Qed.

Lemma settled_ops code ops (w : W) :
  settled code w → ∃ w', go_iter run_op ops w = (Done tt, w') ∧ settled code w'.
Proof.
  revert w. induction ops as [|o ops IH]; intros w Hw; [by exists w|].
  destruct (settled_op code o w Hw) as (w1 & E & Hw1). cbn [go_iter].
  erewrite go_bind_done by exact E. by apply IH.
Qed.

(** The status the tracker reports to the metrics and the log is the
    status the client received, whatever a handler writes after its first
    [WriteHeader] (later calls, bodies), when that first call is a final
    status; and the size it reports is that of the body that was accepted. *)
Theorem tracker_status_correct code ops (w : W) :
  (200 ≤ code ≤ 999)%Z → rw_sent (response w) = None → rw_body (response w) = "" →
  tracker w = newResponseTracker →
  ∃ w' h, go_iter run_op (OpWriteHeader code :: ops) w = (Done tt, w')
          ∧ rw_sent (response w') = Some (code, h) ∧ Status w' = code
          ∧ Size w' = Z.of_nat (String.length (rw_body (response w'))).
Proof.
  intros Hc Hs Hb Ht.
  destruct (WriteHeader_sends TrackedWriter code w) as (w1 & E & Hs1 & _ & Hst & _);
    [done..|].
  assert (Hw1 : settled code w1).
  { split; [apply Hst; [done|by rewrite Ht]|].
    assert (Hbody : rw_body (resp_WriteHeader code (response w)).2 = "").
    { unfold resp_WriteHeader. rewrite Hs. destruct (declared_length _).
      by repeat case_match. }
    revert E. cbn [WriteHeader]. unfold tracker_WriteHeader, on_response. go_unfold.
    rewrite Ht. simpl. destruct (resp_WriteHeader code (response w)) as [o resp].
    intros [= _ <-]. simpl in *. split_and!; [done|by rewrite Hbody|by eexists]. }
  destruct (settled_ops code ops w1 Hw1) as (w' & E' & Hst' & _ & Hsz & h & Hs').
  exists w', h. cbn [go_iter run_op]. by erewrite go_bind_done by exact E.
Qed.

(** After an informational (1xx) response, which the reverse proxy relays
    through [WriteHeader], the tracker keeps the informational code for good:
    the client receives the final status but log and metrics report the
    informational one. *)
Theorem tracker_status_informational info code (w : W) :
  (100 ≤ info ≤ 199)%Z → info ≠ 101%Z → (200 ≤ code ≤ 999)%Z →
  rw_sent (response w) = None → tracker w = newResponseTracker →
  ∃ w' h, go_iter run_op [OpWriteHeader info; OpWriteHeader code] w = (Done tt, w')
          ∧ rw_sent (response w') = Some (code, h) ∧ Status w' = info.
Proof.
  intros Hi H101 Hc Hs Ht.
  set (resp1 := mkResponse (rw_header (response w))
    (rw_informational (response w) ++ [info]) None (rw_contentLength (response w))
    (rw_written (response w)) (rw_body (response w))).
  assert (E1 : WriteHeader TrackedWriter info w
    = (Done tt, set_response resp1 (set_tracker (mkTracker info 0 true) w))).
  { cbn [WriteHeader]. unfold tracker_WriteHeader.
    erewrite go_bind_done by reflexivity. rewrite Ht.
    unfold on_response, resp_WriteHeader. simpl. rewrite Hs.
    rewrite (proj2 (Z.ltb_ge info 100)), (proj2 (Z.ltb_ge 999 info)),
      (proj2 (Z.leb_le 100 info)), (proj2 (Z.leb_le info 199)),
      (proj2 (Z.eqb_neq info 101)) by lia. done. }
  set (w1 := set_response _ _) in E1.
  destruct (WriteHeader_sends TrackedWriter code w1) as (w2 & E2 & Hs2 & _ & _);
    [done..|].
  exists w2. eexists. cbn [go_iter run_op].
  erewrite go_bind_done by exact E1. erewrite go_bind_done by exact E2.
  split; [done|]. split; [exact Hs2|].
  revert E2. cbn [WriteHeader]. unfold tracker_WriteHeader.
  erewrite go_bind_done by reflexivity. unfold on_response. simpl.
  destruct (resp_WriteHeader code resp1). by intros [= _ <-].
Qed.
End tracker.

Lemma tracker_status_correct_witness :
  ∃ w' h, go_iter run_op [OpWriteHeader 403; OpWrite "denied"; OpWriteHeader 200]
            (Sample.world ∅ Sample.allow) = (Done tt, w')
          ∧ rw_sent (response w') = Some (403%Z, h) ∧ Status w' = 403%Z
          ∧ Size w' = Z.of_nat (String.length (rw_body (response w'))).
Proof.
  apply (tracker_status_correct 403 [OpWrite "denied"; OpWriteHeader 200]
    (Sample.world ∅ Sample.allow)); [lia|reflexivity|reflexivity|reflexivity].
Defined.

Lemma tracker_status_informational_witness :
  ∃ w' h, go_iter run_op [OpWriteHeader 103; OpWriteHeader 200]
            (Sample.world ∅ Sample.allow) = (Done tt, w')
          ∧ rw_sent (response w') = Some (200%Z, h) ∧ Status w' = 103%Z.
Proof.
  apply (tracker_status_informational 103 200 (Sample.world ∅ Sample.allow));
    [lia|discriminate|lia|reflexivity|reflexivity].
Defined.

(** ** The metrics of a request *)

(** The "url" label: the policy's "url" when it is a non-empty string. *)
Definition policy_url (v : verdict) (u : string) : string :=
  match v with
  | VForward m =>
      match map_get m "url" with
      | Some (VStr s) => if negb (String.eqb s "") then s else u
      | _ => u
      end
  | _ => u
  end.

Section labels.
Context `{Unicode} {P V : Type} `{!AuthProvider P} `{!Validator V}.
Context (backend : Request → Header → backend_reply).
Context (chi_route : Request → route).
Context (labels_valid : labels → bool).
Local Abbreviation W := (World P V).

Record same_infos (w w' : W) : Prop := {
  si_infos : infos w' = infos w;
  si_metrics : metrics w' = metrics w
}.

#[local] Instance same_infos_preorder : PreOrder same_infos.
Proof. split; [by split|]. intros ??? [] []; split; congruence. Qed.

Lemma same_store_infos {A} (m : go W A) : preserves same_store m → preserves same_infos m.
Proof. intros Hm w. destruct (Hm w). by split. Qed.

Hint Resolve same_store_infos preserves_on_response preserves_WriteHeader
  preserves_Write preserves_http_Error : rego.

Lemma preserves_infos_ServeHTTP p wr r : preserves same_infos (ServeHTTP backend p wr r).
Proof.
  unfold ServeHTTP. apply preserves_bind; [apply _| |intros _].
  - case_match; [|apply preserves_ret, _].
    apply preserves_bind; [apply _| |intros i].
    + intros w. unfold deref. by case_match.
    + case_match; try apply preserves_ret, _.
      apply preserves_iter; [apply _|]. intros e. by apply preserves_modify.
  - unfold backend_ServeHTTP.
    apply preserves_bind; [apply _|apply preserves_gets, _|intros h].
    apply preserves_bind; [apply _|by apply preserves_modify|intros _].
    case_match; [auto with rego|].
    repeat (apply preserves_bind; [apply _| |intros ?]); auto with rego.
    + apply preserves_iter; [apply _|]. auto with rego.
    + unfold response_header. auto with rego.
    + apply preserves_ret, _.
Qed.

Lemma preserves_infos_chi p wr r :
  preserves same_infos (chi_dispatch backend chi_route p wr r).
Proof.
  unfold chi_dispatch. case_match; auto using preserves_infos_ServeHTTP with rego.
Qed.

(** The info at [l] and the metrics after a handler that only answers. *)
Lemma answers_url {A} (m : go W A) (w : W) l i :
  preserves same_infos m → infos w !! l = Some i →
  metrics (m w).2 = metrics w ∧ ∃ i', infos (m w).2 !! l = Some i' ∧ URL i' = URL i.
Proof. intros Hm Hi. destruct (Hm w) as [Hinf Hmet]. rewrite Hinf. eauto. Qed.

Lemma policyHandler_url p wr r (w : W) l i :
  GetInfo r = Some l → infos w !! l = Some i →
  let w' := (policyHandler p (chi_dispatch backend chi_route p) wr r w).2 in
  metrics w' = metrics w
  ∧ ∃ i', infos w' !! l = Some i'
          ∧ URL i' = policy_url match Validate (requestName p) i (validator w) with
                                | (Panic _, _) => VCrash
                                | (Done res, _) => policy_verdict res
                                end (URL i).
Proof.
  intros Hl Hi. cbv zeta. unfold policyHandler. rewrite Hl.
  erewrite go_bind_done by (unfold deref; simpl; rewrite Hi; reflexivity). cbv beta.
  unfold on_validator.
  destruct (Validate (requestName p) i (validator w)) as [[res|why] v'] eqn:EV.
  2: { erewrite go_bind_panic by (rewrite EV; reflexivity). simpl. eauto. }
  erewrite go_bind_done by (rewrite EV; reflexivity). cbv beta.
  set (w1 := set_validator v' w).
  assert (Herr : ∀ msg code, let w' := (http_Error wr msg code w1).2 in
    metrics w' = metrics w ∧ ∃ i', infos w' !! l = Some i' ∧ URL i' = URL i).
  { intros msg code. apply (answers_url _ w1); [|done].
    apply same_store_infos, preserves_http_Error. }
  destruct res as [[| | | | | |m]|e]; try apply Herr. unfold policy_verdict.
  assert (Hchi : ∀ k : go W unit, preserves same_infos k → ∀ (w2 : W) i2,
    infos w2 !! l = Some i2 → metrics w2 = metrics w →
    metrics (k w2).2 = metrics w
    ∧ ∃ i', infos (k w2).2 !! l = Some i' ∧ URL i' = URL i2).
  { intros k Hk w2 i2 Hi2 <-. by apply answers_url. }
  destruct (map_get m "allow") as [[|b| | | | |]|]; try apply Herr.
  erewrite go_bind_done by reflexivity. cbv beta.
  set (w2 := set_infos _ w1).
  assert (Hi2 : infos w2 !! l = Some (set_Result (VMap m) i)).
  { simpl. by rewrite list_lookup_alter_eq, Hi. }
  destruct b; cbn [negb]; cbv iota.
  2: { apply (Hchi _ (same_store_infos _ (preserves_http_Error wr "access denied" 403))
         w2 _ Hi2 eq_refl). }
  pose proof (preserves_infos_chi p wr r) as Hk.
  cbn [policy_url].
  destruct (map_get m "url") as [[| |url| | | |]|];
    try apply (Hchi _ Hk w2 _ Hi2 eq_refl).
  destruct (negb (String.eqb url "")); [|apply (Hchi _ Hk w2 _ Hi2 eq_refl)].
  erewrite go_bind_done by reflexivity.
  apply (Hchi _ Hk _ (set_URL url (set_Result (VMap m) i))); [|done].
  simpl in *. by rewrite list_lookup_alter_eq, Hi2.
Qed.

Lemma authHandler_url `{!LawfulAuth P} p r (w : W) l i :
  GetInfo r = Some l → infos w !! l = Some i →
  let w' := (authHandler p (policyHandler p (chi_dispatch backend chi_route p))
               TrackedWriter r w).2 in
  metrics w' = metrics w
  ∧ ∃ i', infos w' !! l = Some i'
          ∧ URL i' = policy_url
              match Authenticate r (header w) (i, provider w) with
              | (Panic _, _) => VCrash
              | (Done (Some e), _) => VReject (auth_status e)
              | (Done None, (i', _)) =>
                  match Validate (requestName p) i' (validator w) with
                  | (Panic _, _) => VCrash
                  | (Done res, _) => policy_verdict res
                  end
              end (URL i).
Proof.
  intros Hl Hi. cbv zeta. unfold authHandler. rewrite Hl.
  assert (Hcall : call_Authenticate r l w
    = let '(o, (i', prov)) := Authenticate r (header w) (i, provider w) in
      (o, set_provider prov (set_infos (<[l := i']> (infos w)) w))).
  { unfold call_Authenticate. by rewrite Hi. }
  destruct (Authenticate r (header w) (i, provider w)) as [o [i' prov]] eqn:EA.
  pose proof (sr_url _ _ (auth_frame _ _ _ _ _ _ _ EA)) as Hurl.
  set (w1 := set_provider prov _) in Hcall.
  assert (Hi1 : infos w1 !! l = Some i').
  { apply list_lookup_insert_eq. by eapply lookup_lt_Some. }
  assert (Hans : ∀ k : go W unit, preserves same_store k →
    metrics (k w1).2 = metrics w
    ∧ ∃ i1, infos (k w1).2 !! l = Some i1 ∧ URL i1 = URL i).
  { intros k Hk. rewrite <- Hurl.
    by apply (answers_url k w1 l i'), Hi1; apply same_store_infos. }
  destruct o as [[e|]|why].
  - erewrite go_bind_done by exact Hcall. cbv beta iota. apply Hans.
    repeat case_match; try apply preserves_http_Error.
    apply preserves_bind; [apply _|apply preserves_gets, _|intros challenger].
    apply preserves_bind; [apply _|apply preserves_on_response|intros _].
    apply preserves_http_Error.
  - erewrite go_bind_done by exact Hcall. cbv beta. rewrite <- Hurl.
    apply (policyHandler_url p TrackedWriter r w1 l i' Hl Hi1).
  - erewrite go_bind_panic by exact Hcall. simpl. rewrite <- Hurl. eauto.
Qed.

(** C29: a request is recorded in the metrics exactly once when its handling
    completes and not at all when it panics; it is recorded under its method,
    the status the tracker holds, the size written, and as "url" the policy's
    non-empty "url" string or else the truncated request path.  It does not
    matter which lawful provider authenticated it. *)
Theorem metrics_of_request `{!LawfulAuth P} p c r (w : W) i :
  config p = Some c → server_header (header w) →
  NewInfo (cleaned_request p (header w) r) (clean_header (header w))
    (authKey p) (URLMetricsLevel c) = Done i →
  let '(o, w') := mux backend chi_route labels_valid p ServerWriter r w in
  let before := cleaned_metrics p (header w) (metrics w) in
  (o = Done tt →
     recorded_once (req_Method r, Itoa (Status w'), policy_url (verdict_of p r w) (URL i))
       (req_ContentLength r) (Size w') before (metrics w')
     ∧ total_requests (metrics w') = S (total_requests (metrics w)))
  ∧ (∀ why, o = Panic why → metrics w' = before).
Proof.
  intros Hc Hh Hi. unfold mux. rewrite CleanupHandler_run by done.
  unfold verdict_of, WrapHandler. rewrite Hc, Hi.
  erewrite go_bind_done by reflexivity. cbv beta.
  erewrite go_bind_done by reflexivity. cbv beta.
  erewrite go_bind_done by reflexivity. cbv beta. unfold go_outcome.
  simpl header. rewrite Hi.
  erewrite go_bind_done by reflexivity. cbv beta.
  erewrite go_bind_done by reflexivity. cbv beta. simpl infos.
  set (r2 := RequestWithInfo _ _). set (w1 := set_infos _ _).
  assert (Hi1 : infos w1 !! length (infos w) = Some i).
  { simpl. by rewrite lookup_app_r, Nat.sub_diag by lia. }
  destruct (authHandler_url p r2 w1 (length (infos w)) i eq_refl Hi1) as (Hm & i' & Hi' & Hurl).
  unfold Wrap.
  destruct (authHandler p (policyHandler p (chi_dispatch backend chi_route p))
              TrackedWriter r2 w1) as [[[]|why] w'] eqn:E; simpl in Hm, Hi', Hurl.
  - erewrite go_bind_done by exact E. cbv beta.
    erewrite go_bind_done by (unfold deref; simpl; rewrite Hi'; reflexivity).
    go_unfold. rewrite Hurl.
    assert (Hreq : req_Method r2 = req_Method r ∧ req_ContentLength r2 = req_ContentLength r).
    { unfold r2, cleaned_request. by destruct (captures p (header w)). }
    destruct Hreq as [-> ->].
    destruct (labels_valid _); cbn [fst snd].
    + split; [intros _|by intros why [=]]. simpl metrics. rewrite Hm.
      split; [apply record_request_once|]. rewrite total_requests_record. f_equal.
      unfold w1, cleaned_metrics. simpl. by destruct (captures p (header w)).
    + split; [by intros [=]|]. intros why _. by rewrite Hm.
  - erewrite go_bind_panic by exact E. by split.
Qed.
End labels.

Lemma metrics_of_request_witness :
  ∃ w', sample_run Sample.spoofed Sample.allow = (Done tt, w')
        ∧ total_requests (metrics w') = 1%nat.
Proof.
  assert (Hw : ∃ w', sample_run Sample.spoofed Sample.allow = (Done tt, w')).
  { eexists. vm_compute. reflexivity. }
  assert (Hi : ∃ i, NewInfo (cleaned_request Sample.proxy Sample.spoofed Sample.request)
    (clean_header Sample.spoofed) "Authorization" 0 = Done i).
  { eexists. vm_compute. reflexivity. }
  destruct Hw as [w' Hw], Hi as [i Hi]. exists w'. split; [exact Hw|].
  pose proof (metrics_of_request Sample.ok_backend Sample.to_proxy
    Sample.any_label Sample.proxy Sample.fields Sample.request
    (Sample.world Sample.spoofed Sample.allow) i
    eq_refl Sample.spoofed_server_header Hi) as HT.
  rewrite Hw in HT.
  exact (proj2 (proj1 HT eq_refl)).
Defined.
