(* ===== verification/PolicyInput.v ===== *)
(** * What the policy is given

    The validator is called at most once for a request, and its input has the
    shape the policies rely on, whatever the client sent. *)

From S2P Require Import Prelude GoStrings GoValue GoHttp GoServer Config Types Metrics Server NoAuth Router RouterSpec RouterProps.

(** ** The one call of the validator *)

Section validator.
Context `{Unicode} {P V : Type} `{!AuthProvider P} `{!Validator V}.
Context (backend : Request → Header → backend_reply).
Context (chi_route : Request → route).
Context (labels_valid : labels → bool).
Local Abbreviation W := (World P V).

Definition same_validator (w w' : W) : Prop := validator w' = validator w.

#[local] Instance same_validator_preorder : PreOrder same_validator.
Proof. split; [by intros ?|]. intros ???. unfold same_validator. congruence. Qed.

Lemma same_store_validator {A} (m : go W A) : preserves same_store m → preserves same_validator m.
Proof. intros Hm w. by destruct (Hm w). Qed.

Hint Resolve same_store_validator preserves_on_response preserves_WriteHeader
  preserves_Write preserves_http_Error : rego.

Lemma preserves_validator_chi p wr r :
  preserves same_validator (chi_dispatch backend chi_route p wr r).
Proof.
  unfold chi_dispatch, ServeHTTP. case_match; auto with rego.
  apply preserves_bind; [apply _| |intros _].
  - case_match; [|apply preserves_ret, _].
    apply preserves_bind; [apply _|intros w; unfold deref; by case_match|intros i].
    case_match; try apply preserves_ret, _.
    apply preserves_iter; [apply _|]. intros e. by apply preserves_modify.
  - unfold backend_ServeHTTP.
    apply preserves_bind; [apply _|apply preserves_gets, _|intros h].
    apply preserves_bind; [apply _|by apply preserves_modify|intros _].
    case_match; [auto with rego|].
    repeat (apply preserves_bind; [apply _| |intros ?]); unfold response_header; auto with rego.
    + apply preserves_iter; [apply _|]. auto with rego.
    + apply preserves_ret, _.
Qed.

Lemma policyHandler_validator p wr r (w : W) l i :
  GetInfo r = Some l → infos w !! l = Some i →
  validator (policyHandler p (chi_dispatch backend chi_route p) wr r w).2
  = (Validate (requestName p) i (validator w)).2.
Proof.
  intros Hl Hi. unfold policyHandler. rewrite Hl.
  erewrite go_bind_done by (unfold deref; simpl; rewrite Hi; reflexivity). cbv beta.
  unfold on_validator.
  destruct (Validate (requestName p) i (validator w)) as [[res|why] v'] eqn:EV.
  2: { by erewrite go_bind_panic by (rewrite EV; reflexivity). }
  erewrite go_bind_done by (rewrite EV; reflexivity). cbv beta.
  assert (Hk : ∀ k : go W unit, preserves same_validator k →
    validator (k (set_validator v' w)).2 = v').
  { intros k Hk. apply (Hk (set_validator v' w)). }
  apply Hk. destruct res as [[| | | | | |m]|e]; try (by auto with rego).
  destruct (map_get m "allow") as [[|b| | | | |]|]; try (by auto with rego).
  apply preserves_bind; [apply _|by apply preserves_modify|intros _].
  destruct b; simpl negb; [|by auto with rego].
  apply preserves_bind; [apply _| |intros _; apply preserves_validator_chi].
  repeat case_match; by apply preserves_modify || apply preserves_ret, _.
Qed.

Lemma authHandler_validator p r (w : W) l i :
  GetInfo r = Some l → infos w !! l = Some i →
  validator (authHandler p (policyHandler p (chi_dispatch backend chi_route p))
               TrackedWriter r w).2
  = match Authenticate r (header w) (i, provider w) with
    | (Done None, (i', _)) => (Validate (requestName p) i' (validator w)).2
    | _ => validator w
    end.
Proof.
  intros Hl Hi. unfold authHandler. rewrite Hl.
  assert (Hcall : call_Authenticate r l w
    = let '(o, (i', prov)) := Authenticate r (header w) (i, provider w) in
      (o, set_provider prov (set_infos (<[l := i']> (infos w)) w))).
  { unfold call_Authenticate. by rewrite Hi. }
  destruct (Authenticate r (header w) (i, provider w)) as [o [i' prov]].
  set (w1 := set_provider prov _) in Hcall.
  destruct o as [[e|]|why].
  - erewrite go_bind_done by exact Hcall. cbv beta iota.
    assert (Hk : ∀ k : go W unit, preserves same_validator k → validator (k w1).2 = validator w)
      by (intros k Hk; apply (Hk w1)).
    apply Hk. repeat case_match; auto with rego.
    apply preserves_bind; [apply _|apply preserves_gets, _|intros challenger].
    apply preserves_bind; [apply _|unfold response_header; auto with rego|intros _].
    auto with rego.
  - erewrite go_bind_done by exact Hcall. cbv beta.
    apply (policyHandler_validator p TrackedWriter r w1 l i'); [done|].
    apply list_lookup_insert_eq. by eapply lookup_lt_Some.
  - by erewrite go_bind_panic by exact Hcall.
Qed.

(** The validator after a request: called once, on the info the provider left,
    if the request got that far. *)
Lemma mux_validator p c r (w : W) :
  config p = Some c → server_header (header w) →
  let h := clean_header (header w) in
  let r1 := cleaned_request p (header w) r in
  validator (mux backend chi_route labels_valid p ServerWriter r w).2
  = match NewInfo r1 h (authKey p) (URLMetricsLevel c) with
    | Panic _ => validator w
    | Done i =>
        match Authenticate (RequestWithInfo (length (infos w)) r1) h (i, provider w) with
        | (Done None, (i', _)) => (Validate (requestName p) i' (validator w)).2
        | _ => validator w
        end
    end.
Proof.
  intros Hc Hh. unfold mux. rewrite CleanupHandler_run by done. unfold WrapHandler. rewrite Hc.
  do 3 (erewrite go_bind_done by reflexivity; cbv beta). unfold go_outcome. simpl header.
  destruct (NewInfo _ _ _ _) as [i|why]; [|by erewrite go_bind_panic by reflexivity].
  do 2 (erewrite go_bind_done by reflexivity; cbv beta). simpl infos.
  set (r2 := RequestWithInfo _ _). set (w1 := set_infos _ _).
  assert (Hi1 : infos w1 !! length (infos w) = Some i).
  { simpl. by rewrite lookup_app_r, Nat.sub_diag by lia. }
  pose proof (authHandler_validator p r2 w1 (length (infos w)) i eq_refl Hi1) as Hv.
  destruct (authHandler p (policyHandler p (chi_dispatch backend chi_route p))
              TrackedWriter r2 w1) as [o w2] eqn:E.
  destruct (Wrap_run labels_valid _ r2 w1 w2 o E) as (o' & m & -> & _). exact Hv.
Qed.
End validator.

(** ** The input's shape *)

(** A header's value as JSON: a string, or a list of several. *)
Definition header_json (v : value) : Prop :=
  (∃ s, v = VStr s) ∨ ∃ l, v = VStrs l ∧ (2 ≤ length l)%nat.

Record policy_input (p : Proxy) (h : Header) (r : Request) (i : Info) : Prop := {
  pi_method : Method (RequestPart i) = req_Method r;
  pi_size : Types.Size (RequestPart i) = req_ContentLength r;
  pi_path : Path (RequestPart i) = Split (TrimPrefix (req_Path r) "/") "/";
  pi_segments : Path (RequestPart i) ≠ []
                ∧ Forall (λ s, byte_in "/" s = false) (Path (RequestPart i));
  (** Exactly the client's headers but for the X-Restrego ones. *)
  pi_headers k :
    Headers (RequestPart i) !! k
    = if HasPrefix k "X-Restrego-" then None else header_value <$> h !! k;
  pi_header_json k v : Headers (RequestPart i) !! k = Some v →
    CanonicalHeaderKey k = k ∧ ¬ restrego_like k ∧ header_json v;
  (** Exactly the X-Restrego ones, when exposing them is on and there are any. *)
  pi_blocked :
    match BlockedHeaders (RequestPart i) with
    | Some m =>
        exposed p = true ∧ m ≠ ∅
        ∧ (∀ k, m !! k = if HasPrefix k "X-Restrego-" then header_value <$> h !! k else None)
        ∧ ∀ k v, m !! k = Some v → header_json v
    | None => exposed p = false ∨ ∀ k, is_Some (h !! k) → HasPrefix k "X-Restrego-" = false
    end;
  pi_result : ResultOf i = VNil
}.

Lemma header_value_json vs : vs ≠ [] → header_json (header_value vs).
Proof.
  destruct vs as [|v [|v' vs]]; [done|by left; eexists|].
  intros _. right. eexists. split; [done|]. simpl. lia.
Qed.

Lemma header_value_server h k v :
  server_header h → header_value <$> h !! k = Some v → header_json v.
Proof. intros Hh (vs & Hk & ->)%fmap_Some. by apply header_value_json, (Hh _ _ Hk). Qed.

Lemma clean_header_lookup h k :
  clean_header h !! k = if HasPrefix k "X-Restrego-" then None else h !! k.
Proof.
  unfold clean_header, restrego. rewrite map_lookup_filter.
  destruct (h !! k) as [vs|]; simpl; [case_guard; simpl in *|]; by destruct (HasPrefix k _).
Qed.

Lemma blocked_header_lookup h k :
  blocked_header h !! k = if HasPrefix k "X-Restrego-" then h !! k else None.
Proof.
  unfold blocked_header, restrego. rewrite map_lookup_filter.
  destruct (h !! k) as [vs|]; simpl; [case_guard; simpl in *|]; by destruct (HasPrefix k _).
Qed.

(** The blocked headers a request carries into [NewInfo]. *)
Lemma blocked_input p h r :
  server_header h → ctx_blocked r = None →
  match match GetBlockedHeaders (cleaned_request p h r) with
        | Some m => if (0 <? size m)%nat then Some m else None
        | None => None
        end with
  | Some m =>
      exposed p = true ∧ m ≠ ∅
      ∧ (∀ k, m !! k = if HasPrefix k "X-Restrego-" then header_value <$> h !! k else None)
      ∧ ∀ k v, m !! k = Some v → header_json v
  | None => exposed p = false ∨ ∀ k, is_Some (h !! k) → HasPrefix k "X-Restrego-" = false
  end.
Proof.
  intros Hh Hb. unfold cleaned_request, captures, GetBlockedHeaders.
  destruct (exposed p); simpl; [|rewrite Hb; by left].
  destruct (0 <? size (blocked_header h))%nat eqn:Es; simpl.
  - rewrite map_size_fmap, Es. split_and!; [done| | |].
    + intros E%fmap_empty_inv. by rewrite E, map_size_empty in Es.
    + intros k. rewrite lookup_fmap, blocked_header_lookup. by destruct (HasPrefix k _).
    + intros k v. rewrite lookup_fmap, blocked_header_lookup.
      destruct (HasPrefix k _); [|done]. by apply header_value_server.
  - rewrite Hb. right. intros k [vs Hvs]. destruct (HasPrefix k "X-Restrego-") eqn:Ek; [|done].
    apply Nat.ltb_ge in Es. assert (E : blocked_header h = ∅) by (apply map_size_empty_inv; lia).
    pose proof (blocked_header_lookup h k) as Hl. by rewrite E, lookup_empty, Ek, Hvs in Hl.
Qed.

Lemma NewInfo_input `{Unicode} p h r k level i :
  server_header h → ctx_blocked r = None →
  NewInfo (cleaned_request p h r) (clean_header h) k level = Done i →
  policy_input p h r i.
Proof.
  intros Hh Hb Hi. unfold NewInfo in Hi.
  assert (Hr : req_Method (cleaned_request p h r) = req_Method r
    ∧ req_Path (cleaned_request p h r) = req_Path r
    ∧ req_ContentLength (cleaned_request p h r) = req_ContentLength r).
  { unfold cleaned_request. by destruct (captures p h). }
  destruct Hr as (Hm & Hp & Hl).
  assert (Hhd : ∀ k, (header_value <$> clean_header h) !! k
    = if HasPrefix k "X-Restrego-" then None else header_value <$> h !! k).
  { intros k'. rewrite lookup_fmap, clean_header_lookup. by destruct (HasPrefix k' _). }
  assert (Hjs : ∀ k v, (header_value <$> clean_header h) !! k = Some v →
    CanonicalHeaderKey k = k ∧ ¬ restrego_like k ∧ header_json v).
  { intros k' v (vs & <- & Hvs)%lookup_fmap_Some.
    pose proof Hvs as [Hk _]%map_lookup_filter_Some.
    split_and!; [by eapply server_header_key| |by apply header_value_json, (Hh _ _ Hk)].
    intros Hlike. by rewrite clean_header_not_restrego in Hvs. }
  pose proof (blocked_input p h r Hh Hb) as Hbl.
  assert (Hsp : Split (TrimPrefix (req_Path r) "/") "/" ≠ []
    ∧ Forall (λ s, byte_in "/" s = false) (Split (TrimPrefix (req_Path r) "/") "/")).
  { split; [by destruct (Split_cons (TrimPrefix (req_Path r) "/") "/") as (? & ? & ->)|apply Split_no_sep]. }
  rewrite Hm, Hp, Hl in Hi.
  destruct ((header_value <$> clean_header h) !! k) as [[]|]; try discriminate;
    injection Hi as <-; by split.
Qed.

Lemma policy_input_same_request p h r i i' :
  same_request i i' → policy_input p h r i → policy_input p h r i'.
Proof. intros [] []. split; congruence || (intros *; rewrite ?sr_headers, ?sr_blocked; auto). Qed.

(** ** Every input *)

Section recording.
Context `{Unicode} {P V : Type} `{!AuthProvider P, !LawfulAuth P} `{!Validator V}.
Context (backend : Request → Header → backend_reply).
Context (chi_route : Request → route).
Context (labels_valid : labels → bool).

(** A validator that also notes what it is called with. *)
#[local] Instance recorder : Validator (V * list (string * Info)) := {
  Validate name i '(v, log) :=
    let '(o, v') := Validate name i v in (o, (v', log ++ [(name, i)]))
}.

(** C19: the policy is evaluated at most once for a request, under the configured
    name, and exactly once, on the info the provider left, when the provider
    returns no error.  Its input is well typed and complete whatever the client
    sent and whichever lawful provider authenticated it: method, size and path
    segments are the request's; the headers are exactly the client's but for
    the X-Restrego ones, each under its canonical name with all its values, a
    string or a list of at least two; the blocked headers are exactly the
    X-Restrego ones, present just when the feature is on and some were sent;
    no result is there yet. *)
Theorem policy_input_typed p c r (w : World P (V * list (string * Info))) :
  config p = Some c → server_header (header w) → ctx_blocked r = None →
  (validator w).2 = [] →
  let log := (validator (mux backend chi_route labels_valid p ServerWriter r w).2).2 in
  (length log ≤ 1)%nat
  ∧ (∀ name i, (name, i) ∈ log → name = requestName p ∧ policy_input p (header w) r i)
  ∧ ∀ i i' prov,
      let r1 := cleaned_request p (header w) r in
      NewInfo r1 (clean_header (header w)) (authKey p) (URLMetricsLevel c) = Done i →
      Authenticate (RequestWithInfo (length (infos w)) r1) (clean_header (header w))
        (i, provider w) = (Done None, (i', prov)) →
      log = [(requestName p, i')].
Proof.
  intros Hc Hh Hb Hlog. cbv zeta. rewrite (mux_validator _ _ _ p c r w) by done.
  assert (Hnil : (length (validator w).2 ≤ 1)%nat
    ∧ ∀ name i, (name, i) ∈ (validator w).2 → name = requestName p ∧ policy_input p (header w) r i).
  { rewrite Hlog. split; [simpl; lia|]. by intros name i ?%elem_of_nil. }
  apply and_assoc. destruct (NewInfo _ _ _ _) as [i|why] eqn:Ei; [|by split].
  apply NewInfo_input in Ei; [|done..].
  destruct (Authenticate _ _ _) as [[[e|]|why] [i' prov]] eqn:Ea;
    [by split; [|intros; simplify_eq; congruence]| |by split; [|intros; simplify_eq; congruence]].
  pose proof Ea as Hf%auth_frame.
  apply (policy_input_same_request p (header w) r) in Hf; [|done].
  simpl. destruct (validator w) as [v log]. simpl in Hlog. subst log.
  destruct (Validate (requestName p) i' v) as [o v']. simpl. split; [split; [lia|]|].
  - intros name i1 Hin. apply list_elem_of_singleton in Hin. by simplify_eq.
  - intros i2 i3 prov2 [= <-]. rewrite Ea. by intros [= <- _].
Qed.
End recording.

(** ** Witness *)

#[local] Existing Instance recorder.

Lemma policy_input_typed_witness :
  let w := mkWorld [] RouterProps.Sample.spoofed fresh_response newResponseTracker Metrics.New
             mkNoAuth (RouterProps.Sample.allow, []) [] in
  let log := (validator (mux RouterProps.Sample.ok_backend
    RouterProps.Sample.to_proxy RouterProps.Sample.any_label RouterProps.Sample.proxy ServerWriter
    RouterProps.Sample.request w).2).2 in
  length log = 1%nat
  ∧ ∀ name i, (name, i) ∈ log →
      policy_input RouterProps.Sample.proxy RouterProps.Sample.spoofed
        RouterProps.Sample.request i.
Proof.
  intros w log. split; [vm_compute; reflexivity|]. intros name i Hin.
  refine (proj2 (proj1 (proj2 (policy_input_typed RouterProps.Sample.ok_backend
    RouterProps.Sample.to_proxy RouterProps.Sample.any_label RouterProps.Sample.proxy
    RouterProps.Sample.fields RouterProps.Sample.request w eq_refl
    RouterProps.Sample.spoofed_server_header eq_refl eq_refl)) name i Hin)).
Defined.
