(* ===== verification/Concurrent.v ===== *)
(** * Requests among other goroutines

    Every request has its own goroutine; they share the provider and the policy
    cache, which the watchers change too.  [contended] is a provider that other
    goroutines change before the request's call of [Authenticate];
    [contended_policies] is a policy cache on which the events of [step] happen
    before the request's [Validate] and inside it, between the two critical
    sections of [GetRego].  They implement the router's interfaces, so the
    chain [mux] runs unchanged against them. *)

From S2P Require Import Prelude GoStrings GoValue GoHttp GoServer GoOs GoUrl GoPath Config Types Metrics Server Router RouterSpec RouterSim NoAuth BasicAuth BasicAuthProps Azure AzureProps Jwt JwtProps FileCache FileCacheProps RegoCache RegoCacheProps App AppProps RouterProps PolicyInput.

(** ** A provider among other requests *)

(** [meanwhile]: what the others do to it before it is asked. *)
Record contended (P : Type) := mkContended { current : P; meanwhile : P → P }.
Arguments mkContended {P}.
Arguments current {P}.
Arguments meanwhile {P}.

Section contended.
Context {P : Type} `{!AuthProvider P}.

Definition contended_Authenticate (r : Request) (h : Header)
    : go (Info * contended P) (option error) := λ '(i, c),
  let '(o, (i', p')) := Authenticate r h (i, meanwhile c (current c)) in
  (o, (i', mkContended p' id)).

#[export] Instance contended_provider : AuthProvider (contended P) := {
  Authenticate := contended_Authenticate;
  WWWAuthenticate c := WWWAuthenticate (current c)
}.

Lemma contended_Authenticate_inv r h i c o i' c' :
  Authenticate r h (i, c) = (o, (i', c')) →
  Authenticate r h (i, meanwhile c (current c)) = (o, (i', current c')).
Proof.
  simpl. destruct (Authenticate r h (i, meanwhile c (current c))) as [o' [i1 p']].
  by intros [= -> -> <-].
Qed.

#[export] Instance contended_lawful `{!LawfulAuth P} : LawfulAuth (contended P).
Proof.
  split.
  - intros r h i c o i' c' E%contended_Authenticate_inv. by eapply auth_frame.
  - intros r h i c e i' c' E%contended_Authenticate_inv. by eapply auth_error_known.
  - intros r h i c e i' c' E%contended_Authenticate_inv. by eapply auth_error_anonymous.
Qed.
End contended.

(** ** The policy cache among other goroutines *)

Section policies.
Context `{Opa Q}.

(** [before], [amid]: what happens before the request's [Validate], and between
    its two critical sections. *)
Record contended_policies := mkPolicies {
  now : running (Q := Q);
  before : list rego_event;
  amid : list rego_event
}.

(** [Validate] of a goroutine that holds what [get_file] gave it. *)
Definition contended_Validate (name : string) (input : Info)
    : go contended_policies (result value) := λ s,
  let s1 := steps (before s) (now s) in
  let '(got, r1) := get_file name (policies s1) in
  let s2 := steps (amid s) (mkRunning r1 (goroutines s1)) in
  match got with
  | Panic why => (Panic why, mkPolicies s2 [] [])
  | Done got =>
      let '(o, r2) := get_query name got (policies s2) in
      (match o with Done q => evaluate q input | Panic why => Panic why end,
       mkPolicies (mkRunning r2 (goroutines s2)) [] [])
  end.

#[export] Instance contended_validator : Validator contended_policies := {
  Validate := contended_Validate
}.

(** What a goroutine holds stays of a content the file has had. *)
Lemma sourced_got_later past more (r r' : RegoCache Q) g :
  same_setup r r' → sourced_got past r g → sourced_got (past ++ more) r' g.
Proof.
  intros [Hf _ _] Hg. destruct g as [|name got todo]; [done|]. intros d b Hd. destruct (Hg d b Hd) as (f & ? & ?). exists f.
  unfold policy_path in *. rewrite Hf. set_solver.
Qed.

(** The object a request is given is the value of a query compiled from a
    content the file has had. *)
Lemma contended_source past name i s m v' :
  all_sourced past (now s) →
  Validate name i s = (Done (Ok (VMap m)), v') →
  ∃ g d q bindings rest,
    g ∈ (past ++ flat_map fs_of (before s)) ++ flat_map fs_of (amid s)
    ∧ g (policy_path (policies (now s)) name) = ReadData d
    ∧ compiled_from (debug (policies (now s))) name d q
    ∧ Eval q i = Ok (bindings :: rest) ∧ map_get bindings "x" = Some (VMap m).
Proof.
  intros Hs Hv. simpl in Hv. unfold contended_Validate in Hv.
  pose proof (steps_setup (before s) (now s)) as Hset1.
  apply (steps_sourced _ _ (before s)) in Hs as [Hs Hb].
  set (s1 := steps (before s) (now s)) in *.
  pose proof (get_file_setup name (policies s1)) as Hset2.
  destruct (get_file_sourced _ name [] _ Hs) as (Hs1 & got & Hg & Hgot).
  destruct (get_file name (policies s1)) as [o r1]. simpl in *. subst o.
  assert (Hall : all_sourced (past ++ flat_map fs_of (before s)) (mkRunning r1 (goroutines s1)))
    by (split; [done|]; apply (sourced_got_folder _ (policies s1)), Hb; apply Hset2).
  apply (steps_sourced _ _ (amid s)) in Hall as [Hs2 _].
  pose proof (steps_setup (amid s) (mkRunning r1 (goroutines s1))) as Hset3. simpl in Hset3.
  set (s2 := steps (amid s) _) in *.
  apply (sourced_got_later _ (flat_map fs_of (amid s)) _ _ (Between name got []) Hset3) in Hgot.
  destruct (get_query name got (policies s2)) as [[res|why] r2] eqn:Eq; [|done].
  injection Hv as (q & bindings & rest & -> & HE & Hx)%evaluate_VMap <-.
  destruct (get_query_source _ _ _ [] _ _ _ Hs2 Hgot Eq) as (g & d & Hin & Hd & Hc).
  assert (Hset : same_setup (policies (now s)) (policies s2)) by (do 2 (etrans; [eassumption|]); done).
  unfold policy_path in *. rewrite (same_folder _ _ Hset) in Hd.
  rewrite (same_debug _ _ Hset) in Hc. apply compile_Ok in Hc. by exists g, d, q, bindings, rest.
Qed.
End policies.
Arguments contended_policies Q : clear implicits.

(** ** Alone *)

(** Where nothing else happens, the chain does what it does against the provider
    and the policy cache themselves. *)
Section alone.
Context `{Unicode} {P : Type} `{!AuthProvider P} `{!Opa Q}.

Definition undisturbed (c : contended P) (a : P) : Prop :=
  current c = a ∧ ∀ x, meanwhile c x = x.

Definition quiet (s : contended_policies Q) (r : RegoCache Q) : Prop :=
  policies (now s) = r ∧ before s = [] ∧ amid s = [].

#[export] Instance undisturbed_sim : AuthSim undisturbed.
Proof.
  split.
  - intros r h i c a [<- Hm]. simpl. rewrite Hm.
    destruct (Authenticate r h (i, current c)) as [o [i' a']]. by repeat split.
  - by intros c a [<- _].
Qed.

#[export] Instance quiet_sim name : ValidatorSim name quiet.
Proof.
  split. intros i s r (<- & Hb & Ha). simpl. unfold contended_Validate.
  rewrite Hb, Ha. simpl. unfold rego_Validate, GetRego, mbind, go_bind, go_outcome.
  destruct (get_file name (policies (now s))) as [[got|why] r1]; [|done]. simpl.
  by destruct (get_query name got r1) as [[q|why] r2].
Qed.

Lemma mux_alone p backend chi_route labels_valid wr r
    (w1 : World (contended P) (contended_policies Q)) (w2 : World P (RegoCache Q)) :
  related undisturbed quiet w1 w2 →
  (mux backend chi_route labels_valid p wr r w1).1
    = (mux backend chi_route labels_valid p wr r w2).1
  ∧ related undisturbed quiet (mux backend chi_route labels_valid p wr r w1).2
      (mux backend chi_route labels_valid p wr r w2).2.
Proof. apply mux_simulates; apply _. Qed.
End alone.

(** ** What changes a provider *)

Section provider.
Context {C Seed AC Alg : Type}.
Context `{Unicode, Bcrypt, !BasicAuth.Cache C, !Maphash Seed, InsecureJwt Tok, !AppCache AC,
          UrlAuthority, !Jwk Alg, !Jwt Alg}.
Local Abbreviation iface := (iface C Seed AC Alg).

Definition set_net (n : Net Alg) (j : JWTSupport Alg) : JWTSupport Alg :=
  mkJWT (audiences j) (audienceKey j) (authKind j) (wellKnowns j) (wellknownList j)
    (Jwt.registered j) (JWKS j) (Jwt.permissive j) n.

(** Another request; the watcher of the credentials, with the file it then finds;
    caches that lose entries; Graph's answers and the issuers' keys, which change
    with time. *)
Inductive auth_event : Type :=
| Served (r : Request) (h : Header) (i : Info)
| CredentialsEvent (e : Event) (f : result (string * option error))
| PasswordsLost (l : C → C)
| ApplicationsLost (l : AC → AC)
| GraphChanges (g : Graph)
| NetChanges (n : Net Alg).

(** What each does to the provider; those of another provider do nothing. *)
Definition auth_step (ev : auth_event) (a : iface) : iface :=
  match ev, a with
  | Served r h i, _ => (Authenticate r h (i, a)).2.2
  | CredentialsEvent e f, IBasic (Some b) =>
      if watching b then IBasic (Some (BasicAuth.watch_event e f b).2) else a
  | PasswordsLost l, IBasic (Some b) => IBasic (Some (BasicAuth.set_cache l b))
  | ApplicationsLost l, IAzure s => IAzure (set_userCache l s)
  | GraphChanges g, IAzure s => IAzure (mkState (az s) (userCache s) g)
  | NetChanges n, IJWT j => IJWT (set_net n j)
  | _, _ => a
  end.

Definition auth_steps (evs : list auth_event) (a : iface) : iface :=
  foldl (λ a ev, auth_step ev a) a evs.

(** A cache drops entries by itself, and never invents one. *)
Definition loses_only (ev : auth_event) : Prop :=
  match ev with
  | PasswordsLost l => ∀ c k v, may_hold (l c) k v → may_hold c k v
  | ApplicationsLost l => ∀ c k x, app_may_hold (l c) k x → app_may_hold c k x
  | _ => True
  end.

(** Nothing changes which provider it is, nor its settings. *)
Definition same_settings (a a' : iface) : Prop :=
  match a, a' with
  | IAzure s, IAzure s' => az s' = az s
  | IJWT j, IJWT j' => j' = set_net (net j') j
  | IBasic None, IBasic None => True
  | IBasic (Some b), IBasic (Some b') =>
      BasicAuth.permissive b' = BasicAuth.permissive b ∧ seed b' = seed b
  | INoAuth n, INoAuth n' => n' = n
  | _, _ => False
  end.

#[export] Instance same_settings_preorder : PreOrder same_settings.
Proof.
  split.
  - intros [s|j|[b|]|n]; simpl; try done. by destruct j.
  - intros [|j1|[]|] [|j2|[]|] [|j3|[]|]; simpl; try done; intros; destruct_and?; try congruence.
    + match goal with E1 : j2 = _, E2 : j3 = _ |- _ => rewrite E2, E1 end. by destruct j1.
    + split; congruence.
Qed.

Lemma verifyPassword_settings u hash pwd (b : BasicAuthProvider C Seed) :
  let b' := (verifyPassword u hash pwd b).2 in
  BasicAuth.permissive b' = BasicAuth.permissive b ∧ seed b' = seed b.
Proof. unfold verifyPassword. go_unfold. by repeat case_match. Qed.

Lemma Authenticate_settings r h i (a : iface) :
  same_settings a (Authenticate r h (i, a)).2.2.
Proof.
  destruct a as [s|j|[b|]|n]; simpl; unfold with_provider.
  - rewrite azure_Authenticate_run. destruct (token_case_of (az s) h) as [| |appid token]; simpl;
      [done..|]. by destruct (getApp_run appid token s) as (x & s' & -> & ? & _).
  - destruct (jwt_Authenticate r h (i, j)) as [o [i' j']] eqn:E. rewrite jwt_Authenticate_run in E.
    assert (j' = j) as -> by (repeat case_match; congruence). simpl. by destruct j.
  - rewrite basic_Authenticate_run. destruct (answer_with _ _ _ _) as [o v]. simpl.
    destruct (verified (creds b) i) as [[[u hash] pwd]|]; [|done]. apply verifyPassword_settings.
  - by destruct (presented i).
  - done.
Qed.

Lemma auth_step_settings ev a : same_settings a (auth_step ev a).
Proof.
  destruct ev as [r h i|e f|l|l|g|n]; [apply Authenticate_settings|..];
    destruct a as [s|j|[b|]|x]; simpl; try done; try (by destruct j).
  destruct (watching b); [|done].
  simpl. unfold BasicAuth.watch_event. go_unfold. by repeat case_match.
Qed.

Lemma auth_steps_settings evs a : same_settings a (auth_steps evs a).
Proof.
  unfold auth_steps. revert a. induction evs as [|ev evs IH]; intros a; [done|].
  etrans; [apply auth_step_settings|apply IH].
Qed.
End provider.
Arguments auth_event : clear implicits.
