(* ===== verification/Program.v ===== *)
(** * The program from start-up to the backend

    What a request that reached the backend has behind it, in the program that
    [App.New] started, among all its goroutines: the configured provider and
    the policy file. *)

From S2P Require Import Prelude GoStrings GoValue GoHttp GoServer GoOs GoUrl GoPath Config Types Metrics Server Router RouterSpec RouterSim NoAuth BasicAuth BasicAuthProps BasicAuthCache Azure AzureProps Jwt JwtProps FileCache FileCacheProps RegoCache RegoCacheProps App AppProps RouterProps PolicyInput Concurrent.

(** ** A request arrives *)

Section program.
Context {C Seed AC Alg Q : Type}.
Context `{Unicode, Envsubst, Bcrypt, !BasicAuth.Cache C, !Maphash Seed, InsecureJwt Tok,
          !AppCache AC, UrlAuthority, !Jwk Alg, !Jwt Alg, !Opa Q}.
Context (backend : Request → Header → backend_reply).
Context (chi_route : Request → route).
Context (labels_valid : labels → bool).
Local Abbreviation iface := (iface C Seed AC Alg).
Local Abbreviation event := (auth_event C AC Alg).
Local Abbreviation W := (World (contended iface) (contended_policies Q)).

(** A request arrives at a program that has started: whatever the metrics and
    the other requests' infos are by then, the provider is the one of [New] and
    the policies are those of [Watch], but for what the events do: [others] to
    the provider before the request asks it, [evs] and [evs'] to the policies
    before and inside its [Validate]. *)
Record arrives (e : Env C Seed AC Alg) (args : Fields) (a : AppData C Seed AC Alg Q)
    (RD : result (list (string * bool))) (others : list event) (evs evs' : list rego_event)
    (r : Request) (w : W) : Prop := {
  arr_started : App.New e args = Started (Some a);
  arr_header : server_header (header w);
  arr_context : ctx_blocked r = None;
  arr_response : rw_sent (response w) = None;
  arr_provider : provider w = mkContended (app_auth a) (auth_steps others);
  arr_others : Forall loses_only others;
  arr_policies : validator w = mkPolicies (mkRunning (Watch RD (app_regos a)).2 []) evs evs'
}.

Lemma arrives_sourced e args a RD others evs evs' r w :
  arrives e args a RD others evs evs' r w →
  all_sourced [env_fs e] (now (validator w))
  ∧ policy_path (policies (now (validator w))) (RequestRego args)
    = path_Join (PolicyDir args) (RequestRego args)
  ∧ debug (policies (now (validator w))) = Debug args.
Proof.
  intros []. rewrite arr_policies0. simpl.
  destruct (New_app_regos e args a arr_started0) as (c & Hr & Hfold & Hf & Hcb).
  destruct (sourced_new c (Debug args) (RequestRego args) (env_fs e) Hf) as [Hs _]. simpl in Hs.
  rewrite <- Hr in Hs.
  destruct (Watch_sourced [env_fs e] RD (app_regos a)) as [Hs' [Hw1 Hw2 _]]; [by rewrite Hr|done|].
  split; [by split|]. unfold policy_path. by rewrite Hw1, Hw2, Hr, <- Hfold.
Qed.

(** What a forwarded request has behind it. *)
Lemma arrives_forwarded e args a RD others evs evs' r (w : W) :
  arrives e args a RD others evs evs' r w →
  (∀ r, chi_route r = ToProxy) →
  let p := app_router a in
  let calls := backend_calls (mux backend chi_route labels_valid p ServerWriter r w).2 in
  calls ≠ backend_calls w →
  ∃ auth' r' i i' g d q bindings rest m r2 level,
    NewInfo (cleaned_request p (header w) r) (clean_header (header w))
        (CanonicalHeaderKey (AuthHeader args)) level = Done i
    ∧ Authenticate r' (clean_header (header w)) (i, auth_steps others (app_auth a))
      = (Done None, (i', auth'))
    ∧ policy_input p (header w) r i'
    ∧ g ∈ env_fs e :: flat_map fs_of evs ++ flat_map fs_of evs'
    ∧ g (path_Join (PolicyDir args) (RequestRego args)) = ReadData d
    ∧ compiled_from (Debug args) (RequestRego args) d q
    ∧ Eval q i' = Ok (bindings :: rest) ∧ map_get bindings "x" = Some (VMap m)
    ∧ map_get m "allow" = Some (VBool true)
    ∧ same_target r r2
    ∧ calls = backend_calls w
        ++ [(r2, removeHopByHopHeaders
                   (foldl (λ h e, set_policy_header e h) (clean_header (header w)) m))].
Proof.
  intros Harr Hroute p calls Hcalls.
  destruct (arrives_sourced _ _ _ _ _ _ _ _ _ Harr) as (Hs & Hpath & Hdbg). destruct Harr.
  destruct (forwarded_run backend chi_route labels_valid p r w Hroute arr_header0 arr_response0
    Hcalls) as (c & r' & i & i' & c' & m & v' & r2 & Hc & Hi & HA & HV & Hm & Ht & Hb).
  assert (Hp : requestName p = RequestRego args
    ∧ authKey p = CanonicalHeaderKey (AuthHeader args)).
  { destruct (New_app_started e args a arr_started0) as (_ & _ & _ & _ & Hn).
    unfold p. unfold Router.New in Hn. case_match; [|done]. by injection Hn as <-. }
  destruct Hp as [Hp Hk]. rewrite Hk in Hi.
  rewrite Hp in HV. apply (contended_source [env_fs e]) in HV as
    (g & d & q & bindings & rest & Hg & Hd & Hq & HE & Hx); [|done].
  rewrite arr_policies0 in Hg, Hd, Hq, Hpath, Hdbg. simpl in Hg, Hd, Hq, Hpath, Hdbg.
  rewrite Hpath in Hd. rewrite Hdbg in Hq.
  rewrite arr_provider0 in HA. pose proof (auth_frame _ _ _ _ _ _ _ HA) as Hsame.
  apply contended_Authenticate_inv in HA. simpl in HA.
  eexists (current c'), r', i, i', g, d, q, bindings, rest, m, r2, _.
  split_and!; try done.
  apply (policy_input_same_request p (header w) r i); [done|]. by eapply NewInfo_input.
Qed.

(** *** Any provider *)

(** C2: end to end, from start-up and however the goroutines of the program
    interleave: a request reaches the backend only after the configured
    provider, as other requests and its watchers left it, returned no error
    for it, and a query compiled from a content that the configured policy file
    has had since the start, evaluated on the request's own description, bound
    "x" to an object whose "allow" is true; it is then sent with that object's
    entries as headers. *)
Theorem program_forwards_only_allowed e args a RD others evs evs' r (w : W) :
  arrives e args a RD others evs evs' r w →
  (∀ r, chi_route r = ToProxy) →
  let p := app_router a in
  let calls := backend_calls (mux backend chi_route labels_valid p ServerWriter r w).2 in
  calls ≠ backend_calls w →
  ∃ auth' r' i i' g d q bindings rest m r2,
    Authenticate r' (clean_header (header w)) (i, auth_steps others (app_auth a))
      = (Done None, (i', auth'))
    ∧ policy_input p (header w) r i'
    ∧ g ∈ env_fs e :: flat_map fs_of evs ++ flat_map fs_of evs'
    ∧ g (path_Join (PolicyDir args) (RequestRego args)) = ReadData d
    ∧ compiled_from (Debug args) (RequestRego args) d q
    ∧ Eval q i' = Ok (bindings :: rest) ∧ map_get bindings "x" = Some (VMap m)
    ∧ map_get m "allow" = Some (VBool true)
    ∧ same_target r r2
    ∧ calls = backend_calls w
        ++ [(r2, removeHopByHopHeaders
                   (foldl (λ h e, set_policy_header e h) (clean_header (header w)) m))].
Proof.
  intros Harr Hroute p calls Hcalls.
  destruct (arrives_forwarded e args a RD others evs evs' r w Harr Hroute Hcalls)
    as (auth' & r' & i & i' & g & d & q & bs & rest & m & r2 & level & _ & Hall).
  by exists auth', r', i, i', g, d, q, bs, rest, m, r2.
Qed.

(** *** JWT *)

(** A strict JWT provider that returns no error for a request with an
    authorization header has verified its token. *)
Lemma jwt_strict_admits rq h i (j j' : JWTSupport Alg) i' x :
  Jwt.permissive j = false → Auth (RequestPart i) = Some x →
  Authenticate rq h (i, j) = (Done None, (i', j')) →
  EqualFold (Kind x) (authKind j) = true
  ∧ ∃ n wc aud, wellknownList j !! n = Some wc ∧ validates j (Token x) n wc aud (JWT i').
Proof.
  intros Hp Hx. simpl. rewrite jwt_Authenticate_run, Hp. unfold jwt_token. rewrite Hx.
  destruct (EqualFold (Kind x) (authKind j)); [|done]. intros Ha. split; [done|].
  destruct (try_issuers j (Token x) 0 (wellknownList j) None) as [[v|[]]|] eqn:Et; [|done..].
  injection Ha as <- _. apply try_issuers_inl in Et as (n & wc & aud & ? & ?). by exists n, wc, aud.
Qed.

(** A JWT provider configured at start keeps its issuers and audiences. *)
Lemma app_jwt e args (a : AppData C Seed AC Alg Q) others :
  App.New e args = Started (Some a) → WellKnownURL args ≠ [] →
  ∃ j, auth_steps others (app_auth a) = IJWT j
    ∧ audiences j = Audiences args ∧ authKind j = AuthKind args
    ∧ Jwt.permissive j = PermissiveAuth args
    ∧ wellknownList j = omap (load_well_known (ReadFile e) (jwt_net e)) (WellKnownURL args).
Proof.
  intros Hn Hw. pose proof (auth_steps_settings others (app_auth a)) as Hs.
  destruct (New_app_started e args a Hn) as (Hv & _ & _ & Hc & _).
  assert (Hle : (authCount args ≤ 1)%Z) by by apply valid_authCount.
  unfold choose_auth in Hc. simpl in Hc. unfold authCount in Hle.
  destruct (WellKnownURL args) as [|u us] eqn:Ew; [done|].
  destruct (AzureTenant args) as [|c s]; simpl in *; [|revert Hle; repeat case_match; simpl; lia].
  apply startup_bind_started in Hc as (j & Hj & [= Ha]). rewrite <- Ha in *.
  apply jwt_started in Hj as (_ & _ & ->).
  destruct (auth_steps others _) as [|j'|[]|]; try done. simpl in Hs. exists j'. rewrite Hs.
  by split_and!.
Qed.

(** C3: a program configured with JWT issuers in strict mode sends a request
    with an authorization header on only if the header's token is of the
    configured kind and an issuer of the configured well-knowns verified it for
    a configured audience, with the keys of the time of the request, and the
    policy that allowed it was evaluated on that token's claims. *)
Theorem program_jwt_verified e args a RD others evs evs' r (w : W) v :
  arrives e args a RD others evs evs' r w →
  (∀ r, chi_route r = ToProxy) →
  WellKnownURL args ≠ [] → PermissiveAuth args = false →
  clean_header (header w) !! CanonicalHeaderKey (AuthHeader args) = Some [v] →
  backend_calls (mux backend chi_route labels_valid (app_router a) ServerWriter r w).2
    ≠ backend_calls w →
  let auth := parse_auth v in
  EqualFold (Kind auth) (AuthKind args) = true
  ∧ ∃ j n wc aud i' q bindings rest m,
      auth_steps others (app_auth a) = IJWT j
      ∧ omap (load_well_known (ReadFile e) (jwt_net e)) (WellKnownURL args) !! n = Some wc
      ∧ aud ∈ Audiences args
      ∧ validates j (Token auth) n wc aud (JWT i')
      ∧ Eval q i' = Ok (bindings :: rest) ∧ map_get bindings "x" = Some (VMap m)
      ∧ map_get m "allow" = Some (VBool true).
Proof.
  intros Harr Hroute Hw Hp Hk Hcalls auth.
  destruct (arrives_forwarded e args a RD others evs evs' r w Harr Hroute Hcalls)
    as (x' & r' & i & i' & g & d & q & bs & rest & m & r2 & level & Hi & HA & _ & _ & _
        & _ & HE & Hb & Hm & _).
  destruct (app_jwt e args a others (arr_started _ _ _ _ _ _ _ _ _ Harr) Hw)
    as (j & Hj & Haud & Hkind & Hperm & Hwk).
  unfold NewInfo in Hi. rewrite lookup_fmap, Hk in Hi. simpl in Hi. injection Hi as Hi.
  rewrite Hj in HA. simpl in HA. apply with_provider_Done in HA as (j' & HA & _).
  destruct (jwt_strict_admits r' (clean_header (header w)) i j j' i' auth) as (Hf & n & wc & aud & Hn & Hv);
    [by rewrite Hperm|by rewrite <- Hi|done|].
  rewrite Hkind in Hf. rewrite Hwk in Hn. split; [done|].
  pose proof Hv as [Ha _]. rewrite Haud in Ha.
  by exists j, n, wc, aud, i', q, bs, rest, m.
Qed.

(** *** Basic *)

(** The contents the credentials file is found with. *)
Definition credentials_of (ev : event) : list (result (string * option error)) :=
  match ev with CredentialsEvent _ f => [f] | _ => [] end.

(** The provider's credentials are those of one of the contents, and its cache
    is coherent. *)
Definition sound_basic (contents : list (result (string * option error)))
    (b : BasicAuthProvider C Seed) : Prop :=
  (∃ past, coherent past b) ∧ ∃ file, file ∈ contents ∧ loadFile file = Ok (creds b).

Lemma sound_basic_mono contents more b : sound_basic contents b → sound_basic (contents ++ more) b.
Proof. intros [Hc (file & Hin & Hf)]. split; [done|]. exists file. set_solver. Qed.

Lemma auth_step_basic `{!LawfulCache C} contents ev b :
  loses_only ev → sound_basic contents b →
  ∃ b', auth_step ev (IBasic (Some b)) = IBasic (Some b')
        ∧ sound_basic (contents ++ credentials_of ev) b'.
Proof.
  intros Hl Hb. pose proof (sound_basic_mono contents (credentials_of ev) b Hb) as Hsame.
  destruct Hb as [[past Hc] (file & Hin & Hf)].
  destruct ev as [r h i|e f|l|l|g|n]; simpl in *; try (by exists b).
  - unfold with_provider.
    pose proof (coherent_step past b _ _ Hc (BasicAuthCache.step_request b r h i)) as Hc'.
    simpl in Hc'.
    assert (Hcr : creds (basic_Authenticate r h (i, b)).2.2 = creds b).
    { rewrite basic_Authenticate_run. destruct (answer_with _ _ _ _). simpl.
      destruct (verified (creds b) i) as [[[u hash] pwd]|]; [|done].
      unfold verifyPassword. go_unfold. by repeat case_match. }
    destruct (basic_Authenticate r h (i, b)) as [o [i' b']]. simpl in *.
    exists b'. split; [done|]. split; [by eexists|]. rewrite Hcr, app_nil_r. by exists file.
  - destruct (watching b); [|by exists b]. eexists. split; [done|]. split.
    + eexists. exact (coherent_step past b _ _ Hc (BasicAuthCache.step_watch b e f)).
    + unfold BasicAuth.watch_event. go_unfold. destruct (_ || _); [|by apply Hsame].
      destruct (loadFile f) as [m|] eqn:Em; [|by apply Hsame].
      exists f. simpl. split; [set_solver|done].
  - eexists. split; [done|]. destruct (BasicAuth.cache b) as [c|] eqn:Ec.
    + split; [|rewrite app_nil_r; by exists file]. eexists.
      assert (E : BasicAuth.set_cache l b = BasicAuth.set_cache (λ _, l c) b)
        by (unfold BasicAuth.set_cache; by rewrite Ec).
      rewrite E.
      exact (coherent_step past b _ _ Hc (BasicAuthCache.step_evict b (l c) c Ec (Hl c))).
    + assert (BasicAuth.set_cache l b = b) as -> by (destruct b; simpl in *; by subst). done.
Qed.

Lemma auth_steps_basic `{!LawfulCache C} contents others b :
  Forall loses_only others → sound_basic contents b →
  ∃ b', auth_steps others (IBasic (Some b)) = IBasic (Some b')
        ∧ sound_basic (contents ++ flat_map credentials_of others) b'.
Proof.
  unfold auth_steps. intros Hl. revert contents b.
  induction Hl as [|ev others Hev _ IH]; intros contents b Hb; simpl.
  { exists b. by rewrite app_nil_r. }
  destruct (auth_step_basic contents ev b Hev Hb) as (b1 & -> & Hb1).
  rewrite app_assoc. by apply IH.
Qed.

(** A Basic provider configured at start, when its credentials file loads. *)
Lemma app_basic `{!LawfulCache C} e args (a : AppData C Seed AC Alg Q) others :
  App.New e args = Started (Some a) → BasicAuthFile args ≠ "" →
  (∀ c k v, basic_cache e = Some c → ¬ may_hold c k v) → Forall loses_only others →
  auth_steps others (app_auth a) = IBasic None
  ∨ ∃ b, auth_steps others (app_auth a) = IBasic (Some b)
      ∧ sound_basic (htpasswd e (BasicAuthFile args) :: flat_map credentials_of others) b
      ∧ BasicAuth.permissive b = PermissiveAuth args.
Proof.
  intros Hn Hb Hempty Hl.
  destruct (New_app_started e args a Hn) as (Hv & _ & _ & Hc & _).
  assert (Hle : (authCount args ≤ 1)%Z) by by apply valid_authCount.
  unfold choose_auth in Hc. simpl in Hc. unfold authCount in Hle.
  destruct (BasicAuthFile args) as [|ch s]; [done|].
  destruct (AzureTenant args); simpl in *; [|revert Hle; repeat case_match; simpl; lia].
  destruct (WellKnownURL args); simpl in *; [|revert Hle; case_match; simpl; lia].
  injection Hc as Ha. rewrite <- Ha.
  destruct (BasicAuth.New _ _ _ _ _ _ _) as [b|] eqn:Eb.
  2: { left. pose proof (auth_steps_settings others (IBasic None : iface)) as Hs.
       by destruct (auth_steps others _) as [| |[]|]. }
  pose proof (coherent_New _ _ _ _ _ _ _ _ Eb) as Hcoh.
  assert (Hb0 : sound_basic [htpasswd e (String ch s)] b).
  { split; [exists []; apply Hcoh; intros; by apply Hempty|].
    unfold BasicAuth.New in Eb. destruct (loadFile _) eqn:Ef; [|done].
    destruct (basic_watcher e); [|done]. injection Eb as <-. eexists. split; [by left|done]. }
  pose proof (auth_steps_settings others (IBasic (Some b) : iface)) as Hs.
  destruct (auth_steps_basic _ others b Hl Hb0) as (b' & E & Hb'). rewrite E in *. right. exists b'.
  destruct Hs as [Hp _]. split_and!; try done. rewrite Hp.
  unfold BasicAuth.New in Eb. by repeat case_match; simplify_eq.
Qed.

(** C4: a program configured with a credentials file, in strict mode and while
    requests and reloads are each atomic, sends a request with Basic credentials
    on only if its user is in the credentials then in force, which are those of
    a content the file has had, and bcrypt accepts, for those credentials, a
    pair that has the same cache key; the policy that allowed it was given that
    user.  The pair is the request's own unless two pairs collide under the
    64-bit hash. *)
Theorem program_basic_verified `{!LawfulCache C} e args a RD others evs evs' r (w : W)
    v kind token u pwd :
  arrives e args a RD others evs evs' r w →
  (∀ r, chi_route r = ToProxy) →
  BasicAuthFile args ≠ "" → PermissiveAuth args = false →
  (∀ c k v, basic_cache e = Some c → ¬ may_hold c k v) →
  clean_header (header w) !! CanonicalHeaderKey (AuthHeader args) = Some [v] →
  parse_auth v = mkAuth kind token u pwd → EqualFold kind "basic" = true →
  backend_calls (mux backend chi_route labels_valid (app_router a) ServerWriter r w).2
    ≠ backend_calls w →
  ∃ b file i' q bindings rest m,
    auth_steps others (app_auth a) = IBasic (Some b)
    ∧ file ∈ htpasswd e (BasicAuthFile args) :: flat_map credentials_of others
    ∧ loadFile file = Ok (creds b) ∧ is_Some (creds b !! u)
    ∧ (∃ u' p' hash, createCacheKey b u' p' = createCacheKey b u pwd
         ∧ creds b !! u' = Some hash ∧ CompareHashAndPassword hash p' = None)
    ∧ User i' = VStr u
    ∧ Eval q i' = Ok (bindings :: rest) ∧ map_get bindings "x" = Some (VMap m)
    ∧ map_get m "allow" = Some (VBool true).
Proof.
  intros Harr Hroute Hb Hp Hempty Hk Hparse Hkind Hcalls.
  destruct (arrives_forwarded e args a RD others evs evs' r w Harr Hroute Hcalls)
    as (x' & r' & i & i' & g & d & q & bs & rest & m & r2 & level & Hi & HA & _ & _ & _
        & _ & HE & Hbi & Hm & _).
  unfold NewInfo in Hi. rewrite lookup_fmap, Hk in Hi. simpl in Hi. injection Hi as Hi.
  assert (Hpres : presented i = Some (u, pwd)).
  { unfold presented. rewrite <- Hi. simpl. rewrite Hparse. simpl. by rewrite Hkind. }
  destruct (app_basic e args a others (arr_started _ _ _ _ _ _ _ _ _ Harr) Hb Hempty
    (arr_others _ _ _ _ _ _ _ _ _ Harr)) as [E|(b & E & [[past Hc] (file & Hin & Hf)] & Hperm)];
    rewrite E in HA; simpl in HA.
  { by rewrite Hpres in HA. }
  apply with_provider_Done in HA as (b' & HA & _).
  destruct (basic_strict_admits past _ _ _ _ _ _ u pwd Hc (eq_trans Hperm Hp) Hpres HA)
    as (Hu & Hus & Hacc).
  by exists b, file, i', q, bs, rest, m.
Qed.

(** *** Azure *)

(** The Graphs a request may have met. *)
Definition graphs_of (ev : event) : list Graph :=
  match ev with GraphChanges g => [g] | _ => [] end.

(** What the cache holds, and what is asked now, comes from those Graphs. *)
Definition sound_azure (gs : list Graph) (s : AzureState AC) : Prop :=
  graph s ∈ gs ∧ ∃ past, provenance past s ∧ ∀ g, Some g ∈ past → g ∈ gs.

Lemma auth_step_azure `{!LawfulAppCache AC} gs ev s :
  loses_only ev → sound_azure gs s →
  ∃ s', auth_step ev (IAzure s) = IAzure s' ∧ sound_azure (gs ++ graphs_of ev) s'.
Proof.
  intros Hl [Hg (past & Hp & Hin)].
  destruct ev as [r h i|e f|l|l|g|n]; simpl in *; rewrite ?app_nil_r;
    try (exists s; split; [done|]; split; [done|]; by exists past).
  - unfold with_provider. rewrite azure_Authenticate_run.
    destruct (token_case_of (az s) h) as [| |appid token]; simpl;
      try (exists s; split; [done|]; split; [done|]; by exists past).
    destruct (getApp_run appid token s) as (x & s' & E & _ & Hgr).
    destruct (getApp_provenance past appid token s Hp) as [Hp' _]. rewrite E in *. simpl in *.
    exists s'. split; [done|]. split; [by rewrite Hgr|].
    exists (Some (graph s) :: past). split; [done|]. set_solver.
  - eexists. split; [done|]. split; [done|]. exists past. split; [|done].
    intros k x Hk. by apply Hp, (Hl (userCache s)).
  - eexists. split; [done|]. split; simpl; [set_solver|].
    exists past. split; [exact Hp|]. set_solver.
Qed.

Lemma auth_steps_azure `{!LawfulAppCache AC} gs others s :
  Forall loses_only others → sound_azure gs s →
  ∃ s', auth_steps others (IAzure s) = IAzure s'
        ∧ sound_azure (gs ++ flat_map graphs_of others) s'.
Proof.
  unfold auth_steps. intros Hl. revert gs s.
  induction Hl as [|ev others Hev _ IH]; intros gs s Hs; simpl.
  { exists s. by rewrite app_nil_r. }
  destruct (auth_step_azure gs ev s Hev Hs) as (s1 & -> & Hs1). rewrite app_assoc. by apply IH.
Qed.

(** C5: a program configured with an Azure tenant, while requests are each
    atomic, shows the policy that allowed a request either no user, or the
    application that Graph returned, then or earlier, for the cache key
    "appid:token" of the request's own bearer token, which names that id and
    the configured tenant. *)
Theorem program_azure_identified `{!LawfulAppCache AC} e args a RD others evs evs' r (w : W) :
  arrives e args a RD others evs evs' r w →
  (∀ r, chi_route r = ToProxy) →
  AzureTenant args ≠ "" → (∀ k x, ¬ app_may_hold (azure_cache e) k x) →
  backend_calls (mux backend chi_route labels_valid (app_router a) ServerWriter r w).2
    ≠ backend_calls w →
  ∃ i' q bindings rest m,
    Eval q i' = Ok (bindings :: rest) ∧ map_get bindings "x" = Some (VMap m)
    ∧ map_get m "allow" = Some (VBool true)
    ∧ (User i' = VNil
       ∨ ∃ tok token g appid token' x,
           GetBearerToken (clean_header (header w)) (CanonicalHeaderKey (AuthHeader args))
             = (token, true)
           ∧ ParseInsecure token = Some tok
           ∧ EqualFold (getTokenString tok "tid") (AzureTenant args) = true
           ∧ g ∈ azure_graph e :: flat_map graphs_of others
           ∧ appid +:+ ":" +:+ token' = getTokenString tok "appid" +:+ ":" +:+ token
           ∧ graph_said g appid token' x ∧ User i' = app_value x).
Proof.
  intros Harr Hroute Ht Hempty Hcalls.
  destruct (arrives_forwarded e args a RD others evs evs' r w Harr Hroute Hcalls)
    as (x' & r' & i & i' & g & d & q & bs & rest & m & r2 & level & Hi & HA & _ & _ & _
        & _ & HE & Hb & Hm & _).
  exists i', q, bs, rest, m. split_and!; [done..|].
  assert (Hu : User i = VNil) by (unfold NewInfo in Hi; by repeat case_match; simplify_eq/=).
  destruct Harr as [Hn _ _ _ _ Hl _].
  destruct (New_app_started e args a Hn) as (_ & _ & _ & Hc & _).
  unfold choose_auth in Hc. simpl in Hc.
  destruct (AzureTenant args) as [|ch s]; [done|]. simpl in Hc. injection Hc as Ha.
  rewrite <- Ha in HA.
  match type of Ha with IAzure ?s0 = _ => set (s0' := s0) in * end.
  assert (Hs0 : sound_azure [azure_graph e] s0').
  { split; [by left|]. exists []. split; [intros k x Hk; by destruct (Hempty k x)|].
    by intros g' ?%elem_of_nil. }
  pose proof (auth_steps_settings others (IAzure s0' : iface)) as Hset.
  destruct (auth_steps_azure _ others s0' Hl Hs0) as (s' & E & [Hg (past & Hp & Hin)]).
  rewrite E in *. simpl in Hset, HA. apply with_provider_Done in HA as (s'' & HA & _).
  assert (Hcase : User i' = VNil ∨ User i' ≠ User i)
    by (rewrite Hu; by destruct (User i'); [left|right..]).
  destruct Hcase as [?|Hne]; [by left|right].
  destruct (identified_from past _ _ _ _ _ _ Hp HA Hne)
    as (tok & token & g' & ai & t & x & Hbear & Hparse & _ & Htid & Hgs & Hkey & _ & Hsaid & Huser).
  rewrite Hset in Hbear, Htid.
  exists tok, token, g', ai, t, x. split_and!; try done.
  apply elem_of_cons in Hgs as [[= ->]|?]; [done|by apply Hin].
Qed.
End program.

(** ** Witnesses *)

Module Sample.
Import AppProps.Sample.

(** Issuers from files; the second one's key is the text "secret-b". *)
Definition jwt_args : Fields :=
  mkFields false false "policies" "*.rego" "request.rego" ":8181" ":8182" ""
    "authorization" "bearer" "http" "localhost" 8080 ["file:///b.json"] ["api"] "aud" false "" false
    false "$" "{" 0 (10 * second) (30 * second) (90 * second) (120 * second)
    (10 * second) (30 * second) (90 * second).

(** An Azure tenant. *)
Definition azure_args : Fields :=
  mkFields false false "policies" "*.rego" "request.rego" ":8181" ":8182" "acme"
    "authorization" "bearer" "http" "localhost" 8080 [] [] "aud" false "" false
    false "$" "{" 0 (10 * second) (30 * second) (90 * second) (120 * second)
    (10 * second) (30 * second) (90 * second).

(** A credentials file that loads, with alice in it. *)
Definition basic_env : env :=
  mkEnv (λ _, LstatDir) (RegoCacheProps.Sample.files "package p") true true
    (λ _, Ok (BasicAuthProps.Sample.file, None)) true true (Some ∅) tt ∅
    AzureProps.Sample.toy_graph JwtProps.Sample.ReadFile JwtProps.Sample.net (λ _, true).

Definition alice : Header := {["Authorization" := ["Basic YWxpY2U6cHc="]]}.
Definition bearer : Header := {["Authorization" := ["Bearer secret-b"]]}.
Definition folder : result (list (string * bool)) := Ok [("request.rego", false)].
Definition info : Info :=
  mkInfo (mkRequestInfo "GET" [] ∅ None None 0 "") VNil VNil VNil "/".

(** Another request is authenticated first; the policy file changes, and is
    reloaded between the two halves of the request's own [Validate]. *)
Definition others : list (auth_event (gmap N bool) (gmap string graph_app) string) :=
  [Served request ∅ info].
Definition change : list rego_event :=
  [FilesChange (RegoCacheProps.Sample.files "package p2");
   Notified RegoCacheProps.Sample.regular 0 (RegoCacheProps.Sample.event fs_Write);
   Requested "request.rego"].
Definition arrival `{AuthProvider provider} `{!Opa string} (f : provider → provider)
    (h : Header) (a : app) :
    World (contended provider) (contended_policies string) :=
  mkWorld [] h fresh_response newResponseTracker Metrics.New (mkContended (app_auth a) f)
    (mkPolicies (mkRunning (Watch folder (app_regos a)).2 []) change [Proceeds 0]) [].

Lemma authorization_ok v : server_header {["Authorization" := [v]]}.
Proof. intros k vs. rewrite lookup_singleton. case_decide; intros; by simplify_eq. Qed.
End Sample.

#[local] Existing Instance AppProps.Sample.toy_envsubst.
#[local] Existing Instance BasicAuthProps.Sample.toy_bcrypt.
#[local] Existing Instance BasicAuthProps.Sample.toy_maphash.
#[local] Existing Instance BasicAuthProps.Sample.toy_cache.
#[local] Existing Instance BasicAuthProps.Sample.toy_cache_lawful.
#[local] Existing Instance AzureProps.Sample.toy_jwt.
#[local] Existing Instance AzureProps.Sample.toy_cache.
#[local] Existing Instance AzureProps.Sample.toy_app_cache_lawful.
#[local] Existing Instance JwtProps.Sample.toy_jwk.
#[local] Existing Instance JwtProps.Sample.toy_jwt.
#[local] Existing Instance JwtProps.Sample.toy_url.
#[local] Existing Instance RegoCacheProps.Sample.toy_opa.

Lemma sample_arrives e args h (a : AppProps.Sample.app) :
  App.New e args = Started (Some a) → server_header h →
  arrives e args a Sample.folder Sample.others Sample.change [Proceeds 0]
    AppProps.Sample.request (Sample.arrival (auth_steps Sample.others) h a).
Proof. intros Ha Hh. split; try done. by repeat constructor. Qed.

Lemma program_forwards_only_allowed_witness :
  ∃ g d q i' bindings rest m,
    g ∈ [RegoCacheProps.Sample.files "package p"; RegoCacheProps.Sample.files "package p2"]
    ∧ g "policies/request.rego" = ReadData d
    ∧ compiled_from false "request.rego" d q
    ∧ Eval q i' = Ok (bindings :: rest) ∧ map_get bindings "x" = Some (VMap m)
    ∧ map_get m "allow" = Some (VBool true).
Proof.
  assert (Ha : ∃ a : AppProps.Sample.app,
    App.New AppProps.Sample.e (AppProps.Sample.args false "" true) = Started (Some a)
    ∧ length (backend_calls (mux AppProps.Sample.ok_backend AppProps.Sample.to_proxy
        AppProps.Sample.any_label (app_router a) ServerWriter AppProps.Sample.request
        (Sample.arrival (auth_steps Sample.others) AppProps.Sample.header a)).2) = 1%nat).
  { eexists. split; [vm_compute; reflexivity|]. vm_compute. reflexivity. }
  destruct Ha as (a & Ha & Hc%sent).
  destruct (program_forwards_only_allowed AppProps.Sample.ok_backend AppProps.Sample.to_proxy
    AppProps.Sample.any_label AppProps.Sample.e (AppProps.Sample.args false "" true) a
    Sample.folder Sample.others Sample.change [Proceeds 0] AppProps.Sample.request
    (Sample.arrival (auth_steps Sample.others) AppProps.Sample.header a)
    (sample_arrives _ _ _ a Ha AppProps.Sample.header_ok) (λ _, eq_refl) Hc)
    as (x' & r' & i & i' & g & d & q & bs & rest & m & r2 & _ & _ & Hg & Hd & Hq & HE & Hb
        & Hm & _).
  exists g, d, q, i', bs, rest, m. by split_and!.
Defined.

Lemma program_jwt_verified_witness :
  ∃ j n wc i' q bindings rest m,
    validates j "secret-b" n wc "api" (JWT i')
    ∧ Eval q i' = Ok (bindings :: rest) ∧ map_get bindings "x" = Some (VMap m)
    ∧ map_get m "allow" = Some (VBool true).
Proof.
  assert (Ha : ∃ a : AppProps.Sample.app,
    App.New AppProps.Sample.e Sample.jwt_args = Started (Some a)
    ∧ length (backend_calls (mux AppProps.Sample.ok_backend AppProps.Sample.to_proxy
        AppProps.Sample.any_label (app_router a) ServerWriter AppProps.Sample.request
        (Sample.arrival (auth_steps Sample.others) Sample.bearer a)).2) = 1%nat).
  { eexists. split; [vm_compute; reflexivity|]. vm_compute. reflexivity. }
  destruct Ha as (a & Ha & Hc%sent).
  destruct (program_jwt_verified AppProps.Sample.ok_backend AppProps.Sample.to_proxy
    AppProps.Sample.any_label AppProps.Sample.e Sample.jwt_args a
    Sample.folder Sample.others Sample.change [Proceeds 0] AppProps.Sample.request
    (Sample.arrival (auth_steps Sample.others) Sample.bearer a) "Bearer secret-b"
    (sample_arrives _ _ _ a Ha (Sample.authorization_ok _)) (λ _, eq_refl) ltac:(discriminate) eq_refl eq_refl Hc)
    as (_ & j & n & wc & aud & i' & q & bs & rest & m & _ & _ & Haud & Hv & HE & Hb & Hm).
  apply list_elem_of_singleton in Haud. subst aud.
  by exists j, n, wc, i', q, bs, rest, m.
Defined.

Lemma program_basic_verified_witness :
  ∃ (b : BasicAuthProvider (gmap N bool) unit) file i' q bindings rest m,
    loadFile file = Ok (creds b) ∧ is_Some (creds b !! "alice")
    ∧ (∃ u' p' hash, createCacheKey b u' p' = createCacheKey b "alice" "pw"
         ∧ creds b !! u' = Some hash ∧ CompareHashAndPassword hash p' = None)
    ∧ User i' = VStr "alice"
    ∧ Eval q i' = Ok (bindings :: rest) ∧ map_get bindings "x" = Some (VMap m)
    ∧ map_get m "allow" = Some (VBool true).
Proof.
  assert (Ha : ∃ a : AppProps.Sample.app,
    App.New Sample.basic_env (AppProps.Sample.args false "users" false) = Started (Some a)
    ∧ length (backend_calls (mux AppProps.Sample.ok_backend AppProps.Sample.to_proxy
        AppProps.Sample.any_label (app_router a) ServerWriter AppProps.Sample.request
        (Sample.arrival (auth_steps Sample.others) Sample.alice a)).2) = 1%nat).
  { eexists. split; [vm_compute; reflexivity|]. vm_compute. reflexivity. }
  destruct Ha as (a & Ha & Hc%sent).
  destruct (program_basic_verified AppProps.Sample.ok_backend AppProps.Sample.to_proxy
    AppProps.Sample.any_label Sample.basic_env (AppProps.Sample.args false "users" false) a
    Sample.folder Sample.others Sample.change [Proceeds 0] AppProps.Sample.request
    (Sample.arrival (auth_steps Sample.others) Sample.alice a) "Basic YWxpY2U6cHc=" "basic" "YWxpY2U6cHc=" "alice" "pw"
    (sample_arrives _ _ _ a Ha (Sample.authorization_ok _)) (λ _, eq_refl) ltac:(discriminate)
    eq_refl ltac:(intros c k v [= <-]; simpl; by rewrite lookup_empty) eq_refl eq_refl eq_refl Hc)
    as (b & file & i' & q & bs & rest & m & _ & _ & H).
  by exists b, file, i', q, bs, rest, m.
Defined.

Lemma program_azure_identified_witness :
  ∃ (i' : Info) (q : string) bindings rest m,
    Eval q i' = Ok (bindings :: rest) ∧ map_get bindings "x" = Some (VMap m)
    ∧ map_get m "allow" = Some (VBool true).
Proof.
  assert (Ha : ∃ a : AppProps.Sample.app,
    App.New AppProps.Sample.e Sample.azure_args = Started (Some a)
    ∧ length (backend_calls (mux AppProps.Sample.ok_backend AppProps.Sample.to_proxy
        AppProps.Sample.any_label (app_router a) ServerWriter AppProps.Sample.request
        (Sample.arrival (auth_steps Sample.others) Sample.bearer a)).2) = 1%nat).
  { eexists. split; [vm_compute; reflexivity|]. vm_compute. reflexivity. }
  destruct Ha as (a & Ha & Hc%sent).
  destruct (program_azure_identified AppProps.Sample.ok_backend AppProps.Sample.to_proxy
    AppProps.Sample.any_label AppProps.Sample.e Sample.azure_args a
    Sample.folder Sample.others Sample.change [Proceeds 0] AppProps.Sample.request
    (Sample.arrival (auth_steps Sample.others) Sample.bearer a)
    (sample_arrives _ _ _ a Ha (Sample.authorization_ok _)) (λ _, eq_refl) ltac:(discriminate)
    ltac:(intros k x; simpl; by rewrite lookup_empty) Hc)
    as (i' & q & bs & rest & m & HE & Hb & Hm & _).
  by exists i', q, bs, rest, m.
Defined.
