(* ===== verification/Isolation.v ===== *)
(** * Requests do not disturb each other

    With the policy in force loaded and a provider that a request does not
    change, whatever the other goroutines do, short of the watcher reporting the
    policy's own file, a request is answered as if it were alone. *)

From S2P Require Import Prelude GoStrings GoValue GoHttp GoServer GoOs GoUrl GoPath Config Types Metrics Server Router RouterSpec RouterSim NoAuth BasicAuth BasicAuthProps Azure AzureProps Jwt JwtProps FileCache FileCacheProps RegoCache RegoCacheProps App AppProps RouterProps PolicyInput Concurrent Program.

(** ** A loaded policy *)

Section policy.
Context `{Opa Q}.
Context (name d : string) (q : Q).
Local Abbreviation world := (RegoCache Q).

(** The file is cached and clean, and its query in force. *)
Definition loaded (r : world) : Prop :=
  files (cache r) !! name = Some (mkFile false d) ∧ regos r !! name = Some q.

(** Also the goroutines on their way hold that content. *)
Definition holds (g : goroutine) : Prop :=
  match g with
  | Calling _ _ => True
  | Between n got _ => n = name → got = Ok (Some d, false)
  end.

Definition in_force (s : running) : Prop :=
  loaded (policies s) ∧ Forall holds (goroutines s).

(** The events that can unload it. *)
Definition reports (ev : rego_event) : Prop :=
  match ev with Notified _ _ e => path_Base (Name e) = name | _ => False end.

Lemma get_file_loaded n (r : world) :
  loaded r →
  loaded (get_file n r).2
  ∧ ∃ got, (get_file n r).1 = Done got ∧ (n = name → got = Ok (Some d, false)).
Proof.
  intros [Hf Hq]. rewrite get_file_run.
  destruct (decide (n = name)) as [->|Hne].
  - rewrite Get_run, Hf. simpl. repeat split; try done. eexists. by split.
  - destruct (Get_frame (fs r) n (cache r)) as (_ & _ & _ & _ & _ & Hfiles).
    destruct (Get_done (fs r) n (cache r)) as [got Hg].
    split; [split; [|done]; simpl; by rewrite Hfiles|]. by exists got.
Qed.

Lemma get_query_loaded n got (r : world) :
  loaded r → (n = name → got = Ok (Some d, false)) →
  loaded (get_query n got r).2 ∧ (n = name → (get_query n got r).1 = Done (Ok (Some q))).
Proof.
  intros [Hf Hq] Hgot. rewrite get_query_run.
  destruct (decide (n = name)) as [->|Hne].
  - rewrite Hgot, Hq by done. by repeat split.
  - split; [|done]. unfold install. destruct got as [[[d'|] dty]|e].
    + repeat case_match; simpl; split; try done; simpl; by rewrite lookup_insert_ne.
    + split; [done|]. simpl. by rewrite lookup_delete_ne.
    + done.
Qed.

Lemma enter_in_force n todo s : in_force s → in_force (enter n todo s).
Proof.
  intros [Hl Hb]. unfold enter.
  destruct (get_file_loaded n (policies s) Hl) as (Hl' & got & Hg & Hn).
  destruct (get_file n (policies s)) as [o r]. simpl in *. subst o.
  split; [done|]. apply Forall_app. split; [done|]. by constructor.
Qed.

Lemma calling_holds n fns : Forall holds (calling n fns).
Proof. destruct fns; by repeat constructor. Qed.

Lemma proceed_in_force g s : in_force s → holds g → in_force (proceed g s).
Proof.
  intros Hs Hg. destruct g as [n [|[] todo]|n got todo]; simpl; [done|by apply enter_in_force|].
  destruct Hs as [Hl Hb]. split; simpl; [by apply get_query_loaded|].
  apply Forall_app. split; [done|apply calling_holds].
Qed.

Lemma invalidate_other n op now c :
  n ≠ name → files (invalidate n op now c).2 !! name = files c !! name.
Proof.
  intros Hn. unfold invalidate. go_unfold.
  destruct (files c !! n) as [f|]; [|done].
  destruct (op =? fs_Remove)%N; [|destruct (dirty f)]; simpl;
    by rewrite ?lookup_delete_ne, ?lookup_alter_ne.
Qed.

Lemma watch_event_other lstat now e c :
  path_Base (Name e) ≠ name → files (watch_event lstat now e c).2 !! name = files c !! name.
Proof.
  intros Hn. unfold watch_event. erewrite go_bind_done by reflexivity. cbv beta zeta.
  set (n := path_Base (Name e)) in *.
  pose proof (invalidate_other n fs_Write now c Hn) as Hw.
  pose proof (invalidate_other n fs_Remove now c Hn) as Hr.
  destruct (_ || _), (Has e fs_Remove || Has e fs_Rename),
    (shouldProcess lstat (pattern c) (Name e) n); try done.
  - unfold mbind, go_bind. destruct (invalidate n fs_Write now c) as [[] c1]; simpl in *; [|done].
    by rewrite invalidate_other.
  - unfold mbind, go_bind. by destruct (invalidate n fs_Write now c) as [[] c1].
Qed.

Lemma step_in_force ev s : ¬ reports ev → in_force s → in_force (step ev s).
Proof.
  intros Hev Hs. pose proof Hs as [Hl Hb].
  destruct ev as [f|lstat now e|n|id now|n|m|n]; unfold step; cbv zeta.
  - done.
  - pose proof (watch_event_other lstat now e (cache (policies s)) Hev) as Hf.
    split; [|done]. simpl. unfold on_cache, loaded in *.
    destruct (watch_event lstat now e (cache (policies s))). simpl in *. by rewrite Hf.
  - destruct (getters (cache (policies s)) !! n) as [m|]; [|done].
    split; [|done]. by apply (get_file_loaded m (RegoCache.set_cache _ _)).
  - done.
  - destruct (run_fired n (queue (cache (policies s)))) as [[m q']|]; [|done].
    split; [done|]. apply Forall_app. split; [done|apply calling_holds].
  - by apply enter_in_force.
  - destruct (goroutines s !! n) as [g|] eqn:En; [|done].
    apply proceed_in_force; [|by apply (Forall_lookup_1 _ _ _ _ Hb En)]. split; [done|].
    simpl. rewrite delete_take_drop. apply Forall_app.
    split; [by apply Forall_take|by apply Forall_drop].
Qed.

Lemma steps_in_force evs s : Forall (λ ev, ¬ reports ev) evs → in_force s → in_force (steps evs s).
Proof.
  unfold steps. intros He. revert s. induction He as [|ev evs Hev _ IH]; intros s Hs; [done|].
  by apply IH, step_in_force.
Qed.

(** A contended cache and one of a request alone, the policy loaded in both. *)
Definition both_loaded (s : contended_policies Q) (r : world) : Prop :=
  in_force (now s) ∧ Forall (λ ev, ¬ reports ev) (before s)
  ∧ Forall (λ ev, ¬ reports ev) (amid s) ∧ loaded r.

#[export] Instance both_loaded_sim : ValidatorSim name both_loaded.
Proof.
  split. intros i s r (Hs & Hb & Ha & Hr). simpl. unfold contended_Validate.
  apply (steps_in_force (before s)) in Hs; [|done]. set (s1 := steps (before s) (now s)) in *.
  destruct Hs as [Hs1 Hb1].
  destruct (get_file_loaded name (policies s1) Hs1) as (Hl & got & Hg & Hgot).
  destruct (get_file name (policies s1)) as [o r1]. simpl in *. subst o.
  rewrite Hgot by done.
  assert (Hs2 : in_force (steps (amid s) (mkRunning r1 (goroutines s1)))).
  { apply steps_in_force; [done|]. by split. }
  set (s2 := steps (amid s) _) in *. destruct Hs2 as [Hs2 Hb2].
  destruct (get_query_loaded name (Ok (Some d, false)) (policies s2) Hs2) as [Hl2 Hq2]; [done|].
  specialize (Hq2 eq_refl).
  destruct (get_query name _ (policies s2)) as [o2 r2]. simpl in *. subst o2.
  unfold rego_Validate, GetRego, mbind, go_bind, go_outcome.
  destruct (get_file_loaded name r Hr) as (Hl3 & got3 & Hg3 & Hgot3).
  destruct (get_file name r) as [o3 r3]. simpl in *. subst o3. rewrite Hgot3 by done.
  destruct (get_query_loaded name (Ok (Some d, false)) r3 Hl3) as [Hl4 Hq4]; [done|].
  specialize (Hq4 eq_refl).
  destruct (get_query name _ r3) as [o4 r4]. simpl in *. subst o4.
  split; [done|]. split; [by split|]. by split_and!.
Qed.
End policy.

(** ** The chain *)

Section isolation.
Context `{Unicode} {P : Type} `{!AuthProvider P} `{!Opa Q}.

(** A request changes nothing of the provider: [jwtsupport], [noauth]. *)
Definition unchanging (a : P) : Prop := ∀ r h i, (Authenticate r h (i, a)).2.2 = a.

(** The other requests served meanwhile. *)
Definition served (others : list (Request * Header * Info)) (a : P) : P :=
  foldl (λ a '(r, h, i), (Authenticate r h (i, a)).2.2) a others.

Lemma served_unchanging others a : unchanging a → served others a = a.
Proof.
  intros Ha. unfold served. induction others as [|[[r h] i] others IH]; [done|]. simpl.
  by rewrite Ha.
Qed.

(** What it knows of a provider that it shares with the other requests. *)
Definition one_of_many (c : contended P) (a : P) : Prop :=
  current c = a ∧ unchanging a ∧ meanwhile c a = a.

#[export] Instance one_of_many_sim : AuthSim one_of_many.
Proof.
  split.
  - intros r h i c a (<- & Hu & Hm). simpl. rewrite Hm.
    pose proof (Hu r h i) as E.
    destruct (Authenticate r h (i, current c)) as [o [i' a']]. simpl in *. subst a'.
    by repeat split.
  - by intros c a (<- & _).
Qed.

(** C6: requests do not disturb each other: with a provider that requests do not
    change and the policy loaded, a request is answered, and forwarded or not,
    exactly as if it were the only one, however many others are authenticated
    before it and whatever happens in the policy cache before and during its
    evaluation, reloads of other policies and changed files included, until
    the watcher reports an event of the policy's own file. *)
Theorem requests_isolated backend chi_route labels_valid p r
    (w : World P (RegoCache Q)) others (s : running) evs evs' d q :
  unchanging (provider w) →
  loaded (requestName p) d q (validator w) →
  in_force (requestName p) d q s →
  Forall (λ ev, ¬ reports (requestName p) ev) (evs ++ evs') →
  let alone := mux backend chi_route labels_valid p ServerWriter r w in
  let among := mux backend chi_route labels_valid p ServerWriter r
    (mkWorld (infos w) (header w) (response w) (tracker w) (metrics w)
       (mkContended (provider w) (served others)) (mkPolicies s evs evs') (backend_calls w)) in
  among.1 = alone.1
  ∧ response among.2 = response alone.2
  ∧ backend_calls among.2 = backend_calls alone.2
  ∧ metrics among.2 = metrics alone.2
  ∧ loaded (requestName p) d q (validator alone.2)
  ∧ in_force (requestName p) d q (now (validator among.2)).
Proof.
  intros Hu Hl Hs [Hb Ha]%Forall_app alone among.
  destruct (mux_simulates one_of_many (both_loaded (requestName p) d q) p backend chi_route
    labels_valid ServerWriter r
    (mkWorld (infos w) (header w) (response w) (tracker w) (metrics w)
       (mkContended (provider w) (served others)) (mkPolicies s evs evs') (backend_calls w)) w)
    as [Ho []].
  { split; try done. by split_and!; [|done|apply served_unchanging]. }
  split_and!; try done; apply rel_validator.
Qed.
End isolation.

(** ** The providers requests do not change *)

Section providers.
Context {C Seed AC Alg : Type}.
Context `{Unicode, Bcrypt, !BasicAuth.Cache C, !Maphash Seed, InsecureJwt Tok, !AppCache AC,
          UrlAuthority, !Jwk Alg, !Jwt Alg}.

Lemma jwt_unchanging (j : JWTSupport Alg) : unchanging j.
Proof.
  intros r h i. simpl. rewrite jwt_Authenticate_run. by repeat case_match; simplify_eq.
Qed.

(** JWT, none, or Basic where the cache could not be made: all but Azure and
    Basic with its cache of answers. *)
Lemma iface_unchanging (a : iface C Seed AC Alg) :
  match a with
  | IJWT _ | INoAuth _ | IBasic None => True
  | IBasic (Some b) => BasicAuth.cache b = None
  | IAzure _ => False
  end → unchanging a.
Proof.
  destruct a as [s|j|[b|]|n]; intros Ha r h i; simpl; unfold with_provider; try done.
  - pose proof (jwt_unchanging j r h i) as E. simpl in E.
    destruct (jwt_Authenticate r h (i, j)) as [o [i' j']]. simpl in *. by subst.
  - rewrite basic_Authenticate_run. destruct (answer_with _ _ _ _) as [o v]. simpl.
    destruct (verified (creds b) i) as [[[u hash] pwd]|]; [|done].
    unfold verifyPassword. erewrite go_bind_done by reflexivity. cbv zeta. rewrite Ha. simpl.
    unfold BasicAuth.set_cache. rewrite Ha. destruct b. simpl in *. by subst.
  - by destruct (presented i).
Qed.
End providers.

(** ** Witness *)

#[local] Existing Instance RegoCacheProps.Sample.toy_opa.

Lemma requests_isolated_witness :
  let world := mkWorld [] AppProps.Sample.header fresh_response newResponseTracker Metrics.New
    mkNoAuth (RegoCacheProps.Sample.world false "package old") [] in
  let among := mux AppProps.Sample.ok_backend AppProps.Sample.to_proxy AppProps.Sample.any_label
    AppProps.Sample.proxy ServerWriter AppProps.Sample.request
    (mkWorld [] AppProps.Sample.header fresh_response newResponseTracker Metrics.New
       (mkContended mkNoAuth (served [(AppProps.Sample.request, ∅, Sample.info)]))
       (mkPolicies (mkRunning (RegoCacheProps.Sample.world false "package old") [])
          [Requested "request.rego"; FilesChange (RegoCacheProps.Sample.files "package new");
           Notified RegoCacheProps.Sample.regular 0 (mkEvent "policies/other.rego" fs_Create)]
          [Proceeds 0; GetterRuns 0; TimerExpires 0 500; TimerRuns 0; Proceeds 0; Proceeds 0]) []) in
  among.1 = Done tt ∧ length (backend_calls among.2) = 1%nat.
Proof.
  intros world among.
  destruct (requests_isolated AppProps.Sample.ok_backend AppProps.Sample.to_proxy
    AppProps.Sample.any_label AppProps.Sample.proxy AppProps.Sample.request world
    [(AppProps.Sample.request, ∅, Sample.info)]
    (mkRunning (RegoCacheProps.Sample.world false "package old") [])
    [Requested "request.rego"; FilesChange (RegoCacheProps.Sample.files "package new");
     Notified RegoCacheProps.Sample.regular 0 (mkEvent "policies/other.rego" fs_Create)]
    [Proceeds 0; GetterRuns 0; TimerExpires 0 500; TimerRuns 0; Proceeds 0; Proceeds 0]
    "package old" "package old") as (Ho & _ & Hb & _).
  - intros r h i. reflexivity.
  - split; vm_compute; reflexivity.
  - split; [split; vm_compute; reflexivity|constructor].
  - repeat constructor; vm_compute; try tauto; discriminate.
  - split.
    + etrans; [exact Ho|]. vm_compute. reflexivity.
    + etrans; [exact (f_equal length Hb)|]. vm_compute. reflexivity.
Defined.
