(* ===== verification/GoQuery.v ===== *)
(** * net/url queries and net/http's ServeMux, as the test servers use them

    [ParseQuery] follows net/url's [parseQuery] (an invalid pair is skipped);
    the multiplexer knows patterns that are plain paths, without a method, a
    host, wildcards or a trailing slash. *)

From S2P Require Import Prelude GoStrings GoHttp GoUrl.

(** ** Queries *)

(** [QueryUnescape]: like [unescape], with plus for a space. *)
Fixpoint plus_to_space (s : string) : string :=
  match s with
  | EmptyString => EmptyString
  | String c r => String (if Ascii.eqb c "+" then " "%char else c) (plus_to_space r)
  end.

Definition QueryUnescape (s : string) : option string := unescape (plus_to_space s).

Definition query_pair (s : string) : option (string * string) :=
  if byte_in ";" s || String.eqb s "" then None
  else
    let '(k, v) := cut "=" s in
    k ← QueryUnescape k; v ← QueryUnescape v; Some (k, v).

(** The pairs in the order they are written; [Get] is the first of its key. *)
Definition ParseQuery (raw : string) : list (string * string) :=
  if String.eqb raw "" then [] else omap query_pair (Split raw "&").

Definition Query_Get (q : list (string * string)) (key : string) : string :=
  default "" (snd <$> List.find (λ e, String.eqb e.1 key) q).

(** ** ServeMux *)

(** [cleanPath]: rooted and cleaned, a trailing slash kept. *)
Definition cleanPath (p : string) : string :=
  if String.eqb p "" then "/"
  else
    let p := if HasPrefix p "/" then p else "/" +:+ p in
    let np := Clean p in
    if HasPrefix (String.rev p) "/" && negb (String.eqb np "/") then np +:+ "/" else np.

(** A pattern that is a plain path: its bytes mean themselves. *)
Definition pattern_byte (c : ascii) : bool :=
  token_byte c || Ascii.eqb c "/".

Definition plain_pattern (p : string) : bool :=
  all_bytes pattern_byte p && HasPrefix p "/" && String.eqb (cleanPath p) p
  && negb (HasPrefix (String.rev p) "/").

Example query_examples :
  Query_Get (ParseQuery "a=1&size=%31%30+x&size=2") "size" = "10 x"
  ∧ Query_Get (ParseQuery "size=%zz&cl") "size" = ""
  ∧ ParseQuery "x;size=2&&y" = [("y", "")]
  ∧ cleanPath "/e2e//x/../y/" = "/e2e/y/" ∧ plain_pattern "/e2e/jwt-allow" = true.
Proof. vm_compute. repeat split. Qed.
