(* ===== verification/E2eBackend.v ===== *)
(** * e2e-tests/shared: the controllable backend of the end-to-end tests

    backend_server.go: the cache of sized bodies, the handlers that [Mount]
    registers with their overrides by query parameter, and the multiplexer.
    [bs.Requests] keeps the requests each path has seen.  Memory is unlimited:
    no size is too large to build. *)

From S2P Require Import Prelude GoStrings GoStrconv GoHttp GoUrl GoQuery.

(** ** Bodies of a given size *)

Record bodyCache := mkBodyCache {
  base : string;
  cache : gmap Z string
}.

Definition newBodyCache (base : string) : bodyCache := mkBodyCache base ∅.

(** [strings.Repeat(s, n)] for a count that is not negative. *)
Definition Repeat (s : string) (n : nat) : string := Nat.iter n (String.append s) "".

(** [bc.base[:n]] panics below zero. *)
Definition get (n : Z) : go bodyCache string :=
  bc ← go_get;
  match cache bc !! n with
  | Some s => mret s
  | None =>
      let len := Z.of_nat (String.length (base bc)) in
      s ← (if (n <=? len)%Z then
             if (n <? 0)%Z then go_panic "slice bounds out of range"
             else mret (String.substring 0 (Z.to_nat n) (base bc))
           else mret (base bc +:+ Repeat "x" (Z.to_nat (n - len))));
      go_modify (λ bc, mkBodyCache (base bc) (<[n := s]> (cache bc))) ;;
      mret s
  end.

(** ** The server *)

(** A request as the handlers read it. *)
Record e2e_request := mkE2eRequest {
  er_Method : string;
  er_Path : string;
  er_RawQuery : string;
  er_Header : Header
}.

(** What [Mount] registers: the response, and the handler's own cache. *)
Record endpoint := mkEndpoint {
  ep_status : Z;
  ep_body : string;
  ep_cache : bodyCache
}.

Inductive mux_entry := Health | Mounted (e : endpoint).

Record BackendServer := mkBackend {
  bs_mux : gmap string mux_entry;
  Requests : gmap string (list e2e_request)
}.

(** [NewBackendServer]; [listens]: the port could be bound. *)
Definition NewBackendServer (listens : bool) : option BackendServer :=
  if listens then Some (mkBackend {["/health" := Health]} ∅) else None.

(** [mux.HandleFunc] panics on a pattern that is registered. *)
Definition Mount (name : string) (status : Z) (body : string) : go BackendServer unit :=
  bs ← go_get;
  let path := "/e2e/" +:+ name in
  match bs_mux bs !! path with
  | Some _ => go_panic "http: multiple registrations"
  | None =>
      go_put (mkBackend
        (<[path := Mounted (mkEndpoint status body (newBodyCache body))]> (bs_mux bs))
        (Requests bs))
  end.

(** ** e2e-tests/noauth/helpers/main.go, up to its wait for a signal *)

Definition noauth_setup (listens : bool) : startup BackendServer :=
  match NewBackendServer listens with
  | None => Exited 1
  | Some backendServer =>
      match Mount "noauth-allow" 200 "ok" backendServer with
      | (Panic why, _) => Crashed why
      | (Done _, backendServer) => Started backendServer
      end
  end.

(** ** Serving *)

(** A run of a handler: the server's state and the response. *)
Local Abbreviation handling := (BackendServer * Response)%type.

Definition on_writer {A} (m : go Response A) : go handling A := λ s,
  let '(o, r) := m s.2 in (o, (s.1, r)).

(** The cache of the endpoint at [path]. *)
Definition on_cache {A} (path : string) (e : endpoint) (m : go bodyCache A) : go handling A :=
  λ s,
  let '(o, bc) := m (ep_cache e) in
  (o, (mkBackend (<[path := Mounted (mkEndpoint (ep_status e) (ep_body e) bc)]> (bs_mux s.1))
         (Requests s.1), s.2)).

Definition record_request (path : string) (r : e2e_request) (bs : BackendServer)
    : BackendServer :=
  mkBackend (bs_mux bs)
    (<[path := default [] (Requests bs !! path) ++ [r]]> (Requests bs)).

(** Status and body, [fmt.Fprint] being one [Write]. *)
Definition respond (set : Header → Header) (status : Z) (body : string) : go handling unit :=
  on_writer (go_modify (resp_Header set)) ;;
  on_writer (resp_WriteHeader status) ;;
  _ ← on_writer (resp_Write body);
  mret tt.

(** The handler that [Mount] registers. *)
Definition mounted_handler (path : string) (e : endpoint) (r : e2e_request)
    : go handling unit :=
  go_modify (prod_map (record_request path r) id) ;;
  let q := ParseQuery (er_RawQuery r) in
  let sizeStr := Query_Get q "size" in
  responseBody ←
    (if negb (String.eqb sizeStr "") then
       match Atoi sizeStr with
       | Some n => if (0 <=? n)%Z then on_cache path e (get n) else mret (ep_body e)
       | None => mret (ep_body e)
       end
     else mret (ep_body e));
  let clVal := Query_Get q "cl" in
  if String.eqb clVal "missing" then
    respond (λ h, Header_Set (Header_Del h "Content-Length") "Transfer-Encoding" "chunked")
      (ep_status e) responseBody
  else if String.eqb clVal "bad" then
    respond (λ h, Header_Set h "Content-Length" "notanumber") (ep_status e) responseBody
  else if String.eqb clVal "" then respond id (ep_status e) responseBody
  else respond (λ h, Header_Set h "Content-Length" clVal) (ep_status e) responseBody.

(** What [bs.mux] does with a request: its handler, or an answer of its own. *)
Inductive dispatched := Handled | RedirectTo (path : string) | NoHandler.

Definition serve (r : e2e_request) : go handling dispatched :=
  s ← go_get;
  if negb (String.eqb (cleanPath (er_Path r)) (er_Path r))
  then mret (RedirectTo (cleanPath (er_Path r)))
  else match bs_mux s.1 !! er_Path r with
       | Some Health => on_writer (resp_WriteHeader 200) ;; mret Handled
       | Some (Mounted e) => mounted_handler (er_Path r) e r ;; mret Handled
       | None => mret NoHandler
       end.

(** ** What the server promises *)

(** The body of size [n] that belongs to [base]. *)
Definition sized (base : string) (n : nat) : string :=
  String.substring 0 n (base +:+ Repeat "x" n).

(** The bodies that were cached are the right ones. *)
Definition coherent_cache (body : string) (bc : bodyCache) : Prop :=
  base bc = body ∧ ∀ n s, cache bc !! n = Some s → (0 ≤ n)%Z ∧ s = sized body (Z.to_nat n).

Definition coherent (bs : BackendServer) : Prop :=
  ∀ path e, bs_mux bs !! path = Some (Mounted e) → coherent_cache (ep_body e) (ep_cache e).

Lemma length_Repeat n : String.length (Repeat "x" n) = n.
Proof. induction n as [|n IH]; [done|]. simpl. f_equal. exact IH. Qed.

Lemma substring_append a b n :
  (n ≤ String.length a)%nat → String.substring 0 n (a +:+ b) = String.substring 0 n a.
Proof.
  revert n. induction a as [|c a IH]; intros [|n] Hn; simpl in *; try lia; try done.
  - by destruct b.
  - f_equal. apply IH. lia.
Qed.

Lemma substring_append_ge a b n :
  (String.length a ≤ n)%nat →
  String.substring 0 n (a +:+ b) = a +:+ String.substring 0 (n - String.length a) b.
Proof.
  revert n. induction a as [|c a IH]; intros [|n] Hn; simpl in *; try lia; try done.
  rewrite IH by lia. done.
Qed.

Lemma substring_Repeat n m : (m ≤ n)%nat → String.substring 0 m (Repeat "x" n) = Repeat "x" m.
Proof.
  revert m. induction n as [|n IH]; intros [|m] Hm; simpl in *; try lia; try done.
  f_equal. apply IH. lia.
Qed.

Lemma length_substring n s : String.length (String.substring 0 n s) = Nat.min n (String.length s).
Proof. revert n. induction s as [|c s IH]; intros [|n]; simpl; auto. Qed.

Lemma sized_short b n : (n ≤ String.length b)%nat → sized b n = String.substring 0 n b.
Proof. intros. by apply substring_append. Qed.

Lemma sized_long b n :
  (String.length b ≤ n)%nat → sized b n = b +:+ Repeat "x" (n - String.length b).
Proof. intros. unfold sized. rewrite substring_append_ge, substring_Repeat by lia. done. Qed.

Lemma length_sized b n : String.length (sized b n) = n.
Proof.
  unfold sized. rewrite length_substring, length_append, length_Repeat. lia.
Qed.

(** The cached and the computed body are the same. *)
Lemma get_sized body n bc :
  coherent_cache body bc → (0 ≤ n)%Z →
  ∃ bc', get n bc = (Done (sized body (Z.to_nat n)), bc') ∧ coherent_cache body bc'.
Proof.
  intros [Hb Hc] Hn. unfold get. erewrite go_bind_done by reflexivity. cbv beta zeta.
  destruct (cache bc !! n) as [s|] eqn:E.
  { apply Hc in E as [_ ->]. by exists bc. }
  assert (Hs : (if (n <=? Z.of_nat (String.length (base bc)))%Z then
             if (n <? 0)%Z then go_panic "slice bounds out of range"
             else mret (String.substring 0 (Z.to_nat n) (base bc))
           else mret (base bc +:+ Repeat "x" (Z.to_nat (n - Z.of_nat (String.length (base bc))))))
          bc = (Done (sized body (Z.to_nat n)), bc)).
  { rewrite Hb. destruct (Z.leb_spec n (Z.of_nat (String.length body))).
    - rewrite (proj2 (Z.ltb_ge n 0)), sized_short by lia. done.
    - rewrite sized_long by lia. repeat f_equal. unfold mret, go_ret. repeat f_equal. lia. }
  erewrite go_bind_done by exact Hs. cbv beta. erewrite go_bind_done by reflexivity.
  eexists. split; [done|]. split; [done|]. intros m s Hm. simpl in Hm.
  apply lookup_insert_Some in Hm as [[<- <-]|[_ Hm]]; [done|by apply Hc].
Qed.

(** ** Every server of a test run is coherent *)

(** What the test programs and their clients do with a server; a handler may
    find any response writer. *)
Inductive history : BackendServer → Prop :=
| history_started bs : NewBackendServer true = Some bs → history bs
| history_mounted bs name status body bs' :
    history bs → Mount name status body bs = (Done tt, bs') → history bs'
| history_served bs r w o bs' w' :
    history bs → serve r (bs, w) = (o, (bs', w')) → history bs'.

Definition same_server (s s' : handling) : Prop := s'.1 = s.1.

#[local] Instance same_server_preorder : PreOrder same_server.
Proof. split; unfold same_server; [done|]. intros ????. congruence. Qed.

Lemma preserves_on_writer {A} (m : go Response A) : preserves same_server (on_writer m).
Proof. intros s. unfold on_writer. by destruct (m s.2). Qed.

Lemma preserves_respond set status body : preserves same_server (respond set status body).
Proof.
  unfold respond. repeat (apply preserves_bind; [apply _|apply preserves_on_writer|intros ?]).
  apply preserves_ret, _.
Qed.

(** The choice of the body: the cache of the endpoint may grow. *)
Definition choose_body (path : string) (e : endpoint) (sizeStr : string) : go handling string :=
  if negb (String.eqb sizeStr "") then
    match Atoi sizeStr with
    | Some n => if (0 <=? n)%Z then on_cache path e (get n) else mret (ep_body e)
    | None => mret (ep_body e)
    end
  else mret (ep_body e).

Definition wanted (e : endpoint) (sizeStr : string) : string :=
  match Atoi sizeStr with
  | Some n => if (0 <=? n)%Z then sized (ep_body e) (Z.to_nat n) else ep_body e
  | None => ep_body e
  end.

Lemma choose_body_run path e sizeStr (s : handling) :
  coherent s.1 → bs_mux s.1 !! path = Some (Mounted e) →
  ∃ bs', choose_body path e sizeStr s = (Done (wanted e sizeStr), (bs', s.2))
         ∧ coherent bs' ∧ Requests bs' = Requests s.1
         ∧ ∃ e', bs_mux bs' = <[path := Mounted e']> (bs_mux s.1)
                 ∧ ep_status e' = ep_status e ∧ ep_body e' = ep_body e.
Proof.
  intros Hc He. unfold choose_body, wanted.
  assert (Hsame : ∃ bs', (mret (ep_body e) : go handling string) s
      = (Done (ep_body e), (bs', s.2)) ∧ coherent bs' ∧ Requests bs' = Requests s.1
      ∧ ∃ e', bs_mux bs' = <[path := Mounted e']> (bs_mux s.1)
              ∧ ep_status e' = ep_status e ∧ ep_body e' = ep_body e).
  { exists s.1. destruct s. split_and!; try done. exists e. by rewrite insert_id. }
  destruct (String.eqb sizeStr "") eqn:Es.
  { apply String.eqb_eq in Es as ->. exact Hsame. }
  simpl. destruct (Atoi sizeStr) as [n|]; [|exact Hsame].
  destruct (Z.leb_spec 0 n); [|exact Hsame].
  destruct (get_sized (ep_body e) n (ep_cache e)) as (bc' & E & Hbc); [by apply (Hc path)|done|].
  unfold on_cache. rewrite E. eexists. split; [done|]. split_and!; [|done|by eexists].
  intros path' e' He'. simpl in He'.
  apply lookup_insert_Some in He' as [[<- [= <-]]|[_ He']]; [done|by apply (Hc path')].
Qed.

(** The rest of the handler only writes the response. *)
Definition cl_header (clVal : string) : Header → Header :=
  if String.eqb clVal "missing"
  then λ h, Header_Set (Header_Del h "Content-Length") "Transfer-Encoding" "chunked"
  else if String.eqb clVal "bad" then λ h, Header_Set h "Content-Length" "notanumber"
  else if String.eqb clVal "" then id
  else λ h, Header_Set h "Content-Length" clVal.

Lemma mounted_handler_run path e r (s : handling) :
  coherent s.1 → bs_mux s.1 !! path = Some (Mounted e) →
  let q := ParseQuery (er_RawQuery r) in
  ∃ bs', mounted_handler path e r s
         = respond (cl_header (Query_Get q "cl")) (ep_status e)
             (wanted e (Query_Get q "size")) (bs', s.2)
         ∧ coherent bs'
         ∧ Requests bs' = <[path := default [] (Requests s.1 !! path) ++ [r]]> (Requests s.1)
         ∧ ∃ e', bs_mux bs' = <[path := Mounted e']> (bs_mux s.1)
                 ∧ ep_status e' = ep_status e ∧ ep_body e' = ep_body e.
Proof.
  intros Hc He q. unfold mounted_handler. fold q.
  erewrite go_bind_done by reflexivity. cbv beta zeta. fold (choose_body path e (Query_Get q "size")).
  destruct (choose_body_run path e (Query_Get q "size")
              (prod_map (record_request path r) id s) Hc He) as (bs' & E & Hc' & Hr & Hm).
  erewrite go_bind_done by exact E. cbv beta. exists bs'. split; [|done].
  unfold cl_header. by repeat case_match.
Qed.

(** The path [p] still has the endpoint it was mounted with. *)
Definition mounted_at (bs : BackendServer) (p : string) (status : Z) (body : string) : Prop :=
  ∃ e, bs_mux bs !! p = Some (Mounted e) ∧ ep_status e = status ∧ ep_body e = body.

Lemma serve_coherent r (s : handling) :
  coherent s.1 →
  coherent (serve r s).2.1
  ∧ ∀ p status body, mounted_at s.1 p status body → mounted_at (serve r s).2.1 p status body.
Proof.
  intros Hc. unfold serve. erewrite go_bind_done by reflexivity. cbv beta.
  destruct (negb _); [done|].
  destruct (bs_mux s.1 !! er_Path r) as [[|e]|] eqn:E; [..|done].
  - pose proof (preserves_on_writer (resp_WriteHeader 200) s) as Hp. unfold same_server in Hp.
    go_unfold. destruct (on_writer _ s) as [[] s']; simpl in *; by rewrite Hp.
  - destruct (mounted_handler_run _ _ r s Hc E) as (bs' & Em & Hc' & _ & e' & Hm & He1 & He2).
    assert (Hkeep : ∀ p status body, mounted_at s.1 p status body → mounted_at bs' p status body).
    { intros p status body (e0 & Hp & <- & <-). unfold mounted_at. rewrite Hm.
      destruct (decide (p = er_Path r)) as [->|]; [|rewrite lookup_insert_ne by done; eauto].
      rewrite E in Hp. injection Hp as <-. rewrite lookup_insert_eq. eauto. }
    pose proof (preserves_respond (cl_header (Query_Get (ParseQuery (er_RawQuery r)) "cl"))
      (ep_status e) (wanted e (Query_Get (ParseQuery (er_RawQuery r)) "size")) (bs', s.2)) as Hp.
    unfold same_server in Hp. rewrite <- Em in Hp. go_unfold.
    destruct (mounted_handler _ _ _ s) as [[] s']; simpl in *; by rewrite Hp.
Qed.

Lemma history_coherent bs : history bs → coherent bs.
Proof.
  induction 1 as [bs [= <-]|bs name status body bs' _ IH E|bs r w o bs' w' _ IH E].
  - intros path e. simpl. by intros [_ ?]%lookup_singleton_Some.
  - unfold Mount in E. go_unfold. destruct (bs_mux bs !! _); [done|]. injection E as <-.
    intros path e He. simpl in He.
    apply lookup_insert_Some in He as [[_ [= <-]]|[_ He]]; [|by apply (IH path)].
    split; [done|]. intros n s Hn. simpl in Hn. by rewrite lookup_empty in Hn.
  - pose proof (proj1 (serve_coherent r (bs, w) IH)) as Hc. by rewrite E in Hc.
Qed.

(** What serving requests makes of a server. *)
Inductive later (bs : BackendServer) : BackendServer → Prop :=
| later_now : later bs bs
| later_served bs1 r w o bs2 w' :
    later bs bs1 → serve r (bs1, w) = (o, (bs2, w')) → later bs bs2.

Lemma later_history bs bs' p status body :
  history bs → mounted_at bs p status body → later bs bs' →
  history bs' ∧ mounted_at bs' p status body.
Proof.
  intros Hb Hm. induction 1 as [|bs1 r w o bs2 w' _ [IH1 IH2] E]; [done|].
  split; [by eapply history_served|].
  pose proof (proj2 (serve_coherent r (bs1, w) (history_coherent _ IH1)) _ _ _ IH2) as Hk.
  by rewrite E in Hk.
Qed.

(** ** What a mounted path answers *)

(** The length the overrides make the server enforce, and the header it sends. *)
Definition enforced (clVal : string) : Z :=
  match ParseInt clVal with Some v => if (0 <=? v)%Z then v else -1 | None => -1 end%Z.

Definition sent_header (clVal : string) : Header :=
  if String.eqb clVal "missing" then {["Transfer-Encoding" := ["chunked"]]}
  else if (enforced clVal =? -1)%Z then ∅ else {["Content-Length" := [clVal]]}.

Lemma declared_cl clVal :
  declared_length (cl_header clVal ∅) = (enforced clVal, sent_header clVal).
Proof.
  unfold cl_header, sent_header. destruct (String.eqb clVal "missing") eqn:E1.
  { apply String.eqb_eq in E1 as ->. by vm_compute. }
  destruct (String.eqb clVal "bad") eqn:E2.
  { apply String.eqb_eq in E2 as ->. by vm_compute. }
  destruct (String.eqb clVal "") eqn:E3.
  { apply String.eqb_eq in E3 as ->. by vm_compute. }
  unfold declared_length. rewrite Header_Get_Set, E3. unfold enforced, Header_Set, Header_Del.
  change (CanonicalHeaderKey "Content-Length") with "Content-Length".
  rewrite insert_empty, delete_singleton_eq. destruct (ParseInt clVal) as [v|]; [|done].
  destruct (Z.leb_spec 0 v) as [Hv|]; [|done]. by rewrite (proj2 (Z.eqb_neq v (-1))) by lia.
Qed.

Lemma respond_run set status body (bs : BackendServer) :
  (200 ≤ status ≤ 999)%Z →
  let '(n, h) := declared_length (set ∅) in
  ∃ w', respond set status body (bs, fresh_response) = (Done tt, (bs, w'))
        ∧ rw_sent w' = Some (status, h) ∧ rw_informational w' = []
        ∧ rw_body w' = if body_allowed status
                          && ((n =? -1)%Z || (Z.of_nat (String.length body) <=? n)%Z)
                       then body else "".
Proof.
  intros Hst. unfold respond. erewrite go_bind_done by reflexivity. cbv beta.
  erewrite go_bind_done
    by (unfold on_writer; rewrite resp_WriteHeader_final by done; reflexivity).
  simpl. destruct (declared_length (set ∅)) as [n h]. simpl.
  set (w1 := mkResponse _ _ _ _ _ _).
  destruct (resp_Write_done body w1 status h eq_refl) as (k & w2 & E & Hs & Hi & _ & Hin & Hout).
  erewrite go_bind_done by (unfold on_writer; simpl; rewrite E; reflexivity).
  exists w2. split_and!; [done|done|done|].
  unfold accepts in Hin, Hout. simpl in Hin, Hout.
  destruct (body_allowed status); simpl.
  - destruct (Z.eqb_spec n (-1)); [by rewrite Hin by auto|].
    destruct (Z.leb_spec (Z.of_nat (String.length body)) n); simpl; [by rewrite Hin by auto|].
    rewrite Hout; [done|]. intros [_ [|]]; lia.
  - rewrite Hout; [done|]. by intros [].
Qed.

(** The answer of a mounted path. *)
Lemma mounted_run bs (r : e2e_request) e :
  history bs → bs_mux bs !! er_Path r = Some (Mounted e) →
  cleanPath (er_Path r) = er_Path r → (200 ≤ ep_status e ≤ 999)%Z →
  let size := Atoi (Query_Get (ParseQuery (er_RawQuery r)) "size") in
  let cl := Query_Get (ParseQuery (er_RawQuery r)) "cl" in
  ∃ bs' w' body,
    serve r (bs, fresh_response) = (Done Handled, (bs', w'))
    ∧ (∀ n, size = Some n → (0 ≤ n)%Z →
         Z.of_nat (String.length body) = n
         ∧ body = String.substring 0 (Z.to_nat n) (ep_body e +:+ Repeat "x" (Z.to_nat n)))
    ∧ ((∀ n, size = Some n → (n < 0)%Z) → body = ep_body e)
    ∧ rw_sent w' = Some (ep_status e, sent_header cl)
    ∧ (body_allowed (ep_status e) = true →
         rw_body w' = if (enforced cl =? -1)%Z || (Z.of_nat (String.length body) <=? enforced cl)%Z
                      then body else "")
    ∧ Requests bs' !! er_Path r = Some (default [] (Requests bs !! er_Path r) ++ [r])
    ∧ coherent bs'.
Proof.
  intros Hc%history_coherent He Hp Hst size cl.
  destruct (mounted_handler_run (er_Path r) e r (bs, fresh_response) Hc He)
    as (bs' & E & Hc' & Hr & _). fold cl in E.
  pose proof (respond_run (cl_header cl) (ep_status e)
    (wanted e (Query_Get (ParseQuery (er_RawQuery r)) "size")) bs' Hst) as Hresp.
  rewrite declared_cl in Hresp. destruct Hresp as (w' & E' & Hs & _ & Hb).
  exists bs', w', (wanted e (Query_Get (ParseQuery (er_RawQuery r)) "size")). split_and!; try done.
  - unfold serve. erewrite go_bind_done by reflexivity. cbv beta. simpl fst.
    rewrite Hp, String.eqb_refl. cbn [negb fst]. rewrite He.
    erewrite go_bind_done; [done|]. rewrite E. exact E'.
  - intros n Hn Hle. unfold wanted. fold size. rewrite Hn, (proj2 (Z.leb_le 0 n)) by lia.
    split; [rewrite length_sized; lia|done].
  - intros Hneg. unfold wanted. fold size. destruct size as [n|]; [|done].
    specialize (Hneg n eq_refl). by rewrite (proj2 (Z.leb_gt 0 n)).
  - intros Ha. by rewrite Hb, Ha.
  - rewrite Hr. by rewrite lookup_insert_eq.
Qed.

(** A path that was mounted answers every request with its status and a body
    that depends on the query alone, whatever bodies earlier requests have put
    into the cache: [size] cuts or fills the mounted body to exactly that many
    bytes, anything that is no such number leaves it.  A length given in [cl] is
    enforced by net/http: with a smaller one the client gets no body at all; a
    malformed one is dropped, so that [cl=bad] answers like no override.  The
    request is recorded, and the caches stay coherent. *)
Theorem mounted_answers bs (r : e2e_request) e :
  history bs → bs_mux bs !! er_Path r = Some (Mounted e) →
  cleanPath (er_Path r) = er_Path r → (200 ≤ ep_status e ≤ 999)%Z →
  let size := Atoi (Query_Get (ParseQuery (er_RawQuery r)) "size") in
  let cl := Query_Get (ParseQuery (er_RawQuery r)) "cl" in
  ∃ bs' w' body,
    serve r (bs, fresh_response) = (Done Handled, (bs', w'))
    ∧ (∀ n, size = Some n → (0 ≤ n)%Z →
         Z.of_nat (String.length body) = n
         ∧ body = String.substring 0 (Z.to_nat n) (ep_body e +:+ Repeat "x" (Z.to_nat n)))
    ∧ ((∀ n, size = Some n → (n < 0)%Z) → body = ep_body e)
    ∧ rw_sent w' = Some (ep_status e, sent_header cl)
    ∧ (body_allowed (ep_status e) = true →
         rw_body w' = if (enforced cl =? -1)%Z || (Z.of_nat (String.length body) <=? enforced cl)%Z
                      then body else "")
    ∧ Requests bs' !! er_Path r = Some (default [] (Requests bs !! er_Path r) ++ [r])
    ∧ coherent bs'.
Proof. apply mounted_run. Qed.

(** The backend of the no-auth scenario starts, and answers "ok" from then on. *)
Lemma noauth_setup_answers srv0 srv r :
  noauth_setup true = Started srv0 → later srv0 srv →
  er_Path r = "/e2e/noauth-allow" → er_RawQuery r = "" →
  ∃ srv' w', serve r (srv, fresh_response) = (Done Handled, (srv', w'))
             ∧ rw_sent w' = Some (200%Z, ∅) ∧ rw_body w' = "ok".
Proof.
  intros Hset Hl Hp Hq.
  assert (Hs : history srv0 ∧ mounted_at srv0 "/e2e/noauth-allow" 200 "ok").
  { unfold noauth_setup in Hset. destruct (NewBackendServer true) as [b|] eqn:Eb; [|done].
    destruct (Mount "noauth-allow" 200 "ok" b) as [[u|why] b'] eqn:Em; [destruct u|done].
    injection Hset as <-. split.
    - eapply history_mounted; [by eapply history_started|exact Em].
    - injection Eb as <-. vm_compute in Em. injection Em as <-.
      eexists. split; [vm_compute; reflexivity|done]. }
  destruct Hs as [Hh Hm]. destruct (later_history _ _ _ _ _ Hh Hm Hl) as [Hh' (e & He & Hst & Hb)].
  destruct (mounted_run srv r e) as (srv' & w' & body & E & _ & Hbody & Hsent & Hrw & _);
    [done|by rewrite Hp|by rewrite Hp|by rewrite Hst|].
  rewrite Hq, Hst in *. exists srv', w'. split; [done|]. split; [exact Hsent|].
  rewrite Hrw by done. simpl. rewrite Hbody, Hb; [done|].
  intros n Hn. discriminate Hn.
Qed.

Module Sample.
(** A server with one path and one cached body. *)
Definition bs : BackendServer :=
  mkBackend
    (<["/e2e/jwt-allow" := Mounted (mkEndpoint 200 "ok" (mkBodyCache "ok" {[ 4%Z := "okxx" ]}))]>
       {["/health" := Health]})
    {["/e2e/jwt-allow" := [mkE2eRequest "GET" "/e2e/jwt-allow" "size=4" ∅]]}.

Definition get (query : string) : e2e_request := mkE2eRequest "GET" "/e2e/jwt-allow" query ∅.

Lemma bs_history : history bs.
Proof.
  eapply (history_served _ (get "size=4") fresh_response).
  - eapply (history_mounted _ "jwt-allow" 200 "ok"); [by apply history_started|].
    vm_compute. reflexivity.
  - vm_compute. reflexivity.
Qed.
End Sample.

Lemma mounted_answers_witness :
  ∃ bs' w', serve (Sample.get "size=4&cl=3") (Sample.bs, fresh_response) = (Done Handled, (bs', w'))
            ∧ rw_sent w' = Some (200%Z, {["Content-Length" := ["3"]]}) ∧ rw_body w' = "".
Proof.
  destruct (mounted_answers Sample.bs (Sample.get "size=4&cl=3")
    (mkEndpoint 200 "ok" (mkBodyCache "ok" {[ 4%Z := "okxx" ]})) Sample.bs_history)
    as (bs' & w' & body & E & Hn & _ & Hs & Hb & _).
  - vm_compute. reflexivity.
  - vm_compute. reflexivity.
  - simpl. lia.
  - exists bs', w'. split; [exact E|]. split; [exact Hs|].
    destruct (Hn 4%Z) as [Hl _]; [vm_compute; reflexivity|lia|].
    assert (Hb' := Hb eq_refl). rewrite Hl in Hb'. exact Hb'.
Defined.

Example overrides :
  let answer q := (serve (Sample.get q) (Sample.bs, fresh_response)).2.2 in
  rw_body (answer "") = "ok" ∧ rw_body (answer "size=1") = "o"
  ∧ rw_body (answer "size=-1") = "ok" ∧ rw_body (answer "size=5&cl=missing") = "okxxx"
  ∧ rw_sent (answer "cl=bad") = Some (200%Z, ∅) ∧ rw_body (answer "cl=bad") = "ok"
  ∧ rw_body (answer "cl=7") = "ok".
Proof. vm_compute. repeat split. Qed.
