(* ===== verification/E2eJwt.v ===== *)
(** * e2e-tests/jwt: the JWT scenario, from its helper program to the answer

    helpers/main.go: the key pair, the well-known document, the key set and the
    tokens the helper serves; policies/request.rego; and the composition of
    these with the proxy: [New] and [Authenticate] of the JWT provider, the
    router's [mux] and the backend of [E2eBackend]. *)

From S2P Require Import Prelude GoStrings GoValue GoHttp GoUrl Config Types Metrics Server Router RouterSpec Jwt JwtProps GoQuery E2eBackend.

(** ** The helper program

    The keys' ids are left out: they only choose among several keys. *)

Definition helperAddr : string := "http://127.0.0.1:18305".
Definition testAudience : string := "jwt-e2e-test".

Record token := mkToken {
  tok_sub : string;
  tok_aud : list string;
  tok_iss : string;
  tok_iat : Z;                              (* seconds *)
  tok_exp : Z;
  tok_private : list (string * value)
}.

(** crypto/rsa, jwx and encoding/json; [None] is an error.  Keys that are read
    from raw ones have no algorithm yet. *)
Class HelperCrypto (Alg : Type) := {
  GenerateKey : option string;
  public : string → string;
  FromRaw : string → option (Key Alg);
  json_Marshal : list (Key Alg) → option string;
  jwt_Sign : token → Key Alg → result string
}.

Record helper (Alg : Type) := mkHelper { privateJWK : Key Alg; jwksJSON : string }.
Arguments mkHelper {Alg}.
Arguments privateJWK {Alg}.
Arguments jwksJSON {Alg}.

Definition or_exit {A} (x : option A) : startup A :=
  match x with Some a => Started a | None => Exited 1 end.

Section helper_program.
Context `{Jwk Alg} `{!HelperCrypto Alg}.

Definition RS256 : Alg := KeyAlgorithmFrom "RS256".

(** [main] up to its servers; [listens]: the backend's port could be bound. *)
Definition setup (listens : bool) : startup (BackendServer * helper Alg) :=
  privateKey ← or_exit GenerateKey;
  private ← or_exit (FromRaw privateKey);
  pub ← or_exit (FromRaw (public privateKey));
  json ← or_exit (json_Marshal [set_alg RS256 pub]);
  backendServer ← or_exit (NewBackendServer listens);
  match Mount "jwt-allow" 200 "ok" backendServer with
  | (Panic why, _) => Crashed why
  | (Done _, backendServer) =>
      Started (backendServer, mkHelper (set_alg RS256 private) json)
  end.

Definition well_known_text : string :=
  let q s := quote +:+ s +:+ quote in
  let nl := bs [10%N] in
  "{" +:+ nl
  +:+ "  " +:+ q "issuer" +:+ ": " +:+ q helperAddr +:+ "," +:+ nl
  +:+ "  " +:+ q "jwks_uri" +:+ ": " +:+ q (helperAddr +:+ "/jwks") +:+ "," +:+ nl
  +:+ "  " +:+ q "id_token_signing_alg_values_supported" +:+ ": [" +:+ q "RS256" +:+ "]" +:+ nl
  +:+ "}".

Definition answer (contentType body : string) : go Response unit :=
  go_modify (resp_Header (λ h, Header_Set h "Content-Type" contentType)) ;;
  _ ← resp_Write body;
  mret tt.

Definition well_known_handler : go Response unit := answer "application/json" well_known_text.

Definition jwks_handler (h : helper Alg) : go Response unit :=
  answer "application/json" (jwksJSON h).

(** The token issued at [now]. *)
Definition issue (now : Z) : token :=
  mkToken "e2e-test-user" [testAudience] helperAddr now (now + 24 * 3600)
    [("email", VStr "e2e@example.com"); ("roles", VStrs ["reader"])].

Definition token_handler (h : helper Alg) (now : Z) : go Response unit :=
  match jwt_Sign (issue now) (privateJWK h) with
  | Err _ => resp_Error "token signing failed" 500
  | Ok signed => answer "text/plain" signed
  end.

(** The helper's multiplexer at time [now]. *)
Definition helper_mux (h : helper Alg) (now : Z) (path : string) : go Response unit :=
  if String.eqb path "/.well-known/openid-configuration" then well_known_handler
  else if String.eqb path "/jwks" then jwks_handler h
  else if String.eqb path "/token" then token_handler h now
  else resp_Error "404 page not found" 404.

(** What a client of the helper gets: the body of an answer with status 200. *)
Definition fetch (h : helper Alg) (now : Z) (url : string) : option string :=
  path ← cut_prefix helperAddr url;
  match helper_mux h now path fresh_response with
  | (Done _, w) =>
      match rw_sent w with Some (200%Z, _) => Some (rw_body w) | _ => None end
  | _ => None
  end.
End helper_program.

(** The claims of a verified token. *)
Definition claims (t : token) : value :=
  VMap ([("sub", VStr (tok_sub t)); ("aud", VStrs (tok_aud t)); ("iss", VStr (tok_iss t));
         ("iat", VNum (Itoa (tok_iat t))); ("exp", VNum (Itoa (tok_exp t)))] ++ tok_private t).

(** ** policies/request.rego *)

Definition is_str (s : string) (v : value) : bool :=
  match v with VStr s' => String.eqb s s' | _ => false end.

(** [input.jwt.aud[_] == testAudience]. *)
Definition some_elem_is (s : string) (v : value) : bool :=
  match v with
  | VStrs l => existsb (String.eqb s) l
  | VList l => existsb (is_str s) l
  | VMap m => existsb (λ e, is_str s e.2) m
  | _ => false
  end.

Definition policy_allows (jwt : value) : bool :=
  match jwt with
  | VMap m =>
      match map_get m "sub", map_get m "aud" with
      | Some sub, Some aud => negb (is_str "" sub) && some_elem_is testAudience aud
      | _, _ => false
      end
  | _ => false
  end.

Record jwt_policy := mkJwtPolicy {}.

#[export] Instance jwt_policy_validator : Validator jwt_policy := {
  Validate name i v := (Done (Ok (VMap [("allow", VBool (policy_allows (JWT i)))])), v)
}.

(** ** The backend behind the proxy *)

(** The proxy's requests carry no query; the answer does not depend on what the
    server has served before ([mounted_run]). *)
Definition e2e_backend (srv : BackendServer) (r : Request) (out : Header) : backend_reply :=
  match serve (mkE2eRequest (req_Method r) (req_Path r) "" out) (srv, fresh_response) with
  | (Panic why, _) => BackendError why
  | (Done (RedirectTo p), _) => BackendReply [] 301 {["Location" := [p]]} ""
  | (Done NoHandler, _) => BackendReply [] 404 ∅ ("404 page not found" +:+ bs [10%N])
  | (Done Handled, (_, w)) =>
      match rw_sent w with
      | Some (code, h) => BackendReply (rw_informational w) code h (rw_body w)
      | None => BackendReply (rw_informational w) 200 (rw_header w) ""
      end
  end.

(** ** The scenario *)

(** What the libraries promise: documents read back, keys of RS256 have an
    algorithm, a signed token is one visible word, and it verifies with the
    public key for its audiences while it is valid. *)
Class LawfulCrypto (Alg : Type) `{Jwk Alg, !Jwt Alg, !HelperCrypto Alg} (clock : Z) : Prop := {
  well_known_read : json_Unmarshal well_known_text = Some (helperAddr +:+ "/jwks", ["RS256"]);
  jwks_read ks d : json_Marshal ks = Some d → jwk_Parse d = Some ks;
  RS256_named : Alg_String RS256 ≠ "";
  sign_visible t k s : jwt_Sign t k = Ok s → all_bytes visible s = true;
  sign_verify t raw k k' s aud :
    FromRaw raw = Some k → FromRaw (public raw) = Some k' →
    jwt_Sign t (set_alg RS256 k) = Ok s → aud ∈ tok_aud t →
    (tok_iat t ≤ clock < tok_exp t)%Z →
    jwt_Parse s [WithKey (set_alg RS256 k'); WithValidate true; WithVerify true;
                 WithAudience aud] = Ok (claims t)
}.

Section scenario.
Context `{Unicode, UrlAuthority, Jwk Alg} `{!Jwt Alg, !HelperCrypto Alg} (clock : Z).
Context `{!LawfulCrypto Alg clock}.
Local Abbreviation support := (JWTSupport Alg).

Definition well_known_url : string := helperAddr +:+ "/.well-known/openid-configuration".

(** The proxy reaches the helper. *)
Definition helper_net (h : helper Alg) (now : Z) : Net Alg := {|
  rh_Get _ := true;
  rh_Do url := fetch h now url;
  jwks_Register _ := true;
  jwks_Get url :=
    match data ← fetch h now url; jwk_Parse data with
    | Some keys => Ok keys
    | None => Err (ErrMsg "failed to fetch")
    end
|}.

(** *** The helper's answers *)

Lemma answer_run contentType body :
  ∃ w, answer contentType body fresh_response = (Done tt, w)
       ∧ rw_sent w = Some (200%Z, {["Content-Type" := [contentType]]}) ∧ rw_body w = body.
Proof.
  unfold answer. erewrite go_bind_done by reflexivity. cbv beta.
  unfold resp_Write. go_unfold. simpl.
  destruct body as [|c body]; simpl; eexists; split_and!; reflexivity.
Qed.

Lemma fetch_answer (h : helper Alg) now path contentType body :
  helper_mux h now path = answer contentType body →
  fetch h now (helperAddr +:+ path) = Some body.
Proof.
  intros Hm. unfold fetch. rewrite cut_prefix_append. cbn [mbind option_bind]. rewrite Hm.
  destruct (answer_run contentType body) as (w & -> & -> & ->). done.
Qed.

(** [setup]: the key set holds the public half of the signing key. *)
Lemma setup_started listens srv h :
  setup listens = Started (srv, h) →
  (∃ raw k k', FromRaw raw = Some k ∧ FromRaw (public raw) = Some k'
     ∧ privateJWK h = set_alg RS256 k ∧ json_Marshal [set_alg RS256 k'] = Some (jwksJSON h))
  ∧ history srv ∧ mounted_at srv "/e2e/jwt-allow" 200 "ok".
Proof.
  unfold setup.
  destruct GenerateKey as [raw|]; [|done]. cbn [or_exit mbind startup_bind].
  destruct (FromRaw raw) as [k|] eqn:E1; [|done]. cbn [or_exit mbind startup_bind].
  destruct (FromRaw (public raw)) as [k'|] eqn:E2; [|done]. cbn [or_exit mbind startup_bind].
  destruct (json_Marshal _) as [json|] eqn:E3; [|done]. cbn [or_exit mbind startup_bind].
  destruct (NewBackendServer listens) as [b|] eqn:E4; [|done].
  cbn [or_exit mbind startup_bind].
  destruct (Mount "jwt-allow" 200 "ok" b) as [[u|why] b'] eqn:E5; [destruct u|done].
  intros [= <- <-]. split; [by exists raw, k, k'|].
  unfold NewBackendServer in E4. destruct listens; [|done]. injection E4 as <-. split.
  - eapply history_mounted; [|exact E5]. by eapply history_started.
  - vm_compute in E5. injection E5 as <-. eexists. split; [vm_compute; reflexivity|done].
Qed.

(** *** The provider *)

Lemma post_fetched_named wk (k : Key Alg) :
  Alg_String (Algorithm k) ≠ "" → post_fetched wk [k] = [k].
Proof.
  intros Ha. unfold post_fetched, PostFetch. simpl. unfold post_fetch_key. go_unfold. simpl.
  apply String.eqb_neq in Ha. rewrite Ha. simpl.
  destruct (AddKey_spec [] 0) as [->|[_ Hin%elem_of_nil]]; done.
Qed.

Definition issuer : wellKnownData :=
  mkWellKnown (helperAddr +:+ "/jwks") ["RS256"] well_known_url false.

(** The provider the helper's documents give. *)
Definition scenario_provider (h : helper Alg) (now : Z) : support :=
  mkJWT [testAudience] "aud" "bearer" [well_known_url] [issuer] {[helperAddr +:+ "/jwks" := issuer]}
    [CachedSet (helperAddr +:+ "/jwks")] false (helper_net h now).

Lemma fetch_keys (h : helper Alg) now k :
  json_Marshal [set_alg RS256 k] = Some (jwksJSON h) →
  jwks_Get (helper_net h now) (helperAddr +:+ "/jwks") = Ok [set_alg RS256 k].
Proof.
  intros Hj. simpl jwks_Get. rewrite (fetch_answer h now "/jwks" "application/json" (jwksJSON h))
    by reflexivity.
  cbn [mbind option_bind]. by rewrite (jwks_read _ _ Hj).
Qed.

Lemma scenario_started rf (h : helper Alg) now k :
  json_Marshal [set_alg RS256 k] = Some (jwksJSON h) →
  Jwt.New rf (helper_net h now) [well_known_url] "aud" [testAudience] "bearer" false
  = Started (scenario_provider h now).
Proof.
  intros Hj. apply jwt_started. cbv zeta.
  assert (Hwk : load_well_known rf (helper_net h now) well_known_url = Some issuer).
  { assert (Hf : fetch h now well_known_url = Some well_known_text)
      by exact (fetch_answer h now "/.well-known/openid-configuration" "application/json"
                  well_known_text eq_refl).
    unfold load_well_known.
    change (String.eqb well_known_url "") with false. change (isFileURL well_known_url) with false.
    cbn [rh_Get rh_Do helper_net]. rewrite Hf. cbn [mbind option_bind].
    by rewrite well_known_read. }
  assert (Hl : load_jwks rf (helper_net h now) issuer
          = (Some (CachedSet (helperAddr +:+ "/jwks")), Some issuer)).
  { unfold load_jwks. simpl JwksURI. by rewrite (fetch_keys h now k Hj). }
  simpl omap. rewrite Hwk. simpl omap. rewrite Hl. done.
Qed.

Lemma parse_auth_bearer tok :
  all_bytes visible tok = true →
  parse_auth ("Bearer " +:+ tok) = mkAuth "bearer" tok "" "".
Proof.
  intros Hv. unfold parse_auth.
  change ("Bearer " +:+ tok) with ("Bearer" +:+ " " +:+ tok).
  rewrite SplitN2_append by done. rewrite ToLower_ascii, TrimSpace_visible by done.
  cbn [Kind Token]. by rewrite EqualFold_ascii.
Qed.

Lemma scenario_keys (h : helper Alg) now k :
  json_Marshal [set_alg RS256 k] = Some (jwksJSON h) →
  issuer_keys (scenario_provider h now) 0 issuer = Done (Ok (Some [set_alg RS256 k])).
Proof.
  intros Hj. unfold issuer_keys, cache_Get. cbn [isLocalFile issuer].
  change (registered _ !! _) with (Some issuer). cbv iota beta.
  change (jwks_Get _ _) with (jwks_Get (helper_net h now) (helperAddr +:+ "/jwks")).
  rewrite (fetch_keys h now k Hj). cbv iota beta.
  by rewrite post_fetched_named by apply RS256_named.
Qed.

(** A token of the helper authenticates, and its claims reach the policy. *)
Lemma scenario_authenticates (h : helper Alg) now tok raw k k' r hd i :
  (now ≤ clock < now + 24 * 3600)%Z →
  FromRaw raw = Some k → FromRaw (public raw) = Some k' →
  privateJWK h = set_alg RS256 k → json_Marshal [set_alg RS256 k'] = Some (jwksJSON h) →
  jwt_Sign (issue now) (privateJWK h) = Ok tok →
  Auth (RequestPart i) = Some (mkAuth "bearer" tok "" "") →
  Authenticate r hd (i, scenario_provider h now)
  = (Done None, (set_JWT (claims (issue now)) i, scenario_provider h now)).
Proof.
  intros Hclock Hk Hk' Hp Hj Hs Ha. simpl. rewrite jwt_Authenticate_run.
  unfold jwt_token. rewrite Ha. simpl authKind. cbn [Kind Token]. rewrite EqualFold_refl.
  change (wellknownList (scenario_provider h now)) with [issuer].
  rewrite try_issuers_cons, (scenario_keys h now k' Hj).
  change (audiences (scenario_provider h now)) with [testAudience].
  cbn [try_audiences].
  change (parse_options (scenario_provider h now) (Some [set_alg RS256 k']) testAudience)
    with [WithKey (set_alg RS256 k'); WithValidate true; WithVerify true;
          WithAudience testAudience].
  rewrite Hp in Hs.
  rewrite (sign_verify (issue now) raw k k' tok testAudience Hk Hk' Hs); [done| |done].
  by left.
Qed.

(** *** Through the proxy *)

Lemma fetch_token (h : helper Alg) now tok :
  fetch h now (helperAddr +:+ "/token") = Some tok ↔ jwt_Sign (issue now) (privateJWK h) = Ok tok.
Proof.
  destruct (jwt_Sign (issue now) (privateJWK h)) as [signed|e] eqn:E.
  - rewrite (fetch_answer h now "/token" "text/plain" signed).
    + naive_solver.
    + change (token_handler h now = answer "text/plain" signed).
      unfold token_handler. by rewrite E.
  - split; [|done]. unfold fetch. rewrite cut_prefix_append. cbn [mbind option_bind].
    change (helper_mux h now "/token") with (token_handler h now). unfold token_handler.
    rewrite E. by vm_compute.
Qed.

(** The mounted path answers the proxy. *)
Lemma e2e_backend_ok srv r out :
  history srv → mounted_at srv "/e2e/jwt-allow" 200 "ok" → req_Path r = "/e2e/jwt-allow" →
  e2e_backend srv r out = BackendReply [] 200 ∅ "ok".
Proof.
  intros Hs (e & He & Hst & Hb) Hp. unfold e2e_backend. rewrite Hp.
  destruct (mounted_handler_run "/e2e/jwt-allow" e
    (mkE2eRequest (req_Method r) "/e2e/jwt-allow" "" out) (srv, fresh_response))
    as (srv' & E & _); [by apply history_coherent|done|].
  assert (Hserve : serve (mkE2eRequest (req_Method r) "/e2e/jwt-allow" "" out)
            (srv, fresh_response)
          = (Done Handled, (srv', mkResponse ∅ [] (Some (200%Z, ∅)) (-1) 2 "ok"))).
  { unfold serve. erewrite go_bind_done by reflexivity. cbv beta.
    cbn [er_Path fst]. rewrite He. change (cleanPath "/e2e/jwt-allow") with "/e2e/jwt-allow".
    rewrite String.eqb_refl. cbn [negb]. erewrite go_bind_done; [done|]. rewrite E, Hst.
    change (wanted e _) with (ep_body e). rewrite Hb. reflexivity. }
  by rewrite Hserve.
Qed.

Lemma clean_header_Authorization (h : Header) :
  clean_header h !! "Authorization" = h !! "Authorization".
Proof.
  unfold clean_header. rewrite map_lookup_filter.
  by destruct (h !! "Authorization").
Qed.

(** The decision on a request with an authorization header, and without one. *)
Lemma scenario_verdict p c r (w : World support jwt_policy) v :
  config p = Some c → authKey p = "Authorization" → header w !! "Authorization" = Some [v] →
  ∃ i r', Auth (RequestPart i) = Some (parse_auth v)
    ∧ verdict_of p r w
      = match Authenticate r' (clean_header (header w)) (i, provider w) with
        | (Panic _, _) => VCrash
        | (Done (Some e), _) => VReject (auth_status e)
        | (Done None, (i', _)) =>
            policy_verdict (Ok (VMap [("allow", VBool (policy_allows (JWT i')))]))
        end.
Proof.
  intros Hc Hk Hv. unfold verdict_of. rewrite Hc, Hk.
  destruct (NewInfo_Auth_single (cleaned_request p (header w) r) (clean_header (header w))
    "Authorization" (URLMetricsLevel c) v) as (i & -> & Ha);
    [by rewrite clean_header_Authorization|].
  eexists i, _. split; [done|]. reflexivity.
Qed.

Lemma scenario_anonymous p c r (w : World support jwt_policy) :
  config p = Some c → authKey p = "Authorization" → header w !! "Authorization" = None →
  verdict_of p r w = VReject 403.
Proof.
  intros Hc Hk Hv. unfold verdict_of. rewrite Hc, Hk. unfold NewInfo.
  rewrite lookup_fmap, clean_header_Authorization, Hv. reflexivity.
Qed.

(** C17: the JWT scenario works as composed: with the helper's documents the
    provider of the scenario's configuration starts; through it and the whole
    middleware chain a request to the mounted path that carries a token fetched
    from the helper, no older than its day of validity, is answered with the
    backend's 200 "ok", whatever the backend has served before; one whose token
    no key and audience verifies is refused with 401 or 503, and one without a
    token with 403, neither reaching the backend.  The 403 is the policy's: the
    provider lets a request without a token through as anonymous also in strict
    mode, where .specs/PRD-e2e-tests.md (6.1) expects a 401. *)
Theorem e2e_jwt_scenario rf listens srv0 srv (h : helper Alg) now tok p c chi_route
    labels_valid r (w : World support jwt_policy) :
  setup listens = Started (srv0, h) → later srv0 srv →
  fetch h now (helperAddr +:+ "/token") = Some tok → (now ≤ clock < now + 24 * 3600)%Z →
  config p = Some c → authKey p = "Authorization" → (∀ r, chi_route r = ToProxy) →
  req_Path r = "/e2e/jwt-allow" → server_header (header w) → response w = fresh_response →
  ∃ j, Jwt.New rf (helper_net h now) [well_known_url] "aud" [testAudience] "bearer" false
       = Started j
  ∧ (provider w = j →
     let w' := (mux (e2e_backend srv) chi_route labels_valid p ServerWriter r w).2 in
     (header w !! "Authorization" = Some ["Bearer " +:+ tok] →
        rw_sent (response w') = Some (200%Z, ∅) ∧ rw_body (response w') = "ok"
        ∧ length (backend_calls w') = S (length (backend_calls w)))
     ∧ (∀ bad, header w !! "Authorization" = Some ["Bearer " +:+ bad] →
          all_bytes visible bad = true → (∀ options v, jwt_Parse bad options ≠ Ok v) →
          (∃ code hd, rw_sent (response w') = Some (code, hd) ∧ (code = 401 ∨ code = 503)%Z)
          ∧ backend_calls w' = backend_calls w)
     ∧ (header w !! "Authorization" = None →
          (∃ hd, rw_sent (response w') = Some (403%Z, hd))
          ∧ backend_calls w' = backend_calls w)).
Proof.
  intros Hset Hlater Htok Hclock Hc Hk Hroute Hpath Hh Hw.
  apply setup_started in Hset as ((raw & k & k' & Hk1 & Hk2 & Hp & Hj) & Hhist & Hm).
  destruct (later_history srv0 srv _ _ _ Hhist Hm Hlater) as [Hhist' Hm'].
  apply fetch_token in Htok. exists (scenario_provider h now).
  split; [by eapply scenario_started|]. intros Hprov w'.
  pose proof (mux_implements (e2e_backend srv) chi_route labels_valid p r w Hroute Hh
    ltac:(by rewrite Hw)) as Himpl. fold w' in Himpl. split_and!.
  - intros Hauth. destruct (scenario_verdict p c r w _ Hc Hk Hauth) as (i & r' & Ha & Hv).
    rewrite parse_auth_bearer in Ha by (by eapply sign_visible).
    rewrite Hv, Hprov, (scenario_authenticates h now tok raw k k') in Himpl by done.
    change (policy_verdict _) with (VForward [("allow", VBool true)]) in Himpl.
    destruct Himpl as (r1 & (_ & Hp1 & _) & Hcalls & Hrel).
    rewrite e2e_backend_ok in Hrel by (try done; congruence). unfold relayed in Hrel.
    fold w' in Hcalls, Hrel. rewrite Hw in Hrel.
    destruct Hrel as (Hs & _ & Hb); [done|lia|]. rewrite Hcalls, length_app. simpl length.
    split; [exact Hs|]. split; [|lia]. apply Hb; [done|by left].
  - intros bad Hauth Hvis Hbad.
    destruct (scenario_verdict p c r w _ Hc Hk Hauth) as (i & r' & Ha & Hv).
    rewrite parse_auth_bearer in Ha by done.
    destruct (Authenticate r' (clean_header (header w)) (i, provider w)) as [o [i' j']] eqn:E.
    rewrite Hprov in E. simpl in E. rewrite jwt_Authenticate_run in E.
    unfold jwt_token in E. rewrite Ha in E. cbn [Kind Token] in E.
    change (authKind _) with "bearer" in E. rewrite EqualFold_refl in E.
    change (wellknownList _) with [issuer] in E. rewrite try_issuers_cons in E.
    assert (Hik : ∃ keys, issuer_keys (scenario_provider h now) 0 issuer = Done (Ok keys)).
    { exists (Some [set_alg RS256 k']). by apply scenario_keys. }
    destruct Hik as [keys Hik]. rewrite Hik in E.
    change (audiences _) with [testAudience] in E. cbn [try_audiences] in E.
    destruct (jwt_Parse bad _) as [v|e] eqn:Ep; [by destruct (Hbad _ v Ep)|].
    simpl in E. injection E as <- _ _. rewrite Hv in Himpl. destruct Himpl as ((hd & Hs) & Hcalls).
    split; [|exact Hcalls]. exists (auth_status (classify e)), hd. split; [exact Hs|].
    unfold classify. destruct (_ || _ || _)%bool; [by right|by left].
  - intros Hauth. rewrite (scenario_anonymous p c r w Hc Hk Hauth) in Himpl. exact Himpl.
Qed.
End scenario.

(** ** A concrete cryptography *)

Module Sample.
#[refine] Definition toy_jwk : Jwk string := {|
  Alg_String a := a;
  KeyAlgorithmFrom a := a;
  AddKey s l := if decide (l ∈ s) then s else s ++ [l]
|}.
Proof. intros s l. case_decide; auto. Defined.

(** One key pair and one token, the one issued at second 1000. *)
Definition expected (t : token) : bool :=
  String.eqb (tok_sub t) "e2e-test-user" && String.eqb (tok_iss t) helperAddr
  && (tok_iat t =? 1000)%Z && (tok_exp t =? 87400)%Z
  && match tok_aud t with [a] => String.eqb a testAudience | _ => false end
  && match tok_private t with
     | [(e, VStr a); (ro, VStrs [b])] =>
         String.eqb e "email" && String.eqb a "e2e@example.com"
         && String.eqb ro "roles" && String.eqb b "reader"
     | _ => false
     end.

Definition toy_crypto : HelperCrypto string := {|
  GenerateKey := Some "key";
  public raw := raw;
  FromRaw raw := Some (mkKey "" raw);
  json_Marshal ks :=
    match ks with
    | [k] => if String.eqb (Algorithm k) "RS256" && String.eqb (material k) "key"
             then Some "the-set" else None
    | _ => None
    end;
  jwt_Sign t k := if expected t && String.eqb (material k) "key" then Ok "a.b.c"
                  else Err (ErrMsg "sign")
|}.

Definition toy_jwt : Jwt string := {|
  jwt_Parse s options :=
    match options with
    | [WithKey k; WithValidate true; WithVerify true; WithAudience aud] =>
        if String.eqb s "a.b.c" && String.eqb (material k) "key" && String.eqb aud testAudience
        then Ok (claims (issue 1000)) else Err (ErrMsg "could not verify message")
    | _ => Err (ErrMsg "no key")
    end;
  jwk_Parse d := if String.eqb d "the-set" then Some [mkKey "RS256" "key"] else None;
  json_Unmarshal d :=
    if String.eqb d well_known_text then Some (helperAddr +:+ "/jwks", ["RS256"]) else None
|}.

Definition toy_url : UrlAuthority := {| valid_authority _ := true |}.

Lemma expected_issue t : expected t = true → t = issue 1000.
Proof.
  destruct t as [sub aud iss iat exp priv]. unfold expected. simpl. intros Ht. bool_prop.
  repeat (case_match; try done). bool_prop. by subst.
Qed.

Lemma toy_lawful :
  @LawfulCrypto string toy_jwk toy_jwt toy_crypto 2000.
Proof.
  split.
  - vm_compute. reflexivity.
  - intros ks d. simpl. destruct ks as [|[a m] []]; try done. simpl.
    destruct (String.eqb a "RS256" && String.eqb m "key") eqn:E; [|done].
    intros [= <-]. bool_prop. by subst.
  - done.
  - intros t k s. simpl. destruct (expected t && _); [|done]. by intros [= <-].
  - intros t raw k k' s aud [= <-] [= <-]. simpl.
    destruct (expected t && String.eqb raw "key") eqn:E; [|done]. intros [= <-].
    bool_prop. subst raw. apply expected_issue in H as ->. simpl.
    by intros ->%list_elem_of_singleton.
Qed.

Definition fields : Fields :=
  mkFields false false "e2e-tests/jwt/policies" "*.rego" "request.rego" ":18301" ":18303" ""
    "Authorization" "bearer" "http" "127.0.0.1" 18304 [well_known_url] [testAudience] "aud"
    false "" false false "$" "{" 0 10 30 90 120 10 30 90.

Definition proxy : Proxy :=
  mkProxy ":18301" "request.rego" "Authorization" "http://127.0.0.1:18304" (Some fields)
    (new_transport fields).
Definition request : Request := mkRequest "GET" "/e2e/jwt-allow" 0 None None.
Definition to_proxy (r : Request) : route := ToProxy.
Definition any_label (ls : labels) : bool := true.
Definition header : Header := {["Authorization" := ["Bearer a.b.c"]]}.
Definition the_helper : helper string := mkHelper (mkKey "RS256" "key") "the-set".

Lemma bearer_header_ok : server_header header.
Proof. intros k vs. unfold header. by intros [<- <-]%lookup_singleton_Some. Qed.
End Sample.

#[local] Existing Instance Sample.toy_jwk.
#[local] Existing Instance Sample.toy_jwt.
#[local] Existing Instance Sample.toy_crypto.
#[local] Existing Instance Sample.toy_url.
#[local] Existing Instance Sample.toy_lawful.

(** The backend as [setup] leaves it. *)
Local Abbreviation sample_backend :=
  (mkBackend
     (<["/e2e/jwt-allow" := Mounted (mkEndpoint 200 "ok" (newBodyCache "ok"))]>
        {["/health" := Health]}) ∅).

Lemma e2e_jwt_scenario_witness :
  let j := scenario_provider Sample.the_helper 1000 in
  let w := mkWorld [] Sample.header fresh_response newResponseTracker Metrics.New j
             mkJwtPolicy [] in
  let w' := (mux (e2e_backend sample_backend) Sample.to_proxy Sample.any_label Sample.proxy
               ServerWriter Sample.request w).2 in
  rw_sent (response w') = Some (200%Z, ∅) ∧ rw_body (response w') = "ok".
Proof.
  intros j w w'.
  destruct (e2e_jwt_scenario (Alg := string) 2000 (λ _, Err (ErrMsg "no file")) true sample_backend
    sample_backend Sample.the_helper 1000 "a.b.c" Sample.proxy Sample.fields
    Sample.to_proxy Sample.any_label Sample.request w) as (j' & Hj & Hrun).
  - vm_compute. reflexivity.
  - apply later_now.
  - vm_compute. reflexivity.
  - lia.
  - reflexivity.
  - reflexivity.
  - reflexivity.
  - reflexivity.
  - exact Sample.bearer_header_ok.
  - reflexivity.
  - assert (Hjj : j = j').
    { rewrite (scenario_started (Alg := string) 2000 _ Sample.the_helper 1000
        (mkKey "" "key")) in Hj by reflexivity.
      by injection Hj. }
    destruct (Hrun Hjj) as (Hok & _). destruct (Hok eq_refl) as (Hs & Hb & _).
    split; [exact Hs|exact Hb].
Defined.
