(* ===== verification/E2eHelpers.v ===== *)
(** * The helper programs of the end-to-end tests, from start to end

    e2e-tests/noauth/helpers and e2e-tests/jwt/helpers: their servers, the wait
    for the signal, and the shutdown.  The backend is an httptest.Server, whose
    [Close] waits for its requests without a deadline; the JWT helper's own
    server is given five seconds.  [next] is executable; a run is an
    [execution] of it.  Times are nanoseconds. *)

From S2P Require Import Prelude GoStrings GoValue GoServer Config Jwt E2eBackend E2eJwt.

(** ** State *)

(** Where [main] is. *)
Inductive point :=
| Waiting                                 (* for the signal *)
| ClosingHelper (deadline : Z)            (* in [helperServer.Shutdown] *)
| ClosingBackend                          (* in [backendServer.Close] *)
| Ended (code : Z).

(** [helper_server]: the JWT helper's, none in the other program. *)
Record program := mkProgram {
  clock : Z;
  backend : server;
  helper_server : option server;
  at_point : point
}.

Definition set_clock (t : Z) (p : program) : program :=
  mkProgram t (backend p) (helper_server p) (at_point p).
Definition set_backend (s : server) (p : program) : program :=
  mkProgram (clock p) s (helper_server p) (at_point p).
Definition set_helper (s : option server) (p : program) : program :=
  mkProgram (clock p) (backend p) s (at_point p).
Definition set_point (x : point) (p : program) : program :=
  mkProgram (clock p) (backend p) (helper_server p) x.

(** A server without any of net/http's limits. *)
Definition plain (addr : string) : http_Server := mkServer addr 0 0 0 0 0.

(** [httptest.Server.Start] serves at once on the listener it is given. *)
Definition started_backend (addr : string) : server := mkRunningServer (plain addr) Listening 0.

(** ** The two programs *)

(** main.go of noauth, after its set-up. *)
Definition noauth_main (listens : bool) (now : Z) : startup program :=
  noauth_setup listens ;;
  Started (mkProgram now (started_backend "127.0.0.1:18204") None Waiting).

(** main.go of jwt, after [setup]; the helper's server is still to listen. *)
Definition jwt_main `{Jwk Alg} `{!HelperCrypto Alg} (listens : bool) (now : Z) : startup program :=
  setup listens ;;
  Started (mkProgram now (started_backend "127.0.0.1:18304")
    (Some (new_server (plain "127.0.0.1:18305"))) Waiting).

Definition helper_grace : Z := 5 * second.

(** [bs.Close]. *)
Definition close_backend (p : program) : program :=
  set_point ClosingBackend (set_backend (begin_shutdown (backend p)) p).

(** The signal. *)
Definition on_signal (p : program) : program :=
  match helper_server p with
  | Some s =>
      set_point (ClosingHelper (clock p + helper_grace)) (set_helper (Some (begin_shutdown s)) p)
  | None => close_backend p
  end.

(** ** Steps *)

Inductive side := OnBackend | OnHelper.

Inductive event :=
| Binds (bound : bool)                    (* the helper's goroutine listens *)
| Accepts (w : side)
| Completes (w : side)
| Signalled
| CloseReturns                            (* the call [main] is in returns *)
| Elapses (d : Z).

Definition on_side (w : side) (f : server → option server) (p : program) : option program :=
  match w with
  | OnBackend => s ← f (backend p); Some (set_backend s p)
  | OnHelper => s ← helper_server p; s' ← f s; Some (set_helper (Some s') p)
  end.

Definition next (e : event) (p : program) : option program :=
  match at_point p with
  | Ended _ => None
  | pt =>
      match e with
      | Binds bound => on_side OnHelper (ListenAndServe bound) p
      | Accepts w => on_side w accept p
      | Completes w => on_side w complete p
      | Signalled => match pt with Waiting => Some (on_signal p) | _ => None end
      | CloseReturns =>
          match pt with
          | ClosingHelper d =>
              s ← helper_server p;
              if shutdown_returns s d (clock p) then Some (close_backend p) else None
          | ClosingBackend =>
              if (active (backend p) =? 0)%nat then Some (set_point (Ended 0) p) else None
          | _ => None
          end
      | Elapses d =>
          let t := (clock p + d)%Z in
          if (d <=? 0)%Z then None
          else match pt with
               | ClosingHelper deadline =>
                   if (t <=? deadline)%Z then Some (set_clock t p) else None
               | _ => Some (set_clock t p)
               end
      end
  end.

Definition helper_step (p : program) (e : event) (p' : program) : Prop := next e p = Some p'.

(** ** The end *)

(** What holds at each point of [main]. *)
Definition point_ok (p : program) : Prop :=
  match at_point p with
  | Waiting => state (backend p) = Listening
  | ClosingHelper d =>
      state (backend p) = Listening ∧ (clock p ≤ d ≤ clock p + helper_grace)%Z
      ∧ ∃ s, helper_server p = Some s ∧ state s = Stopped
  | ClosingBackend => state (backend p) = Stopped
  | Ended code => code = 0%Z ∧ state (backend p) = Stopped ∧ active (backend p) = 0%nat
  end.

(** What a server does by itself leaves a stopped one stopped, and one that
    listens listening. *)
Definition stays (f : server → option server) : Prop :=
  ∀ s s', f s = Some s' → state s = Listening ∨ state s = Stopped → state s' = state s.

Lemma stays_accept : stays accept.
Proof. intros [h st n] s'. unfold accept. simpl. by destruct st; intros [= <-]. Qed.

Lemma stays_complete : stays complete.
Proof. intros [h st [|n]] s'; [done|]. by intros [= <-]. Qed.

Lemma stays_listen b : stays (ListenAndServe b).
Proof. intros [h st n] s' Hs [Hst|Hst]; simpl in Hst; subst st;
  unfold ListenAndServe in Hs; simpl in Hs; by simplify_eq. Qed.

Lemma on_side_ok w f p p' :
  stays f → (∀ c, at_point p ≠ Ended c) → point_ok p → on_side w f p = Some p' → point_ok p'.
Proof.
  intros Hf He Hp Hs.
  assert (Hb : at_point p' = at_point p ∧ clock p' = clock p
    ∧ (state (backend p) = Listening ∨ state (backend p) = Stopped →
       state (backend p') = state (backend p))
    ∧ (∀ s, helper_server p = Some s → state s = Stopped →
       ∃ s', helper_server p' = Some s' ∧ state s' = Stopped)).
  { destruct w; unfold on_side in Hs; simplify_option_eq; split_and!; eauto.
    intros s Hs Hst. simplify_eq. eexists. split; [done|]. rewrite <- Hst. eapply Hf; eauto. }
  destruct Hb as (Ept & Ec & Hb & Hh). unfold point_ok in *. rewrite Ept, Ec.
  destruct (at_point p) as [|d| |code]; [| | |by destruct (He code)].
  - rewrite Hb; auto.
  - destruct Hp as (Hl & Hd & s & Hsrv & Hst). rewrite Hb; eauto.
  - rewrite Hb; auto.
Qed.

Lemma step_point_ok p e p' : helper_step p e p' → point_ok p → point_ok p'.
Proof.
  unfold helper_step, next. intros Hn Hp.
  destruct (at_point p) as [|d| |code] eqn:Ept; [..|done];
    assert (He : ∀ c, at_point p ≠ Ended c) by (intros c; by rewrite Ept);
    destruct e as [bound|w|w| | |d'];
    try (refine (on_side_ok _ _ _ _ _ He Hp Hn);
         first [apply stays_accept|apply stays_complete|apply stays_listen]);
    try done; unfold point_ok in *; rewrite Ept in Hp.
  - injection Hn as <-. unfold on_signal, close_backend. destruct (helper_server p); simpl; [|done].
    split_and!; [done|unfold helper_grace, second; lia..|by eexists].
  - destruct (d' <=? 0)%Z; [done|]. injection Hn as <-. simpl. by rewrite Ept.
  - destruct Hp as (Hl & Hd & s & Hs & Hst). rewrite Hs in Hn. simpl in Hn.
    destruct (shutdown_returns _ _ _); [|done]. by injection Hn as <-.
  - destruct (d' <=? 0)%Z eqn:Ed; [done|]. destruct (_ <=? d)%Z eqn:El; [|done].
    injection Hn as <-. simpl. rewrite Ept. bool_prop. destruct Hp as (? & ? & ?).
    split_and!; [done|lia..|done].
  - destruct (active (backend p) =? 0)%nat eqn:Ea; [|done]. injection Hn as <-. simpl.
    apply Nat.eqb_eq in Ea. done.
  - destruct (d' <=? 0)%Z; [done|]. injection Hn as <-. simpl. by rewrite Ept.
Qed.

(** The two programs, ready for the signal. *)
Definition starts (p : program) : Prop :=
  at_point p = Waiting ∧ state (backend p) = Listening.

Lemma noauth_main_starts listens now p : noauth_main listens now = Started p → starts p.
Proof. intros (b & _ & [= <-])%startup_bind_started. done. Qed.

Lemma jwt_main_starts `{Jwk Alg} `{!HelperCrypto Alg} listens now p :
  jwt_main listens now = Started p → starts p.
Proof. intros (b & _ & [= <-])%startup_bind_started. done. Qed.

(** A helper ends with status 0 and with every request to its backend answered. *)
Theorem helper_ends_served p es p' c :
  starts p → execution helper_step p es p' → at_point p' = Ended c →
  c = 0%Z ∧ state (backend p') = Stopped ∧ active (backend p') = 0%nat.
Proof.
  intros [Hw Hl] Hrun Hend.
  assert (Hok : point_ok p').
  { apply (execution_invariant helper_step point_ok) with (1 := step_point_ok) (2 := Hrun).
    unfold point_ok. by rewrite Hw. }
  unfold point_ok in Hok. by rewrite Hend in Hok.
Qed.

(** The clients of the backend leave: [n] completed requests. *)
Lemma drain_backend p n :
  (∀ c, at_point p ≠ Ended c) → active (backend p) = n →
  execution helper_step p (replicate n (Completes OnBackend))
    (set_backend (mkRunningServer (settings (backend p)) (state (backend p)) 0) p).
Proof.
  revert p. induction n as [|n IH]; intros p He Hn; simpl.
  { rewrite <- Hn. destruct p as [t [] h x]. constructor. }
  eapply execution_cons.
  - unfold helper_step, next. destruct (at_point p) eqn:Ept; [..|by destruct (He code)];
      unfold on_side, complete; rewrite Hn; reflexivity.
  - apply (IH (set_backend (mkRunningServer (settings (backend p)) (state (backend p)) n) p));
      [done|done].
Qed.

Lemma closing_backend_ends p :
  at_point p = ClosingBackend →
  ∃ es p', execution helper_step p es p' ∧ at_point p' = Ended 0 ∧ clock p' = clock p.
Proof.
  intros Hp. set (p1 := set_backend (mkRunningServer (settings (backend p)) (state (backend p)) 0) p).
  exists (replicate (active (backend p)) (Completes OnBackend) ++ [CloseReturns]),
    (set_point (Ended 0) p1). split_and!; [|done..].
  eapply execution_app; [apply drain_backend; [intros c; by rewrite Hp|done]|].
  eapply execution_cons; [|constructor]. unfold helper_step, next. simpl. by rewrite Hp.
Qed.

(** After the signal a helper ends as soon as the requests to its backend are
    answered: the JWT helper's own server holds it up for five seconds at most,
    whatever its clients do. *)
Theorem helper_ends p es p' :
  starts p → execution helper_step p es p' → at_point p' ≠ Waiting →
  ∃ es' p'' c, execution helper_step p' es' p'' ∧ at_point p'' = Ended c
    ∧ (clock p'' ≤ clock p' + helper_grace)%Z.
Proof.
  intros [Hw Hl] Hrun Hend.
  assert (Hok : point_ok p').
  { apply (execution_invariant helper_step point_ok) with (1 := step_point_ok) (2 := Hrun).
    unfold point_ok. by rewrite Hw. }
  unfold point_ok in Hok. destruct (at_point p') as [|d| |c] eqn:Ept; [done|..].
  - destruct Hok as (_ & Hd & s & Hs & _).
    assert (Hwait : ∃ es1, execution helper_step p' es1 (set_clock d p')).
    { destruct (decide (clock p' = d)) as [<-|Hne].
      - exists []. destruct p'. constructor.
      - exists [Elapses (d - clock p')]. eapply execution_cons; [|constructor].
        unfold helper_step, next. rewrite Ept.
        rewrite (proj2 (Z.leb_gt _ _)), (proj2 (Z.leb_le _ _)) by lia.
        repeat f_equal. lia. }
    destruct Hwait as [es1 H1].
    destruct (closing_backend_ends (close_backend (set_clock d p')) eq_refl)
      as (es2 & p2 & H2 & He & Hc).
    exists (es1 ++ CloseReturns :: es2), p2, 0%Z. split_and!; [|done|rewrite Hc; simpl; lia].
    eapply execution_app; [exact H1|]. eapply execution_cons; [|exact H2].
    unfold helper_step, next, shutdown_returns. simpl. rewrite Ept, Hs. simpl.
    by rewrite (proj2 (Z.leb_le d d)), orb_true_r by lia.
  - destruct (closing_backend_ends p' Ept) as (es2 & p2 & H2 & He & Hc).
    exists es2, p2, 0%Z. split_and!; [done..|]. rewrite Hc. unfold helper_grace, second. lia.
  - exists [], p', c. split_and!; [constructor|done|]. unfold helper_grace, second. lia.
Qed.
