(* ===== verification/Hashing.v ===== *)
(** * tests/hashing: the comparison of hash functions

    test-hash.go hashes generated credentials with maphash and with HMAC-SHA256,
    many times each.  What the two functions are given is a trace; their sums
    are thrown away and the times it prints are not modelled. *)

From stdpp Require Import pretty.
From S2P Require Import Prelude GoStrings Metrics BasicAuth.

Record user := mkUser { username : string; password : string }.

(** [users[i] = u]. *)
Definition generate (i : Z) : user :=
  mkUser ("user" +:+ Itoa i) ("password" +:+ Itoa i).

Definition store (i : Z) : go (list user) unit :=
  users ← go_get;
  if bool_decide (0 ≤ i < Z.of_nat (length users))%Z
  then go_put (<[Z.to_nat i := generate i]> users)
  else go_panic "runtime error: index out of range".

(** A negative length panics in [make]. *)
Definition generateData (n : Z) : outcome (list user) :=
  if (n <? 0)%Z then Panic "makeslice: len out of range"
  else let '(o, users) := go_iter store (seqZ 0 n) (replicate (Z.to_nat n) (mkUser "" "")) in
       match o with Done _ => Done users | Panic why => Panic why end.

(** One hash: the function with its key, and the text written to it. *)
Inductive hashed :=
| Maphash (text : string)
| HmacSha256 (key text : string).

(** The writes to one hash, in order. *)
Definition written (writes : list string) : string := foldl String.append "" writes.

Definition run_maphash (user pwd : string) : go (list hashed) unit :=
  go_modify (λ t, t ++ [Maphash (written [user; ":"; pwd])]).

Definition run_hmac_sha256 (user pwd : string) : go (list hashed) unit :=
  go_modify (λ t, t ++ [HmacSha256 "secret-key" (written [user +:+ ":" +:+ pwd])]).

Definition test (f : string → string → go (list hashed) unit) (data : list user)
    (repeats : Z) : go (list hashed) unit :=
  go_iter (λ _, go_iter (λ u, f (username u) (password u)) data) (seqZ 0 repeats).

Definition UserCount : Z := 100000.
Definition Repeats : Z := 100.

Definition main (userCount repeats : Z) : go (list hashed) unit :=
  data ← go_outcome (generateData userCount);
  test run_maphash data repeats ;;
  test run_hmac_sha256 data repeats.

(** ** What it measures *)

Lemma store_loop k n (done rest : list user) :
  length done = Z.to_nat k → (0 ≤ k)%Z → length rest = n →
  go_iter store (seqZ k (Z.of_nat n)) (done ++ rest)
  = (Done tt, done ++ map generate (seqZ k (Z.of_nat n))).
Proof.
  revert k done rest. induction n as [|n IH]; intros k done rest Hd Hk Hr.
  { destruct rest; [|done]. by rewrite seqZ_nil. }
  destruct rest as [|x rest]; [done|]. simpl in Hr.
  rewrite seqZ_cons by lia. replace (Z.pred (Z.of_nat (S n))) with (Z.of_nat n) by lia.
  cbn [go_iter map].
  assert (Hs : store k (done ++ x :: rest) = (Done tt, (done ++ [generate k]) ++ rest)).
  { unfold store. erewrite go_bind_done by reflexivity. cbv beta.
    rewrite bool_decide_eq_true_2 by (rewrite length_app; simpl; lia).
    unfold go_put. rewrite <- Hd, insert_app_r_alt, Nat.sub_diag by lia. simpl.
    by rewrite <- app_assoc. }
  erewrite go_bind_done by exact Hs. rewrite IH; [|rewrite length_app; simpl; lia|lia|lia].
  by rewrite <- app_assoc.
Qed.

(** The users are [user0], [user1], ..., and all different. *)
Lemma generateData_users n :
  (0 ≤ n)%Z →
  generateData n = Done (map generate (seqZ 0 n)) ∧ NoDup (map username (map generate (seqZ 0 n))).
Proof.
  intros Hn. split.
  - unfold generateData. rewrite (proj2 (Z.ltb_ge n 0)) by done.
    pose proof (store_loop 0 (Z.to_nat n) [] (replicate (Z.to_nat n) (mkUser "" ""))
      eq_refl ltac:(lia) (length_replicate _ _)) as E.
    rewrite Z2Nat.id in E by lia. cbn [app] in E. by rewrite E.
  - rewrite map_map. change (map ?f ?l) with (f <$> l).
    apply NoDup_fmap_2_strong; [|apply NoDup_seqZ].
    intros i j _ _ E. unfold generate in E. simpl in E. injection E as E.
    change (pretty i = pretty j) in E. by apply (inj pretty) in E.
Qed.

(** A test appends the same round of hashes for each repetition. *)
Lemma test_trace (f : string → string → go (list hashed) unit) (g : user → hashed) data repeats t :
  (∀ u t, f (username u) (password u) t = (Done tt, t ++ [g u])) →
  test f data repeats t
  = (Done tt, t ++ concat (replicate (Z.to_nat repeats) (map g data))).
Proof.
  intros Hf. unfold test.
  assert (Hround : ∀ t, go_iter (λ u, f (username u) (password u)) data t
    = (Done tt, t ++ map g data)).
  { induction data as [|u us IH]; intros t0; cbn [go_iter map]; [by rewrite app_nil_r|].
    erewrite go_bind_done by apply Hf. rewrite IH. by rewrite <- app_assoc. }
  assert (Hall : ∀ l : list Z, ∀ t, go_iter (λ _, go_iter (λ u, f (username u) (password u)) data) l t
    = (Done tt, t ++ concat (replicate (length l) (map g data)))).
  { induction l as [|i l IH]; intros t0; cbn [go_iter length replicate concat]; [by rewrite app_nil_r|].
    erewrite go_bind_done by apply Hround. rewrite IH. by rewrite <- app_assoc. }
  rewrite Hall. by rewrite length_seqZ.
Qed.

(** Both functions are measured on the text that the password cache hashes
    ([BasicAuth.cache_text]), for the same users, the same number of times. *)
Theorem benchmark_hashes_cache_text userCount repeats :
  (0 ≤ userCount)%Z →
  let users := map generate (seqZ 0 userCount) in
  let texts := map (λ u, cache_text (username u) (password u)) users in
  main userCount repeats []
  = (Done tt, concat (replicate (Z.to_nat repeats) (map Maphash texts))
              ++ concat (replicate (Z.to_nat repeats) (map (HmacSha256 "secret-key") texts))).
Proof.
  intros Hn users texts. unfold main. destruct (generateData_users userCount Hn) as [E _].
  unfold go_outcome. erewrite go_bind_done by (rewrite E; reflexivity). cbv beta. fold users.
  erewrite go_bind_done
    by (apply (test_trace _ (λ u, Maphash (cache_text (username u) (password u)))); intros u t;
        unfold run_maphash, written, cache_text; simpl; by rewrite <- append_assoc).
  rewrite (test_trace _ (λ u, HmacSha256 "secret-key" (cache_text (username u) (password u)))); [|done].
  unfold texts. by rewrite !map_map.
Qed.
